(* ===== verification/_CoqProject ===== *)
-Q . S2P
Prelude.v
Fmt.v
Machine.v
Context.v
Preempt.v
Stack.v
Eevdf.v
Fairness.v
RoundRobin.v
KeyRing.v
Scheduler.v
Sync.v
Guarded.v
Tasks.v
Interrupts.v
Kernel.v
Liveness.v
Locks.v
Alloc.v
LinkedList.v
FixedBlock.v
HeapMem.v
ListMem.v
BlockMem.v
Fs.v
MkCxfs.v
Ata.v
Disk.v
Memory.v
Vga.v
Doom.v
Syscall.v
CLib.v
CString.v
CFloat.v
CStdio.v
Spawn.v
Shell.v
Runtime.v
Cpu.v
CPrintf.v
DoomThread.v
DoomUnused.v
Boot.v
SelfTests.v
StackFault.v
Integration.v
Build.v
