(* ===== verification/Prelude.v ===== *)
(** * MoltOS: a verification library for the kernel

    MoltOS is a single-core x86-64 kernel in Rust that runs kernel threads, a small async
    executor with a shell, and Doom.  This library models the kernel's logic as executable
    definitions and proves what the parts promise to each other.

    ** How the parts interact

    A timer or keyboard interrupt enters an assembly stub that pushes all registers; the
    handler may ask the scheduler for another thread, saves the frame into the running
    thread's context and enters the new one.  Threads also give up the processor
    themselves, through [block_and_yield] or a contended [KMutex].  The scheduler's state
    is under an [IrqMutex].  The executor wakes tasks whose tick has come, the keyboard
    feeds the shell's scancode stream and Doom's key ring.  Threads, stacks and queues
    live on the heap, which is mapped at boot onto frames from the firmware map.  Doom
    reads its data through the CXFS archive, which is loaded from the ATA disk.
    [kernel_main] sets all of this up and enters the scheduler with one thread, the
    executor with the shell and a heartbeat task; the shell starts Doom in a second one.

    ** Files

    - Prelude: panics as the [outcome] monad, checked 64-bit arithmetic, indexing and
      slicing, disjoint address ranges, little-endian numbers, tactics and hints.
      Fmt: text, integers in print, words.
    - Machine: registers, flags, byte memory, the instructions the kernel's assembly
      uses, interrupt delivery and IRETQ, and the widths all of these keep.
    - Context (src/thread/context.rs): [ThreadContext] and its layout, the two assembly
      routines.  Preempt (src/interrupts.rs): the interrupt stubs, [IrqFrame], the saving
      part of [irq_preempt].  Stack (src/thread/stack.rs, thread.rs): stacks, canary,
      initial context, thread creation.
    - Eevdf, Fairness, RoundRobin (src/thread/schedulers/): the two policies; Scheduler
      (src/thread/scheduler.rs, mod.rs): the front end, [enter_scheduler] and
      [block_and_yield] on the machine, and the class [Dispatcher] that both policies
      implement.
    - Sync (src/sync.rs): Module [IrqMutex], a lock with interrupts as a step relation;
      Module [KMutex], the sleeping lock at the granularity of its atomic steps.  Guarded
      (src/sync.rs, tests/kmutex_concurrent.rs): threads that share data through its
      guards, access by access, and the machine with whole critical sections.
    - Tasks (src/task/): executor, [Sleep], the scancode stream.  KeyRing
      (src/ffi/mod.rs): key ring, scancode translation, [DG_GetKey].  Interrupts
      (src/interrupts.rs): the timer and keyboard handlers over all of these.
    - Kernel: the whole machine, a step relation on processor, kernel state and the places
      of the threads, in which threads run, are interrupted, preempted, yield and are
      spawned; each step is made of the definitions above.  Liveness: its executions, as
      the scheduler of Fairness sees them.  Locks: every lock of the
      kernel, as the nesting of locks and interrupt flag that each routine has, in a
      machine with threads, interrupts and preemption.
    - Alloc (src/allocator.rs, allocator/bump.rs): layouts, the class [HeapAllocator],
      the bump allocator; LinkedList and FixedBlock: the other two allocators, their free
      lists as lists of addresses.  HeapMem: the classes [HeapMemory], what an allocator
      writes, and [MemAllocator], an allocator whose lists are in memory; its clients, and
      byte arrays as their specification.  ListMem and BlockMem: the two list allocators
      with their nodes in the free memory itself, as instances of both.
      Memory (src/memory.rs, init_heap): frames, mapping, translation.
    - Fs (src/fs.rs, tools/mkcxfs.py): the archive reader and builder.  MkCxfs
      (tools/mkcxfs.py): the tool on the host's files.  Ata (src/ata.rs, fs::init): the
      disk driver on the class [Ports].  Disk: the class [AtaDisk] of devices that follow
      the ATA protocol, the driver on them, and the way from host files to open files.
    - Vga (src/vga_buffer.rs): the text console.  Doom (src/vga_mode13.rs,
      src/ffi/mod.rs): graphics mode, palette, frame and time callbacks.  Syscall
      (src/syscall.rs): system calls.
    - CLib, CString, CFloat, CStdio, CPrintf (src/ffi/stubs.c): the C library of the Doom
      engine: heap, strings and numbers, doubles, files as structures in that heap over
      the archive, formatted output and input.  DoomThread (src/ffi/mod.rs,
      src/ffi/stubs.c): the Doom thread, how it ends, and the engine's hooks.  DoomUnused
      (src/doom/mod.rs): an earlier form of the callbacks, which is not part of the crate.
    - Spawn (src/thread/thread.rs): threads whose stack and context come from the heap.
      Shell (src/task/shell.rs): line editing and the commands, over the class
      [KeyDecoder].  Runtime (src/task/executor.rs, src/main.rs): the executor's loop with
      the two boot tasks and interrupts at every point.  Cpu (src/gdt.rs, src/lib.rs,
      src/interrupts.rs, src/serial.rs): segments, interrupt table, exceptions,
      [moltos::init].  Boot (src/main.rs): [kernel_main], then [executor_entry], and the
      panic handler.
    - SelfTests (src/lib.rs and the test modules): the test runner and the unit tests as
      programs on the models, with the bodies that the switching tests jump to.
      StackFault (tests/stack_overflow.rs): the processor pushing its frames, and what
      becomes of a stack overflow in the test and in the kernel.  Integration (tests/): the integration tests in the same way, with boxes and a
      vector in the memory the heap hands out.
    - Build (build.rs): what the build script hands to the C compiler.

    ** What the theorems show

    - Switching (Context, Preempt, Stack, Scheduler): the assembly saves and restores
      what it must; a thread that yielded or was interrupted at any instruction continues
      as if nothing had happened; a new thread starts at its entry point; the machine
      state stays well typed throughout.
    - The machine (Kernel): over any execution, no thread is lost and what a thread sees of
      the machine changes by its own moves only; a timer interrupt can always be served;
      and while interrupts keep coming, every runnable thread has the processor again and
      again (Liveness).
    - Scheduling (Eevdf, Fairness, RoundRobin): the choice is the one the algorithm
      defines, contexts are saved into the right thread along any run, no runnable
      thread starves, no overflow within stated bounds; and, by evaluation, two ways in
      which the shares differ from what weights suggest.
    - Locks (Sync, Guarded): an interrupt handler never spins; the sleeping lock excludes
      and loses no wakeup; critical sections under it are atomic, so that the concurrent
      test never reports a failure; the one way the lock can get stuck, and that the
      concurrent test can reach it.
    - Locks across the kernel (Locks): nobody waits for a lock with interrupts disabled,
      whatever the threads do, except that creating a thread, and [KMutex::lock], allocate
      under the scheduler's lock; a schedule in which that stops the machine.
    - Interrupts and tasks: each handler acknowledges once and hands over correctly, a
      waiting scancode has its reader in the ready queue, sleepers wake exactly on time.
    - The running system (Cpu, Boot, Shell, Runtime): the processor is set up so that
      every vector has a handler; [kernel_main] ends in the executor thread; a turn of the
      executor terminates with nothing left to do; from power on, what is typed is what the
      shell's line and the screen show, whatever the interrupts; a command line is
      understood by its words.
    - Faults (StackFault): a stack overflow above a guard page ends in the double fault
      handler, on its own stack.
    - Memory: allocators hand out aligned, disjoint blocks in the heap, [realloc] keeps
      the contents, the heap is backed by frames of its own; the block allocator with its
      lists in memory behaves, to whoever uses it, like independent byte arrays.
    - From disk to file (Fs, MkCxfs, Ata, Disk): the driver reads what is on the disk, and
      what the host tool packed is what the kernel opens; what happens without a disk, on a
      small one, and to an archive that is cut off.
    - Data: key ring as a bounded queue, console as a terminal,
      palette loading, the C heap keeping a program's bytes and the kernel's, files as
      byte sequences with a cursor beside that heap, and a race on the system-call result.
    - Text in C (CString, CPrintf): comparisons order lexicographically, searches find the
      first match, [snprintf] stays in its buffer and prints what its format means as long
      as it fits, and never returns otherwise; numbers survive printing and reading, as
      integers and as doubles.
    - The kernel's own tests (SelfTests, Integration): all pass on the models but one,
      whose verdict depends on the order of the tests; the tests of the heap behave on any
      heap.
    - The build script (Build): which C files are compiled, and when it fails.

    ** Conventions, bounds and fuel

    The kernel is built with overflow checks, so an overflow, a failed index, [expect] or
    [assert!] is a value [Panic]; a theorem that an operation returns rules it out.
    A [u64] or [usize] is a [Z] with checked or wrapping operations written out.  Memory
    is a function from addresses to bytes.  Code of other crates ([ArrayQueue],
    [AtomicWaker], the page mapper, I/O devices) is an interface with documented laws,
    and each such interface has an instance that the examples use.  Loops over vectors
    are structural; the ATA polling loop takes the million reads the code allows, and a disk
    is taken to be busy for no longer than that; a walk through a free list in memory takes
    as fuel the number of regions, which [ma_fuel] bounds along a run; the
    executor loop and [DG_SleepMs] take fuel, and their theorems state the fuel at which
    they end.  [KMutex] runs are lists of events of any length, and its theorems are
    invariants over all of them.  In Runtime, up to 98 scancodes may arrive during one
    turn of the executor (the ready queue holds 100, and both tasks may be in it); with
    more, the kernel panics.  The clock stands still within a turn.  The shell's loop takes
    the number of scancodes waiting or arriving as fuel, and is proved to end within it.
    In the C library, loops take fuel that only has to exceed the length of the strings
    (64 digits and 512 bytes for [printf]); [None] is undefined behaviour or a loop that
    has not ended, and the theorems give a result.  In Kernel, a thread's code is any
    relation on its own registers and stack that leaves room below the stack pointer for
    an interrupt frame; besides its modelled stores, the Rust part of a handler may write
    anywhere but into the saved states of parked threads and the stack above its frame.
    In Locks, a routine is what it does to locks and to the interrupt flag; branches are
    taken either way and loops run any number of times.

    ** Not modelled

    The Doom engine itself and the crates the kernel uses, which are parameters.  The heap
    allocations behind the shell's strings, boxed futures and queues, which are counted
    only at boot, as one parameter of [kernel_main].  Functions with an empty body, such as
    the sound hooks of the C library and [DG_SetWindowTitle], and [rust_alloc] of
    src/doom/mod.rs, which has no value to return and does not compile.  The buffers of the
    schedulers' vectors in the integration tests.  The argument parsing of mkcxfs.py, which
    is argparse.  What is left of the source beyond this is imports, declarations and
    attributes, statics that only wrap what is modelled in a lock, and functions that only
    forward, such as [rust_uptime_ticks] and the panic handlers of the test builds. *)

From stdpp Require Export base tactics numbers list option sets.
From Stdlib Require Export ZArith Lia.
#[global] Open Scope Z_scope.

Declare Scope molt_scope.
Delimit Scope molt_scope with molt.

(** Facts that close the routine side conditions of the development. *)
Create HintDb molt.

(** ** Panics

    The kernel is built with the dev profile, so arithmetic overflow, an index
    out of range, a failed [expect], a failed [assert!] and a division by zero
    all end in the panic handler, which never returns. *)

Inductive panic :=
  | Overflow
  | DivByZero
  | IndexOutOfRange
  | ExpectFailed
  | AssertFailed
  | ExplicitPanic.

#[global] Instance panic_eq_dec : EqDecision panic.
Proof. solve_decision. Defined.

Inductive outcome (A : Type) :=
  | Ok (a : A)
  | Panic (p : panic).
Arguments Ok {A} a.
Arguments Panic {A} p.

#[global] Instance outcome_ret : MRet outcome := @Ok.
#[global] Instance outcome_bind : MBind outcome := fun A B f m =>
  match m with Ok a => f a | Panic p => Panic p end.

#[global] Instance outcome_fmap : FMap outcome := fun A B f m =>
  match m with Ok a => Ok (f a) | Panic p => Panic p end.

Definition returns {A} (m : outcome A) : Prop := exists a, m = Ok a.

Definition is_ok {A} (m : outcome A) : bool := match m with Ok _ => true | Panic _ => false end.

Definition assert_ (b : bool) : outcome unit :=
  if b then Ok tt else Panic AssertFailed.

Definition expect {A} (o : option A) : outcome A :=
  match o with Some a => Ok a | None => Panic ExpectFailed end.

(** Indexing of a slice or [Vec]: out of range panics. *)
Definition index {A} (l : list A) (i : nat) : outcome A :=
  match l !! i with Some a => Ok a | None => Panic IndexOutOfRange end.

Definition index_set {A} (l : list A) (i : nat) (a : A) : outcome (list A) :=
  if decide (i < length l)%nat then Ok (<[i := a]> l) else Panic IndexOutOfRange.

(** [&l[a..b]] *)
Definition slice {A} (l : list A) (a b : Z) : outcome (list A) :=
  if (0 <=? a) && (a <=? b) && (b <=? Z.of_nat (length l))
  then Ok (take (Z.to_nat (b - a)) (drop (Z.to_nat a) l))
  else Panic IndexOutOfRange.

Lemma bind_ok {A B} (m : outcome A) (f : A -> outcome B) b :
  (m ≫= f) = Ok b -> exists a, m = Ok a /\ f a = Ok b.
Proof. destruct m as [a|p]; cbn; intros H; [exists a; done|discriminate]. Qed.

Lemma fmap_ok {A B} (f : A -> B) (m : outcome A) b :
  f <$> m = Ok b -> exists a, m = Ok a /\ b = f a.
Proof. destruct m as [a|p]; cbn; [intros [= <-]; eauto|discriminate]. Qed.

Lemma ok_pair_inj {A B} (a c : A) (b d : B) : Ok (a, b) = Ok (c, d) -> a = c /\ b = d.
Proof. intros H. by inversion H. Qed.

Lemma assert_ok b u : assert_ b = Ok u -> b = true.
Proof. destruct b; done. Qed.

Lemma expect_ok {A} (o : option A) a : expect o = Ok a <-> o = Some a.
Proof. destruct o; cbn; split; congruence. Qed.

Lemma index_ok {A} (l : list A) i a : index l i = Ok a <-> l !! i = Some a.
Proof. unfold index. destruct (l !! i); split; congruence. Qed.

Lemma index_set_ok {A} (l l' : list A) i a :
  index_set l i a = Ok l' <-> (i < length l)%nat /\ l' = <[i := a]> l.
Proof. unfold index_set. case_decide; split; [by intros [= <-]|by intros [? ->]|done|lia]. Qed.

(** Invert a successful monadic computation into its successful parts. *)
Ltac inv_ok :=
  repeat match goal with
  | H : Ok _ = Ok _ |- _ => injection H as H; subst
  | H : mret _ = Ok _ |- _ => injection H as H; subst
  | H : Panic _ = Ok _ |- _ => discriminate H
  | H : Ok _ = Panic _ |- _ => discriminate H
  | H : (_ ≫= _) = Ok _ |- _ =>
      let x := fresh "v" in let E := fresh "E" in
      apply bind_ok in H; destruct H as (x & E & H)
  | H : assert_ _ = Ok _ |- _ => apply assert_ok in H
  | H : expect _ = Ok _ |- _ => apply expect_ok in H
  | H : index _ _ = Ok _ |- _ => apply index_ok in H
  | H : index_set _ _ _ = Ok _ |- _ => apply index_set_ok in H; first [destruct H as [? ->] | destruct H as [? H]]
  end.

(** ** Machine integers

    A [u64] or [usize] is a [Z] in [0, 2^64); each operation says what Rust does
    outside of that range. *)

Definition u64_max : Z := 18446744073709551615.
Definition u64_mod : Z := 18446744073709551616.

Definition is_u64 (z : Z) : Prop := 0 <= z <= u64_max.

Definition u64_add (a b : Z) : outcome Z :=
  if a + b <=? u64_max then Ok (a + b) else Panic Overflow.
Definition u64_sub (a b : Z) : outcome Z :=
  if b <=? a then Ok (a - b) else Panic Overflow.
Definition u64_mul (a b : Z) : outcome Z :=
  if a * b <=? u64_max then Ok (a * b) else Panic Overflow.
Definition u64_div (a b : Z) : outcome Z :=
  if b =? 0 then Panic DivByZero else Ok (a / b).

Definition saturating_add (a b : Z) : Z := Z.min u64_max (a + b).
Definition saturating_sub (a b : Z) : Z := Z.max 0 (a - b).
Definition checked_add (a b : Z) : option Z :=
  if a + b <=? u64_max then Some (a + b) else None.

(** Truncating conversions [x as uN] and wrapping 64-bit arithmetic. *)
Definition as_u8 (z : Z) : Z := z mod 256.
Definition as_u16 (z : Z) : Z := z mod 65536.
Definition as_u32 (z : Z) : Z := z mod 4294967296.
Definition wrap64 (z : Z) : Z := z mod u64_mod.

(** Bitwise complement of a 64-bit value. *)
Definition not64 (z : Z) : Z := Z.lxor z u64_max.

Infix "+!" := u64_add (at level 50, left associativity) : molt_scope.
Infix "-!" := u64_sub (at level 50, left associativity) : molt_scope.
Infix "*!" := u64_mul (at level 40, left associativity) : molt_scope.
Infix "/!" := u64_div (at level 40, left associativity) : molt_scope.
#[global] Open Scope molt_scope.

Lemma wrap64_u64 z : is_u64 (wrap64 z).
Proof. unfold is_u64, wrap64, u64_mod, u64_max. pose proof (Z.mod_pos_bound z 18446744073709551616 eq_refl). lia. Qed.

Lemma u64_add_ok a b c : a +! b = Ok c <-> c = a + b /\ a + b <= u64_max.
Proof. unfold u64_add. case_match; [|split; [done|lia]]. split; intros; [inv_ok; lia|f_equal; lia]. Qed.

Lemma u64_sub_ok a b c : a -! b = Ok c <-> c = a - b /\ b <= a.
Proof. unfold u64_sub. case_match; [|split; [done|lia]]. split; intros; [inv_ok; lia|f_equal; lia]. Qed.

Lemma u64_mul_ok a b c : a *! b = Ok c <-> c = a * b /\ a * b <= u64_max.
Proof. unfold u64_mul. case_match; [|split; [done|lia]]. split; intros; [inv_ok; lia|f_equal; lia]. Qed.

Lemma u64_div_ok a b c : a /! b = Ok c <-> c = a / b /\ b <> 0.
Proof. unfold u64_div. case_match; split; intros; try lia; inv_ok; try done; f_equal; lia. Qed.

Lemma u64_add_returns a b : a + b <= u64_max -> a +! b = Ok (a + b).
Proof. intros. by apply u64_add_ok. Qed.
Lemma u64_mul_returns a b : a * b <= u64_max -> a *! b = Ok (a * b).
Proof. intros. by apply u64_mul_ok. Qed.
Lemma u64_div_returns a b : b <> 0 -> a /! b = Ok (a / b).
Proof. intros. by apply u64_div_ok. Qed.

Lemma checked_add_some a b c : checked_add a b = Some c <-> c = a + b /\ a + b <= u64_max.
Proof. unfold checked_add. case_match; split; intros; simplify_eq; try lia; try done; f_equal; lia. Qed.

Ltac inv_arith :=
  inv_ok;
  repeat match goal with
  | H : u64_add _ _ = Ok _ |- _ => apply u64_add_ok in H; destruct H as [? H]; subst
  | H : u64_sub _ _ = Ok _ |- _ => apply u64_sub_ok in H; destruct H as [? H]; subst
  | H : u64_mul _ _ = Ok _ |- _ => apply u64_mul_ok in H; destruct H as [? H]; subst
  | H : u64_div _ _ = Ok _ |- _ => apply u64_div_ok in H; destruct H as [? H]; subst
  end.

(** ** Bit facts *)

Lemma u64_high_bit a n : is_u64 a -> 64 <= n -> Z.testbit a n = false.
Proof.
  intros [H0 H1] Hn. destruct (Z.eq_dec a 0) as [->|Hne]; [apply Z.bits_0|].
  apply Z.bits_above_log2; [done|].
  assert (Z.log2 a < 64); [|lia]. apply Z.log2_lt_pow2; [lia|].
  unfold u64_max in H1. change (2 ^ 64) with 18446744073709551616. lia.
Qed.

(** Clearing the low [k] bits rounds down to a multiple of [2 ^ k]. *)
Lemma land_not64_ones a k : is_u64 a -> 0 <= k ->
  Z.land a (not64 (2 ^ k - 1)) = a - a mod 2 ^ k.
Proof.
  intros Ha Hk. replace (2 ^ k - 1) with (Z.ones k) by (rewrite Z.ones_equiv; lia).
  transitivity (Z.ldiff a (Z.ones k)).
  - apply Z.bits_inj'. intros n Hn. unfold not64.
    rewrite Z.land_spec, Z.lxor_spec, Z.ldiff_spec.
    change u64_max with (Z.ones 64).
    destruct (Z.lt_ge_cases n 64) as [Hlt|Hge].
    + rewrite (Z.ones_spec_low 64) by lia. by rewrite xorb_true_r.
    + by rewrite (u64_high_bit a n) by done.
  - rewrite Z.ldiff_ones_r, Z.shiftl_mul_pow2, Z.shiftr_div_pow2 by done.
    pose proof (Z.div_mod a (2 ^ k)). pose proof (Z.pow_pos_nonneg 2 k). lia.
Qed.

(** ** Sums and minima of integer lists *)

Fixpoint Zsum (l : list Z) : Z :=
  match l with [] => 0 | x :: l => x + Zsum l end.

Lemma Zsum_app l k : Zsum (l ++ k) = Zsum l + Zsum k.
Proof. induction l as [|x l IH]; cbn in *; lia. Qed.

Lemma Zsum_nonneg l : Forall (Z.le 0) l -> 0 <= Zsum l.
Proof. induction 1; cbn in *; lia. Qed.

Lemma Zsum_elem l x : Forall (Z.le 0) l -> x ∈ l -> x <= Zsum l.
Proof.
  induction 1 as [|y l Hy Hl IH]; intros Hx; [by apply elem_of_nil in Hx|].
  apply Zsum_nonneg in Hl. apply elem_of_cons in Hx as [->|Hx]; cbn; [lia|].
  specialize (IH Hx). lia.
Qed.

(** [Iterator::sum] on [u64], with overflow checks. *)
Definition sum_u64 (l : list Z) : outcome Z :=
  foldl (fun acc x => a ← acc; a +! x) (Ok 0) l.

Lemma sum_u64_panic l p : foldl (fun acc x => a ← acc; a +! x) (Panic p) l = Panic p.
Proof. by induction l. Qed.

Lemma sum_u64_from l a : Forall (Z.le 0) l -> a <= u64_max ->
  foldl (fun acc x => a ← acc; a +! x) (Ok a) l
  = if a + Zsum l <=? u64_max then Ok (a + Zsum l) else Panic Overflow.
Proof.
  intros Hl. revert a. induction Hl as [|x l Hx Hl IH]; intros a Ha; cbn [foldl Zsum].
  - rewrite Z.add_0_r. by rewrite (proj2 (Z.leb_le _ _) Ha).
  - cbn [mbind outcome_bind]. pose proof (Zsum_nonneg l Hl). unfold u64_add at 2.
    case_match eqn:E.
    + rewrite IH by lia. by rewrite Z.add_assoc.
    + rewrite sum_u64_panic. by rewrite (proj2 (Z.leb_gt _ _)) by lia.
Qed.

Lemma sum_u64_ok l n : Forall (Z.le 0) l ->
  sum_u64 l = Ok n <-> n = Zsum l /\ Zsum l <= u64_max.
Proof.
  intros Hl. unfold sum_u64. rewrite sum_u64_from by (done || unfold u64_max; lia).
  rewrite Z.add_0_l. case_match eqn:E; split; intros H; try lia; try done.
  - injection H as <-. lia.
  - f_equal. lia.
Qed.

(** [Iterator::min] *)
Definition min_list (l : list Z) : option Z :=
  match l with [] => None | x :: l => Some (foldl Z.min x l) end.

Lemma foldl_min_spec l x :
  foldl Z.min x l ∈ x :: l /\ forall y, y ∈ x :: l -> foldl Z.min x l <= y.
Proof.
  revert x. induction l as [|z l IH]; intros x; cbn [foldl].
  - split; [by left|]. intros y Hy. apply list_elem_of_singleton in Hy. lia.
  - destruct (IH (Z.min x z)) as [Hin Hle]. split.
    + rewrite !elem_of_cons in *. destruct Hin as [->|]; [|tauto].
      destruct (Z.min_spec x z) as [[_ ->]|[_ ->]]; tauto.
    + intros y Hy. pose proof (Hle (Z.min x z) (list_elem_of_here _ _)).
      rewrite !elem_of_cons in Hy. destruct Hy as [->|[->|Hy]]; [lia..|].
      apply Hle. by right.
Qed.

Lemma min_list_spec l v : min_list l = Some v -> v ∈ l /\ forall y, y ∈ l -> v <= y.
Proof. destruct l as [|x l]; [done|]. intros [= <-]. apply foldl_min_spec. Qed.

Lemma min_list_None l : min_list l = None <-> l = [].
Proof. by destruct l. Qed.

Lemma Forall_filter {A} (P Q : A -> Prop) `{!forall x, Decision (Q x)} l :
  Forall P l -> Forall P (filter Q l).
Proof.
  rewrite !Forall_forall. intros Hl x Hx. apply list_elem_of_filter in Hx as [_ Hx]. auto.
Qed.

(** ** Address ranges *)

(** [n] bytes at [a] and [k] bytes at [b] that do not overlap. *)
Definition apart (a n b k : Z) : Prop := a + n <= b \/ b + k <= a.

(** A range as a pair of address and length. *)
Definition apart_r (x y : Z * Z) : Prop := apart (fst x) (snd x) (fst y) (snd y).

(** [x] lies inside of [y]. *)
Definition inside (x y : Z * Z) : Prop := fst y <= fst x /\ fst x + snd x <= fst y + snd y.

Fixpoint pairwise (l : list (Z * Z)) : Prop :=
  match l with [] => True | x :: l => Forall (apart_r x) l /\ pairwise l end.

Lemma apart_r_sym x y : apart_r x y -> apart_r y x.
Proof. unfold apart_r, apart. lia. Qed.

Lemma apart_inside x y z : inside x y -> apart_r y z -> apart_r x z.
Proof. unfold inside, apart_r, apart. lia. Qed.

Lemma pairwise_app l k :
  pairwise (l ++ k) <-> pairwise l /\ pairwise k /\ Forall (fun x => Forall (apart_r x) k) l.
Proof.
  induction l as [|x l IH]; cbn; [rewrite Forall_nil; tauto|].
  rewrite Forall_app, Forall_cons, IH. tauto.
Qed.

#[global] Instance pairwise_perm : Proper (Permutation ==> iff) pairwise.
Proof.
  intros l k H. induction H as [|x l k Hp IH|x y l|l1 l2 l3 _ IH1 _ IH2]; cbn; try done.
  - by rewrite IH, Hp.
  - rewrite !Forall_cons. split; intros ((H1 & H2) & H3 & H4); split_and!; auto using apart_r_sym.
  - by rewrite IH1.
Qed.

Lemma pairwise_inside x y l : inside x y -> pairwise (y :: l) -> pairwise (x :: l).
Proof.
  intros Hxy [Hy Hl]. split; [|done]. eapply Forall_impl; [exact Hy|]. intros z. by apply apart_inside.
Qed.

(** Shrinking every range keeps them disjoint. *)
Lemma pairwise_shrink {A} (f g : A -> Z * Z) l :
  Forall (fun x => inside (g x) (f x)) l -> pairwise (f <$> l) -> pairwise (g <$> l).
Proof.
  induction 1 as [|x l Hx Hl IH]; cbn; [done|]. intros [Hd Hp]. split; [|by apply IH].
  rewrite Forall_fmap, Forall_forall in *. intros y Hy. specialize (Hd y Hy). cbn in *.
  eapply apart_inside; [exact Hx|]. apply apart_r_sym. eapply apart_inside; [by apply Hl|].
  by apply apart_r_sym.
Qed.

#[global] Instance Zsum_perm : Proper (Permutation ==> eq) Zsum.
Proof. intros l k H. induction H; cbn; lia. Qed.

(** ** Little-endian words *)

(** [uN::from_le_bytes] *)
Fixpoint from_le (l : list Z) : Z :=
  match l with [] => 0 | b :: l => b + 256 * from_le l end.

(** The [n] little-endian bytes of [v]. *)
Fixpoint to_le (n : nat) (v : Z) : list Z :=
  match n with O => [] | S n => v mod 256 :: to_le n (v / 256) end.

Lemma length_to_le n v : length (to_le n v) = n.
Proof. revert v. induction n; intros; cbn; auto. Qed.

Lemma from_to_le n v : 0 <= v < 256 ^ Z.of_nat n -> from_le (to_le n v) = v.
Proof.
  revert v. induction n as [|n IH]; intros v Hv; cbn [to_le from_le]; [cbn in Hv; lia|].
  rewrite Nat2Z.inj_succ, Z.pow_succ_r in Hv by lia.
  rewrite IH; [pose proof (Z.div_mod v 256); lia|].
  split; [apply Z.div_pos; lia|apply Z.div_lt_upper_bound; lia].
Qed.

(** Slices of concatenations. *)
Lemma slice_app {A} (l1 l2 l3 : list A) a b :
  Z.of_nat (length l1) = a -> b = a + Z.of_nat (length l2) -> slice (l1 ++ l2 ++ l3) a b = Ok l2.
Proof.
  intros Ha ->. unfold slice. rewrite !length_app.
  rewrite (proj2 (Z.leb_le 0 a)), (proj2 (Z.leb_le a _)), (proj2 (Z.leb_le (a + _) _)) by lia. cbn [andb].
  f_equal. subst a. rewrite Nat2Z.id, drop_app_length.
  replace (Z.to_nat _) with (length l2) by lia. apply take_app_length.
Qed.

Lemma slice_app' {A} (l l1 l2 l3 : list A) a b :
  l = l1 ++ l2 ++ l3 -> Z.of_nat (length l1) = a -> b = a + Z.of_nat (length l2) -> slice l a b = Ok l2.
Proof. intros ->. apply slice_app. Qed.

Lemma slice_prefix {A} (l1 l2 : list A) b : b = Z.of_nat (length l1) -> slice (l1 ++ l2) 0 b = Ok l1.
Proof. intros ->. by apply (slice_app [] l1 l2). Qed.

(** ** Functions changed at one point *)

Definition upd {A B} `{EqDecision A} (f : A -> B) (a : A) (b : B) : A -> B :=
  fun x => if decide (x = a) then b else f x.

Lemma upd_eq {A B} `{EqDecision A} (f : A -> B) a b : upd f a b a = b.
Proof. unfold upd. by rewrite decide_True. Qed.
Lemma upd_ne {A B} `{EqDecision A} (f : A -> B) a b x : x <> a -> upd f a b x = f x.
Proof. intros. unfold upd. by rewrite decide_False. Qed.
