(* ===== verification/Fmt.v ===== *)
(** * Text (what the kernel uses of core::fmt and str)

    Strings are lists of bytes.  [str] reads a literal; integers are printed in decimal
    or hexadecimal with an optional width, as the format strings of the kernel ask for. *)

From Stdlib Require String Ascii.
From S2P Require Import Prelude.
Export String.StringSyntax.
#[global] Delimit Scope string_scope with string.

Fixpoint str (s : String.string) : list Z :=
  match s with
  | String.EmptyString => []
  | String.String c s => Z.of_nat (Ascii.nat_of_ascii c) :: str s
  end.
Arguments str _%_string.

Lemma str_bytes s : Forall (fun c => 0 <= c < 256) (str s).
Proof.
  induction s as [|c s IH]; [apply List.Forall_nil|]. apply List.Forall_cons; [|done].
  pose proof (Ascii.nat_ascii_bounded c). lia.
Qed.

(** ** Integers *)

Definition digit (d : Z) : Z := if d <? 10 then 48 + d else 87 + d.

(** The digits of [n], least significant divided off first, in front of [acc]. *)
Fixpoint digits_from (fuel : nat) (base n : Z) (acc : list Z) : list Z :=
  match fuel with
  | O => acc
  | S fuel =>
      let acc := digit (n mod base) :: acc in
      if n / base =? 0 then acc else digits_from fuel base (n / base) acc
  end.

(** 64 digits are enough for any 64-bit number in any base from 2 on. *)
Definition digits (base n : Z) : list Z := digits_from 64 base n [].

(** [{}] and [{:x}] *)
Definition fmt_dec (n : Z) : list Z := digits 10 n.
Definition fmt_hex (n : Z) : list Z := digits 16 n.

(** A minimum width: [{:0w..}] fills with zeros, [{:>w}] with spaces, on the left. *)
Definition pad_left (fill : Z) (width : nat) (s : list Z) : list Z :=
  replicate (width - length s) fill ++ s.

(** ** Reading numbers back *)

Definition digit_value (c : Z) : Z := if c <? 58 then c - 48 else c - 87.
Definition value_of (base : Z) (s : list Z) : Z := foldl (fun v c => v * base + digit_value c) 0 s.

Lemma digit_value_digit d : 0 <= d < 16 -> digit_value (digit d) = d.
Proof. intros Hd. unfold digit_value, digit. destruct (Z.ltb_spec d 10), (Z.ltb_spec (48 + d) 58), (Z.ltb_spec (87 + d) 58); lia. Qed.

Lemma value_of_snoc base s c : value_of base (s ++ [c]) = value_of base s * base + digit_value c.
Proof. unfold value_of. by rewrite foldl_app. Qed.

(** The digits are those of [n], and there are as many as its size requires. *)
Lemma digits_from_spec fuel base n acc : 2 <= base <= 16 -> 0 <= n < base ^ Z.of_nat fuel -> (0 < fuel)%nat ->
  exists s, digits_from fuel base n acc = s ++ acc /\ value_of base s = n /\ (1 <= length s <= fuel)%nat /\
    Forall (fun c => exists d, 0 <= d < base /\ c = digit d) s /\
    (n = 0 -> s = [48]) /\ (n <> 0 -> head s <> Some 48).
Proof.
  intros Hb. revert n acc. induction fuel as [|fuel IH]; intros n acc Hn Hf; [lia|]. cbn [digits_from].
  pose proof (Z.mod_pos_bound n base ltac:(lia)) as Hm.
  pose proof (Z.div_mod n base ltac:(lia)) as Hdm.
  assert (Hd48 : forall d, 0 <= d < base -> digit d = 48 -> d = 0).
  { intros d Hd. unfold digit. case_match; lia. }
  destruct (Z.eqb_spec (n / base) 0) as [H0|H0].
  - exists [digit (n mod base)]. split; [done|]. split; [|split; [cbn; lia|split; [|split]]].
    + unfold value_of. cbn. rewrite digit_value_digit by lia. lia.
    + constructor; [eauto|done].
    + intros ->. by rewrite Z.mod_0_l by lia.
    + intros Hn0 [= Hc]. apply Hd48 in Hc; lia.
  - assert (Hdiv : 0 <= n / base < base ^ Z.of_nat fuel).
    { rewrite Nat2Z.inj_succ, Z.pow_succ_r in Hn by lia. split; [apply Z.div_pos; lia|]. apply Z.div_lt_upper_bound; lia. }
    destruct fuel as [|fuel]; [cbn in Hdiv; lia|].
    destruct (IH (n / base) (digit (n mod base) :: acc) Hdiv ltac:(lia)) as (s & E & Hv & Hl & Hall & _ & Hhd).
    exists (s ++ [digit (n mod base)]). split_and!.
    + rewrite E. by rewrite <- app_assoc.
    + rewrite value_of_snoc, Hv, digit_value_digit by lia. lia.
    + rewrite length_app. cbn. lia.
    + rewrite length_app. cbn. lia.
    + apply Forall_app. split; [done|]. constructor; [eauto|done].
    + intros ->. by rewrite Z.div_0_l in H0 by lia.
    + intros _. destruct s as [|c s]; [cbn in Hl; lia|]. cbn. apply Hhd. lia.
Qed.

Lemma digits_spec base n : 2 <= base <= 16 -> 0 <= n <= u64_max ->
  value_of base (digits base n) = n /\ (1 <= length (digits base n) <= 64)%nat /\
  Forall (fun c => exists d, 0 <= d < base /\ c = digit d) (digits base n) /\
  (n = 0 -> digits base n = [48]) /\ (n <> 0 -> head (digits base n) <> Some 48).
Proof.
  intros Hb Hn. assert (Hlt : 2 ^ 64 <= base ^ 64) by (apply Z.pow_le_mono_l; lia).
  destruct (digits_from_spec 64 base n [] Hb) as (s & E & H).
  - change (Z.of_nat 64) with 64. unfold u64_max in Hn. change (2 ^ 64) with 18446744073709551616 in Hlt. lia.
  - lia.
  - unfold digits. rewrite E, app_nil_r. exact H.
Qed.

Lemma digits_from_length fuel base n acc k : 2 <= base -> 0 <= n < base ^ Z.of_nat k -> (0 < k)%nat ->
  (length (digits_from fuel base n acc) <= k + length acc)%nat.
Proof.
  intros Hb. revert n acc k. induction fuel as [|fuel IH]; intros n acc k Hn Hk; cbn [digits_from]; [lia|].
  destruct (Z.eqb_spec (n / base) 0) as [E|E]; [cbn; lia|].
  destruct k as [|[|k]]; [lia|rewrite Z.pow_1_r in Hn; by rewrite Z.div_small in E|].
  etrans; [apply (IH _ _ (S k)); [|lia]|cbn; lia]. rewrite Nat2Z.inj_succ, Z.pow_succ_r in Hn by lia.
  split; [apply Z.div_pos; lia|apply Z.div_lt_upper_bound; lia].
Qed.

(** ** Splitting *)

(** [char::is_ascii_whitespace], and the ASCII part of [char::is_whitespace]. *)
Definition is_ascii_whitespace (c : Z) : bool :=
  (c =? 32) || (c =? 9) || (c =? 10) || (c =? 12) || (c =? 13).
Definition is_whitespace (c : Z) : bool := (c =? 32) || ((9 <=? c) && (c <=? 13)).

Fixpoint drop_while (p : Z -> bool) (s : list Z) : list Z :=
  match s with
  | [] => []
  | c :: s' => if p c then drop_while p s' else s
  end.

(** [str::trim] *)
Definition trim (s : list Z) : list Z := rev (drop_while is_whitespace (rev (drop_while is_whitespace s))).

(** [str::split_ascii_whitespace]; [word] is what has been read of the current word. *)
Fixpoint split_from (word s : list Z) : list (list Z) :=
  match s with
  | [] => if decide (word = []) then [] else [word]
  | c :: s =>
      if is_ascii_whitespace c
      then if decide (word = []) then split_from [] s else word :: split_from [] s
      else split_from (word ++ [c]) s
  end.
Definition split_ascii_whitespace (s : list Z) : list (list Z) := split_from [] s.

(** [join] with one space. *)
Fixpoint join (ws : list (list Z)) : list Z :=
  match ws with
  | [] => []
  | [w] => w
  | w :: ws => w ++ 32 :: join ws
  end.

(** A word as the splitter produces it. *)
Definition is_word (w : list Z) : Prop := w <> [] /\ Forall (fun c => is_ascii_whitespace c = false) w.

(** Text without vertical tabs, on which the two notions of blank agree. *)
Definition plain (s : list Z) : Prop := Forall (fun c => c <> 11) s.

Lemma whitespace_agree c : c <> 11 -> is_whitespace c = is_ascii_whitespace c.
Proof.
  intros Hc. unfold is_whitespace, is_ascii_whitespace.
  destruct (Z.eqb_spec c 32), (Z.eqb_spec c 9), (Z.eqb_spec c 10), (Z.eqb_spec c 12), (Z.eqb_spec c 13),
    (Z.leb_spec 9 c), (Z.leb_spec c 13); cbn; lia || done.
Qed.

Lemma split_word w s : Forall (fun c => is_ascii_whitespace c = false) w ->
  forall word, split_from word (w ++ s) = split_from (word ++ w) s.
Proof.
  induction 1 as [|c w Hc _ IH]; intros word; cbn [split_from app]; [by rewrite app_nil_r|].
  rewrite Hc, IH. by rewrite <- app_assoc.
Qed.

Lemma split_from_words word s : Forall (fun c => is_ascii_whitespace c = false) word ->
  Forall is_word (split_from word s).
Proof.
  revert word. induction s as [|c s IH]; intros word Hw; cbn [split_from].
  - case_decide; repeat constructor; done.
  - destruct (is_ascii_whitespace c) eqn:Ec.
    + case_decide; [by apply IH|]. constructor; [done|by apply IH].
    + apply IH, Forall_app. by repeat constructor.
Qed.

(** Leading and trailing blanks do not change the words. *)
Lemma split_drop s : plain s -> split_ascii_whitespace (drop_while is_whitespace s) = split_ascii_whitespace s.
Proof.
  unfold split_ascii_whitespace. induction 1 as [|c s Hc _ IH]; [done|]. cbn [drop_while].
  destruct (is_whitespace c) eqn:E; [|done]. rewrite IH. cbn [split_from].
  rewrite whitespace_agree in E by done. rewrite E. by rewrite decide_True.
Qed.

Lemma split_snoc_blank c s : is_ascii_whitespace c = true -> forall word, split_from word (s ++ [c]) = split_from word s.
Proof.
  intros Hc. induction s as [|d s IH]; intros word; cbn [split_from app].
  - rewrite Hc. by case_decide; [rewrite decide_True|].
  - by rewrite !IH.
Qed.

Lemma split_drop_end s : plain s ->
  split_ascii_whitespace (rev (drop_while is_whitespace (rev s))) = split_ascii_whitespace s.
Proof.
  unfold plain. induction s as [|c s IH] using rev_ind; [done|]. intros [Hs Hc]%Forall_app.
  rewrite rev_app_distr. cbn [rev app drop_while]. destruct (is_whitespace c) eqn:E.
  - rewrite IH by done. unfold split_ascii_whitespace. rewrite split_snoc_blank; [done|].
    rewrite <- whitespace_agree; [done|]. by inv Hc.
  - cbn [rev]. by rewrite rev_involutive.
Qed.

Lemma plain_drop s : plain s -> plain (drop_while is_whitespace s).
Proof. induction 1 as [|c s Hc Hs IH]; [constructor|]. cbn. case_match; [done|by constructor]. Qed.

Lemma split_trim s : plain s -> split_ascii_whitespace (trim s) = split_ascii_whitespace s.
Proof. intros Hs. unfold trim. rewrite split_drop_end by by apply plain_drop. by apply split_drop. Qed.

(** The words joined split into the same words, and joining leaves nothing to trim. *)
Lemma split_join ws : Forall is_word ws -> split_ascii_whitespace (join ws) = ws.
Proof.
  unfold split_ascii_whitespace. induction 1 as [|w ws [Hne Hw] Hws IH]; [done|].
  destruct ws as [|w' ws]; cbn [join].
  - rewrite <- (app_nil_r w) at 1. rewrite split_word by done. cbn. by rewrite decide_False.
  - rewrite split_word by done. cbn [split_from]. change (is_ascii_whitespace 32) with true. cbn [app].
    rewrite decide_False by done. f_equal. exact IH.
Qed.

Lemma drop_while_head p s : (forall c, head s = Some c -> p c = false) -> drop_while p s = s.
Proof. intros H. destruct s as [|c s]; [done|]. cbn. by rewrite (H c). Qed.

Definition edges_solid (s : list Z) : Prop :=
  (forall c, head s = Some c -> is_whitespace c = false) /\ (forall c, last s = Some c -> is_whitespace c = false).

Lemma trim_solid s : edges_solid s -> trim s = s.
Proof.
  intros [Hh Hl]. unfold trim. rewrite (drop_while_head _ s Hh).
  rewrite drop_while_head; [by rewrite rev_involutive|].
  intros c. rewrite rev_alt. intros Hc. apply Hl. rewrite <- head_reverse. exact Hc.
Qed.

Lemma word_solid w c : is_word w -> plain w -> c ∈ w -> is_whitespace c = false.
Proof.
  intros [_ Hw] Hp Hc. rewrite whitespace_agree; [|by apply (proj1 (Forall_forall _ _) Hp)].
  by apply (proj1 (Forall_forall _ _) Hw).
Qed.

Lemma join_solid ws : Forall is_word ws -> Forall plain ws -> edges_solid (join ws).
Proof.
  intros Hw Hp. split.
  - intros c. destruct Hw as [|w ws [Hne Hw'] Hws]; [done|]. apply Forall_cons in Hp as [Hp _].
    intros Hc. apply (word_solid w); [done..|]. destruct w as [|d w]; [done|].
    destruct ws; cbn in Hc; injection Hc as ->; left.
  - intros c. induction Hw as [|w ws Hw Hws IH]; [done|]. apply Forall_cons in Hp as [Hp Hps].
    destruct ws as [|w' ws].
    + cbn. intros Hc. apply (word_solid w); [done..|]. by apply last_Some_elem_of.
    + change (join (w :: w' :: ws)) with (w ++ 32 :: join (w' :: ws)). rewrite last_app_cons, last_cons. intros Hc.
      destruct (last (join (w' :: ws))) as [d|] eqn:El; [injection Hc as ->; by apply IH|].
      apply last_None in El. exfalso. apply Forall_cons in Hws as [[Hne _] _]. by destruct w', ws.
Qed.

Lemma split_from_open c word s : split_from (c :: word) s <> [].
Proof.
  revert c word. induction s as [|d s IH]; intros c word; cbn [split_from]; [by rewrite decide_False|].
  case_match; [by rewrite decide_False|]. apply IH.
Qed.

(** A line without words is blank. *)
Lemma split_nil_trim s : plain s -> split_ascii_whitespace s = [] -> trim s = [].
Proof.
  intros Hp Hs. assert (Hd : drop_while is_whitespace s = []); [|unfold trim; by rewrite Hd].
  revert Hs. unfold split_ascii_whitespace. induction Hp as [|c s Hc Hp IH]; [done|]. cbn [split_from drop_while].
  rewrite (whitespace_agree c Hc). destruct (is_ascii_whitespace c); [by rewrite decide_True|].
  intros Hs. by apply split_from_open in Hs.
Qed.

Lemma split_plain s : plain s -> Forall plain (split_ascii_whitespace s).
Proof.
  intros Hs. unfold split_ascii_whitespace. enough (H : forall word, plain word -> Forall plain (split_from word s)).
  { apply H. constructor. }
  induction Hs as [|c s Hc Hs IH]; intros word Hw; cbn [split_from].
  - case_decide; [constructor|by apply Forall_singleton].
  - case_match; [case_decide; [|constructor; [done|]]; apply IH; constructor|].
    apply IH. apply Forall_app. split; [done|by apply Forall_singleton].
Qed.
