(* ===== verification/Machine.v ===== *)
(** * The processor the kernel's assembly runs on

    The fragment of x86_64 that the naked functions of src/thread/context.rs and
    src/interrupts.rs use: general registers, RFLAGS, a byte memory, the
    instructions of those functions, and interrupt delivery and return at
    privilege level 0.  Nothing here models code of the repository; the assembly
    blocks themselves are in [Context] and [Interrupts]. *)

From S2P Require Import Prelude.

Create HintDb typing.

(** ** Registers *)

Inductive reg :=
  | RAX | RCX | RDX | RBX | RSP | RBP | RSI | RDI
  | R8 | R9 | R10 | R11 | R12 | R13 | R14 | R15.

#[global] Instance reg_eq_dec : EqDecision reg.
Proof. solve_decision. Defined.

Definition regfile := reg -> Z.

Definition set_reg (r : reg) (v : Z) (f : regfile) : regfile :=
  fun r' => if decide (r = r') then v else f r'.

(** ** Memory: bytes, with little-endian 64-bit accesses *)

Definition memory := Z -> Z.

Fixpoint load_le (n : nat) (m : memory) (a : Z) : Z :=
  match n with
  | O => 0
  | S n => m a mod 256 + 256 * load_le n m (a + 1)
  end.

Definition load64 (m : memory) (a : Z) : Z := load_le 8 m a.

Definition store64 (m : memory) (a v : Z) : memory := fun x =>
  if (a <=? x) && (x <? a + 8) then (v / 2 ^ (8 * (x - a))) mod 256 else m x.

#[global] Arguments load64 : simpl never.
#[global] Arguments store64 : simpl never.

(** Consecutive 64-bit stores. *)
Fixpoint store_words (m : memory) (a : Z) (vs : list Z) : memory :=
  match vs with
  | [] => m
  | v :: vs => store_words (store64 m a v) (a + 8) vs
  end.

(** [m] and [m'] agree on the half-open range [lo, hi). *)
Definition mem_agree (lo hi : Z) (m m' : memory) : Prop :=
  forall x, lo <= x < hi -> m x = m' x.

(** ** RFLAGS *)

Definition IF_BIT : Z := 9.
(** The flags POPFQ writes at privilege level 0. *)
Definition POPF_MASK : Z := 0x247FD5.
Definition RF_MASK : Z := 0x10000.
(** IRETQ at privilege level 0 also loads RF, VIF and VIP. *)
Definition IRET_MASK : Z := 0x3D7FD5.
(** The image PUSHFQ stores: VM and RF read as zero. *)
Definition PUSHF_IMAGE : Z := 0xFCFFFF.
(** Interrupt delivery through an interrupt gate clears TF, IF, NT and RF. *)
Definition GATE_CLEAR : Z := 0x14300.

Definition load_flags (mask cleared old v : Z) : Z :=
  Z.lor (Z.land old (Z.lnot (Z.lor mask cleared))) (Z.land v mask).

(** Flags a kernel thread runs with: the writable ones and reserved bit 1. *)
Definition flags_ok (f : Z) : Prop := Z.land f (Z.lnot POPF_MASK) = 2.

Definition interrupts_on (f : Z) : bool := Z.testbit f IF_BIT.

(** ** Processor state and instructions *)

Record cpu := mk_cpu {
  regs : regfile;
  pc : Z;
  flags : Z;
  cs : Z;
  ss : Z;
  mem : memory;
}.

Inductive instr :=
  | MovRR (d s : reg)
  | MovRM (d b : reg) (off : Z)
  | MovMR (b : reg) (off : Z) (s : reg)
  | PushR (r : reg)
  | PopR (r : reg)
  | PushM (b : reg) (off : Z)
  | PopM (b : reg) (off : Z)
  | Pushfq
  | Popfq
  | BtrM (b : reg) (off bit : Z)
  | Cli
  | Sti
  | Ret
  | Iretq.

Definition ea (s : cpu) (b : reg) (off : Z) : Z := wrap64 (regs s b + off).

Definition with_regs (s : cpu) (f : regfile) : cpu :=
  mk_cpu f (pc s) (flags s) (cs s) (ss s) (mem s).
Definition with_mem (s : cpu) (m : memory) : cpu :=
  mk_cpu (regs s) (pc s) (flags s) (cs s) (ss s) m.
Definition with_flags (s : cpu) (f : Z) : cpu :=
  mk_cpu (regs s) (pc s) f (cs s) (ss s) (mem s).
Definition with_pc (s : cpu) (p : Z) : cpu :=
  mk_cpu (regs s) p (flags s) (cs s) (ss s) (mem s).

Definition push (v : Z) (s : cpu) : cpu :=
  let sp := wrap64 (regs s RSP - 8) in
  mk_cpu (set_reg RSP sp (regs s)) (pc s) (flags s) (cs s) (ss s) (store64 (mem s) sp v).

Definition top_of_stack (s : cpu) : Z := load64 (mem s) (regs s RSP).
Definition drop_stack (s : cpu) : cpu :=
  with_regs s (set_reg RSP (wrap64 (regs s RSP + 8)) (regs s)).

Definition exec (i : instr) (s : cpu) : cpu :=
  match i with
  | MovRR d r => with_regs s (set_reg d (regs s r) (regs s))
  | MovRM d b off => with_regs s (set_reg d (load64 (mem s) (ea s b off)) (regs s))
  | MovMR b off r => with_mem s (store64 (mem s) (ea s b off) (regs s r))
  | PushR r => push (regs s r) s
  | PopR r => let v := top_of_stack s in
              let s' := drop_stack s in
              with_regs s' (set_reg r v (regs s'))
  | PushM b off => push (load64 (mem s) (ea s b off)) s
  | PopM b off => let v := top_of_stack s in
                  let s' := drop_stack s in
                  with_mem s' (store64 (mem s') (ea s' b off) v)
  | Pushfq => push (Z.land (flags s) PUSHF_IMAGE) s
  | Popfq => let v := top_of_stack s in
             let s' := drop_stack s in
             with_flags s' (load_flags POPF_MASK RF_MASK (flags s') v)
  | BtrM b off bit =>
      let a := ea s b off in
      let v := load64 (mem s) a in
      let s' := with_mem s (store64 (mem s) a (Z.clearbit v bit)) in
      with_flags s' (if Z.testbit v bit then Z.setbit (flags s) 0 else Z.clearbit (flags s) 0)
  | Cli => with_flags s (Z.clearbit (flags s) IF_BIT)
  | Sti => with_flags s (Z.setbit (flags s) IF_BIT)
  | Ret => let v := top_of_stack s in with_pc (drop_stack s) v
  | Iretq =>
      let sp := regs s RSP in
      let m := mem s in
      mk_cpu (set_reg RSP (load64 m (wrap64 (sp + 24))) (regs s))
             (load64 m sp)
             (load_flags IRET_MASK 0 (flags s) (load64 m (wrap64 (sp + 16))))
             (load64 m (wrap64 (sp + 8)))
             (load64 m (wrap64 (sp + 32)))
             m
  end.

Definition exec_block (code : list instr) (s : cpu) : cpu :=
  fold_left (fun s i => exec i s) code s.

(** Interrupt delivery in 64-bit mode without a stack switch: align the stack
    pointer down to 16, push SS, RSP, RFLAGS, CS and RIP, mask the flags. *)
Definition deliver_interrupt (handler : Z) (s : cpu) : cpu :=
  let sp := regs s RSP in
  let aligned := with_regs s (set_reg RSP (Z.land sp (not64 15)) (regs s)) in
  let pushed := push (pc s) (push (cs s) (push (flags s) (push sp (push (ss s) aligned)))) in
  with_pc (with_flags pushed (Z.land (flags s) (Z.lnot GATE_CLEAR))) handler.

(** ** Lemmas on memory *)

Lemma load_le_range n m a : 0 <= load_le n m a < 256 ^ Z.of_nat n.
Proof.
  revert a. induction n as [|n IH]; intros a; [done|].
  cbn [load_le]. specialize (IH (a + 1)).
  pose proof (Z.mod_pos_bound (m a) 256 eq_refl).
  rewrite Nat2Z.inj_succ, Z.pow_succ_r by lia. lia.
Qed.

Lemma load64_range m a : 0 <= load64 m a <= u64_max.
Proof. pose proof (load_le_range 8 m a). unfold load64, u64_max. change (256 ^ Z.of_nat 8) with 18446744073709551616 in H. lia. Qed.

Lemma load_le_ext n m m' a :
  mem_agree a (a + Z.of_nat n) m m' -> load_le n m a = load_le n m' a.
Proof.
  revert a. induction n as [|n IH]; intros a H; [done|]. cbn [load_le].
  rewrite (H a) by lia. rewrite (IH (a + 1)); [done|].
  intros x Hx. apply H. lia.
Qed.

Lemma load64_agree m m' lo hi a :
  mem_agree lo hi m m' -> lo <= a -> a + 8 <= hi -> load64 m a = load64 m' a.
Proof. intros H ? ?. apply load_le_ext. intros x Hx. apply H. lia. Qed.

Lemma load_le_bytes n m a v (k : Z) : 0 <= k ->
  (forall x, a <= x < a + Z.of_nat n -> m x = (v / 2 ^ (8 * (x - a + k))) mod 256) ->
  load_le n m a = (v / 256 ^ k) mod 256 ^ Z.of_nat n.
Proof.
  revert a k. induction n as [|n IH]; intros a k Hk H.
  - cbn. by rewrite Z.mod_1_r.
  - cbn [load_le]. rewrite (H a) by lia.
    rewrite (IH (a + 1) (k + 1)); [|lia|].
    2: { intros x Hx. rewrite H by lia. do 4 f_equal. lia. }
    rewrite Nat2Z.inj_succ, Z.pow_succ_r by lia.
    rewrite Z.rem_mul_r by (try apply Z.pow_nonzero; try apply Z.pow_pos_nonneg; lia).
    rewrite Z.pow_add_r by lia. rewrite <- Z.div_div by (try apply Z.pow_nonzero; lia).
    change (256 ^ 1) with 256. rewrite Z.mod_mod by lia.
    replace (2 ^ (8 * (a - a + k))) with (256 ^ k); [done|].
    change 256 with (2 ^ 8). rewrite <- Z.pow_mul_r by lia. f_equal. lia.
Qed.

Lemma load64_store64_eq m a v : load64 (store64 m a v) a = wrap64 v.
Proof.
  unfold load64. rewrite (load_le_bytes 8 _ a v 0) by (try lia;
    intros x Hx; unfold store64;
    rewrite (proj2 (Z.leb_le a x)), (proj2 (Z.ltb_lt x (a + 8))) by lia; cbn;
    do 4 f_equal; lia).
  by rewrite Z.pow_0_r, Z.div_1_r.
Qed.

Lemma load64_store64_at m a b v : a = b -> load64 (store64 m a v) b = wrap64 v.
Proof. intros ->. apply load64_store64_eq. Qed.

Lemma wrap64_small v : is_u64 v -> wrap64 v = v.
Proof. unfold is_u64, wrap64, u64_max, u64_mod. intros. apply Z.mod_small. lia. Qed.

Lemma wrap64_sub_l a b : wrap64 (wrap64 a - b) = wrap64 (a - b).
Proof. apply Zminus_mod_idemp_l. Qed.

Lemma wrap64_add_l a b : wrap64 (wrap64 a + b) = wrap64 (a + b).
Proof. apply Zplus_mod_idemp_l. Qed.

Lemma load64_wrap m a : wrap64 (load64 m a) = load64 m a.
Proof. apply wrap64_small, load64_range. Qed.

Lemma store64_outside m a v x : x < a \/ a + 8 <= x -> store64 m a v x = m x.
Proof. intros H. unfold store64. case_match eqn:E; [|done]. apply andb_true_iff in E. lia. Qed.

Lemma load64_store64_ne m a v b :
  a + 8 <= b \/ b + 8 <= a -> load64 (store64 m a v) b = load64 m b.
Proof. intros H. apply load_le_ext. intros x Hx. apply store64_outside. lia. Qed.

Lemma store_words_outside m a vs x :
  x < a \/ a + 8 * Z.of_nat (length vs) <= x -> store_words m a vs x = m x.
Proof.
  revert m a. induction vs as [|v vs IH]; intros m a H; [done|]. cbn [store_words length] in *.
  rewrite IH by lia. by rewrite store64_outside by lia.
Qed.

Lemma load64_store_words m a vs i v :
  vs !! i = Some v -> load64 (store_words m a vs) (a + 8 * Z.of_nat i) = wrap64 v.
Proof.
  revert m a i. induction vs as [|w vs IH]; intros m a i H; [done|].
  destruct i as [|i]; cbn [store_words] in *.
  - injection H as ->. rewrite Z.add_0_r, <- (load64_store64_eq m a v).
    apply load_le_ext. intros x Hx. apply store_words_outside. lia.
  - replace (a + 8 * Z.of_nat (S i)) with (a + 8 + 8 * Z.of_nat i) by lia. by apply IH.
Qed.

Lemma mem_agree_refl lo hi m : mem_agree lo hi m m.
Proof. done. Qed.

Lemma mem_agree_trans lo hi m1 m2 m3 :
  mem_agree lo hi m1 m2 -> mem_agree lo hi m2 m3 -> mem_agree lo hi m1 m3.
Proof. intros H1 H2 x Hx. rewrite H1 by done. by apply H2. Qed.

Lemma mem_agree_sub lo hi lo' hi' m m' :
  mem_agree lo hi m m' -> lo <= lo' -> hi' <= hi -> mem_agree lo' hi' m m'.
Proof. intros H ? ? x Hx. apply H. lia. Qed.

Lemma mem_agree_store lo hi m m' a v :
  mem_agree lo hi m m' -> hi <= a \/ a + 8 <= lo -> mem_agree lo hi m (store64 m' a v).
Proof. intros H ? x Hx. rewrite store64_outside by lia. by apply H. Qed.

#[global] Hint Resolve mem_agree_refl mem_agree_store : molt.

(** ** Lemmas on flags *)

Lemma flags_ok_bit f n : flags_ok f -> 0 <= n ->
  Z.testbit POPF_MASK n = false -> Z.testbit f n = Z.testbit 2 n.
Proof.
  unfold flags_ok. intros H Hn Hm.
  rewrite <- H, Z.land_spec, Z.lnot_spec, Hm by done. cbn. by rewrite andb_true_r.
Qed.

(** Restoring saved flags with IF cleared and then enabling interrupts gives the
    saved flags with IF set. *)
Lemma restore_flags cur saved :
  flags_ok cur -> flags_ok saved ->
  Z.setbit (load_flags POPF_MASK RF_MASK cur (Z.clearbit saved IF_BIT)) IF_BIT
  = Z.setbit saved IF_BIT.
Proof.
  intros Hc Hs. apply Z.bits_inj'. intros n Hn.
  rewrite !Z.setbit_eqb by (unfold IF_BIT; lia).
  destruct (Z.eqb_spec IF_BIT n) as [|Hne]; [done|]. cbn [orb].
  unfold load_flags. rewrite Z.lor_spec, !Z.land_spec, Z.lnot_spec, Z.lor_spec, Z.clearbit_eqb by (unfold IF_BIT; lia).
  rewrite (proj2 (Z.eqb_neq IF_BIT n)) by done. cbn [negb].
  rewrite !andb_true_r.
  destruct (Z.testbit POPF_MASK n) eqn:Em.
  - cbn. by rewrite andb_false_r, andb_true_r.
  - rewrite (flags_ok_bit cur), (flags_ok_bit saved) by done.
    rewrite andb_false_r, orb_false_r. cbn [orb].
    destruct (Z.testbit RF_MASK n) eqn:Er; [|by rewrite andb_true_r].
    assert (n = 16) as ->; [|done].
    change RF_MASK with (2 ^ 16) in Er. rewrite Z.pow2_bits_eqb in Er by lia. lia.
Qed.

Lemma setbit_noop f : interrupts_on f = true -> Z.setbit f IF_BIT = f.
Proof.
  unfold interrupts_on. intros H. apply Z.bits_inj'. intros n Hn.
  rewrite Z.setbit_eqb by (unfold IF_BIT; lia).
  destruct (Z.eqb_spec IF_BIT n) as [<-|]; [by rewrite H|done].
Qed.

Lemma set_reg_eq r v f : set_reg r v f r = v.
Proof. unfold set_reg. by rewrite decide_True. Qed.

Lemma set_reg_ne r r' v f : r <> r' -> set_reg r v f r' = f r'.
Proof. intros. unfold set_reg. by rewrite decide_False. Qed.

(** ** 32-bit stores *)

Definition store32 (m : memory) (a v : Z) : memory :=
  fun x => if (a <=? x) && (x <? a + 4) then (v / 2 ^ (8 * (x - a))) mod 256 else m x.
Definition load32 (m : memory) (a : Z) : Z := load_le 4 m a.

Lemma load32_store32 m a v : load32 (store32 m a v) a = as_u32 v.
Proof.
  unfold load32, store32. cbn [load_le].
  repeat match goal with |- context [if ?b then _ else _] => replace b with true by lia end.
  replace (a - a) with 0 by lia. replace (a + 1 - a) with 1 by lia.
  replace (a + 1 + 1 - a) with 2 by lia. replace (a + 1 + 1 + 1 - a) with 3 by lia.
  cbn [Z.mul Pos.mul]. change (2 ^ 0) with 1. change (2 ^ 8) with 256. change (2 ^ 16) with 65536. change (2 ^ 24) with 16777216.
  rewrite !Zmod_mod. unfold as_u32. Z.div_mod_to_equations. lia.
Qed.

Lemma store32_other m a v x : x < a \/ a + 4 <= x -> store32 m a v x = m x.
Proof. intros H. unfold store32. by replace ((a <=? x) && (x <? a + 4)) with false by lia. Qed.

(** ** Widths

    Registers, flags and segment selectors hold 64-bit values and memory holds bytes; the
    program counter does. *)

Record well_typed (s : cpu) : Prop := {
  ty_regs : forall r, is_u64 (regs s r);
  ty_pc : is_u64 (pc s);
  ty_flags : is_u64 (flags s);
  ty_cs : is_u64 (cs s);
  ty_ss : is_u64 (ss s);
  ty_mem : forall a, 0 <= mem s a < 256;
}.

Lemma u64_of_bits z : 0 <= z -> (forall n, 64 <= n -> Z.testbit z n = false) -> is_u64 z.
Proof.
  intros Hz Hb. assert (E : z = wrap64 z); [|rewrite E; apply wrap64_u64].
  unfold wrap64, u64_mod. change 18446744073709551616 with (2 ^ 64). rewrite <- Z.land_ones by lia.
  apply Z.bits_inj'. intros n Hn. rewrite Z.land_spec. destruct (Z.lt_ge_cases n 64).
  - by rewrite Z.ones_spec_low, andb_true_r by lia.
  - by rewrite Hb by lia.
Qed.

Lemma u64_lor a b : is_u64 a -> is_u64 b -> is_u64 (Z.lor a b).
Proof.
  intros Ha Hb. apply u64_of_bits; [apply Z.lor_nonneg; unfold is_u64 in *; lia|].
  intros n Hn. rewrite Z.lor_spec, !u64_high_bit by done. done.
Qed.

Lemma u64_land_l a b : is_u64 a -> is_u64 (Z.land a b).
Proof.
  intros Ha. apply u64_of_bits; [apply Z.land_nonneg; left; apply Ha|].
  intros n Hn. by rewrite Z.land_spec, u64_high_bit.
Qed.

Lemma u64_setbit a n : is_u64 a -> 0 <= n < 64 -> is_u64 (Z.setbit a n).
Proof.
  intros Ha Hn. unfold Z.setbit. apply u64_lor; [done|]. rewrite Z.shiftl_1_l.
  apply u64_of_bits; [apply Z.pow_nonneg; lia|]. intros k Hk. apply Z.pow2_bits_false. lia.
Qed.

Lemma clearbit_u64 a n : is_u64 a -> is_u64 (Z.clearbit a n).
Proof.
  intros Ha. apply u64_of_bits; [unfold Z.clearbit; apply Z.ldiff_nonneg; left; apply Ha|].
  intros k Hk. unfold Z.clearbit. by rewrite Z.ldiff_spec, u64_high_bit.
Qed.

Lemma u64_load_flags mask cleared old v : is_u64 old -> is_u64 v -> is_u64 (load_flags mask cleared old v).
Proof. intros Ho Hv. unfold load_flags. apply u64_lor; by apply u64_land_l. Qed.

Lemma byte_store64 m a v : (forall x, 0 <= m x < 256) -> forall x, 0 <= store64 m a v x < 256.
Proof. intros Hm x. unfold store64. case_match; [by apply Z.mod_pos_bound|done]. Qed.

Lemma u64_set_reg r v f : is_u64 v -> (forall r, is_u64 (f r)) -> forall r', is_u64 (set_reg r v f r').
Proof. intros Hv Hf r'. unfold set_reg. by case_decide. Qed.

#[export] Hint Resolve wrap64_u64 load64_range u64_setbit clearbit_u64 u64_land_l u64_load_flags byte_store64 u64_set_reg : typing.

Lemma push_typed v s : is_u64 v -> well_typed s -> well_typed (push v s).
Proof. intros Hv []. unfold push. constructor; cbn; eauto with typing. Qed.

Lemma load64_u64 m a : is_u64 (load64 m a).
Proof. apply load64_range. Qed.
#[export] Hint Resolve load64_u64 : typing.

(** Every instruction keeps the widths. *)
Lemma exec_typed i s : well_typed s -> well_typed (exec i s).
Proof.
  intros Hs. pose proof Hs as [].
  destruct i; cbn [exec]; try (apply push_typed; eauto with typing);
    unfold with_regs, with_mem, with_flags, with_pc, drop_stack, top_of_stack, with_regs;
    constructor; cbn [regs pc flags cs ss mem]; eauto 6 with typing.
  - case_match; eauto with typing. apply u64_setbit; [done|lia].
  - apply u64_setbit; [done|unfold IF_BIT; lia].
Qed.

Lemma exec_block_typed code s : well_typed s -> well_typed (exec_block code s).
Proof. unfold exec_block. revert s. induction code as [|i code IH]; intros s Hs; [done|]. cbn. by apply IH, exec_typed. Qed.

Lemma deliver_typed handler s : is_u64 handler -> well_typed s -> well_typed (deliver_interrupt handler s).
Proof.
  intros Hh Hs. pose proof Hs as []. unfold deliver_interrupt. set (aligned := with_regs _ _).
  assert (Ha : well_typed aligned) by (constructor; cbn; eauto with typing).
  assert (Hp : well_typed (push (pc s) (push (cs s) (push (flags s) (push (regs s RSP) (push (ss s) aligned))))))
    by (repeat apply push_typed; eauto).
  destruct Hp. constructor; cbn [with_pc with_flags regs pc flags cs ss mem]; eauto with typing.
Qed.

