(* ===== verification/Context.v ===== *)
(** * Thread contexts and the context switch (src/thread/context.rs)

    [ThreadContext] is the saved register state of a thread, laid out in memory
    in declaration order (repr(C), eight bytes per field).  The two naked
    functions are kept as the instruction sequences the source spells out, with
    its literal offsets, and run on [Machine.cpu]. *)

From S2P Require Import Prelude Machine.

Module TC.

Record ThreadContext := mk {
  rsp : Z; rip : Z;
  rbx : Z; rbp : Z; r12 : Z; r13 : Z; r14 : Z; r15 : Z;
  rax : Z; rcx : Z; rdx : Z; rsi : Z; rdi : Z;
  r8 : Z; r9 : Z; r10 : Z; r11 : Z;
  rflags : Z;
}.

Definition default : ThreadContext :=
  mk 0 0 0 0 0 0 0 0 0 0 0 0 0 0 0 0 0 0x202.

End TC.
Abbreviation ThreadContext := TC.ThreadContext.

(** The struct in memory: field [i] of the declaration at byte offset [8 * i]. *)
Definition ctx_read (m : memory) (p : Z) : ThreadContext :=
  let f i := load64 m (p + 8 * i) in
  TC.mk (f 0) (f 1) (f 2) (f 3) (f 4) (f 5) (f 6) (f 7) (f 8) (f 9)
        (f 10) (f 11) (f 12) (f 13) (f 14) (f 15) (f 16) (f 17).

Definition ctx_fields (c : ThreadContext) : list Z :=
  [TC.rsp c; TC.rip c; TC.rbx c; TC.rbp c; TC.r12 c; TC.r13 c; TC.r14 c; TC.r15 c;
   TC.rax c; TC.rcx c; TC.rdx c; TC.rsi c; TC.rdi c; TC.r8 c; TC.r9 c; TC.r10 c; TC.r11 c;
   TC.rflags c].

Definition CTX_SIZE : Z := 144.

(** Writing a whole context: one eight-byte store per field, in order. *)
Definition ctx_write (m : memory) (p : Z) (c : ThreadContext) : memory :=
  store_words m p (ctx_fields c).

(** The registers a context describes, RSP apart. *)
Definition ctx_gpr (c : ThreadContext) (r : reg) : Z :=
  match r with
  | RAX => TC.rax c | RCX => TC.rcx c | RDX => TC.rdx c | RBX => TC.rbx c
  | RSP => TC.rsp c | RBP => TC.rbp c | RSI => TC.rsi c | RDI => TC.rdi c
  | R8 => TC.r8 c | R9 => TC.r9 c | R10 => TC.r10 c | R11 => TC.r11 c
  | R12 => TC.r12 c | R13 => TC.r13 c | R14 => TC.r14 c | R15 => TC.r15 c
  end.

(** ** The naked functions *)

Definition context_switch : list instr := [
  Pushfq;
  PopM RDI 136;
  Cli;
  MovMR RDI 0 RSP;
  MovRM RAX RSP 0;
  MovMR RDI 8 RAX;
  MovMR RDI 16 RBX;
  MovMR RDI 24 RBP;
  MovMR RDI 32 R12;
  MovMR RDI 40 R13;
  MovMR RDI 48 R14;
  MovMR RDI 56 R15;
  MovRR RDI RSI;
  MovRM RSP RDI 0;
  MovRM RBX RDI 16;
  MovRM RBP RDI 24;
  MovRM R12 RDI 32;
  MovRM R13 RDI 40;
  MovRM R14 RDI 48;
  MovRM R15 RDI 56;
  MovRM RAX RDI 64;
  MovRM RCX RDI 72;
  MovRM RDX RDI 80;
  MovRM RSI RDI 88;
  MovRM R8 RDI 104;
  MovRM R9 RDI 112;
  MovRM R10 RDI 120;
  MovRM R11 RDI 128;
  PushM RDI 136;
  BtrM RSP 0 9;
  Popfq;
  MovRM RDI RDI 96;
  Sti;
  Ret].

Definition context_switch_to : list instr := [
  MovRM RSP RDI 0;
  MovRM RBX RDI 16;
  MovRM RBP RDI 24;
  MovRM R12 RDI 32;
  MovRM R13 RDI 40;
  MovRM R14 RDI 48;
  MovRM R15 RDI 56;
  MovRM RAX RDI 64;
  MovRM RCX RDI 72;
  MovRM RDX RDI 80;
  MovRM RSI RDI 88;
  MovRM R8 RDI 104;
  MovRM R9 RDI 112;
  MovRM R10 RDI 120;
  MovRM R11 RDI 128;
  PushM RDI 136;
  BtrM RSP 0 9;
  Popfq;
  MovRM RDI RDI 96;
  Sti;
  Ret].

(** The part of [context_switch] up to [mov rdi, rsi] saves the caller; the rest
    is [context_switch_to]. *)
Definition context_save : list instr := take 13 context_switch.

Lemma context_switch_split : context_switch = context_save ++ context_switch_to.
Proof. reflexivity. Qed.

(** ** Restoring a context *)

(** Where a context may be resumed from: its stack slot and the slot below it,
    which the switch uses as scratch, do not overlap the context itself. *)
Definition resumable (p : Z) (c : ThreadContext) : Prop :=
  0 <= p /\ p + CTX_SIZE <= u64_mod /\
  8 <= TC.rsp c /\ TC.rsp c + 8 < u64_mod /\
  (TC.rsp c + 8 <= p \/ p + CTX_SIZE <= TC.rsp c - 8) /\
  flags_ok (TC.rflags c).

Lemma ctx_write_read m p c : Forall is_u64 (ctx_fields c) -> ctx_read (ctx_write m p c) p = c.
Proof.
  intros H. assert (Hl : forall i v, ctx_fields c !! i = Some v ->
    load64 (ctx_write m p c) (p + 8 * Z.of_nat i) = v).
  { intros i v Hi. unfold ctx_write. rewrite (load64_store_words _ _ _ _ v) by done.
    apply wrap64_small. by eapply Forall_lookup_1. }
  unfold ctx_read. destruct c. f_equal;
    [apply (Hl 0%nat)|apply (Hl 1%nat)|apply (Hl 2%nat)|apply (Hl 3%nat)|apply (Hl 4%nat)
    |apply (Hl 5%nat)|apply (Hl 6%nat)|apply (Hl 7%nat)|apply (Hl 8%nat)|apply (Hl 9%nat)
    |apply (Hl 10%nat)|apply (Hl 11%nat)|apply (Hl 12%nat)|apply (Hl 13%nat)|apply (Hl 14%nat)
    |apply (Hl 15%nat)|apply (Hl 16%nat)|apply (Hl 17%nat)]; reflexivity.
Qed.

Lemma ctx_write_outside m p c x :
  x < p \/ p + CTX_SIZE <= x -> ctx_write m p c x = m x.
Proof. intros H. apply store_words_outside. cbn. unfold CTX_SIZE in H. lia. Qed.

Lemma exec_block_app a b s : exec_block (a ++ b) s = exec_block b (exec_block a s).
Proof. apply fold_left_app. Qed.

(** Remove the 64-bit wrap-around from addresses that do not wrap. *)
Ltac wrap_simpl :=
  repeat match goal with
  | |- context [wrap64 ?x] =>
      rewrite (wrap64_small x) by (unfold is_u64, u64_max, u64_mod, CTX_SIZE in *; lia)
  end.

(** Read through the stores of a block. *)
Ltac mem_simpl :=
  repeat first [rewrite load64_store64_ne by lia | rewrite load64_store64_at by lia].

(** Run a straight-line block symbolically, leaving memory accesses and 64-bit
    arithmetic folded. *)
Ltac run_block :=
  cbv -[load64 store64 wrap64 load_flags Z.add Z.sub Z.setbit Z.clearbit
        Z.testbit flags_ok Z.land Z.lt Z.le u64_mod u64_max mem_agree is_u64
        PUSHF_IMAGE POPF_MASK RF_MASK IRET_MASK GATE_CLEAR IF_BIT not64].

Lemma flags_ok_bit0 f (b : bool) :
  flags_ok f -> flags_ok (if b then Z.setbit f 0 else Z.clearbit f 0).
Proof.
  unfold flags_ok. intros H. rewrite <- H. apply Z.bits_inj'. intros n Hn.
  rewrite !Z.land_spec. destruct (Z.eqb_spec 0 n) as [<-|Hne].
  - by rewrite !andb_false_r.
  - f_equal. destruct b; [rewrite Z.setbit_eqb|rewrite Z.clearbit_eqb]; try done;
      rewrite (proj2 (Z.eqb_neq 0 n)) by done; cbn; [done|by rewrite andb_true_r].
Qed.

Lemma flags_ok_cli f : flags_ok f -> flags_ok (Z.clearbit f IF_BIT).
Proof.
  unfold flags_ok. intros H. rewrite <- H. apply Z.bits_inj'. intros n Hn.
  rewrite !Z.land_spec, Z.clearbit_eqb by done.
  destruct (Z.eqb_spec IF_BIT n) as [<-|Hne]; [by rewrite !andb_false_r|by rewrite andb_true_r].
Qed.

Record restored (s : cpu) (c : ThreadContext) (s' : cpu) : Prop := {
  restored_gpr : forall r, r <> RSP -> regs s' r = ctx_gpr c r;
  restored_rsp : regs s' RSP = TC.rsp c + 8;
  restored_pc : pc s' = load64 (mem s) (TC.rsp c);
  restored_flags : flags s' = Z.setbit (TC.rflags c) IF_BIT;
  restored_seg : cs s' = cs s /\ ss s' = ss s;
  restored_mem : forall x, x < TC.rsp c - 8 \/ TC.rsp c <= x -> mem s' x = mem s x;
}.

(** What [context_switch_to] establishes, whoever calls it. *)
Lemma context_switch_to_restored (s : cpu) :
  resumable (regs s RDI) (ctx_read (mem s) (regs s RDI)) ->
  flags_ok (flags s) ->
  restored s (ctx_read (mem s) (regs s RDI)) (exec_block context_switch_to s).
Proof.
  destruct s as [R pc0 f cs0 ss0 m]. cbn [regs mem flags].
  set (p := R RDI). intros (Hp & Hp' & Hsp & Hsp' & Hdis & Hfl) Hcur.
  unfold CTX_SIZE in *. cbn [TC.rsp TC.rflags ctx_read] in *.
  rewrite Z.mul_0_r, Z.add_0_r in *. change (8 * 17) with 136 in *.
  assert (Hea : forall off, 0 <= off <= 136 -> wrap64 (p + off) = p + off).
  { intros. apply wrap64_small. unfold is_u64, u64_max, u64_mod in *. lia. }
  assert (Hsub : wrap64 (load64 m p - 8) = load64 m p - 8).
  { apply wrap64_small. unfold is_u64, u64_max, u64_mod in *. lia. }
  assert (Hadd : wrap64 (load64 m p + 8) = load64 m p + 8).
  { apply wrap64_small. unfold is_u64, u64_max, u64_mod in *. lia. }
  split.
  - intros r Hr. destruct r; try done; run_block; fold p;
      rewrite ?(Hea 0), ?Z.add_0_r, ?Hsub, ?Hea, ?load64_store64_ne by lia; done.
  - run_block. fold p. rewrite (Hea 0), !Z.add_0_r, Hsub by lia.
    replace (load64 m p - 8 + 8) with (load64 m p) by lia. by rewrite load64_wrap, Hadd.
  - run_block. fold p. rewrite (Hea 0), !Z.add_0_r, Hsub by lia.
    replace (load64 m p - 8 + 8) with (load64 m p) by lia.
    rewrite load64_wrap, Hsub. by rewrite !load64_store64_ne by lia.
  - etrans; [|apply (restore_flags
      (if Z.testbit (load64 m (p + 136)) 9 then Z.setbit f 0 else Z.clearbit f 0));
      eauto using flags_ok_bit0].
    run_block. fold p. rewrite (Hea 0), !Z.add_0_r, !Hsub, (Hea 136) by lia.
    rewrite !load64_store64_eq, load64_wrap.
    do 2 f_equal. apply wrap64_small, clearbit_u64, load64_range.
  - done.
  - intros x Hx. revert Hx. run_block. fold p. rewrite (Hea 0), !Z.add_0_r, !Hsub by lia.
    intros Hx. by rewrite !store64_outside by lia.
Qed.

(** ** Saving a context *)

Definition regs_ok (s : cpu) : Prop := forall r, is_u64 (regs s r).

(** A call of [context_switch]: [rdi] points at a context outside of the live
    top of the stack. *)
Definition valid_call (s : cpu) : Prop :=
  regs_ok s /\ flags_ok (flags s) /\
  regs s RDI + CTX_SIZE <= u64_mod /\
  8 <= regs s RSP /\ regs s RSP + 8 < u64_mod /\
  apart (regs s RDI) CTX_SIZE (regs s RSP - 8) 16.

(** What the switch records about its caller: the callee-saved registers, the
    stack pointer, the return address and the flags.  The caller-saved fields
    keep whatever the context held before. *)
Definition saved_ctx (s : cpu) : ThreadContext :=
  let c := ctx_read (mem s) (regs s RDI) in
  TC.mk (regs s RSP) (load64 (mem s) (regs s RSP))
        (regs s RBX) (regs s RBP) (regs s R12) (regs s R13) (regs s R14) (regs s R15)
        (TC.rax c) (TC.rcx c) (TC.rdx c) (TC.rsi c) (TC.rdi c)
        (TC.r8 c) (TC.r9 c) (TC.r10 c) (TC.r11 c)
        (flags s).

Lemma pushf_image f : flags_ok f -> Z.land f PUSHF_IMAGE = f.
Proof.
  unfold flags_ok. intros H. apply Z.bits_inj'. intros n Hn.
  rewrite Z.land_spec. destruct (Z.testbit PUSHF_IMAGE n) eqn:E; [by rewrite andb_true_r|].
  rewrite andb_false_r. assert (Hm : Z.testbit POPF_MASK n = false).
  { destruct (Z.testbit POPF_MASK n) eqn:Em; [|done].
    assert (Z.testbit (Z.land POPF_MASK PUSHF_IMAGE) n = true) as Hb by done.
    rewrite Z.land_spec, E, andb_false_r in Hb. done. }
  rewrite (flags_ok_bit f n H Hn Hm).
  assert (Z.testbit (Z.land 2 PUSHF_IMAGE) n = Z.testbit 2 n) as Hb by done.
  by rewrite Z.land_spec, E, andb_false_r in Hb.
Qed.

Lemma flags_ok_u64 f : flags_ok f -> is_u64 f.
Proof.
  intros H. rewrite <- (pushf_image f H).
  unfold is_u64, u64_max. split; [apply Z.land_nonneg; right; done|].
  assert (Z.land f PUSHF_IMAGE <= PUSHF_IMAGE); [|unfold PUSHF_IMAGE in *; lia].
  apply Z.ldiff_le; [done|]. apply Z.bits_inj'. intros k Hk.
  rewrite Z.ldiff_spec, Z.land_spec, Z.bits_0.
  by destruct (Z.testbit f k), (Z.testbit PUSHF_IMAGE k).
Qed.

Record saved (s s' : cpu) : Prop := {
  saved_as : ctx_read (mem s') (regs s RDI) = saved_ctx s;
  saved_next : regs s' RDI = regs s RSI;
  saved_flags : flags_ok (flags s') /\ interrupts_on (flags s') = false;
  saved_seg : cs s' = cs s /\ ss s' = ss s;
  saved_mem : forall x,
    (x < regs s RDI \/ regs s RDI + CTX_SIZE <= x) ->
    (x < regs s RSP - 8 \/ regs s RSP <= x) -> mem s' x = mem s x;
}.

Lemma context_save_saved (s : cpu) : valid_call s -> saved s (exec_block context_save s).
Proof.
  destruct s as [R pc0 f cs0 ss0 m]. unfold valid_call, apart, regs_ok. cbn [regs mem flags].
  intros (Hr & Hf & Hp & Hsp & Hsp' & Hdis).
  pose proof (Hr RDI) as Hp0. pose proof (Hr RSP) as Hsp0. set (p := R RDI) in *. set (sp := R RSP) in *.
  pose proof (flags_ok_u64 f Hf) as Hfu.
  assert (Hw : forall r, wrap64 (R r) = R r) by (intros; apply wrap64_small, Hr).
  unfold CTX_SIZE, is_u64, u64_max, u64_mod in Hp, Hp0, Hsp, Hsp', Hsp0, Hdis, Hfu.
  split.
  - run_block. fold p sp. rewrite (pushf_image f Hf). wrap_simpl.
    rewrite ?Z.add_0_r, ?Z.sub_add. mem_simpl.
    rewrite !Hw, !load64_wrap. by wrap_simpl.
  - done.
  - split; [by apply flags_ok_cli|].
    apply Z.clearbit_eq.
  - done.
  - intros x Hx Hs. revert Hx Hs. run_block. fold p sp. wrap_simpl.
    rewrite ?Z.add_0_r, ?Z.sub_add. intros Hx Hs. by rewrite !store64_outside by lia.
Qed.

Lemma ctx_read_agree m m' p :
  mem_agree p (p + CTX_SIZE) m m' -> ctx_read m p = ctx_read m' p.
Proof.
  intros H. unfold ctx_read. f_equal; eapply load64_agree; try exact H; unfold CTX_SIZE; lia.
Qed.

(** ** The switch as a whole *)

(** The target of a switch: a resumable context whose memory and stack slots are
    disjoint from what the caller saves. *)
Definition valid_target (s : cpu) : Prop :=
  let old := regs s RDI in
  let sp := regs s RSP in
  let new := regs s RSI in
  let c := ctx_read (mem s) new in
  resumable new c /\
  apart old CTX_SIZE new CTX_SIZE /\
  apart new CTX_SIZE (sp - 8) 8 /\
  apart old CTX_SIZE (TC.rsp c - 8) 16 /\
  apart (sp - 8) 8 (TC.rsp c) 8.

Lemma context_switch_target s : valid_call s -> valid_target s ->
  let s1 := exec_block context_save s in
  ctx_read (mem s1) (regs s RSI) = ctx_read (mem s) (regs s RSI) /\
  load64 (mem s1) (TC.rsp (ctx_read (mem s) (regs s RSI)))
  = load64 (mem s) (TC.rsp (ctx_read (mem s) (regs s RSI))).
Proof.
  intros Hc Ht s1. destruct (context_save_saved s Hc) as [_ _ _ _ Hm]. fold s1 in Hm.
  destruct Ht as (_ & Hon & Hns & Hor & Hsr). unfold apart in *.
  split.
  - apply ctx_read_agree. intros x Hx. apply Hm; lia.
  - apply load_le_ext. intros x Hx. apply Hm; lia.
Qed.

Definition switched (s s' : cpu) : Prop :=
  let c := ctx_read (mem s) (regs s RSI) in
  (forall r, r <> RSP -> regs s' r = ctx_gpr c r) /\
  regs s' RSP = TC.rsp c + 8 /\
  pc s' = load64 (mem s) (TC.rsp c) /\
  flags s' = Z.setbit (TC.rflags c) IF_BIT /\
  ctx_read (mem s') (regs s RDI) = saved_ctx s /\
  (forall x, (x < regs s RDI \/ regs s RDI + CTX_SIZE <= x) ->
             (x < regs s RSP - 8 \/ regs s RSP <= x) ->
             (x < TC.rsp c - 8 \/ TC.rsp c <= x) -> mem s' x = mem s x).

Lemma context_switch_switched (s : cpu) :
  valid_call s -> valid_target s -> switched s (exec_block context_switch s).
Proof.
  intros Hc Ht. unfold switched. set (c := ctx_read (mem s) (regs s RSI)).
  pose proof (context_switch_target s Hc Ht) as [Hctx Hret].
  pose proof (context_save_saved s Hc) as [Hsaved Hrdi [Hfl _] _ Hm].
  rewrite context_switch_split, exec_block_app.
  set (s1 := exec_block context_save s) in *.
  pose proof (context_switch_to_restored s1) as Hres.
  rewrite Hrdi, Hctx in Hres. fold c in Hres, Hret.
  destruct Ht as (Hr & _ & _ & Hor & _). fold c in Hr, Hor.
  destruct (Hres Hr Hfl) as [Hg Hsp Hpc Hf _ Hm'].
  split_and!; [done|done|by rewrite Hpc|done| |].
  - rewrite <- Hsaved. apply ctx_read_agree. intros x Hx.
    symmetry. unfold apart in Hor. rewrite <- Hm' by lia. done.
  - intros x H1 H2 H3. rewrite Hm' by lia. by apply Hm.
Qed.

(** C3. [context_switch(old, new)] transfers control: it records the caller's
    stack pointer, return address, callee-saved registers and flags in [old],
    loads every register of [new], continues at the address on top of [new]'s
    stack with interrupts enabled, and writes nothing but [old] and one scratch
    slot below each of the two stack pointers. *)
Theorem context_switch_correct (s : cpu) :
  valid_call s -> valid_target s ->
  let s' := exec_block context_switch s in
  let c := ctx_read (mem s) (regs s RSI) in
  (forall r, r <> RSP -> regs s' r = ctx_gpr c r) /\
  regs s' RSP = TC.rsp c + 8 /\
  pc s' = load64 (mem s) (TC.rsp c) /\
  flags s' = Z.setbit (TC.rflags c) IF_BIT /\
  ctx_read (mem s') (regs s RDI) = saved_ctx s /\
  (forall x, (x < regs s RDI \/ regs s RDI + CTX_SIZE <= x) ->
             (x < regs s RSP - 8 \/ regs s RSP <= x) ->
             (x < TC.rsp c - 8 \/ TC.rsp c <= x) -> mem s' x = mem s x).
Proof. apply context_switch_switched. Qed.

(** A cooperative yield resumes where it stopped: thread A switches away with
    [context_switch(a, b)]; whatever runs in between, if A's saved context and
    the return address on A's stack are left alone, then a later
    [context_switch(b', a)] by any thread continues A after its call, with its
    callee-saved registers and stack pointer as they were, interrupts enabled,
    and A's stack above the call untouched. *)
Theorem cooperative_switch_resumes (s t : cpu) :
  valid_call s -> valid_target s ->
  let s' := exec_block context_switch s in
  mem_agree (regs s RDI) (regs s RDI + CTX_SIZE) (mem s') (mem t) ->
  mem_agree (regs s RSP) (regs s RSP + 8) (mem s) (mem t) ->
  valid_call t -> valid_target t -> regs t RSI = regs s RDI ->
  let t' := exec_block context_switch t in
  (forall r, r ∈ [RBX; RBP; R12; R13; R14; R15] -> regs t' r = regs s r) /\
  regs t' RSP = regs s RSP + 8 /\
  pc t' = load64 (mem s) (regs s RSP) /\
  interrupts_on (flags t') = true /\
  (apart (regs t RDI) CTX_SIZE (regs s RSP) (u64_mod - regs s RSP) ->
   apart (regs t RSP - 8) 8 (regs s RSP) (u64_mod - regs s RSP) ->
   mem_agree (regs s RSP) u64_mod (mem t) (mem t')).
Proof.
  intros Hc Ht s' Hag Hret Hct Htt Hrsi t'.
  destruct (context_switch_switched s Hc Ht) as (_ & _ & _ & _ & Hsv & _). fold s' in Hsv.
  destruct (context_switch_switched t Hct Htt) as (Hg & Hsp & Hpc & Hf & _ & Hm). fold t' in Hg, Hsp, Hpc, Hf, Hm.
  assert (Hctx : ctx_read (mem t) (regs t RSI) = saved_ctx s).
  { rewrite Hrsi, <- Hsv. symmetry. by apply ctx_read_agree. }
  rewrite Hctx in *. split_and!.
  - intros r Hr. rewrite !elem_of_cons, elem_of_nil in Hr.
    destruct_or! Hr; try done; subst r; by rewrite Hg.
  - done.
  - rewrite Hpc. symmetry. eapply load64_agree; [exact Hret|cbn; lia..].
  - rewrite Hf. unfold interrupts_on. by rewrite Z.setbit_eq.
  - intros Ha1 Ha2 x Hx. symmetry. unfold apart in *. apply Hm; cbn; lia.
Qed.

(** *** A concrete pair of threads *)

(** Close the side conditions of a concrete run by evaluation. *)
Ltac decide_concrete :=
  repeat match goal with
  | |- _ /\ _ => split
  | |- forall r : reg, _ => intros []
  | |- resumable _ _ => unfold resumable
  | |- regs_ok _ => unfold regs_ok
  | |- is_u64 _ => unfold is_u64
  | |- valid_call _ => unfold valid_call
  | |- valid_target _ => unfold valid_target
  | |- apart _ _ _ _ => vm_compute; first [left; discriminate | right; discriminate]
  | |- _ \/ _ => vm_compute; first [left; discriminate | right; discriminate]
  | |- _ => solve [vm_compute; done]
  end.

Module Demo.

Definition ctx_a : Z := 0x1000.
Definition ctx_b : Z := 0x2000.

Definition mem0 : memory :=
  let m := ctx_write (fun _ => 0) ctx_a TC.default in
  let m := ctx_write m ctx_b (TC.mk 0x9000 0x401000 1 2 3 4 5 6 7 8 9 10 11 12 13 14 15 0x202) in
  let m := store64 m 0x9000 0x401000 in
  store64 m 0x8000 0x402000.

Definition regs_of (rdi rsi rsp : Z) : regfile := fun r =>
  match r with RDI => rdi | RSI => rsi | RSP => rsp | RBX => 77 | R12 => 78 | _ => 5 end.

Definition a_calls : cpu := mk_cpu (regs_of ctx_a ctx_b 0x8000) 0x400000 0x246 8 16 mem0.
Definition b_runs (m : memory) : cpu :=
  mk_cpu (regs_of ctx_b ctx_a 0x8f00) 0x401050 0x206 8 16 m.
Definition b_calls : cpu := b_runs (mem (exec_block context_switch a_calls)).

Lemma b_runs_mem m : mem (b_runs m) = m.
Proof. reflexivity. Qed.

End Demo.

Lemma context_switch_correct_witness :
  valid_call Demo.a_calls /\ valid_target Demo.a_calls /\
  pc (exec_block context_switch Demo.a_calls) = 0x401000.
Proof.
  assert (Hc : valid_call Demo.a_calls) by decide_concrete.
  assert (Ht : valid_target Demo.a_calls) by decide_concrete.
  split; [exact Hc|]. split; [exact Ht|].
  destruct (context_switch_correct Demo.a_calls Hc Ht) as (_ & _ & Hpc & _).
  etrans; [exact Hpc|]. vm_compute. reflexivity.
Defined.

Lemma a_stack_kept : mem_agree (regs Demo.a_calls RSP) (regs Demo.a_calls RSP + 8) (mem Demo.a_calls) (mem Demo.b_calls).
Proof.
  intros x Hx. cbn in Hx.
  assert (x = 0x8000 \/ x = 0x8001 \/ x = 0x8002 \/ x = 0x8003 \/ x = 0x8004 \/
          x = 0x8005 \/ x = 0x8006 \/ x = 0x8007) as Hin by lia.
  destruct_or! Hin; subst x; vm_compute; reflexivity.
Qed.

Lemma cooperative_switch_resumes_witness :
  pc (exec_block context_switch Demo.b_calls) = 0x402000 /\
  regs (exec_block context_switch Demo.b_calls) R12 = 78.
Proof.
  assert (Hc : valid_call Demo.a_calls) by decide_concrete.
  assert (Ht : valid_target Demo.a_calls) by decide_concrete.
  assert (Hc' : valid_call Demo.b_calls) by decide_concrete.
  assert (Ht' : valid_target Demo.b_calls) by decide_concrete.
  assert (Hk : mem_agree (regs Demo.a_calls RDI) (regs Demo.a_calls RDI + CTX_SIZE)
                 (mem (exec_block context_switch Demo.a_calls)) (mem Demo.b_calls)).
  { unfold Demo.b_calls. rewrite Demo.b_runs_mem. apply mem_agree_refl. }
  assert (Hrsi : regs Demo.b_calls RSI = regs Demo.a_calls RDI) by (vm_compute; reflexivity).
  pose proof (cooperative_switch_resumes Demo.a_calls Demo.b_calls Hc Ht Hk a_stack_kept Hc' Ht' Hrsi)
    as (Hr & _ & Hpc & _).
  split.
  - etrans; [exact Hpc|]. vm_compute. reflexivity.
  - etrans; [apply (Hr R12)|vm_compute; reflexivity]. repeat constructor.
Defined.
