(* ===== verification/Preempt.v ===== *)
(** * Interrupt entry and preemption (src/interrupts.rs)

    The naked IRQ entry stubs, the [IrqFrame] they build on the interrupted
    stack, and [irq_preempt], which turns that frame into the interrupted thread's
    [ThreadContext].  The decision whether to preempt is in [Interrupts]; this
    file is about the machine state. *)

From S2P Require Import Prelude Machine Context.

Module Irq.

Record IrqFrame := mk {
  rax : Z; rcx : Z; rdx : Z; rbx : Z; rbp : Z; rsi : Z; rdi : Z;
  r8 : Z; r9 : Z; r10 : Z; r11 : Z; r12 : Z; r13 : Z; r14 : Z; r15 : Z;
  rip : Z; cs : Z; rflags : Z; rsp : Z; ss : Z;
}.

End Irq.
Abbreviation IrqFrame := Irq.IrqFrame.

Definition FRAME_SIZE : Z := 160.

Definition frame_read (m : memory) (p : Z) : IrqFrame :=
  let f i := load64 m (p + 8 * i) in
  Irq.mk (f 0) (f 1) (f 2) (f 3) (f 4) (f 5) (f 6) (f 7) (f 8) (f 9) (f 10) (f 11)
         (f 12) (f 13) (f 14) (f 15) (f 16) (f 17) (f 18) (f 19).

(** ** The naked entry stubs

    Each stub is split at its [call {inner}]: what runs before the call and what
    runs after it returns. *)

Definition timer_interrupt_entry : list instr * list instr :=
  ([PushR R15; PushR R14; PushR R13; PushR R12;
    PushR R11; PushR R10; PushR R9; PushR R8;
    PushR RDI; PushR RSI; PushR RBP; PushR RBX;
    PushR RDX; PushR RCX; PushR RAX;
    MovRR RDI RSP],
   [PopR RAX; PopR RCX; PopR RDX;
    PopR RBX; PopR RBP; PopR RSI; PopR RDI;
    PopR R8; PopR R9; PopR R10; PopR R11;
    PopR R12; PopR R13; PopR R14; PopR R15;
    Iretq]).

Definition keyboard_interrupt_entry : list instr * list instr :=
  ([PushR R15; PushR R14; PushR R13; PushR R12;
    PushR R11; PushR R10; PushR R9; PushR R8;
    PushR RDI; PushR RSI; PushR RBP; PushR RBX;
    PushR RDX; PushR RCX; PushR RAX;
    MovRR RDI RSP],
   [PopR RAX; PopR RCX; PopR RDX;
    PopR RBX; PopR RBP; PopR RSI; PopR RDI;
    PopR R8; PopR R9; PopR R10; PopR R11;
    PopR R12; PopR R13; PopR R14; PopR R15;
    Iretq]).

(** ** [irq_preempt] up to the end-of-interrupt and [context_switch_to] *)

Definition ctx_of_frame (f : IrqFrame) (resume_rsp : Z) : ThreadContext :=
  TC.mk resume_rsp (Irq.rip f)
        (Irq.rbx f) (Irq.rbp f) (Irq.r12 f) (Irq.r13 f) (Irq.r14 f) (Irq.r15 f)
        (Irq.rax f) (Irq.rcx f) (Irq.rdx f) (Irq.rsi f) (Irq.rdi f)
        (Irq.r8 f) (Irq.r9 f) (Irq.r10 f) (Irq.r11 f) (Irq.rflags f).

(** The stores of [irq_preempt], in order: the fields of [*from_ctx], the resume
    slot below the interrupted stack pointer, [ctx.rsp].  [f.rsp - 8] is a checked
    subtraction. *)
Definition irq_preempt_save (m : memory) (from_ctx frame : Z) : outcome memory :=
  let f := frame_read m frame in
  let ctx off v m := store64 m (from_ctx + off) v in
  let m := ctx 8 (Irq.rip f) m in
  let m := ctx 64 (Irq.rax f) m in
  let m := ctx 72 (Irq.rcx f) m in
  let m := ctx 80 (Irq.rdx f) m in
  let m := ctx 16 (Irq.rbx f) m in
  let m := ctx 24 (Irq.rbp f) m in
  let m := ctx 88 (Irq.rsi f) m in
  let m := ctx 96 (Irq.rdi f) m in
  let m := ctx 104 (Irq.r8 f) m in
  let m := ctx 112 (Irq.r9 f) m in
  let m := ctx 120 (Irq.r10 f) m in
  let m := ctx 128 (Irq.r11 f) m in
  let m := ctx 32 (Irq.r12 f) m in
  let m := ctx 40 (Irq.r13 f) m in
  let m := ctx 48 (Irq.r14 f) m in
  let m := ctx 56 (Irq.r15 f) m in
  let m := ctx 136 (Irq.rflags f) m in
  resume_rsp ← Irq.rsp f -! 8;
  let m := store64 m resume_rsp (Irq.rip f) in
  Ok (ctx 0 resume_rsp m).

(** ** The frame the stub builds *)

(** An interrupted kernel thread: in-range registers, interrupts on, room for the
    frame below its stack pointer. *)
Definition interruptible (s : cpu) : Prop :=
  regs_ok s /\ flags_ok (flags s) /\ interrupts_on (flags s) = true /\
  is_u64 (pc s) /\ is_u64 (cs s) /\ is_u64 (ss s) /\
  192 <= regs s RSP /\ regs s RSP + 8 < u64_mod.

Definition frame_of (s : cpu) : IrqFrame :=
  Irq.mk (regs s RAX) (regs s RCX) (regs s RDX) (regs s RBX) (regs s RBP) (regs s RSI)
         (regs s RDI) (regs s R8) (regs s R9) (regs s R10) (regs s R11) (regs s R12)
         (regs s R13) (regs s R14) (regs s R15) (pc s) (cs s) (flags s) (regs s RSP) (ss s).

(** Where the stub leaves the frame: below the aligned interrupted stack pointer. *)
Definition frame_addr (s : cpu) : Z := Z.land (regs s RSP) (not64 15) - FRAME_SIZE.

Lemma frame_addr_eq s : regs_ok s ->
  frame_addr s = regs s RSP - regs s RSP mod 16 - FRAME_SIZE.
Proof. intros H. unfold frame_addr. change 15 with (2 ^ 4 - 1). by rewrite land_not64_ones by (done || apply H). Qed.

(** The state at the handler's first instruction after the stub was entered in [s]. *)
Record entered (s s' : cpu) : Prop := {
  entered_rdi : regs s' RDI = frame_addr s;
  entered_rsp : regs s' RSP = frame_addr s;
  entered_frame : frame_read (mem s') (frame_addr s) = frame_of s;
  entered_flags : flags s' = Z.land (flags s) (Z.lnot GATE_CLEAR);
  entered_mem : forall x, x < frame_addr s \/ frame_addr s + FRAME_SIZE <= x ->
    mem s' x = mem s x;
}.

Lemma timer_entry_entered s handler : interruptible s ->
  entered s (exec_block (fst timer_interrupt_entry) (deliver_interrupt handler s)).
Proof.
  intros (Hr & Hf & Hif & Hpc & Hcs & Hss & Hsp & Hsp').
  pose proof (frame_addr_eq s Hr) as Hfa.
  pose proof (Z.mod_pos_bound (regs s RSP) 16 eq_refl) as Hmod.
  assert (Hw : forall r, wrap64 (regs s r) = regs s r) by (intros; apply wrap64_small, Hr).
  pose proof (wrap64_small _ Hpc) as Wpc. pose proof (wrap64_small _ Hcs) as Wcs.
  pose proof (wrap64_small _ Hss) as Wss.
  pose proof (wrap64_small _ (flags_ok_u64 _ Hf)) as Wf.
  unfold frame_addr in *. set (al := Z.land (regs s RSP) (not64 15)) in *.
  destruct s as [R pc0 f cs0 ss0 m]. cbn [regs pc flags cs ss mem] in *.
  unfold FRAME_SIZE, u64_mod in *.
  split.
  all: clear Hcs Hss Hpc Hf Hif Hr.
  - run_block. fold al. rewrite !wrap64_sub_l. wrap_simpl. lia.
  - run_block. fold al. rewrite !wrap64_sub_l. wrap_simpl. lia.
  - run_block. fold al. rewrite !wrap64_sub_l. wrap_simpl. mem_simpl.
    rewrite !Hw, Wpc, Wcs, Wss, Wf. done.
  - done.
  - intros x Hx. revert Hx. run_block. fold al. rewrite !wrap64_sub_l. wrap_simpl. intros Hx.
    by rewrite !store64_outside by lia.
Qed.

(** The two hardware interrupts the kernel unmasks. *)
Definition irq_stub (stub : list instr * list instr) : Prop :=
  stub = timer_interrupt_entry \/ stub = keyboard_interrupt_entry.

Lemma irq_stub_eq stub : irq_stub stub -> stub = timer_interrupt_entry.
Proof. by intros [->| ->]. Qed.

Lemma stub_entered stub s handler : irq_stub stub -> interruptible s ->
  entered s (exec_block (fst stub) (deliver_interrupt handler s)).
Proof. intros ->%irq_stub_eq. apply timer_entry_entered. Qed.

(** ** Returning to the interrupted thread *)

Lemma frame_read_agree m m' p :
  mem_agree p (p + FRAME_SIZE) m m' -> frame_read m p = frame_read m' p.
Proof.
  intros H. unfold frame_read. f_equal; eapply load64_agree; try exact H; unfold FRAME_SIZE; lia.
Qed.

Lemma iret_flags cur saved : flags_ok cur -> flags_ok saved ->
  load_flags IRET_MASK 0 cur saved = saved.
Proof.
  intros Hc Hs. apply Z.bits_inj'. intros n Hn. unfold load_flags.
  rewrite Z.lor_spec, !Z.land_spec, Z.lnot_spec, Z.lor_spec, Z.bits_0, orb_false_r by done.
  destruct (Z.testbit IRET_MASK n) eqn:E; [by rewrite andb_false_r, andb_true_r|].
  rewrite andb_true_r, andb_false_r, orb_false_r.
  assert (Z.testbit POPF_MASK n = false).
  { destruct (Z.testbit POPF_MASK n) eqn:Em; [|done].
    assert (Z.testbit (Z.land POPF_MASK IRET_MASK) n = true) as Hb by done.
    rewrite Z.land_spec, E, andb_false_r in Hb. done. }
  by rewrite (flags_ok_bit cur), (flags_ok_bit saved).
Qed.

Definition frame_gpr (f : IrqFrame) (r : reg) : Z :=
  match r with
  | RAX => Irq.rax f | RCX => Irq.rcx f | RDX => Irq.rdx f | RBX => Irq.rbx f
  | RSP => Irq.rsp f | RBP => Irq.rbp f | RSI => Irq.rsi f | RDI => Irq.rdi f
  | R8 => Irq.r8 f | R9 => Irq.r9 f | R10 => Irq.r10 f | R11 => Irq.r11 f
  | R12 => Irq.r12 f | R13 => Irq.r13 f | R14 => Irq.r14 f | R15 => Irq.r15 f
  end.

Lemma stub_exit (u : cpu) :
  0 <= regs u RSP -> regs u RSP + FRAME_SIZE < u64_mod ->
  let f := frame_read (mem u) (regs u RSP) in
  let u' := exec_block (snd timer_interrupt_entry) u in
  (forall r, regs u' r = frame_gpr f r) /\
  pc u' = Irq.rip f /\ cs u' = Irq.cs f /\ ss u' = Irq.ss f /\
  flags u' = load_flags IRET_MASK 0 (flags u) (Irq.rflags f) /\ mem u' = mem u.
Proof.
  destruct u as [R pc0 f0 cs0 ss0 m]. cbn [regs mem flags]. set (sp := R RSP).
  unfold FRAME_SIZE, u64_mod. intros H0 H1. cbv zeta.
  split_and!; [intros []|..]; run_block; fold sp; rewrite ?wrap64_add_l; wrap_simpl;
    rewrite ?Z.add_0_r, <- ?Z.add_assoc; reflexivity.
Qed.

(** An interrupt that does not preempt is invisible: whatever the handler did,
    if it returned with a balanced stack and left the frame alone, the stub's pops
    and IRETQ put every register, the flags, the segments and the program counter
    back, and write no memory. *)
Theorem interrupt_returns stub (s u : cpu) (handler : Z) :
  irq_stub stub -> interruptible s ->
  let entry := exec_block (fst stub) (deliver_interrupt handler s) in
  regs u RSP = regs entry RSP ->
  mem_agree (regs entry RSP) (regs entry RSP + FRAME_SIZE) (mem entry) (mem u) ->
  flags_ok (flags u) ->
  let u' := exec_block (snd stub) u in
  (forall r, regs u' r = regs s r) /\ pc u' = pc s /\ flags u' = flags s /\
  cs u' = cs s /\ ss u' = ss s /\ mem u' = mem u.
Proof.
  intros Hst Hs entry Hsp Hm Hfu.
  destruct (stub_entered stub s handler Hst Hs) as [_ Ersp Ef _ _].
  fold entry in Ersp, Ef. rewrite Ersp in *. clearbody entry.
  rewrite (frame_read_agree _ _ _ Hm), <- Hsp in Ef.
  apply irq_stub_eq in Hst as ->.
  destruct Hs as (Hr & Hfl & _ & _ & _ & _ & Hlo & Hhi).
  pose proof (frame_addr_eq s Hr) as Hfa. pose proof (Z.mod_pos_bound (regs s RSP) 16 eq_refl).
  pose proof (stub_exit u) as Hx. cbv zeta in Hx. rewrite Ef in Hx.
  destruct Hx as (Hg & Hpc & Hcs & Hss & Hf & Hmm); [unfold FRAME_SIZE, u64_mod in *; lia..|].
  intros u'. fold u' in Hg, Hpc, Hcs, Hss, Hf, Hmm. clearbody u'.
  split_and!; try done.
  - intros r. rewrite Hg. by destruct r.
  - rewrite Hf. by apply iret_flags.
Qed.

(** ** Saving the interrupted thread *)

Lemma irq_preempt_saved m from frame :
  let f := frame_read m frame in
  0 <= from -> from + CTX_SIZE <= u64_mod ->
  8 <= Irq.rsp f -> apart from CTX_SIZE (Irq.rsp f - 8) 8 ->
  exists m', irq_preempt_save m from frame = Ok m' /\
    ctx_read m' from = ctx_of_frame f (Irq.rsp f - 8) /\
    load64 m' (Irq.rsp f - 8) = Irq.rip f /\
    (forall x, x < from \/ from + CTX_SIZE <= x ->
               x < Irq.rsp f - 8 \/ Irq.rsp f <= x -> m' x = m x).
Proof.
  intros f Hf Hf' Hsp Hap. unfold irq_preempt_save. fold f.
  unfold u64_sub. rewrite (proj2 (Z.leb_le _ _) Hsp). cbn [mbind outcome_bind].
  assert (Hw : forall v, v ∈ [Irq.rip f; Irq.rax f; Irq.rcx f; Irq.rdx f; Irq.rbx f; Irq.rbp f;
     Irq.rsi f; Irq.rdi f; Irq.r8 f; Irq.r9 f; Irq.r10 f; Irq.r11 f; Irq.r12 f; Irq.r13 f;
     Irq.r14 f; Irq.r15 f; Irq.rflags f; Irq.rsp f] -> wrap64 v = v /\ v <= u64_max).
  { intros v Hv. rewrite !elem_of_cons, elem_of_nil in Hv.
    destruct_or! Hv; subst v; try done;
      (split; [apply load64_wrap|apply load64_range]). }
  clearbody f.
  assert (Hr : Irq.rsp f <= u64_max) by (apply Hw; repeat constructor).
  eexists; split; [reflexivity|]. unfold apart, CTX_SIZE in *.
  split_and!.
  - unfold ctx_read, ctx_of_frame.
    cbn [Z.mul Pos.mul Pos.add Pos.succ]. rewrite ?Z.add_0_r. mem_simpl.
    rewrite (wrap64_small (Irq.rsp f - 8)) by (unfold is_u64; lia).
    by rewrite !(fun v H => proj1 (Hw v H)) by repeat constructor.
  - rewrite ?Z.add_0_r. mem_simpl. apply Hw. repeat constructor.
  - intros x H1 H2. rewrite ?Z.add_0_r. by rewrite !store64_outside by lia.
Qed.

(** Resuming from a context saved out of [s]'s frame gives back [s]. *)
Lemma saved_frame_resumes (s t : cpu) (from frame : Z) (m m' : memory) :
  interruptible s -> frame_read m frame = frame_of s ->
  0 <= from -> from + CTX_SIZE <= u64_mod -> apart from CTX_SIZE (regs s RSP - 16) 24 ->
  irq_preempt_save m from frame = Ok m' ->
  regs t RDI = from -> flags_ok (flags t) ->
  mem_agree from (from + CTX_SIZE) m' (mem t) ->
  mem_agree (regs s RSP - 8) (regs s RSP) m' (mem t) ->
  let t' := exec_block context_switch_to t in
  (forall r, regs t' r = regs s r) /\ pc t' = pc s /\ flags t' = flags s /\
  (forall x, regs s RSP <= x -> mem t' x = mem t x).
Proof.
  intros Hs Hfr Hp Hp' Hap Hsave Hrdi Hft Hctx Hslot t'.
  destruct Hs as (Hr & Hfl & Hif & _ & _ & _ & Hsp & Hsp').
  pose proof (irq_preempt_saved m from frame) as Hsv. cbv zeta in Hsv.
  rewrite Hfr in Hsv. cbn [Irq.rsp Irq.rip frame_of] in Hsv.
  destruct Hsv as (m'' & Heq & Hc & Hret & _); [done|done|lia|unfold apart in *; lia|].
  rewrite Heq in Hsave. injection Hsave as ->.
  assert (Hct : ctx_read (mem t) (regs t RDI) = ctx_of_frame (frame_of s) (regs s RSP - 8)).
  { rewrite Hrdi, <- Hc. symmetry. by apply ctx_read_agree. }
  assert (Hld : load64 (mem t) (regs s RSP - 8) = pc s).
  { rewrite <- Hret. symmetry. eapply load64_agree; [exact Hslot|lia..]. }
  pose proof (context_switch_to_restored t) as Hres. rewrite Hct in Hres. fold t' in Hres.
  clearbody t'.
  destruct Hres as [Hg Hs' Hpc Hf _ Hmm]; [|done|].
  { unfold resumable, apart, CTX_SIZE in *. rewrite Hrdi.
    cbn [TC.rsp TC.rflags ctx_of_frame Irq.rflags frame_of]. split_and!; [lia..|done]. }
  cbn [TC.rsp TC.rflags ctx_of_frame Irq.rflags frame_of] in Hs', Hpc, Hf, Hmm. split_and!.
  - intros r. destruct (decide (r = RSP)) as [->|Hne]; [lia|].
    rewrite Hg by done. by destruct r.
  - by rewrite Hpc.
  - rewrite Hf. by apply setbit_noop.
  - intros x Hx. apply Hmm. lia.
Qed.


(** *** A concrete interrupted thread *)

(** ** The type of the machine state

    Widths as in [well_typed], and the flag bits no instruction of the kernel may change
    at their architectural values. *)

Definition machine_ok (s : cpu) : Prop := well_typed s /\ flags_ok (flags s).

Lemma flags_ok_of_bits f :
  (forall n, 0 <= n -> Z.testbit POPF_MASK n = false -> Z.testbit f n = Z.testbit 2 n) -> flags_ok f.
Proof.
  intros H. unfold flags_ok. apply Z.bits_inj'. intros n Hn.
  rewrite Z.land_spec, Z.lnot_spec by done. destruct (Z.testbit POPF_MASK n) eqn:E; cbn [negb].
  - rewrite andb_false_r. destruct (Z.eqb_spec n 1) as [->|Hne]; [done|].
    change 2 with (2 ^ 1). by rewrite Z.pow2_bits_false by lia.
  - rewrite andb_true_r. by apply H.
Qed.

(** Masking bits that are not among the fixed ones keeps the fixed ones. *)
Lemma flags_ok_mask f mask n : flags_ok f -> Z.testbit mask 1 = false -> 0 <= n -> Z.testbit POPF_MASK n = false ->
  Z.testbit f n && negb (Z.testbit mask n) = Z.testbit 2 n.
Proof.
  intros Hf Hm Hn Hp. rewrite (flags_ok_bit f n) by done.
  destruct (Z.eqb_spec n 1) as [->|Hne]; [by rewrite Hm|].
  change 2 with (2 ^ 1). by rewrite Z.pow2_bits_false by lia.
Qed.

Lemma flags_ok_popf old v : flags_ok old -> flags_ok (load_flags POPF_MASK RF_MASK old v).
Proof.
  intros H. apply flags_ok_of_bits. intros n Hn Hp. unfold load_flags.
  rewrite Z.lor_spec, !Z.land_spec, Z.lnot_spec, Hp, andb_false_r, orb_false_r by done.
  by apply flags_ok_mask.
Qed.

Lemma flags_ok_gate f : flags_ok f -> flags_ok (Z.land f (Z.lnot GATE_CLEAR)).
Proof.
  intros H. apply flags_ok_of_bits. intros n Hn Hp. rewrite Z.land_spec, Z.lnot_spec by done.
  by apply flags_ok_mask.
Qed.

Lemma flags_ok_sti f : flags_ok f -> flags_ok (Z.setbit f IF_BIT).
Proof.
  intros H. apply flags_ok_of_bits. intros n Hn Hp. rewrite Z.setbit_eqb by done.
  destruct (Z.eqb_spec IF_BIT n) as [<-|Hne]; [done|]. by apply flags_ok_bit.
Qed.

#[local] Hint Resolve flags_ok_bit0 flags_ok_cli flags_ok_sti flags_ok_popf flags_ok_gate : typing.

Definition is_iret (i : instr) : bool := match i with Iretq => true | _ => false end.

Lemma exec_block_ok code s : forallb (fun i => negb (is_iret i)) code = true -> machine_ok s -> machine_ok (exec_block code s).
Proof.
  unfold exec_block. revert s. induction code as [|i code IH]; intros s Hc Hs; [done|].
  cbn [forallb] in Hc. apply andb_true_iff in Hc as [Hi Hc]. cbn [fold_left]. apply IH; [done|].
  destruct Hs as [Ht Hf]. split; [by apply exec_typed|].
  destruct i; try done; cbn [exec push with_regs with_mem with_flags with_pc drop_stack flags]; eauto with typing.
Qed.

Lemma irq_preempt_bytes m from frame m' : (forall a, 0 <= m a < 256) ->
  irq_preempt_save m from frame = Ok m' -> forall a, 0 <= m' a < 256.
Proof.
  intros Hm H. unfold irq_preempt_save in H. destruct (Irq.rsp _ -! 8) as [r|]; [|done].
  injection H as <-. repeat apply byte_store64. done.
Qed.



Module IrqDemo.

Definition ctx : Z := 0x1000.

Definition running : cpu :=
  mk_cpu (fun r => match r with RSP => 0x9f08 | RAX => 42 | R11 => 43 | _ => 7 end)
         0x400123 0x246 8 16 (fun _ => 0).

Abbreviation entry :=
  (exec_block (fst timer_interrupt_entry) (deliver_interrupt 0x500000 running)).

(** Some later state about to resume the thread from memory [m]. *)
Definition resuming (m : memory) : cpu := mk_cpu (fun _ => ctx) 0x500100 0x2 8 16 m.

(** The handler returning to the stub. *)
Definition returning (sp : Z) (m : memory) : cpu := mk_cpu (fun _ => sp) 0x500100 0x6 8 16 m.

Lemma resuming_mem m : mem (resuming m) = m.
Proof. reflexivity. Qed.

Lemma returning_mem sp m : mem (returning sp m) = m.
Proof. reflexivity. Qed.

Lemma returning_rsp sp m : regs (returning sp m) RSP = sp.
Proof. reflexivity. Qed.

Lemma running_ok : interruptible running.
Proof. unfold interruptible. decide_concrete. Qed.

Lemma entry_frame : frame_read (mem entry) (regs entry RDI) = frame_of running.
Proof.
  destruct (timer_entry_entered running 0x500000 running_ok) as [Hrdi _ Hf _ _].
  rewrite Hrdi. exact Hf.
Qed.

End IrqDemo.


Lemma interrupt_returns_witness :
  let u := IrqDemo.returning (regs IrqDemo.entry RSP) (mem IrqDemo.entry) in
  let u' := exec_block (snd timer_interrupt_entry) u in
  pc u' = 0x400123 /\ regs u' RAX = 42 /\ flags u' = 0x246.
Proof.
  intros u u'.
  destruct (interrupt_returns timer_interrupt_entry IrqDemo.running u 0x500000
              (or_introl eq_refl) IrqDemo.running_ok) as (Hr & Hpc & Hf & _).
  - apply IrqDemo.returning_rsp.
  - unfold u. rewrite IrqDemo.returning_mem. apply mem_agree_refl.
  - decide_concrete.
  - split; [exact Hpc|]. split; [exact (Hr RAX)|exact Hf].
Defined.

Lemma running_machine_ok : machine_ok IrqDemo.running.
Proof.
  destruct IrqDemo.running_ok as (Hr & Hf & _ & Hp & Hc & Hs & _). split; [|done].
  by constructor.
Qed.

