(* ===== verification/Stack.v ===== *)
(** * Kernel stacks and threads (src/thread/stack.rs, src/thread/thread.rs)

    A [KernelStack] owns a heap block; the model keeps the block's address and
    length and reads and writes the machine memory.  The addresses the allocator
    returns for the stack and for the boxed context are arguments. *)

From S2P Require Import Prelude Machine Context.

Definition STACK_SIZE : Z := 16 * 1024.
Definition STACK_ALIGN : Z := 16.
Definition CANARY : Z := 0xDEADC0DEDEADC0DE.

Record KernelStack := mk_stack {
  storage_ptr : Z;
  storage_len : Z;
}.

Definition fill (m : memory) (a n v : Z) : memory :=
  fun x => if (a <=? x) && (x <? a + n) then v else m x.

Definition write_canary (s : KernelStack) (m : memory) : memory :=
  if 8 <=? storage_len s then store64 m (storage_ptr s) CANARY else m.

(** [vec![0u8; size]] followed by [write_canary]. *)
Definition with_size (ptr size : Z) (m : memory) : KernelStack * memory :=
  let s := mk_stack ptr size in
  (s, write_canary s (fill m ptr size 0)).

Definition stack_new (ptr : Z) (m : memory) : KernelStack * memory :=
  with_size ptr STACK_SIZE m.

Definition check_canary (s : KernelStack) (m : memory) : bool :=
  if storage_len s <? 8 then true else load64 m (storage_ptr s) =? CANARY.

(** [(end & !(STACK_ALIGN as u64)) - 16]. *)
Definition top (s : KernelStack) : outcome Z :=
  end_ ← storage_ptr s +! storage_len s;
  Z.land end_ (not64 STACK_ALIGN) -! 16.

Definition init_context (s : KernelStack) (ctx : ThreadContext) (entry_point : Z) (m : memory)
    : outcome (ThreadContext * memory) :=
  top ← top s;
  let m := store64 m top entry_point in
  Ok (TC.mk top entry_point 0 0 0 0 0 0
        (TC.rax ctx) (TC.rcx ctx) (TC.rdx ctx) (TC.rsi ctx) (TC.rdi ctx)
        (TC.r8 ctx) (TC.r9 ctx) (TC.r10 ctx) (TC.r11 ctx) (TC.rflags ctx), m).

(** ** Threads *)

(** [ThreadId::next]: a relaxed [fetch_add], which wraps. *)
Definition ThreadId_next (next : Z) : Z * Z := (next, wrap64 (next + 1)).

Record Thread := mk_thread {
  thread_id : Z;
  thread_stack : KernelStack;
  thread_context : Z;
}.

(** [Thread::with_stack_size]: allocate and zero the stack, box a default context,
    initialise it for [entry_point], and take a fresh id. *)
Definition with_stack_size (entry_point stack_ptr stack_bytes ctx_ptr next : Z) (m : memory)
    : outcome (Thread * memory * Z) :=
  let '(stack, m) := with_size stack_ptr stack_bytes m in
  '(context, m) ← init_context stack TC.default entry_point m;
  let m := ctx_write m ctx_ptr context in
  let '(id, next) := ThreadId_next next in
  Ok (mk_thread id stack ctx_ptr, m, next).

Definition thread_new (entry_point stack_ptr ctx_ptr next : Z) (m : memory)
    : outcome (Thread * memory * Z) :=
  with_stack_size entry_point stack_ptr STACK_SIZE ctx_ptr next m.

Definition context_ptr (t : Thread) : Z := thread_context t.

(** ** Where the stack top is *)

(** A heap block that can hold a kernel stack: room for the canary, the scratch slot
    of the first switch and the entry slot wherever [top] falls. *)
Definition stack_block (s : KernelStack) : Prop :=
  0 <= storage_ptr s /\ 48 <= storage_len s /\ storage_ptr s + storage_len s <= u64_max.

Lemma land_not64_bit a k : is_u64 a -> 0 <= k < 64 ->
  Z.land a (not64 (2 ^ k)) = if Z.testbit a k then a - 2 ^ k else a.
Proof.
  intros Ha Hk. transitivity (Z.clearbit a k).
  - apply Z.bits_inj'. intros n Hn. unfold not64.
    rewrite Z.land_spec, Z.lxor_spec, Z.clearbit_eqb, Z.pow2_bits_eqb by lia.
    change u64_max with (Z.ones 64).
    destruct (Z.lt_ge_cases n 64).
    + by rewrite (Z.ones_spec_low 64), xorb_true_r by lia.
    + by rewrite (u64_high_bit a n) by done.
  - unfold Z.clearbit. rewrite Z.shiftl_1_l.
    destruct (Z.testbit a k) eqn:E.
    + symmetry. apply Z.sub_nocarry_ldiff. apply Z.bits_inj'. intros n Hn.
      rewrite Z.ldiff_spec, Z.pow2_bits_eqb, Z.bits_0 by lia.
      destruct (Z.eqb_spec k n) as [<-|]; [by rewrite E|done].
    + apply Z.bits_inj'. intros n Hn. rewrite Z.ldiff_spec, Z.pow2_bits_eqb by lia.
      destruct (Z.eqb_spec k n) as [<-|]; [by rewrite E|by rewrite andb_true_r].
Qed.

Lemma top_value s : stack_block s ->
  top s = Ok (storage_ptr s + storage_len s - 16) \/
  top s = Ok (storage_ptr s + storage_len s - 32).
Proof.
  intros (Hp & Hl & Hm). unfold top, u64_add.
  rewrite (proj2 (Z.leb_le _ _) Hm). cbn [mbind outcome_bind].
  change STACK_ALIGN with (2 ^ 4). rewrite land_not64_bit by (unfold is_u64; lia).
  change (2 ^ 4) with 16. unfold u64_sub.
  destruct (Z.testbit _ 4); rewrite (proj2 (Z.leb_le _ _)) by lia; [right|left]; f_equal; lia.
Qed.

(** The initial stack slot is inside the stack and clear of the canary: for a
    block of at least 48 bytes [top] returns an address whose eight bytes lie in the
    block, and the slot below it, which the first switch uses, is above the canary. *)
Theorem top_in_bounds (s : KernelStack) : stack_block s ->
  exists t, top s = Ok t /\ storage_ptr s + 8 <= t - 8 /\ t + 8 <= storage_ptr s + storage_len s.
Proof.
  intros Hs. pose proof Hs as (_ & Hl & _).
  destruct (top_value s Hs) as [->| ->]; eexists; (split; [done|lia]).
Qed.

(** [top] does not align: it has the residue modulo 16 of the end of the block,
    so the entry stack pointer [top + 8] satisfies the ABI (8 modulo 16) exactly when
    the heap block happens to end on a 16-byte boundary. *)
Theorem top_alignment (s : KernelStack) (t : Z) : stack_block s -> top s = Ok t ->
  t mod 16 = (storage_ptr s + storage_len s) mod 16 /\
  ((t + 8) mod 16 = 8 <-> (storage_ptr s + storage_len s) mod 16 = 0).
Proof.
  intros Hs Ht. assert (Hm : t mod 16 = (storage_ptr s + storage_len s) mod 16).
  { destruct (top_value s Hs) as [E|E]; rewrite E in Ht; injection Ht as <-.
    - Z.div_mod_to_equations. lia.
    - Z.div_mod_to_equations. lia. }
  split; [done|]. rewrite <- Hm. clear. Z.div_mod_to_equations. lia.
Qed.

(** ** Starting a thread *)

(** The placement of a new thread: a stack block and a boxed context that do not
    overlap, and an entry point. *)
Definition placement_ok (entry_point stack_ptr stack_bytes ctx_ptr : Z) : Prop :=
  stack_block (mk_stack stack_ptr stack_bytes) /\ is_u64 entry_point /\
  0 <= ctx_ptr /\ ctx_ptr + CTX_SIZE <= u64_mod /\
  apart stack_ptr stack_bytes ctx_ptr CTX_SIZE.

Record fresh_thread (entry_point stack_ptr stack_bytes ctx_ptr next : Z)
    (t : Thread) (m : memory) (next' : Z) : Prop := {
  fresh_id : thread_id t = next /\ next' = wrap64 (next + 1);
  fresh_stack : thread_stack t = mk_stack stack_ptr stack_bytes;
  fresh_ctx : thread_context t = ctx_ptr;
  fresh_saved : exists sp, top (thread_stack t) = Ok sp /\
    ctx_read m ctx_ptr = TC.mk sp entry_point 0 0 0 0 0 0 0 0 0 0 0 0 0 0 0 0x202 /\
    load64 m sp = entry_point;
  fresh_canary : check_canary (thread_stack t) m = true;
}.

Lemma with_stack_size_fresh entry_point stack_ptr stack_bytes ctx_ptr next m :
  placement_ok entry_point stack_ptr stack_bytes ctx_ptr ->
  exists t m' next',
    with_stack_size entry_point stack_ptr stack_bytes ctx_ptr next m = Ok (t, m', next') /\
    fresh_thread entry_point stack_ptr stack_bytes ctx_ptr next t m' next'.
Proof.
  intros (Hs & He & Hc & Hc' & Hap). pose proof Hs as (Hp & Hl & Hm). cbn in Hp, Hl, Hm.
  unfold with_stack_size, init_context. cbn [with_size].
  assert (exists sp, top (mk_stack stack_ptr stack_bytes) = Ok sp /\
    stack_ptr + 16 <= sp /\ sp + 8 <= stack_ptr + stack_bytes) as (sp & Et & Hlo & Hhi).
  { destruct (top_value _ Hs) as [->| ->]; eexists; (split; [done|cbn; lia]). }
  rewrite Et. cbn [mbind outcome_bind]. do 3 eexists. split; [done|]. unfold apart, CTX_SIZE in *.
  split; try done.
  - exists sp. split_and!; [done|..].
    + apply ctx_write_read. unfold ctx_fields, is_u64, u64_max in *. cbn.
      repeat (constructor; [lia|]). constructor.
    + etrans; [eapply load_le_ext; intros x Hx; apply ctx_write_outside; unfold CTX_SIZE; lia|].
      etrans; [apply load64_store64_eq|]. by apply wrap64_small.
  - unfold check_canary. cbn [thread_stack storage_len storage_ptr].
    rewrite (proj2 (Z.ltb_ge _ _)) by lia. apply Z.eqb_eq.
    etrans; [apply load_le_ext with (m' := store64 (fill m stack_ptr stack_bytes 0) stack_ptr CANARY)|].
    + intros x Hx. rewrite ctx_write_outside by (unfold CTX_SIZE; lia).
      rewrite store64_outside by lia. unfold write_canary. cbn.
      by rewrite (proj2 (Z.leb_le _ _)) by lia.
    + apply load64_store64_eq.
Qed.

(** Creating a thread writes its two blocks and nothing else, and leaves most of the
    stack to it. *)
Lemma with_stack_size_writes entry_point stack_ptr stack_bytes ctx_ptr next m t m' next' :
  placement_ok entry_point stack_ptr stack_bytes ctx_ptr ->
  with_stack_size entry_point stack_ptr stack_bytes ctx_ptr next m = Ok (t, m', next') ->
  thread_context t = ctx_ptr /\
  stack_ptr + stack_bytes - 32 <= TC.rsp (ctx_read m' ctx_ptr) <= stack_ptr + stack_bytes - 16 /\
  TC.rflags (ctx_read m' ctx_ptr) = 0x202 /\
  (forall x, x < stack_ptr \/ stack_ptr + stack_bytes <= x -> x < ctx_ptr \/ ctx_ptr + CTX_SIZE <= x -> m' x = m x).
Proof.
  intros Hpl E. destruct (with_stack_size_fresh entry_point stack_ptr stack_bytes ctx_ptr next m Hpl) as (t1 & m1 & n1 & E1 & Hfr).
  rewrite E1 in E. injection E as -> -> ->.
  destruct Hfr as [_ Est Ectx (sp & Etop & Hctx & _) _]. destruct Hpl as (Hs & _). pose proof Hs as (Hp & Hl & _). cbn in Hp, Hl.
  assert (Hsp : stack_ptr + stack_bytes - 32 <= sp <= stack_ptr + stack_bytes - 16).
  { rewrite Est in Etop. destruct (top_value _ Hs) as [E|E]; rewrite E in Etop; injection Etop as <-; cbn; lia. }
  split; [done|]. split; [rewrite Hctx; cbn; lia|]. split; [by rewrite Hctx|].
  intros x H1 H2. unfold with_stack_size, init_context in E1. cbn [with_size] in E1.
  rewrite Est in Etop. rewrite Etop in E1. cbn [mbind outcome_bind] in E1. injection E1 as _ <- _.
  rewrite ctx_write_outside by done. rewrite store64_outside by lia. unfold write_canary. cbn [storage_ptr storage_len].
  rewrite (proj2 (Z.leb_le _ _)) by lia. rewrite store64_outside by lia. unfold fill.
  destruct (Z.leb_spec stack_ptr x), (Z.ltb_spec x (stack_ptr + stack_bytes)); cbn; try done. lia.
Qed.

(** A new thread starts at its entry point: after [Thread::with_stack_size], the
    first [context_switch_to] on its context jumps to [entry_point] with the stack
    pointer eight bytes above [top], every general register zero, flags 0x202
    (interrupts enabled), and the stack canary in place. *)
Theorem new_thread_starts entry_point stack_ptr stack_bytes ctx_ptr next (m : memory) (c : cpu) :
  placement_ok entry_point stack_ptr stack_bytes ctx_ptr ->
  flags_ok (flags c) -> regs c RDI = ctx_ptr ->
  exists t m' next' sp,
    with_stack_size entry_point stack_ptr stack_bytes ctx_ptr next m = Ok (t, m', next') /\
    top (thread_stack t) = Ok sp /\ check_canary (thread_stack t) m' = true /\
    (mem c = m' ->
     let c' := exec_block context_switch_to c in
     pc c' = entry_point /\ regs c' RSP = sp + 8 /\
     (forall r, r <> RSP -> regs c' r = 0) /\ flags c' = 0x202 /\
     check_canary (thread_stack t) (mem c') = true).
Proof.
  intros Hpl Hf Hrdi. pose proof (with_stack_size_fresh _ _ _ _ next m Hpl) as (t & m' & n' & Et & Hfr).
  destruct Hfr as [_ Est _ (sp & Etop & Hctx & Hret) Hcan].
  exists t, m', n', sp. split_and!; [done..|].
  destruct Hpl as (Hs & He & Hc & Hc' & Hap). pose proof Hs as (Hp & Hl & Hm).
  intros Hmem c'. pose proof (context_switch_to_restored c) as Hres.
  rewrite Hrdi, Hmem, Hctx in Hres. fold c' in Hres. clearbody c'.
  assert (Hb : stack_ptr + 16 <= sp /\ sp + 8 <= stack_ptr + stack_bytes).
  { rewrite Est in Etop. cbn in Hl.
    destruct (top_value _ Hs) as [E|E]; rewrite E in Etop; injection Etop as <-; cbn; lia. }
  destruct Hres as [Hg Hsp Hpc Hfl _ Hmm]; [|done|].
  { unfold resumable, apart, CTX_SIZE, is_u64, u64_max, u64_mod in *. cbn in *.
    split_and!; try lia. done. }
  cbn in Hsp, Hpc, Hfl, Hmm. split_and!.
  - rewrite Hpc. by rewrite Hmem.
  - done.
  - intros r Hr. rewrite Hg by done. by destruct r.
  - done.
  - rewrite Est in *. revert Hcan. unfold check_canary. cbn. case_match; [done|].
    rewrite !Z.eqb_eq. intros <-. apply load_le_ext. intros x Hx. rewrite <- Hmem.
    apply Hmm. lia.
Qed.

(** *** Concrete placements *)

Lemma top_in_bounds_witness :
  exists t, top (mk_stack 0x444444440000 STACK_SIZE) = Ok t /\ 0x444444440008 <= t - 8.
Proof.
  destruct (top_in_bounds (mk_stack 0x444444440000 STACK_SIZE)) as (t & Ht & Hlo & _).
  - unfold stack_block. decide_concrete.
  - exists t. split; [exact Ht|exact Hlo].
Defined.

(** A block that ends at 8 modulo 16 gives a misaligned entry stack. *)
Lemma top_alignment_witness :
  exists t, top (mk_stack 0x444444440008 STACK_SIZE) = Ok t /\ (t + 8) mod 16 <> 8.
Proof.
  exists 0x444444443ff8. split; [reflexivity|].
  destruct (top_alignment (mk_stack 0x444444440008 STACK_SIZE) 0x444444443ff8) as [_ H].
  - unfold stack_block. decide_concrete.
  - reflexivity.
  - rewrite H. vm_compute. discriminate.
Defined.

Module ThreadDemo.
Definition at_boot (m : memory) : cpu := mk_cpu (fun _ => 0x2000) 0x100 0x2 8 16 m.
Lemma at_boot_mem m : mem (at_boot m) = m.
Proof. reflexivity. Qed.
End ThreadDemo.

Lemma new_thread_starts_witness : exists t m' next',
  with_stack_size 0x401000 0x10000 STACK_SIZE 0x2000 3 (fun _ => 0) = Ok (t, m', next') /\
  pc (exec_block context_switch_to (ThreadDemo.at_boot m')) = 0x401000.
Proof.
  assert (Hp : placement_ok 0x401000 0x10000 STACK_SIZE 0x2000)
    by (unfold placement_ok, stack_block; decide_concrete).
  destruct (with_stack_size_fresh 0x401000 0x10000 STACK_SIZE 0x2000 3 (fun _ => 0) Hp)
    as (t & m' & n' & Et & _).
  destruct (new_thread_starts 0x401000 0x10000 STACK_SIZE 0x2000 3 (fun _ => 0)
              (ThreadDemo.at_boot m') Hp) as (t2 & m2 & n2 & sp & Et2 & _ & _ & H).
  - decide_concrete.
  - reflexivity.
  - rewrite Et in Et2. injection Et2 as <- <- <-. exists t, m', n'. split; [exact Et|].
    apply H. apply ThreadDemo.at_boot_mem.
Defined.
