(* ===== verification/Eevdf.v ===== *)
(** * The EEVDF scheduler (src/thread/schedulers/eevdf.rs)

    [EevdfScheduler] keeps the threads and their scheduling metadata in two
    parallel vectors.  All arithmetic is on [u64] and panics on overflow. *)

From S2P Require Import Prelude Machine Context Stack.

Definition DEFAULT_WEIGHT : Z := 1024.
Definition MIN_TIME_SLICE : Z := 1.

Record ThreadMeta := mk_meta {
  vruntime : Z;
  weight : Z;
  blocked : bool;
}.

Definition meta_new : ThreadMeta := mk_meta 0 DEFAULT_WEIGHT false.

Definition virtual_deadline (m : ThreadMeta) (time_slice sum_weights : Z) : outcome Z :=
  if weight m =? 0 then Ok u64_max else
  a ← time_slice *! sum_weights;
  b ← a *! 1024;
  q ← b /! weight m;
  vruntime m +! q.

Record EevdfScheduler := mk_eevdf {
  threads : list Thread;
  metadata : list ThreadMeta;
  current : option nat;
  min_vruntime : Z;
  last_switch_tick : Z;
}.

Definition eevdf_new : EevdfScheduler := mk_eevdf [] [] None 0 0.

Definition eevdf_spawn (s : EevdfScheduler) (t : Thread) : EevdfScheduler :=
  mk_eevdf (threads s ++ [t]) (metadata s ++ [meta_new])
           (current s) (min_vruntime s) (last_switch_tick s).

Definition eevdf_spawn_with_weight (s : EevdfScheduler) (t : Thread) (w : Z) : EevdfScheduler :=
  mk_eevdf (threads s ++ [t]) (metadata s ++ [mk_meta 0 (Z.max w 1) false])
           (current s) (min_vruntime s) (last_switch_tick s).

Definition eevdf_len (s : EevdfScheduler) : nat := length (threads s).

Definition eevdf_current_thread_id (s : EevdfScheduler) : outcome (option Z) :=
  match current s with
  | None => Ok None
  | Some idx => t ← index (threads s) idx; Ok (Some (thread_id t))
  end.

Definition with_metadata (s : EevdfScheduler) (ms : list ThreadMeta) : EevdfScheduler :=
  mk_eevdf (threads s) ms (current s) (min_vruntime s) (last_switch_tick s).

Definition set_blocked (b : bool) (m : ThreadMeta) : ThreadMeta :=
  mk_meta (vruntime m) (weight m) b.

(** The loop of [unblock_thread] over the threads from index [i] on. *)
Fixpoint unblock_from (i : nat) (ts : list Thread) (ms : list ThreadMeta) (id : Z)
    : outcome (list ThreadMeta) :=
  match ts with
  | [] => Ok ms
  | t :: ts =>
      if thread_id t =? id then
        m ← index ms i; index_set ms i (set_blocked false m)
      else unblock_from (S i) ts ms id
  end.

Definition eevdf_unblock_thread (s : EevdfScheduler) (id : Z) : outcome EevdfScheduler :=
  ms ← unblock_from 0 (threads s) (metadata s) id;
  Ok (with_metadata s ms).

(** [iter().filter(|m| !m.blocked).map(|m| m.weight).sum()] *)
Definition unblocked (ms : list ThreadMeta) : list ThreadMeta :=
  filter (fun m => blocked m = false) ms.

Definition sum_weights (ms : list ThreadMeta) : outcome Z :=
  sum_u64 (weight <$> unblocked ms).

(** [min_by] with the deadline comparison: the first of the least elements. *)
Definition min_step (ts sw : Z) (acc : outcome (nat * ThreadMeta)) (y : nat * ThreadMeta)
    : outcome (nat * ThreadMeta) :=
  a ← acc;
  da ← virtual_deadline (snd a) ts sw;
  db ← virtual_deadline (snd y) ts sw;
  Ok (if db <? da then y else a).

Definition min_by_deadline (ts sw : Z) (l : list (nat * ThreadMeta))
    : outcome (option (nat * ThreadMeta)) :=
  match l with
  | [] => Ok None
  | x :: l => Some <$> foldl (min_step ts sw) (Ok x) l
  end.

Definition enumerate {A} (l : list A) : list (nat * A) := imap pair l.

(** The eligible threads: not blocked, and at most [lag_tolerance] ahead of the
    least virtual runtime. *)
Definition eligible (minv lag : Z) (m : ThreadMeta) : bool :=
  negb (blocked m) && (vruntime m <=? saturating_add minv lag).

Definition charge_current (s : EevdfScheduler) (time_slice : Z) : outcome EevdfScheduler :=
  match current s with
  | None => Ok s
  | Some prev =>
      sw ← sum_weights (metadata s);
      if 0 <? sw then
        m ← index (metadata s) prev;
        a ← time_slice *! weight m;
        b ← a *! 1024;
        delta ← b /! sw;
        v ← vruntime m +! delta;
        ms ← index_set (metadata s) prev (mk_meta v (weight m) (blocked m));
        Ok (with_metadata s ms)
      else Ok s
  end.

Definition pick_next (ms : list ThreadMeta) (minv time_slice sw : Z) : outcome (option nat) :=
  best ← min_by_deadline time_slice sw
           (filter (fun p => eligible minv (Z.max sw 1) (snd p) = true) (enumerate ms));
  Ok (match best with
      | Some (idx, _) => Some idx
      | None => fst <$> list_find (fun m => blocked m = false) ms
      end).

(** Ticks charged to the running thread; the bootstrap context is charged one. *)
Definition time_slice_of (s : EevdfScheduler) (current_tick : Z) : Z :=
  match current s with
  | Some _ => Z.max (saturating_sub current_tick (last_switch_tick s)) MIN_TIME_SLICE
  | None => MIN_TIME_SLICE
  end.

Definition refresh_min (s : EevdfScheduler) : EevdfScheduler :=
  mk_eevdf (threads s) (metadata s) (current s)
    (default (min_vruntime s) (min_list (vruntime <$> unblocked (metadata s))))
    (last_switch_tick s).

(** The early return when the best thread is already running. *)
Definition keeps_running (s : EevdfScheduler) (next_idx : nat) (current_tick : Z) : bool :=
  bool_decide (current s = Some next_idx) && negb (current_tick =? 0)
  && (saturating_sub current_tick (last_switch_tick s) <? MIN_TIME_SLICE).

Definition from_context (s : EevdfScheduler) (prev : option nat) (bootstrap_ctx : Z) : outcome Z :=
  match prev with
  | None => Ok bootstrap_ctx
  | Some p => t ← index (threads s) p; Ok (context_ptr t)
  end.

Definition eevdf_tick_prepare (s : EevdfScheduler) (bootstrap_ctx current_tick : Z)
    : outcome (EevdfScheduler * option (Z * Z)) :=
  if bool_decide (threads s = []) then Ok (s, None) else
  let time_slice := time_slice_of s current_tick in
  s ← charge_current s time_slice;
  let s := refresh_min s in
  sw ← sum_weights (metadata s);
  next ← pick_next (metadata s) (min_vruntime s) time_slice sw;
  match next with
  | None => Ok (s, None)
  | Some next_idx =>
      let prev := current s in
      if keeps_running s next_idx current_tick then Ok (s, None)
      else
        let s := mk_eevdf (threads s) (metadata s) (Some next_idx) (min_vruntime s) current_tick in
        from_ctx ← from_context s prev bootstrap_ctx;
        to_t ← index (threads s) next_idx;
        Ok (s, Some (from_ctx, context_ptr to_t))
  end.

Definition eevdf_block_current_and_prepare_switch (s : EevdfScheduler) (bootstrap_ctx current_tick : Z)
    : outcome (EevdfScheduler * option (Z * Z)) :=
  s ← match current s with
      | None => Ok s
      | Some idx =>
          m ← index (metadata s) idx;
          ms ← index_set (metadata s) idx (set_blocked true m);
          Ok (with_metadata s ms)
      end;
  eevdf_tick_prepare s bootstrap_ctx current_tick.

(** ** Well-formedness *)

Definition meta_ok (m : ThreadMeta) : Prop := is_u64 (vruntime m) /\ 1 <= weight m <= u64_max.

Record eevdf_wf (s : EevdfScheduler) : Prop := {
  wf_len : length (threads s) = length (metadata s);
  wf_cur : forall i, current s = Some i -> (i < length (metadata s))%nat;
  wf_meta : Forall meta_ok (metadata s);
  wf_min : is_u64 (min_vruntime s);
  wf_tick : is_u64 (last_switch_tick s);
}.

(** ** Lemmas on the parts of [tick_prepare] *)

Lemma unblocked_weights_nonneg ms : Forall meta_ok ms -> Forall (Z.le 0) (weight <$> unblocked ms).
Proof.
  intros H. apply Forall_fmap, Forall_filter. eapply Forall_impl; [exact H|].
  intros m [_ Hw]. cbn. lia.
Qed.

Lemma sum_weights_ok ms sw : Forall meta_ok ms ->
  sum_weights ms = Ok sw <-> sw = Zsum (weight <$> unblocked ms) /\ sw <= u64_max.
Proof.
  intros H. unfold sum_weights. rewrite sum_u64_ok by by apply unblocked_weights_nonneg.
  split; intros [-> ?]; done.
Qed.

(** [m'] is [m] after some running time has been charged to it. *)
Definition charged (m m' : ThreadMeta) : Prop :=
  weight m' = weight m /\ blocked m' = blocked m /\ vruntime m <= vruntime m'.

Lemma charged_refl m : charged m m.
Proof. by split_and!. Qed.

#[local] Hint Resolve charged_refl : molt.

Lemma charged_list_refl ms : Forall2 charged ms ms.
Proof. induction ms; constructor; auto with molt. Qed.

Lemma charged_unblocked ms ms' : Forall2 charged ms ms' ->
  weight <$> unblocked ms' = weight <$> unblocked ms.
Proof.
  unfold unblocked. induction 1 as [|m m' ms ms' (Hw & Hb & _) _ IH]; [done|].
  rewrite !filter_cons, Hb. case_decide; csimpl; congruence.
Qed.

Lemma charge_current_spec s ts s' : eevdf_wf s -> 0 <= ts -> charge_current s ts = Ok s' ->
  eevdf_wf s' /\ Forall2 charged (metadata s) (metadata s') /\
  threads s' = threads s /\ current s' = current s /\
  min_vruntime s' = min_vruntime s /\ last_switch_tick s' = last_switch_tick s.
Proof.
  intros Hwf Hts H. pose proof Hwf as [Hlen Hcur Hm Hmin Htick]. unfold charge_current in H.
  destruct (current s) as [prev|] eqn:Ec.
  2: { inv_ok. split_and!; try done. apply charged_list_refl. }
  inv_ok. apply (sum_weights_ok _ _ Hm) in E as [-> Hsw].
  destruct (0 <? _) eqn:Epos.
  2: { inv_ok. split_and!; try done. apply charged_list_refl. }
  inv_arith.
  match goal with H : metadata s !! prev = Some ?x |- _ =>
    pose proof (Forall_lookup_1 _ _ _ _ Hm H) as [Hv Hw]; rename H into Hl end.
  match goal with |- context [vruntime v + ?d] => assert (0 <= d) as Hd end.
  { apply Z.div_pos; [|lia]. unfold is_u64 in *. nia. }
  split_and!; try done.
  - split; cbn; try done.
    + by rewrite length_insert.
    + intros i Hi. rewrite length_insert. rewrite Ec in Hi. injection Hi as <-. by eapply lookup_lt_Some.
    + apply Forall_insert; [done|]. unfold meta_ok, is_u64 in *. cbn. lia.
  - cbn. apply Forall2_same_length_lookup_2; [by rewrite length_insert|].
    intros j m m' Hj Hj'. destruct (decide (j = prev)) as [->|Hne].
    + rewrite list_lookup_insert_eq in Hj' by by eapply lookup_lt_Some.
      simplify_eq. unfold charged; cbn. split_and!; try done. lia.
    + rewrite list_lookup_insert_ne in Hj' by done. simplify_eq. apply charged_refl.
Qed.

(** [a]'s virtual deadline is not after [b]'s. *)
Definition no_later (ts sw : Z) (a b : ThreadMeta) : Prop :=
  exists da db, virtual_deadline a ts sw = Ok da /\ virtual_deadline b ts sw = Ok db /\ da <= db.

Lemma no_later_trans ts sw a b c : no_later ts sw a b -> no_later ts sw b c -> no_later ts sw a c.
Proof.
  intros (da & db & Ha & Hb & ?) (db' & dc & Hb' & Hc & ?). exists da, dc.
  split_and!; try done. rewrite Hb in Hb'. injection Hb' as ->. lia.
Qed.

Lemma min_step_panic ts sw l p : foldl (min_step ts sw) (Panic p) l = Panic p.
Proof. by induction l. Qed.

Lemma min_fold_spec ts sw l a r : foldl (min_step ts sw) (Ok a) l = Ok r ->
  r ∈ a :: l /\ forall y, y ∈ a :: l -> y = r \/ no_later ts sw (snd r) (snd y).
Proof.
  revert a. induction l as [|z l IH]; intros a H; cbn [foldl] in H.
  - injection H as <-. split; [by left|]. intros y Hy. apply list_elem_of_singleton in Hy. by left.
  - unfold min_step at 2 in H. cbn [mbind outcome_bind] in H.
    destruct (virtual_deadline (snd a) ts sw) as [da|] eqn:Ea; [|cbn [mbind outcome_bind] in H; by rewrite min_step_panic in H].
    cbn [mbind outcome_bind] in H.
    destruct (virtual_deadline (snd z) ts sw) as [dz|] eqn:Ez; [|cbn [mbind outcome_bind] in H; by rewrite min_step_panic in H].
    cbn [mbind outcome_bind] in H. apply IH in H as [Hin Hle].
    set (b := if dz <? da then z else a) in *.
    assert (Hba : no_later ts sw (snd b) (snd a) /\ no_later ts sw (snd b) (snd z)).
    { subst b. case_match; (split; [exists (if dz <? da then dz else da), da
        |exists (if dz <? da then dz else da), dz]; case_match; split_and!; try done; lia). }
    assert (Hb : b = a \/ b = z) by (subst b; case_match; auto). clearbody b. split.
    + apply elem_of_cons in Hin as [->|Hin]; [|by do 2 right].
      destruct Hb as [->| ->]; [by left|by right; left].
    + intros y Hy. rewrite !elem_of_cons in Hy.
      assert (Hr : b = r \/ no_later ts sw (snd r) (snd b)) by (apply Hle; by left).
      destruct Hba as [Hba Hbz]. destruct Hy as [->|[->|Hy]]; [| |apply Hle; by right].
      * right. destruct Hr as [->|Hr]; [done|by eapply no_later_trans].
      * right. destruct Hr as [->|Hr]; [done|by eapply no_later_trans].
Qed.

Lemma min_by_deadline_spec ts sw l r : min_by_deadline ts sw l = Ok r ->
  match r with
  | None => l = []
  | Some x => x ∈ l /\ forall y, y ∈ l -> y = x \/ no_later ts sw (snd x) (snd y)
  end.
Proof.
  destruct l as [|a l]; cbn [min_by_deadline].
  - by intros [= <-].
  - intros (x & H & ->)%fmap_ok. by apply min_fold_spec.
Qed.

Lemma elem_of_enumerate {A} (l : list A) i x : (i, x) ∈ enumerate l <-> l !! i = Some x.
Proof.
  unfold enumerate. rewrite list_elem_of_lookup. split.
  - intros [j Hj]. rewrite list_lookup_imap in Hj.
    destruct (l !! j) eqn:E; cbn in Hj; [|done]. congruence.
  - intros H. exists i. by rewrite list_lookup_imap, H.
Qed.

(** What [pick_next] returns when [minv] is the least runnable virtual runtime. *)
Definition picked (ms : list ThreadMeta) (minv ts sw : Z) (r : option nat) : Prop :=
  match r with
  | None => Forall (fun m => blocked m = true) ms
  | Some i => exists m, ms !! i = Some m /\ eligible minv (Z.max sw 1) m = true /\
      forall j m', ms !! j = Some m' -> eligible minv (Z.max sw 1) m' = true ->
        j = i \/ no_later ts sw m m'
  end.

Lemma eligible_exists ms minv sw : Forall meta_ok ms -> 0 <= sw ->
  min_list (vruntime <$> unblocked ms) = Some minv ->
  exists i m, ms !! i = Some m /\ eligible minv (Z.max sw 1) m = true.
Proof.
  intros Hm Hsw Hmin. apply min_list_spec in Hmin as [Hin _].
  apply list_elem_of_fmap in Hin as (m & -> & Hin).
  apply list_elem_of_filter in Hin as [Hb Hin].
  pose proof (proj1 (Forall_forall _ _) Hm m Hin) as [Hv _].
  apply list_elem_of_lookup in Hin as [i Hi]. exists i, m. split; [done|].
  unfold eligible, saturating_add. rewrite Hb. cbn. unfold is_u64 in *. lia.
Qed.

Lemma pick_next_spec ms minv minv0 ts sw r : Forall meta_ok ms -> 0 <= sw ->
  minv = default minv0 (min_list (vruntime <$> unblocked ms)) ->
  pick_next ms minv ts sw = Ok r -> picked ms minv ts sw r.
Proof.
  intros Hm Hsw Hmin H. revert Hmin. unfold pick_next in H. inv_ok. intros Hmin.
  apply min_by_deadline_spec in E.
  destruct v as [[i m]|]; cbn [picked].
  - destruct E as [Hin Hle]. apply list_elem_of_filter in Hin as [He Hin].
    apply elem_of_enumerate in Hin. exists m. split_and!; [done..|].
    intros j m' Hj He'. destruct (Hle (j, m')) as [[= -> ->]|Hn]; [|by left|by right].
    apply list_elem_of_filter. by rewrite elem_of_enumerate.
  - destruct (min_list _) as [v|] eqn:Em.
    + cbn in Hmin. subst v. exfalso.
      destruct (eligible_exists ms minv sw Hm Hsw Em) as (i & m & Hi & He).
      assert ((i, m) ∈ filter (fun p : nat * ThreadMeta => eligible minv (sw `max` 1) p.2 = true) (enumerate ms)) as Hin.
      { apply list_elem_of_filter. by rewrite elem_of_enumerate. }
      rewrite E in Hin. by apply elem_of_nil in Hin.
    + apply min_list_None, fmap_nil_inv in Em.
      assert (Hall : Forall (fun m => blocked m = true) ms).
      { apply Forall_forall. intros m Hin. destruct (blocked m) eqn:Eb; [done|].
        assert (m ∈ unblocked ms) as Hu by by apply list_elem_of_filter.
        rewrite Em in Hu. by apply elem_of_nil in Hu. }
      destruct (list_find _ ms) as [[i m]|] eqn:Ef; cbn; [|done].
      apply list_find_Some in Ef as (Hi & Hb & _).
      pose proof (Forall_lookup_1 _ _ _ _ Hall Hi). congruence.
Qed.

(** ** What one scheduling decision does *)

Definition least_runnable (ms : list ThreadMeta) (dflt : Z) : Z :=
  default dflt (min_list (vruntime <$> unblocked ms)).

Record ticked (s : EevdfScheduler) (bootstrap tick : Z)
    (s' : EevdfScheduler) (r : option (Z * Z)) : Prop := {
  tk_wf : eevdf_wf s';
  tk_threads : threads s' = threads s;
  tk_charged : Forall2 charged (metadata s) (metadata s');
  tk_min : min_vruntime s' = least_runnable (metadata s') (min_vruntime s);
  tk_choice : exists next,
    picked (metadata s') (min_vruntime s') (time_slice_of s tick)
           (Zsum (weight <$> unblocked (metadata s'))) next /\
    match r with
    | Some (from, to) => exists i t, next = Some i /\ current s' = Some i /\
        last_switch_tick s' = tick /\ threads s !! i = Some t /\ to = context_ptr t /\
        from_context s (current s) bootstrap = Ok from
    | None => current s' = current s /\ last_switch_tick s' = last_switch_tick s /\
        match next with
        | None => True
        | Some i => current s = Some i /\ tick <> 0 /\ tick <= last_switch_tick s
        end
    end;
}.

Lemma least_runnable_u64 ms d : Forall meta_ok ms -> is_u64 d -> is_u64 (least_runnable ms d).
Proof.
  intros Hm Hd. unfold least_runnable. destruct (min_list _) as [v|] eqn:E; cbn; [|done].
  apply min_list_spec in E as [Hin _]. apply list_elem_of_fmap in Hin as (m & -> & Hin).
  apply list_elem_of_filter in Hin as [_ Hin]. by apply (proj1 (Forall_forall _ _) Hm).
Qed.

Lemma time_slice_pos s tick : 1 <= time_slice_of s tick.
Proof. unfold time_slice_of, MIN_TIME_SLICE. case_match; lia. Qed.

Lemma eevdf_tick_prepare_ticked s bootstrap tick s' r :
  eevdf_wf s -> is_u64 tick -> threads s <> [] ->
  eevdf_tick_prepare s bootstrap tick = Ok (s', r) -> ticked s bootstrap tick s' r.
Proof.
  intros Hwf Htick Hne H. unfold eevdf_tick_prepare in H.
  rewrite bool_decide_eq_false_2 in H by done.
  pose proof (time_slice_pos s tick) as Hts.
  apply bind_ok in H as (s1 & Ech & H).
  destruct (charge_current_spec s (time_slice_of s tick) s1 Hwf ltac:(lia) Ech) as (Hwf1 & Hch & Hth & Hcur & Hmin & Hlast).
  pose proof Hwf1 as [Hlen1 Hcur1 Hm1 Hmin1 Htick1].
  apply bind_ok in H as (sw & Esw & H). cbn [metadata refresh_min] in Esw, H.
  apply (sum_weights_ok _ _ Hm1) in Esw as [-> Hsw].
  apply bind_ok in H as (next & Epk & H). cbn [min_vruntime refresh_min] in Epk.
  change (default _ _) with (least_runnable (metadata s1) (min_vruntime s1)) in Epk.
  apply (pick_next_spec _ _ (min_vruntime s1)) in Epk; [|done|by apply Zsum_nonneg, unblocked_weights_nonneg|done].
  rewrite Hmin in *. pose proof (least_runnable_u64 _ _ Hm1 Hmin1) as Hlr.
  assert (Hwf' : eevdf_wf (refresh_min s1)).
  { split; cbn; try done. by rewrite Hmin. }
  destruct next as [i|].
  2: { injection H as <- <-. split; cbn; rewrite ?Hmin; try done. exists None. split_and!; done. }
  destruct (keeps_running _ _ _) eqn:Ek.
  - injection H as <- <-. split; cbn; rewrite ?Hmin; try done. exists (Some i). split; [done|].
    unfold keeps_running in Ek. apply andb_prop in Ek as [Ek E3]. apply andb_prop in Ek as [E1 E2].
    apply bool_decide_eq_true_1 in E1. cbn in E1, E3. rewrite Hcur in E1.
    unfold saturating_sub, MIN_TIME_SLICE in E3. rewrite Hlast in E3.
    split_and!; try done; lia.
  - apply bind_ok in H as (from & Ef & H). apply bind_ok in H as (t & Et & H).
    injection H as <- <-. cbn in Et. apply index_ok in Et.
    split; cbn; rewrite ?Hmin; try done.
    + split; cbn; rewrite ?Hmin; try done. intros j [= <-]. rewrite <- Hlen1. by eapply lookup_lt_Some.
    + exists (Some i). split; [done|]. exists i, t. rewrite <- Hth. split_and!; try done.
      unfold from_context in *. cbn in Ef. rewrite Hcur in Ef. destruct (current s); [|done].
      by rewrite <- Hth.
Qed.

(** ** Operations as steps *)

Inductive eevdf_op :=
  | OpSpawn (t : Thread)
  | OpSpawnWeight (t : Thread) (w : Z)
  | OpUnblock (id : Z)
  | OpTick (tick : Z)
  | OpBlock (tick : Z).

Definition op_ok (op : eevdf_op) : Prop :=
  match op with
  | OpSpawn _ | OpUnblock _ => True
  | OpSpawnWeight _ w => is_u64 w
  | OpTick tick | OpBlock tick => is_u64 tick
  end.

Definition eevdf_apply (bootstrap : Z) (op : eevdf_op) (s : EevdfScheduler)
    : outcome (EevdfScheduler * option (Z * Z)) :=
  match op with
  | OpSpawn t => Ok (eevdf_spawn s t, None)
  | OpSpawnWeight t w => Ok (eevdf_spawn_with_weight s t w, None)
  | OpUnblock id => s ← eevdf_unblock_thread s id; Ok (s, None)
  | OpTick tick => eevdf_tick_prepare s bootstrap tick
  | OpBlock tick => eevdf_block_current_and_prepare_switch s bootstrap tick
  end.

(** A run of operations, with the context switches it requested, in order. *)
Fixpoint eevdf_run (bootstrap : Z) (ops : list eevdf_op) (s : EevdfScheduler)
    : outcome (EevdfScheduler * list (Z * Z)) :=
  match ops with
  | [] => Ok (s, [])
  | op :: ops =>
      '(s, r) ← eevdf_apply bootstrap op s;
      '(s, log) ← eevdf_run bootstrap ops s;
      Ok (s, option_list r ++ log)
  end.

Lemma eevdf_new_wf : eevdf_wf eevdf_new.
Proof. split; cbn; done. Qed.

Lemma spawn_wf s t m : eevdf_wf s -> meta_ok m ->
  eevdf_wf (mk_eevdf (threads s ++ [t]) (metadata s ++ [m]) (current s) (min_vruntime s) (last_switch_tick s)).
Proof.
  intros [Hlen Hcur Hm Hmin Ht] Hok. split; cbn; try done.
  - rewrite !length_app. cbn. lia.
  - intros i Hi. rewrite length_app. specialize (Hcur i Hi). lia.
  - apply Forall_app. split; [done|]. by constructor.
Qed.

Lemma set_blocked_wf s i m b : eevdf_wf s -> metadata s !! i = Some m ->
  eevdf_wf (with_metadata s (<[i := set_blocked b m]> (metadata s))).
Proof.
  intros [Hlen Hcur Hm Hmin Ht] Hi. split; cbn; try done; rewrite ?length_insert; try done.
  apply Forall_insert; [done|]. by apply (Forall_lookup_1 _ _ _ _ Hm Hi).
Qed.

(** [unblock_thread] clears the flag of the first thread with the id, if any. *)
Lemma unblock_from_spec k ts ms id : (k + length ts <= length ms)%nat ->
  exists ms', unblock_from k ts ms id = Ok ms' /\
    match list_find (fun t => thread_id t = id) ts with
    | None => ms' = ms
    | Some (i, _) => exists m, ms !! (k + i)%nat = Some m /\
        ms' = <[(k + i)%nat := set_blocked false m]> ms
    end.
Proof.
  revert k. induction ts as [|t ts IH]; intros k Hk; cbn [unblock_from list_find] in *.
  - eauto.
  - destruct (Z.eqb_spec (thread_id t) id) as [He|He].
    + rewrite decide_True by done. rewrite Nat.add_0_r.
      destruct (lookup_lt_is_Some_2 ms k) as [m Hm]; [cbn in Hk; lia|].
      unfold index. rewrite Hm. cbn [mbind outcome_bind].
      unfold index_set. rewrite decide_True by by eapply lookup_lt_Some. eauto.
    + rewrite decide_False by done.
      destruct (IH (S k)) as (ms' & E & H); [cbn in Hk; lia|]. exists ms'. split; [done|].
      destruct (list_find _ ts) as [[i t']|]; cbn in *; [|done].
      by rewrite Nat.add_succ_r.
Qed.

Lemma unblock_thread_spec s id : eevdf_wf s ->
  exists s', eevdf_unblock_thread s id = Ok s' /\ eevdf_wf s' /\
    threads s' = threads s /\ current s' = current s /\
    match list_find (fun t => thread_id t = id) (threads s) with
    | None => metadata s' = metadata s
    | Some (i, _) => exists m, metadata s !! i = Some m /\
        metadata s' = <[i := set_blocked false m]> (metadata s)
    end.
Proof.
  intros Hwf. unfold eevdf_unblock_thread.
  destruct (unblock_from_spec 0 (threads s) (metadata s) id) as (ms & -> & H).
  { by rewrite (wf_len s Hwf). }
  cbn [mbind outcome_bind]. eexists. split; [done|].
  destruct (list_find _ _) as [[i t]|]; cbn [Nat.add] in H.
  - destruct H as (m & Hm & ->). split_and!; try done; [by apply set_blocked_wf|]. eauto.
  - subst ms. split_and!; try done. by destruct s.
Qed.

(** Blocking the current thread before a tick. *)
Lemma block_current_ok s bootstrap tick s' r : eevdf_wf s ->
  eevdf_block_current_and_prepare_switch s bootstrap tick = Ok (s', r) ->
  exists s0, eevdf_wf s0 /\ threads s0 = threads s /\ current s0 = current s /\
    last_switch_tick s0 = last_switch_tick s /\
    (forall i, current s = Some i -> exists m, metadata s !! i = Some m /\
       metadata s0 = <[i := set_blocked true m]> (metadata s)) /\
    eevdf_tick_prepare s0 bootstrap tick = Ok (s', r).
Proof.
  intros Hwf H. unfold eevdf_block_current_and_prepare_switch in H.
  apply bind_ok in H as (s0 & E & H). exists s0.
  destruct (current s) as [i|] eqn:Ec.
  - inv_ok. split_and!; try done; [by apply set_blocked_wf|].
    intros j [= <-]. eauto.
  - inv_ok. split_and!; try done. 
Qed.

Lemma tick_empty s bootstrap tick : threads s = [] -> eevdf_tick_prepare s bootstrap tick = Ok (s, None).
Proof. intros H. unfold eevdf_tick_prepare. by rewrite bool_decide_eq_true_2. Qed.

Lemma eevdf_invariant_step bootstrap op s s' r :
  eevdf_wf s -> op_ok op -> eevdf_apply bootstrap op s = Ok (s', r) -> eevdf_wf s'.
Proof.
  intros Hwf Hop E. destruct op as [t|t w|id|tick|tick]; cbn in E.
  - injection E as <- <-. apply spawn_wf; [done|]. unfold meta_ok, is_u64. cbn. unfold u64_max, DEFAULT_WEIGHT. lia.
  - injection E as <- <-. apply spawn_wf; [done|]. cbn in Hop. unfold meta_ok, is_u64, u64_max in *. cbn. lia.
  - destruct (unblock_thread_spec s id Hwf) as (s3 & E3 & Hwf3 & _). rewrite E3 in E.
    by injection E as <- <-.
  - destruct (decide (threads s = [])) as [He|Hne].
    + rewrite tick_empty in E by done. by injection E as <- <-.
    + by eapply eevdf_tick_prepare_ticked in E as [].
  - apply block_current_ok in E as (s0 & Hwf0 & Hth & _ & _ & _ & E); [|done].
    destruct (decide (threads s0 = [])) as [He|Hne].
    + rewrite tick_empty in E by done. by injection E as <- <-.
    + by eapply eevdf_tick_prepare_ticked in E as [].
Qed.

(** C30. The scheduler's vectors stay consistent: one metadata entry per thread, a
    current index in range, positive weights and in-range counters hold initially and
    after every operation that returns. *)
Theorem eevdf_invariant bootstrap ops s' log :
  Forall op_ok ops -> eevdf_run bootstrap ops eevdf_new = Ok (s', log) -> eevdf_wf s'.
Proof.
  intros Hops. generalize eevdf_new_wf. generalize eevdf_new. revert s' log.
  induction Hops as [|op ops Hop _ IH]; intros s' log s Hwf H; cbn in H.
  - by injection H as <- <-.
  - apply bind_ok in H as ([s1 r] & E & H). apply bind_ok in H as ([s2 log'] & E2 & H).
    injection H as <- <-. eapply IH; [|done]. by eapply eevdf_invariant_step.
Qed.


(** ** Who is running *)

(** The context of the thread the processor is executing. *)
Definition running_ctx (bootstrap : Z) (s : EevdfScheduler) : outcome Z :=
  from_context s (current s) bootstrap.

(** Each switch leaves the context the previous one entered. *)
Fixpoint switch_chain (running : Z) (log : list (Z * Z)) : Prop :=
  match log with
  | [] => True
  | (from, to) :: log => from = running /\ switch_chain to log
  end.

Lemma running_ctx_ok bootstrap s : eevdf_wf s -> exists p, running_ctx bootstrap s = Ok p.
Proof.
  intros [Hlen Hcur _ _ _]. unfold running_ctx, from_context.
  destruct (current s) as [i|]; [|eauto].
  destruct (lookup_lt_is_Some_2 (threads s) i) as [t Ht]; [rewrite Hlen; auto|].
  unfold index. rewrite Ht. cbn. eauto.
Qed.

Lemma running_ctx_app bootstrap s t m p :
  running_ctx bootstrap s = Ok p ->
  running_ctx bootstrap (mk_eevdf (threads s ++ [t]) m (current s) (min_vruntime s) (last_switch_tick s)) = Ok p.
Proof.
  unfold running_ctx, from_context. cbn. destruct (current s); [|done].
  intros H. inv_ok. unfold index. by erewrite lookup_app_l_Some.
Qed.

Lemma running_ctx_known bootstrap s p : running_ctx bootstrap s = Ok p ->
  p ∈ bootstrap :: (context_ptr <$> threads s).
Proof.
  unfold running_ctx, from_context. destruct (current s); intros H; [|injection H as <-; by left].
  apply bind_ok in H as (t & E & H). injection H as <-. apply index_ok in E.
  right. apply list_elem_of_fmap. exists t. split; [done|]. by eapply list_elem_of_lookup_2.
Qed.

(** A tick neither adds nor removes threads. *)
Lemma tick_threads bootstrap s tick s' r : eevdf_wf s -> is_u64 tick ->
  eevdf_tick_prepare s bootstrap tick = Ok (s', r) -> threads s' = threads s.
Proof.
  intros Hwf Ht H. destruct (decide (threads s = [])) as [He|Hne].
  - rewrite tick_empty in H by done. by injection H as <- <-.
  - by destruct (eevdf_tick_prepare_ticked _ _ _ _ _ Hwf Ht Hne H).
Qed.

(** What an operation's answer says about the running context. *)
Lemma tick_running bootstrap s tick s' r p : eevdf_wf s -> is_u64 tick ->
  eevdf_tick_prepare s bootstrap tick = Ok (s', r) -> running_ctx bootstrap s = Ok p ->
  match r with
  | None => running_ctx bootstrap s' = Ok p
  | Some (from, to) => from = p /\ running_ctx bootstrap s' = Ok to
  end.
Proof.
  intros Hwf Ht H Hp. destruct (decide (threads s = [])) as [He|Hne].
  { rewrite tick_empty in H by done. by injection H as <- <-. }
  destruct (eevdf_tick_prepare_ticked _ _ _ _ _ Hwf Ht Hne H) as [_ Hth _ _ (next & _ & Hr)].
  unfold running_ctx, from_context in *. destruct r as [[from to]|].
  - destruct Hr as (i & t & -> & Hcur & _ & Hi & -> & Hfrom). split; [congruence|].
    rewrite Hcur, Hth. unfold index. by rewrite Hi.
  - destruct Hr as (Hcur & _). by rewrite Hcur, Hth.
Qed.

Lemma apply_running bootstrap op s s' r p : eevdf_wf s -> op_ok op ->
  eevdf_apply bootstrap op s = Ok (s', r) -> running_ctx bootstrap s = Ok p ->
  eevdf_wf s' /\
  match r with
  | None => running_ctx bootstrap s' = Ok p
  | Some (from, to) => from = p /\ running_ctx bootstrap s' = Ok to
  end.
Proof.
  intros Hwf Hop H Hp. split.
  { apply (eevdf_invariant_step bootstrap op s s' r); done. }
  destruct op as [t|t w|id|tick|tick]; cbn in H.
  - injection H as <- <-. by apply running_ctx_app.
  - injection H as <- <-. by apply running_ctx_app.
  - destruct (unblock_thread_spec s id Hwf) as (s3 & E3 & _ & Hth & Hcur & _). rewrite E3 in H.
    injection H as <- <-. unfold running_ctx, from_context in *. by rewrite Hcur, Hth.
  - by eapply tick_running.
  - apply block_current_ok in H as (s0 & Hwf0 & Hth & Hcur & _ & _ & E); [|done].
    eapply tick_running; try done. unfold running_ctx, from_context in *. by rewrite Hcur, Hth.
Qed.

(** C6. Every context switch the scheduler requests saves the thread that is really
    running: along any run of operations from boot, the first switch leaves the
    bootstrap context and each later one leaves exactly the context the one before
    entered. *)
Theorem eevdf_switch_chain bootstrap ops s' log :
  Forall op_ok ops -> eevdf_run bootstrap ops eevdf_new = Ok (s', log) ->
  switch_chain bootstrap log.
Proof.
  intros Hops H.
  assert (Hg : forall s p, eevdf_wf s -> running_ctx bootstrap s = Ok p ->
    eevdf_run bootstrap ops s = Ok (s', log) -> switch_chain p log).
  2: { apply (Hg eevdf_new); [apply eevdf_new_wf|done|done]. }
  clear H. revert s' log. induction Hops as [|op ops Hop _ IH]; intros s' log s p Hwf Hp H; cbn in H.
  - by injection H as <- <-.
  - apply bind_ok in H as ([s1 r] & E & H). apply bind_ok in H as ([s2 log'] & E2 & H).
    injection H as <- <-. destruct (apply_running _ _ _ _ _ _ Hwf Hop E Hp) as [Hwf1 Hr].
    destruct r as [[from to]|]; cbn.
    + destruct Hr as [-> Hr]. split; [done|]. by eapply IH.
    + by eapply IH.
Qed.

Lemma eevdf_blocked s bootstrap tick s' r i :
  eevdf_wf s -> is_u64 tick -> current s = Some i ->
  eevdf_block_current_and_prepare_switch s bootstrap tick = Ok (s', r) ->
  (exists m, metadata s' !! i = Some m /\ blocked m = true) /\
  match r with
  | Some (from, to) => exists j m t u, j <> i /\ current s' = Some j /\
      metadata s' !! j = Some m /\ blocked m = false /\
      threads s !! i = Some t /\ from = context_ptr t /\
      threads s !! j = Some u /\ to = context_ptr u
  | None => Forall (fun m => blocked m = true) (metadata s')
  end.
Proof.
  intros Hwf Ht Hc H. apply block_current_ok in H as (s0 & Hwf0 & Hth & Hcur & _ & Hb & E); [|done].
  destruct (Hb i Hc) as (m0 & Hm0 & Hmeta).
  assert (Hil : (i < length (metadata s))%nat) by by eapply lookup_lt_Some.
  assert (Hne : threads s0 <> []).
  { rewrite Hth. intros He. pose proof (wf_len s Hwf) as Hl. rewrite He in Hl. cbn in Hl. lia. }
  destruct (eevdf_tick_prepare_ticked _ _ _ _ _ Hwf0 Ht Hne E) as [_ _ Hch _ (next & Hpk & Hr)].
  assert (Hi : exists m, metadata s' !! i = Some m /\ blocked m = true).
  { assert (Hi0 : metadata s0 !! i = Some (set_blocked true m0)).
    { rewrite Hmeta. by apply list_lookup_insert_eq. }
    destruct (Forall2_lookup_l _ _ _ _ _ Hch Hi0) as (m & Hm & (_ & Hbl & _)). eauto. }
  split; [done|]. destruct Hi as (mi & Hmi & Hbi).
  assert (Hnext : forall j, next = Some j -> j <> i /\ exists m, metadata s' !! j = Some m /\ blocked m = false).
  { intros j ->. destruct Hpk as (m & Hm & He & _). unfold eligible in He.
    apply andb_prop in He as [Hnb _]. apply negb_true_iff in Hnb. split; [|eauto].
    intros ->. congruence. }
  destruct r as [[from to]|].
  - destruct Hr as (j & u & -> & Hc' & _ & Hu & -> & Hfrom).
    destruct (Hnext j eq_refl) as (Hji & m & Hm & Hbm). rewrite Hth in Hu.
    rewrite Hcur, Hc in Hfrom. cbn in Hfrom. inv_ok. rewrite Hth in E0. exists j, m, v, u. split_and!; done.
  - destruct Hr as (_ & _ & Hn). destruct next as [j|]; [|done].
    destruct Hn as [Hj _]. destruct (Hnext j eq_refl) as [Hji _]. congruence.
Qed.

(** Blocking really gives the processor away: when the current thread blocks
    itself, a requested switch leaves its context and enters a different, runnable
    thread; no switch is requested only if every thread is blocked. *)
Theorem eevdf_block_switches s bootstrap tick s' r i :
  eevdf_wf s -> is_u64 tick -> current s = Some i ->
  eevdf_block_current_and_prepare_switch s bootstrap tick = Ok (s', r) ->
  (exists m, metadata s' !! i = Some m /\ blocked m = true) /\
  match r with
  | Some (from, to) => exists j m t u, j <> i /\ current s' = Some j /\
      metadata s' !! j = Some m /\ blocked m = false /\
      threads s !! i = Some t /\ from = context_ptr t /\
      threads s !! j = Some u /\ to = context_ptr u
  | None => Forall (fun m => blocked m = true) (metadata s')
  end.
Proof. apply eevdf_blocked. Qed.

(** ** Absence of overflow *)

Lemma Zsum_unblocked_le ms : Forall meta_ok ms ->
  Zsum (weight <$> unblocked ms) <= Zsum (weight <$> ms).
Proof.
  unfold unblocked. induction 1 as [|m ms [_ Hw] _ IH]; [done|].
  rewrite filter_cons. case_decide; csimpl; lia.
Qed.

Lemma weight_le_sum ms m : Forall meta_ok ms -> m ∈ ms -> weight m <= Zsum (weight <$> ms).
Proof.
  intros Hm Hin. apply Zsum_elem; [|by apply list_elem_of_fmap_2].
  apply Forall_fmap. eapply Forall_impl; [exact Hm|]. intros x [_ ?]. cbn. lia.
Qed.

(** Room for one decision: virtual runtimes below [2^62], and the scaled time slice
    times the total weight at most [2^62]. *)
Definition fits (s : EevdfScheduler) (ts : Z) : Prop :=
  Forall (fun m => vruntime m <= 2 ^ 62) (metadata s) /\
  ts * Zsum (weight <$> metadata s) * 1024 <= 2 ^ 62.

Lemma min_fold_returns ts sw l a :
  Forall (fun y => returns (virtual_deadline (snd y) ts sw)) (a :: l) ->
  returns (foldl (min_step ts sw) (Ok a) l).
Proof.
  revert a. induction l as [|z l IH]; intros a H; [by eexists|]. cbn [foldl].
  apply Forall_cons in H as [[da Ha] H]. apply Forall_cons in H as [[dz Hz] H].
  unfold min_step at 2. cbn [mbind outcome_bind]. rewrite Ha, Hz. cbn [mbind outcome_bind].
  apply IH. case_match; (constructor; [by eexists|done]).
Qed.

Lemma deadline_returns m ts sw : meta_ok m -> 0 <= ts -> 0 <= sw ->
  ts * sw * 1024 <= 2 ^ 62 -> vruntime m <= 2 ^ 63 -> returns (virtual_deadline m ts sw).
Proof.
  intros [Hv Hw] Hts Hsw Hb Hvm. unfold virtual_deadline, is_u64, u64_max in *.
  change (2 ^ 62) with 4611686018427387904 in *. change (2 ^ 63) with 9223372036854775808 in *.
  case_match; [by eexists|].
  assert (0 <= ts * sw * 1024 / weight m <= ts * sw * 1024).
  { split; [apply Z.div_pos; nia|]. apply Z.div_le_upper_bound; nia. }
  rewrite u64_mul_returns by (unfold u64_max; nia). cbn [mbind outcome_bind].
  rewrite u64_mul_returns by (unfold u64_max; lia). cbn [mbind outcome_bind].
  rewrite u64_div_returns by lia. cbn [mbind outcome_bind].
  rewrite u64_add_returns by (unfold u64_max; lia). by eexists.
Qed.

Lemma sum_weights_returns ms : Forall meta_ok ms -> Zsum (weight <$> ms) <= u64_max ->
  sum_weights ms = Ok (Zsum (weight <$> unblocked ms)).
Proof.
  intros Hm Hs. apply sum_weights_ok; [done|]. split; [done|].
  pose proof (Zsum_unblocked_le _ Hm). lia.
Qed.

Lemma charge_current_returns s ts : eevdf_wf s -> 1 <= ts -> fits s ts ->
  exists s', charge_current s ts = Ok s' /\
    Forall (fun m => vruntime m <= 2 ^ 63) (metadata s').
Proof.
  intros [_ Hcur Hm _ _] Hts [Hv Hw]. change (2 ^ 62) with 4611686018427387904 in *.
  change (2 ^ 63) with 9223372036854775808 in *.
  assert (Hs : Forall (fun m => vruntime m <= 9223372036854775808) (metadata s)).
  { eapply Forall_impl; [exact Hv|]. cbn. lia. }
  unfold charge_current. destruct (current s) as [i|]; [|eauto].
  assert (0 <= Zsum (weight <$> metadata s)) as Hpos.
  { apply Zsum_nonneg, Forall_fmap. eapply Forall_impl; [exact Hm|]. intros m [_ ?]. cbn. lia. }
  rewrite sum_weights_returns by (done || unfold u64_max; nia). cbn [mbind outcome_bind].
  set (sw := Zsum (weight <$> unblocked _)). destruct (Z.ltb_spec 0 sw); [|eauto].
  destruct (lookup_lt_is_Some_2 (metadata s) i) as [m Hi]; [by apply Hcur|].
  unfold index at 1. rewrite Hi. cbn [mbind outcome_bind].
  pose proof (Forall_lookup_1 _ _ _ _ Hm Hi) as [[Hv0 _] [Hw1 _]].
  pose proof (Forall_lookup_1 _ _ _ _ Hv Hi) as Hvm. cbn in Hvm.
  pose proof (weight_le_sum _ m Hm (list_elem_of_lookup_2 _ _ _ Hi)) as Hle.
  assert (0 <= ts * weight m * 1024 / sw <= ts * weight m * 1024).
  { split; [apply Z.div_pos; nia|]. apply Z.div_le_upper_bound; nia. }
  rewrite u64_mul_returns by (unfold u64_max; nia). cbn [mbind outcome_bind].
  rewrite u64_mul_returns by (unfold u64_max; nia). cbn [mbind outcome_bind].
  rewrite u64_div_returns by lia. cbn [mbind outcome_bind].
  rewrite u64_add_returns by (unfold u64_max; nia). cbn [mbind outcome_bind].
  unfold index_set. rewrite decide_True by by eapply lookup_lt_Some.
  cbn [mbind outcome_bind]. eexists. split; [done|]. cbn.
  apply Forall_insert; [done|]. cbn. nia.
Qed.

Lemma pick_next_returns ms minv ts sw : Forall meta_ok ms -> 0 <= ts -> 0 <= sw ->
  ts * sw * 1024 <= 2 ^ 62 -> Forall (fun m => vruntime m <= 2 ^ 63) ms ->
  returns (pick_next ms minv ts sw).
Proof.
  intros Hm Hts Hsw Hb Hv. unfold pick_next.
  assert (Hall : Forall (fun y : nat * ThreadMeta => returns (virtual_deadline (snd y) ts sw))
     (filter (fun p => eligible minv (Z.max sw 1) (snd p) = true) (enumerate ms))).
  { apply Forall_filter, Forall_forall. intros [j m] Hin. apply elem_of_enumerate in Hin. cbn.
    apply deadline_returns; try done.
    - by apply (Forall_lookup_1 _ _ _ _ Hm Hin).
    - by apply (Forall_lookup_1 _ _ _ _ Hv Hin). }
  destruct (filter _ _) as [|a l]; cbn [min_by_deadline mbind outcome_bind]; [by eexists|].
  apply min_fold_returns in Hall as [r ->]. by eexists.
Qed.

Lemma tick_returns s bootstrap tick :
  eevdf_wf s -> fits s (time_slice_of s tick) ->
  exists s' r, eevdf_tick_prepare s bootstrap tick = Ok (s', r).
Proof.
  intros Hwf Hfit. unfold eevdf_tick_prepare. case_bool_decide; [eauto|].
  pose proof (time_slice_pos s tick) as Hts.
  destruct (charge_current_returns s _ Hwf Hts Hfit) as (s1 & Ech & Hv1).
  destruct (charge_current_spec s (time_slice_of s tick) s1 Hwf ltac:(lia) Ech) as (Hwf1 & Hch & Hth & Hcur & _ & _).
  rewrite Ech. cbn [mbind outcome_bind]. destruct Hfit as [_ Hfit].
  pose proof (wf_meta _ Hwf1) as Hm1.
  assert (Hsum : Zsum (weight <$> metadata s1) = Zsum (weight <$> metadata s)).
  { f_equal. clear -Hch. induction Hch as [|m m' ms ms' (Hw & _) _ IH]; csimpl; congruence. }
  rewrite <- Hsum in Hfit. pose proof (Zsum_unblocked_le _ Hm1) as Hle.
  pose proof (Zsum_nonneg _ (unblocked_weights_nonneg _ Hm1)) as Hnn.
  cbn [metadata min_vruntime refresh_min].
  rewrite sum_weights_returns by (done || unfold u64_max; change (2 ^ 62) with 4611686018427387904 in *; nia).
  cbn [mbind outcome_bind].
  destruct (pick_next_returns (metadata s1) (least_runnable (metadata s1) (min_vruntime s1))
    (time_slice_of s tick) (Zsum (weight <$> unblocked (metadata s1)))) as [next Epk]; [done|lia|done|nia|done|].
  unfold least_runnable in Epk. rewrite Epk. cbn [mbind outcome_bind].
  apply (pick_next_spec _ _ (min_vruntime s1)) in Epk; [|done..].
  destruct next as [i|]; [|eauto]. case_match; [eauto|]. destruct Epk as (m & Hm & _).
  destruct (running_ctx_ok bootstrap s1 Hwf1) as [p Hp]. unfold running_ctx, from_context in Hp.
  unfold from_context. cbn [threads current refresh_min]. rewrite Hp. cbn [mbind outcome_bind].
  destruct (lookup_lt_is_Some_2 (threads s1) i) as [t Hi].
  { rewrite (wf_len _ Hwf1). by eapply lookup_lt_Some. }
  unfold index. rewrite Hi. cbn. eauto.
Qed.

Lemma fits_set_blocked s i m b ts : metadata s !! i = Some m -> fits s ts ->
  fits (with_metadata s (<[i := set_blocked b m]> (metadata s))) ts.
Proof.
  intros Hi [Hv Hw]. split; cbn.
  - apply Forall_insert; [done|]. by apply (Forall_lookup_1 _ _ _ _ Hv Hi).
  - rewrite list_fmap_insert, list_insert_id; [done|].
    by rewrite list_lookup_fmap, Hi.
Qed.

Definition op_fits (op : eevdf_op) (s : EevdfScheduler) : Prop :=
  match op with
  | OpTick tick | OpBlock tick => fits s (time_slice_of s tick)
  | _ => True
  end.

(** C31. No operation panics while there is room: with virtual runtimes up to [2^62] and
    [time slice * total weight * 1024] up to [2^62], every operation of the scheduler
    returns. *)
Theorem eevdf_no_panic s bootstrap op :
  eevdf_wf s -> op_ok op -> op_fits op s -> returns (eevdf_apply bootstrap op s).
Proof.
  intros Hwf Hop Hfit. destruct op as [t|t w|id|tick|tick]; cbn.
  - by eexists.
  - by eexists.
  - destruct (unblock_thread_spec s id Hwf) as (s' & -> & _). by eexists.
  - destruct (tick_returns s bootstrap tick Hwf Hfit) as (s' & r & ->). by eexists.
  - unfold eevdf_block_current_and_prepare_switch. cbn in Hfit.
    destruct (current s) as [i|] eqn:Ec; cbn [mbind outcome_bind].
    + destruct (lookup_lt_is_Some_2 (metadata s) i) as [m Hm]; [by apply (wf_cur s Hwf)|].
      unfold index. rewrite Hm. cbn [mbind outcome_bind].
      unfold index_set. rewrite decide_True by by eapply lookup_lt_Some. cbn [mbind outcome_bind].
      destruct (tick_returns (with_metadata s (<[i := set_blocked true m]> (metadata s))) bootstrap tick)
        as (s' & r & ->); [by apply set_blocked_wf| |by eexists].
      by apply fits_set_blocked.
    + destruct (tick_returns s bootstrap tick Hwf Hfit) as (s' & r & ->). by eexists.
Qed.

(** ** Examples *)

Module EevdfDemo.

Definition th (i : Z) : Thread := mk_thread i (mk_stack 0 0) (0x1000 + 0x100 * i).

Definition two : list eevdf_op :=
  [OpSpawn (th 0); OpSpawnWeight (th 1) 512; OpTick 1; OpTick 2].

Definition ops : list eevdf_op := two ++ [OpBlock 3; OpUnblock 0; OpTick 4].

(** The state after two threads have been spawned and the first ticks taken. *)
Definition s2 : EevdfScheduler :=
  match eevdf_run 7 two eevdf_new with Ok (s, _) => s | Panic _ => eevdf_new end.

Lemma s2_wf : eevdf_wf s2.
Proof.
  split; [vm_compute; reflexivity|vm_compute; intros i [= <-]; lia|..];
    repeat constructor; vm_compute; congruence.
Qed.

End EevdfDemo.

Lemma eevdf_invariant_witness : exists s log,
  eevdf_run 7 EevdfDemo.ops eevdf_new = Ok (s, log) /\ eevdf_wf s.
Proof.
  eexists _, _. split; [vm_compute; reflexivity|].
  eapply (eevdf_invariant 7 EevdfDemo.ops); [repeat constructor; vm_compute; congruence|].
  vm_compute; reflexivity.
Defined.


Lemma eevdf_switch_chain_witness : exists s log,
  eevdf_run 7 EevdfDemo.ops eevdf_new = Ok (s, log) /\ switch_chain 7 log.
Proof.
  eexists _, _. split; [vm_compute; reflexivity|].
  eapply (eevdf_switch_chain 7 EevdfDemo.ops); [repeat constructor; vm_compute; congruence|].
  vm_compute; reflexivity.
Defined.

Lemma eevdf_block_switches_witness : exists s' from to,
  eevdf_block_current_and_prepare_switch EevdfDemo.s2 7 3 = Ok (s', Some (from, to)) /\
  exists m, metadata s' !! 0%nat = Some m /\ blocked m = true.
Proof.
  eexists _, _, _. split; [vm_compute; reflexivity|].
  refine (proj1 (eevdf_block_switches EevdfDemo.s2 7 3 _ (Some (0x1000, 0x1100)) 0%nat _ _ _ _));
    [exact EevdfDemo.s2_wf|unfold is_u64, u64_max; lia|vm_compute; reflexivity|vm_compute; reflexivity].
Defined.

Lemma eevdf_no_panic_witness : returns (eevdf_apply 7 (OpBlock 3) EevdfDemo.s2).
Proof.
  apply (eevdf_no_panic EevdfDemo.s2 7 (OpBlock 3)); [exact EevdfDemo.s2_wf|split; vm_compute; congruence|].
  split; [repeat constructor|]; vm_compute; congruence.
Defined.
