(* ===== verification/Fairness.v ===== *)
(** * Fairness of the EEVDF scheduler (src/thread/schedulers/eevdf.rs)

    What a sequence of consecutive timer ticks does when no thread is spawned,
    blocked or unblocked in between: the virtual runtimes of the runnable threads
    stay close together, so every runnable thread gets the processor again; and,
    by evaluation, who gets how much of it. *)

From S2P Require Import Prelude Machine Context Stack Eevdf.

(** [n] consecutive timer ticks from tick [tick] on, with the thread running after each. *)
Fixpoint eevdf_ticks (bootstrap : Z) (n : nat) (tick : Z) (s : EevdfScheduler)
    : outcome (EevdfScheduler * list (option nat)) :=
  match n with
  | O => Ok (s, [])
  | S n =>
      '(s, _) ← eevdf_tick_prepare s bootstrap tick;
      '(s', log) ← eevdf_ticks bootstrap n (tick + 1) s;
      Ok (s', current s :: log)
  end.

(** Sum of the runnable weights; the lag tolerance when a thread is runnable. *)
Definition total_weight (ms : list ThreadMeta) : Z := Zsum (weight <$> unblocked ms).

(** The charge for one tick. *)
Definition tick_charge (ms : list ThreadMeta) (m : ThreadMeta) : Z :=
  weight m * 1024 / total_weight ms.

(** A state between two consecutive ticks of a running system: the current thread is
    runnable, its virtual runtime is within the lag tolerance of every runnable one,
    and no runnable thread is more than one tick's charge further ahead. *)
Record steady (s : EevdfScheduler) : Prop := {
  st_wf : eevdf_wf s;
  st_current : exists c m, current s = Some c /\ metadata s !! c = Some m /\ blocked m = false;
  st_spread : forall i m j m', metadata s !! i = Some m -> blocked m = false ->
    metadata s !! j = Some m' -> blocked m' = false ->
    vruntime m <= vruntime m' + total_weight (metadata s)
                  + (if decide (current s = Some i) then 0 else 1024);
  st_charge : forall m, m ∈ metadata s -> blocked m = false -> 1 <= tick_charge (metadata s) m;
}.

(** One tick advances the current thread only, by its charge. *)
Definition advanced (s s' : EevdfScheduler) : Prop :=
  exists c m, current s = Some c /\ metadata s !! c = Some m /\ blocked m = false /\
    metadata s' = <[c := mk_meta (vruntime m + tick_charge (metadata s) m) (weight m) false]> (metadata s).

Lemma member_weight ms m : Forall meta_ok ms -> m ∈ ms -> blocked m = false ->
  1 <= weight m <= total_weight ms.
Proof.
  intros Hm Hin Hb. split; [by apply (proj1 (Forall_forall _ _) Hm)|].
  apply Zsum_elem; [by apply unblocked_weights_nonneg|].
  apply list_elem_of_fmap_2, list_elem_of_filter. done.
Qed.

Lemma tick_charge_bound ms m : Forall meta_ok ms -> m ∈ ms -> blocked m = false ->
  0 <= tick_charge ms m <= 1024.
Proof.
  intros Hm Hin Hb. destruct (member_weight ms m Hm Hin Hb). unfold tick_charge. split.
  - apply Z.div_pos; lia.
  - apply Z.div_le_upper_bound; lia.
Qed.

(** The charging step of a tick one tick after the last switch. *)
Lemma charge_one s c m s1 : eevdf_wf s -> current s = Some c -> metadata s !! c = Some m ->
  blocked m = false -> charge_current s 1 = Ok s1 ->
  metadata s1 = <[c := mk_meta (vruntime m + tick_charge (metadata s) m) (weight m) false]> (metadata s).
Proof.
  intros Hwf Hc Hm Hb H. unfold charge_current in H. rewrite Hc in H.
  apply bind_ok in H as (sw & Esw & H). apply sum_weights_ok in Esw as [Hsw _]; [|by apply wf_meta].
  fold (total_weight (metadata s)) in Hsw.
  pose proof (member_weight _ _ (wf_meta s Hwf) (list_elem_of_lookup_2 _ _ _ Hm) Hb).
  destruct (Z.ltb_spec 0 sw); [|lia].
  revert Hsw. inv_arith. intros ->. simplify_eq. cbn. unfold tick_charge.
  by rewrite Hb, Z.mul_1_l.
Qed.

Lemma tick_metadata s bootstrap tick s' r : threads s <> [] ->
  eevdf_tick_prepare s bootstrap tick = Ok (s', r) ->
  exists s1, charge_current s (time_slice_of s tick) = Ok s1 /\ metadata s' = metadata s1.
Proof.
  intros Hne H. unfold eevdf_tick_prepare in H. rewrite bool_decide_eq_false_2 in H by done.
  apply bind_ok in H as (s1 & E1 & H). exists s1. split; [done|].
  apply bind_ok in H as (sw & _ & H). apply bind_ok in H as ([i|] & _ & H); [|by injection H as <- <-].
  destruct (keeps_running _ _ _); [by injection H as <- <-|].
  apply bind_ok in H as (f & _ & H). apply bind_ok in H as (t & _ & H). by injection H as <- <-.
Qed.

Lemma steady_threads s : steady s -> threads s <> [].
Proof.
  intros [Hwf (c & m & _ & Hm & _) _ _] He. apply lookup_lt_Some in Hm.
  rewrite <- (wf_len s Hwf), He in Hm. cbn in Hm. lia.
Qed.

(** The scheduler is asked at the tick of the last switch, by the keyboard, or at the next
    one, by the timer. *)
Definition soon (s : EevdfScheduler) (tick : Z) : Prop := last_switch_tick s <= tick <= last_switch_tick s + 1.

Lemma next_slice s c tick : current s = Some c -> soon s tick -> time_slice_of s tick = 1.
Proof. unfold soon, time_slice_of, saturating_sub, MIN_TIME_SLICE. intros ->. lia. Qed.

Lemma charged_total ms ms' : Forall2 charged ms ms' -> total_weight ms' = total_weight ms.
Proof. intros H. unfold total_weight. by rewrite (charged_unblocked _ _ H). Qed.

(** The choice of a tick that finds a runnable thread soon after the last switch. *)
Lemma next_tick_choice s bootstrap tick s' r : steady s -> is_u64 tick -> soon s tick ->
  eevdf_tick_prepare s bootstrap tick = Ok (s', r) ->
  exists i m, current s' = Some i /\ metadata s' !! i = Some m /\ blocked m = false /\
    last_switch_tick s' = tick /\
    vruntime m <= least_runnable (metadata s') (min_vruntime s) + total_weight (metadata s').
Proof.
  intros Hst Ht Hsoon H. pose proof Hst as [Hwf (c & mc & Hc & Hmc & Hbc) _ _].
  destruct (eevdf_tick_prepare_ticked _ _ _ _ _ Hwf Ht (steady_threads s Hst) H)
    as [Hwf' _ Hch Hmin (next & Hpk & Hr)].
  destruct (Forall2_lookup_l _ _ _ _ _ Hch Hmc) as (mc' & Hmc' & (_ & Hbc' & _)).
  rewrite Hbc in Hbc'.
  pose proof (member_weight _ _ (wf_meta s' Hwf') (list_elem_of_lookup_2 _ _ _ Hmc') Hbc') as Hw.
  assert (exists i, next = Some i /\ current s' = Some i /\ last_switch_tick s' = tick) as (i & -> & Hcur & Hlast).
  { unfold soon in Hsoon. destruct r as [[from to]|].
    - destruct Hr as (i & t & -> & Hcur & Hlast & _). by exists i.
    - destruct Hr as (Hcur & Hlast & Hn). destruct next as [i|].
      + exists i. destruct Hn as (Hi & _ & Hle). split_and!; [done|congruence|lia].
      + pose proof (Forall_lookup_1 _ _ _ _ Hpk Hmc'). cbn in *. congruence. }
  destruct Hpk as (m & Hm & He & _). exists i, m. unfold eligible in He. apply andb_prop in He as [Hb Hv].
  apply negb_true_iff in Hb. rewrite <- Hmin. unfold total_weight, saturating_add in *. split_and!; try done; lia.
Qed.

Lemma least_runnable_le ms d i m : ms !! i = Some m -> blocked m = false -> least_runnable ms d <= vruntime m.
Proof.
  intros Hi Hb. unfold least_runnable.
  assert (Hin : vruntime m ∈ vruntime <$> unblocked ms).
  { apply list_elem_of_fmap_2, list_elem_of_filter. split; [done|]. by eapply list_elem_of_lookup_2. }
  destruct (min_list _) as [v|] eqn:E; cbn.
  - apply min_list_spec in E as [_ E]. by apply E.
  - apply min_list_None in E. rewrite E in Hin. by apply elem_of_nil in Hin.
Qed.

Lemma tick_advances s bootstrap tick s' r : steady s -> soon s tick ->
  eevdf_tick_prepare s bootstrap tick = Ok (s', r) -> advanced s s'.
Proof.
  intros Hst Hsoon H. pose proof Hst as [Hwf (c & mc & Hc & Hmc & Hbc) _ _].
  destruct (tick_metadata _ _ _ _ _ (steady_threads s Hst) H) as (s1 & Ech & Hmeta).
  rewrite (next_slice s c tick Hc Hsoon) in Ech.
  exists c, mc. split_and!; try done. rewrite Hmeta. by apply charge_one.
Qed.

Lemma steady_tick s bootstrap tick s' r : steady s -> is_u64 tick -> soon s tick ->
  eevdf_tick_prepare s bootstrap tick = Ok (s', r) -> steady s'.
Proof.
  intros Hst Ht Hsoon H. pose proof (next_tick_choice _ _ _ _ _ Hst Ht Hsoon H) as (i & mi & Hcur' & Hmi & Hbi & _ & Hvi).
  destruct (tick_advances _ _ _ _ _ Hst Hsoon H) as (c & mc & Hc & Hmc & Hbc & Hmeta).
  pose proof (steady_threads s Hst) as Hne. destruct Hst as [Hwf _ Hsp Hcg].
  destruct (eevdf_tick_prepare_ticked _ _ _ _ _ Hwf Ht Hne H) as [Hwf' _ Hch _ _].
  pose proof (charged_total _ _ Hch) as Htot.
  split; [done|eauto| |].
  - intros k m j m' Hk Hbk Hj Hbj. rewrite Htot in *.
    pose proof (least_runnable_le _ (min_vruntime s) _ _ Hj Hbj) as Hlj.
    case_decide as Hki; [rewrite Hcur' in Hki; injection Hki as <-; simplify_eq; lia|].
    destruct (Forall2_lookup_r _ _ _ _ _ Hch Hj) as (m0' & Hj0 & (_ & Hbj0 & Hv0)).
    destruct (Forall2_lookup_r _ _ _ _ _ Hch Hk) as (m0 & Hk0 & (_ & Hbk0 & _)).
    specialize (Hsp k m0 j m0' Hk0 ltac:(congruence) Hj0 ltac:(congruence)).
    rewrite Hmeta in Hk. destruct (decide (k = c)) as [->|Hkc].
    + rewrite list_lookup_insert_eq in Hk by by eapply lookup_lt_Some.
      injection Hk as <-. cbn. rewrite decide_True in Hsp by done. simplify_eq.
      pose proof (tick_charge_bound _ _ (wf_meta s Hwf) (list_elem_of_lookup_2 _ _ _ Hmc) Hbc). lia.
    + rewrite list_lookup_insert_ne in Hk by done. simplify_eq.
      rewrite decide_False in Hsp by congruence. lia.
  - intros m Hin Hb. apply list_elem_of_lookup in Hin as [k Hk].
    destruct (Forall2_lookup_r _ _ _ _ _ Hch Hk) as (m0 & Hk0 & (Hw0 & Hb0 & _)).
    unfold tick_charge. rewrite Htot, Hw0.
    apply (Hcg m0); [by eapply list_elem_of_lookup_2|congruence].
Qed.

(** Room for [n] more ticks without overflow. *)
Definition room (n : nat) (s : EevdfScheduler) : Prop :=
  Forall (fun m => vruntime m + 1024 * Z.of_nat n <= 2 ^ 62) (metadata s) /\
  Zsum (weight <$> metadata s) * 1024 <= 2 ^ 62 /\
  last_switch_tick s + Z.of_nat n <= u64_max.

Lemma insert_unblocked ms c m d : ms !! c = Some m -> blocked m = false ->
  let ms' := <[c := mk_meta (vruntime m + d) (weight m) false]> ms in
  Zsum (vruntime <$> unblocked ms') = Zsum (vruntime <$> unblocked ms) + d /\
  length (unblocked ms') = length (unblocked ms) /\
  Zsum (weight <$> ms') = Zsum (weight <$> ms).
Proof.
  intros Hc Hb ms'. subst ms'. revert c Hc. unfold unblocked.
  induction ms as [|x ms IH]; intros [|c] Hc; [done..| |].
  - injection Hc as ->. change (<[0%nat := ?a]> (m :: ms)) with (a :: ms).
    rewrite !filter_cons, !decide_True by done. csimpl. split_and!; [lia|done|done].
  - change (<[S c := ?a]> (x :: ms)) with (x :: <[c := a]> ms). destruct (IH c Hc) as (H1 & H2 & H3).
    rewrite !filter_cons. case_decide; csimpl; rewrite ?H2, ?H3; split_and!; try done; lia.
Qed.

Lemma room_tick n s s' : eevdf_wf s -> room (S n) s -> advanced s s' ->
  last_switch_tick s' = last_switch_tick s + 1 -> room n s'.
Proof.
  intros Hwf (Hv & Hw & Ht) (c & m & _ & Hm & Hb & Hmeta) Hl. split_and!.
  - rewrite Hmeta. apply Forall_insert.
    + eapply Forall_impl; [exact Hv|]. cbn. lia.
    + pose proof (tick_charge_bound _ _ (wf_meta s Hwf) (list_elem_of_lookup_2 _ _ _ Hm) Hb).
      pose proof (Forall_lookup_1 _ _ _ _ Hv Hm). cbn in *. lia.
  - rewrite Hmeta. destruct (insert_unblocked _ _ _ (tick_charge (metadata s) m) Hm Hb) as (_ & _ & ->). done.
  - lia.
Qed.

Lemma room_returns n s bootstrap : steady s -> room (S n) s ->
  exists s' r, eevdf_tick_prepare s bootstrap (last_switch_tick s + 1) = Ok (s', r).
Proof.
  intros [Hwf (c & m & Hc & _) _ _] (Hv & Hw & Ht). apply tick_returns; [done|].
  rewrite (next_slice s c _ Hc) by (unfold soon; lia). split; [|lia]. eapply Forall_impl; [exact Hv|]. cbn. lia.
Qed.

(** The scheduler is asked [n] times in a row; the log has the running thread after each. *)
Inductive asked (bootstrap : Z) : nat -> EevdfScheduler -> list (option nat) -> EevdfScheduler -> Prop :=
  | asked_nil s : asked bootstrap 0 s [] s
  | asked_cons n s tick s1 r log s2 : is_u64 tick -> soon s tick ->
      eevdf_tick_prepare s bootstrap tick = Ok (s1, r) -> asked bootstrap n s1 log s2 ->
      asked bootstrap (S n) s (current s1 :: log) s2.

(** With room, ticks in a row return. *)
Lemma ticks_asked n s bootstrap : steady s -> room n s ->
  exists s' log, eevdf_ticks bootstrap n (last_switch_tick s + 1) s = Ok (s', log) /\ asked bootstrap n s log s'.
Proof.
  revert s. induction n as [|n IH]; intros s Hst Hroom; cbn [eevdf_ticks]; [exists s, []; split; [done|constructor]|].
  destruct (room_returns n s bootstrap Hst Hroom) as (s1 & r & Htick). rewrite Htick. cbn [mbind outcome_bind].
  assert (Hu : is_u64 (last_switch_tick s + 1)).
  { destruct Hroom as (_ & _ & ?). pose proof (wf_tick s (st_wf s Hst)). unfold is_u64 in *. lia. }
  assert (Hsoon : soon s (last_switch_tick s + 1)) by (unfold soon; lia).
  destruct (next_tick_choice _ _ _ _ _ Hst Hu Hsoon Htick) as (_ & _ & _ & _ & _ & Hl & _).
  pose proof (room_tick n s s1 (st_wf s Hst) Hroom (tick_advances _ _ _ _ _ Hst Hsoon Htick) Hl) as Hroom1.
  destruct (IH s1 (steady_tick _ _ _ _ _ Hst Hu Hsoon Htick) Hroom1) as (s' & log & Hrun & Hasked).
  rewrite Hl in Hrun. rewrite Hrun. exists s', (current s1 :: log). split; [done|by econstructor].
Qed.

(** Along a run the total virtual runtime of the runnable threads grows by at least one per
    step, and a thread that never ran is untouched. *)
Lemma asked_grows bootstrap n s log s' : asked bootstrap n s log s' -> steady s ->
  steady s' /\
  Zsum (vruntime <$> unblocked (metadata s)) + Z.of_nat n <= Zsum (vruntime <$> unblocked (metadata s')) /\
  length (unblocked (metadata s')) = length (unblocked (metadata s)) /\
  total_weight (metadata s') = total_weight (metadata s) /\
  (forall i m, metadata s !! i = Some m -> Some i ∉ current s :: log -> metadata s' !! i = Some m).
Proof.
  induction 1 as [s|n s tick s1 r log s2 Hu Hsoon Htick _ IH]; intros Hst; [split_and!; (done || lia)|].
  pose proof (tick_advances _ _ _ _ _ Hst Hsoon Htick) as (c & m & Hc & Hm & Hb & Hmeta).
  destruct (IH (steady_tick _ _ _ _ _ Hst Hu Hsoon Htick)) as (Hst' & Hsum & Hlen & Htot & Hkeep).
  destruct (insert_unblocked _ _ _ (tick_charge (metadata s) m) Hm Hb) as (Hs1 & Hl1 & Hw1).
  rewrite <- Hmeta in Hs1, Hl1, Hw1. pose proof (st_charge s Hst m (list_elem_of_lookup_2 _ _ _ Hm) Hb).
  split_and!; try done; [lia|congruence| |].
  - rewrite Htot. apply charged_total.
    by destruct (eevdf_tick_prepare_ticked _ _ _ _ _ (st_wf s Hst) Hu (steady_threads s Hst) Htick).
  - intros i mi Hi Hnot. rewrite not_elem_of_cons in Hnot. destruct Hnot as [Hic Hnot].
    apply Hkeep; [|done]. rewrite Hmeta, list_lookup_insert_ne by congruence. done.
Qed.

Lemma Zsum_bounds l a b : Forall (fun x => a <= x <= b) l ->
  Z.of_nat (length l) * a <= Zsum l <= Z.of_nat (length l) * b.
Proof. induction 1; cbn [length Zsum]; lia. Qed.

(** Every runnable virtual runtime is within the spread of every other. *)
Lemma steady_near s i m : steady s -> metadata s !! i = Some m -> blocked m = false ->
  Forall (fun v => vruntime m - (total_weight (metadata s) + 1024) <= v
                   <= vruntime m + (total_weight (metadata s) + 1024))
         (vruntime <$> unblocked (metadata s)).
Proof.
  intros [_ _ Hsp _] Hi Hb. apply Forall_fmap, Forall_forall. intros x Hx. cbn.
  apply list_elem_of_filter in Hx as [Hbx Hx]. apply list_elem_of_lookup in Hx as [j Hj].
  pose proof (Hsp _ _ _ _ Hi Hb Hj Hbx) as H1. pose proof (Hsp _ _ _ _ Hj Hbx Hi Hb) as H2.
  repeat case_decide; lia.
Qed.

(** How often the scheduler may be asked before every runnable thread has run. *)
Definition patience (s : EevdfScheduler) : Z :=
  2 * Z.of_nat (length (unblocked (metadata s))) * (total_weight (metadata s) + 1024).

Lemma asked_runs bootstrap n s log s' i m : asked bootstrap n s log s' -> steady s ->
  metadata s !! i = Some m -> blocked m = false -> patience s < Z.of_nat n -> Some i ∈ current s :: log.
Proof.
  intros Hrun Hst Hi Hb Hn. unfold patience in Hn. destruct (decide (Some i ∈ current s :: log)) as [|Hnot]; [done|exfalso].
  destruct (asked_grows _ _ _ _ _ Hrun Hst) as (Hst' & Hsum & Hlen & Htot & Hkeep). specialize (Hkeep i m Hi Hnot).
  pose proof (Zsum_bounds _ _ _ (steady_near s i m Hst Hi Hb)) as H1.
  pose proof (Zsum_bounds _ _ _ (steady_near s' i m Hst' Hkeep Hb)) as H2.
  rewrite length_fmap in H1, H2. rewrite Htot, Hlen in H2. lia.
Qed.

(** Nobody starves.  From a steady state with room for them, consecutive ticks never
    panic, and within [2 * runnable threads * (total weight + 1024)] of them every
    runnable thread is the running one at least once. *)
Theorem eevdf_no_starvation s bootstrap n i m :
  steady s -> room n s -> metadata s !! i = Some m -> blocked m = false -> patience s < Z.of_nat n ->
  exists s' log, eevdf_ticks bootstrap n (last_switch_tick s + 1) s = Ok (s', log) /\
    Some i ∈ current s :: log.
Proof.
  intros Hst Hroom Hi Hb Hn. destruct (ticks_asked n s bootstrap Hst Hroom) as (s' & log & Hrun & Hasked).
  exists s', log. split; [done|]. by eapply asked_runs.
Qed.

(** How many of the logged ticks thread [i] ran. *)
Definition ticks_of (i : nat) (log : list (option nat)) : nat :=
  length (filter (fun c => c = Some i) log).


(** A thread spawned late starts at virtual runtime 0, not at the least runnable
    one: after another thread of the same weight has run alone for 1000 ticks, the
    newcomer holds the processor for every one of the next 1900. *)
Theorem eevdf_newcomer_monopolises :
  ('(s, _) ← eevdf_ticks 7 1000 1 (eevdf_spawn eevdf_new (EevdfDemo.th 0));
   '(_, log) ← eevdf_ticks 7 1900 1001 (eevdf_spawn s (EevdfDemo.th 1));
   Ok (ticks_of 0 log, ticks_of 1 log)) = Ok (0%nat, 1900%nat).
Proof. vm_compute. reflexivity. Qed.

Lemma eevdf_no_starvation_witness : exists s' log,
  eevdf_ticks 7 (Z.to_nat 20000) 3 EevdfDemo.s2 = Ok (s', log) /\ Some 1%nat ∈ Some 0%nat :: log.
Proof.
  apply (eevdf_no_starvation EevdfDemo.s2 7 (Z.to_nat 20000) 1 (mk_meta 0 512 false)).
  - split; [exact EevdfDemo.s2_wf|exists 0%nat, (mk_meta 682 1024 false); split_and!; vm_compute; reflexivity| |].
    + intros i m j m' Hi _ Hj _. revert Hi Hj. vm_compute (metadata _). vm_compute (current _).
      destruct i as [|[|i]], j as [|[|j]]; cbn; intros; simplify_eq; vm_compute; congruence.
    + intros m. vm_compute (metadata _). rewrite !elem_of_cons, elem_of_nil.
      intros [->|[->|[]]] _; vm_compute; congruence.
  - unfold room. rewrite Z2Nat.id by lia. split_and!; [repeat constructor| |]; vm_compute; congruence.
  - vm_compute. reflexivity.
  - reflexivity.
  - rewrite Z2Nat.id by lia. vm_compute. reflexivity.
Defined.
