(* ===== verification/RoundRobin.v ===== *)
(** * The round-robin scheduler (src/thread/schedulers/round_robin.rs)

    Threads run in a fixed circular order; weights and ticks are ignored. *)

From S2P Require Import Prelude Machine Context Stack.

Record RoundRobinScheduler := mk_rr {
  rr_threads : list Thread;
  rr_current : option nat;
}.

Definition rr_new : RoundRobinScheduler := mk_rr [] None.

Definition rr_spawn (s : RoundRobinScheduler) (t : Thread) : RoundRobinScheduler :=
  mk_rr (rr_threads s ++ [t]) (rr_current s).

Definition rr_spawn_with_weight (s : RoundRobinScheduler) (t : Thread) (_weight : Z)
    : RoundRobinScheduler :=
  mk_rr (rr_threads s ++ [t]) (rr_current s).

Definition rr_len (s : RoundRobinScheduler) : nat := length (rr_threads s).

Definition rr_tick_prepare (s : RoundRobinScheduler) (bootstrap_ctx _current_tick : Z)
    : outcome (RoundRobinScheduler * option (Z * Z)) :=
  let n := length (rr_threads s) in
  if decide (n = 0%nat) then Ok (s, None) else
  let prev := rr_current s in
  let next := match prev with None => 0%nat | Some i => ((i + 1) mod n)%nat end in
  let s := mk_rr (rr_threads s) (Some next) in
  from_ctx ← match prev with
             | None => Ok bootstrap_ctx
             | Some p => t ← index (rr_threads s) p; Ok (context_ptr t)
             end;
  to_t ← index (rr_threads s) next;
  Ok (s, Some (from_ctx, context_ptr to_t)).

Definition rr_wf (s : RoundRobinScheduler) : Prop :=
  forall i, rr_current s = Some i -> (i < length (rr_threads s))%nat.

Definition rr_running_ctx (bootstrap : Z) (s : RoundRobinScheduler) : outcome Z :=
  match rr_current s with
  | None => Ok bootstrap
  | Some i => t ← index (rr_threads s) i; Ok (context_ptr t)
  end.

Definition rr_next (s : RoundRobinScheduler) : nat :=
  match rr_current s with None => 0%nat | Some i => ((i + 1) mod length (rr_threads s))%nat end.

Lemma rr_next_lt s : rr_threads s <> [] -> (rr_next s < length (rr_threads s))%nat.
Proof.
  intros Hne. unfold rr_next. assert (0 < length (rr_threads s))%nat by (destruct (rr_threads s); cbn; [done|lia]).
  destruct (rr_current s); [|done]. apply Nat.mod_upper_bound. lia.
Qed.

Lemma rr_running_ok b s : rr_wf s -> returns (rr_running_ctx b s).
Proof.
  intros Hwf. unfold rr_running_ctx. destruct (rr_current s) as [i|] eqn:E; [|by eexists].
  destruct (lookup_lt_is_Some_2 (rr_threads s) i) as [t Ht]; [by apply Hwf|].
  unfold index. rewrite Ht. by eexists.
Qed.

(** A tick with threads always switches, from the running context to the next one. *)
Lemma rr_tick_spec s b tick : rr_wf s -> rr_threads s <> [] ->
  exists from t, rr_running_ctx b s = Ok from /\ rr_threads s !! rr_next s = Some t /\
    rr_tick_prepare s b tick = Ok (mk_rr (rr_threads s) (Some (rr_next s)), Some (from, context_ptr t)).
Proof.
  intros Hwf Hne. destruct (rr_running_ok b s Hwf) as [from Hfrom].
  destruct (lookup_lt_is_Some_2 _ _ (rr_next_lt s Hne)) as [t Ht]. exists from, t.
  split_and!; [done..|]. unfold rr_tick_prepare. rewrite decide_False by (destruct (rr_threads s); done).
  unfold rr_running_ctx in Hfrom. cbn [rr_threads]. rewrite Hfrom. cbn [mbind outcome_bind].
  fold (rr_next s). unfold index. by rewrite Ht.
Qed.

Lemma rr_tick_empty s b tick : rr_threads s = [] -> rr_tick_prepare s b tick = Ok (s, None).
Proof. intros H. unfold rr_tick_prepare. by rewrite H. Qed.

(** [n] ticks in a row, with the thread running after each. *)
Fixpoint rr_ticks (b : Z) (n : nat) (s : RoundRobinScheduler)
    : outcome (RoundRobinScheduler * list (option nat)) :=
  match n with
  | O => Ok (s, [])
  | S n =>
      '(s, _) ← rr_tick_prepare s b 0;
      '(s', log) ← rr_ticks b n s;
      Ok (s', rr_current s :: log)
  end.

Lemma rr_ticks_from b n i ts : (i < length ts)%nat ->
  exists s', rr_ticks b n (mk_rr ts (Some i)) =
    Ok (s', (fun k => Some ((i + k) mod length ts)%nat) <$> seq 1 n).
Proof.
  intros Hi. assert (Hne : ts <> []) by (destruct ts; cbn in Hi; [lia|done]).
  revert i Hi. induction n as [|n IH]; intros i Hi; cbn [rr_ticks]; [by eexists|].
  destruct (rr_tick_spec (mk_rr ts (Some i)) b 0) as (f & t & _ & _ & ->);
    [intros j [= <-]; done|done|]. cbn [mbind outcome_bind rr_threads].
  pose proof (rr_next_lt (mk_rr ts (Some i)) Hne) as Hlt. cbn [rr_next rr_current rr_threads] in *.
  destruct (IH _ Hlt) as [s' ->]. cbn [mbind outcome_bind rr_current].
  exists s'. do 2 f_equal. cbn [seq fmap list_fmap]. f_equal.
  rewrite <- (fmap_S_seq 1), <- list_fmap_compose. apply list_fmap_ext. intros _ k _. cbn.
  rewrite Nat.Div0.add_mod_idemp_l. do 2 f_equal. lia.
Qed.

(** Round-robin is exactly circular: from boot, [k] ticks over [n > 0] threads never
    panic and run the threads [0, 1, ..., n-1, 0, 1, ...] in this order. *)
Theorem rr_circular_order b k ts : ts <> [] ->
  exists s', rr_ticks b k (mk_rr ts None) =
    Ok (s', (fun j => Some (j mod length ts)%nat) <$> seq 0 k).
Proof.
  intros Hne. destruct k as [|k]; [by eexists|]. cbn [rr_ticks].
  destruct (rr_tick_spec (mk_rr ts None) b 0) as (f & t & _ & _ & ->); [by intros j|done|].
  cbn [mbind outcome_bind rr_threads rr_next rr_current].
  assert (Hlt : (0 < length ts)%nat) by (destruct ts; cbn; [done|lia]).
  destruct (rr_ticks_from b k 0 ts Hlt) as [s' ->]. cbn [mbind outcome_bind rr_current].
  exists s'. cbn [seq fmap list_fmap]. by rewrite Nat.Div0.mod_0_l.
Qed.

Lemma rr_circular_order_witness : exists s',
  rr_ticks 7 5 (mk_rr [mk_thread 0 (mk_stack 0 0) 16; mk_thread 1 (mk_stack 0 0) 32] None)
  = Ok (s', [Some 0; Some 1; Some 0; Some 1; Some 0]%nat).
Proof.
  apply (rr_circular_order 7 5 [mk_thread 0 (mk_stack 0 0) 16; mk_thread 1 (mk_stack 0 0) 32]).
  discriminate.
Defined.
