(* ===== verification/KeyRing.v ===== *)
(** * Doom key events (src/ffi/mod.rs, lines 24-136 and 238-253)

    The ring buffer of decoded key events between the keyboard interrupt and
    [DG_GetKey], the scancode decoder that feeds it, and the callback that drains
    it.  The ring refines a first-in first-out queue of at most 31 events. *)

From Stdlib Require Import ZifyNat.
From S2P Require Import Prelude Machine.

Definition KEY_BUF_SIZE : nat := 32.

Record KeyEvent := mk_event {
  pressed : Z;
  key : Z;
}.

#[global] Instance KeyEvent_eq_dec : EqDecision KeyEvent.
Proof. solve_decision. Defined.

Record KeyRing := mk_ring {
  buf : list KeyEvent;
  head : nat;
  tail : nat;
}.

Definition ring_new : KeyRing := mk_ring (replicate KEY_BUF_SIZE (mk_event 0 0)) 0 0.

Definition ring_push (r : KeyRing) (ev : KeyEvent) : outcome KeyRing :=
  let next := ((tail r + 1) mod KEY_BUF_SIZE)%nat in
  if decide (next <> head r) then
    b ← index_set (buf r) (tail r) ev;
    Ok (mk_ring b (head r) next)
  else Ok r.

Definition ring_pop (r : KeyRing) : outcome (option KeyEvent * KeyRing) :=
  if decide (head r = tail r) then Ok (None, r) else
  e ← index (buf r) (head r);
  let ev := mk_event (pressed e) (key e) in
  Ok (Some ev, mk_ring (buf r) ((head r + 1) mod KEY_BUF_SIZE)%nat (tail r)).

(** ** Scancodes *)

(** PS/2 set-1 make code to Doom key; 0 means unmapped. *)
Definition scancode_to_doom (sc : Z) (extended : bool) : Z :=
  if extended then
    match sc with
    | 0x48 => 0xad | 0x50 => 0xaf | 0x4B => 0xac | 0x4D => 0xae
    | 0x1D => 0x9d | 0x38 => 0xb8
    | _ => 0
    end
  else
    match sc with
    | 0x01 => 27 | 0x0E => 0x7f | 0x0F => 9 | 0x1C => 13 | 0x39 => 32
    | 0x1D => 0x9d | 0x2A | 0x36 => 0xb6 | 0x38 => 0xb8
    | 0x3B => 0xbb | 0x3C => 0xbc | 0x3D => 0xbd | 0x3E => 0xbe | 0x3F => 0xbf
    | 0x40 => 0xc0 | 0x41 => 0xc1 | 0x42 => 0xc2 | 0x43 => 0xc3 | 0x44 => 0xc4
    | 0x57 => 0xd7 | 0x58 => 0xd8
    (* digits *)
    | 0x02 => 49 | 0x03 => 50 | 0x04 => 51 | 0x05 => 52 | 0x06 => 53
    | 0x07 => 54 | 0x08 => 55 | 0x09 => 56 | 0x0A => 57 | 0x0B => 48
    | 0x0C => 45 | 0x0D => 61
    (* q w e r t y u i o p *)
    | 0x10 => 113 | 0x11 => 119 | 0x12 => 101 | 0x13 => 114 | 0x14 => 116
    | 0x15 => 121 | 0x16 => 117 | 0x17 => 105 | 0x18 => 111 | 0x19 => 112
    (* a s d f g h j k l *)
    | 0x1E => 97 | 0x1F => 115 | 0x20 => 100 | 0x21 => 102 | 0x22 => 103
    | 0x23 => 104 | 0x24 => 106 | 0x25 => 107 | 0x26 => 108
    (* z x c v b n m , . / *)
    | 0x2C => 122 | 0x2D => 120 | 0x2E => 99 | 0x2F => 118 | 0x30 => 98
    | 0x31 => 110 | 0x32 => 109 | 0x33 => 44 | 0x34 => 46 | 0x35 => 47
    | _ => 0
    end.

(** The statics [KEY_RING] and [EXTENDED]. *)
Record doom_keys := mk_keys {
  KEY_RING : KeyRing;
  EXTENDED : bool;
}.

Definition feed_scancode (k : doom_keys) (sc : Z) : outcome doom_keys :=
  if sc =? 0xE0 then Ok (mk_keys (KEY_RING k) true) else
  let ext := EXTENDED k in
  let k := mk_keys (KEY_RING k) false in
  let pressed := Z.land sc 0x80 =? 0 in
  let make := Z.land sc 0x7F in
  let dk := scancode_to_doom make ext in
  if negb (dk =? 0) then
    r ← ring_push (KEY_RING k) (mk_event (if pressed then 1 else 0) dk);
    Ok (mk_keys r (EXTENDED k))
  else Ok k.

(** [DG_GetKey(pressed, key)]: pops an event into the caller's [i32] and [u8]. *)
Definition DG_GetKey (k : doom_keys) (m : memory) (pressed_ptr key_ptr : Z)
    : outcome (Z * doom_keys * memory) :=
  '(ev, r) ← ring_pop (KEY_RING k);
  let k := mk_keys r (EXTENDED k) in
  match ev with
  | Some ev =>
      let m := store32 m pressed_ptr (pressed ev) in
      let m := fun x => if x =? key_ptr then key ev else m x in
      Ok (1, k, m)
  | None => Ok (0, k, m)
  end.

(** ** The ring refines a bounded queue *)

#[global] Instance KeyEvent_inhabited : Inhabited KeyEvent := populate (mk_event 0 0).

Record ring_wf (r : KeyRing) : Prop := {
  rw_buf : length (buf r) = KEY_BUF_SIZE;
  rw_head : (head r < KEY_BUF_SIZE)%nat;
  rw_tail : (tail r < KEY_BUF_SIZE)%nat;
}.

Definition count (r : KeyRing) : nat := ((tail r + KEY_BUF_SIZE - head r) mod KEY_BUF_SIZE)%nat.

(** The queued events, oldest first. *)
Definition contents (r : KeyRing) : list KeyEvent :=
  (fun k => buf r !!! ((head r + k) mod KEY_BUF_SIZE)%nat) <$> seq 0 (count r).

(** The specification: a queue that drops what does not fit. *)
Definition QUEUE_CAP : nat := KEY_BUF_SIZE - 1.
Definition fifo_push (q : list KeyEvent) (ev : KeyEvent) : list KeyEvent :=
  if decide (length q < QUEUE_CAP)%nat then q ++ [ev] else q.
Definition fifo_pop (q : list KeyEvent) : option KeyEvent * list KeyEvent :=
  match q with [] => (None, []) | ev :: q => (Some ev, q) end.

(** Solve goals about ring positions. *)
Ltac ring_lia :=
  unfold count, QUEUE_CAP, KEY_BUF_SIZE in *; lia.
#[local] Ltac Zify.zify_post_hook ::= Z.to_euclidean_division_equations.

Lemma length_contents r : length (contents r) = count r.
Proof. unfold contents. by rewrite length_fmap, length_seq. Qed.

Lemma ring_push_spec r ev : ring_wf r ->
  exists r', ring_push r ev = Ok r' /\ ring_wf r' /\ contents r' = fifo_push (contents r) ev.
Proof.
  intros [Hb Hh Ht]. unfold ring_push, fifo_push. rewrite length_contents. case_decide as Hn.
  - rewrite (decide_True (P := (count r < QUEUE_CAP)%nat)) by ring_lia.
    unfold index_set. rewrite decide_True by ring_lia. cbn [mbind outcome_bind].
    eexists. split; [done|]. split; [split; cbn [buf head tail]; rewrite ?length_insert; try done; by apply Nat.mod_upper_bound|].
    assert (Hc : count (mk_ring (<[tail r:=ev]> (buf r)) (head r) ((tail r + 1) mod KEY_BUF_SIZE)%nat) = S (count r)).
    { unfold count. cbn [head tail]. ring_lia. }
    unfold contents. rewrite Hc, seq_S, fmap_app. cbn [fmap list_fmap head buf]. f_equal.
    + apply list_fmap_ext. intros x k Hk. apply list_elem_of_lookup_2, elem_of_seq in Hk.
      apply list_lookup_total_insert_ne. ring_lia.
    + f_equal. replace ((head r + (0 + count r)) mod KEY_BUF_SIZE)%nat with (tail r) by ring_lia.
      by apply list_lookup_total_insert_eq; rewrite Hb.
  - rewrite decide_False by ring_lia. by exists r.
Qed.

Lemma ring_pop_spec r : ring_wf r ->
  exists r', ring_pop r = Ok (fst (fifo_pop (contents r)), r') /\ ring_wf r' /\
    contents r' = snd (fifo_pop (contents r)).
Proof.
  intros [Hb Hh Ht]. unfold ring_pop. case_decide as He.
  - assert (contents r = []) as Hnil; [|exists r; by rewrite Hnil].
    apply nil_length_inv. rewrite length_contents. ring_lia.
  - destruct (lookup_lt_is_Some_2 (buf r) (head r)) as [e Hel]; [by rewrite Hb|].
    unfold index. rewrite Hel. cbn [mbind outcome_bind].
    assert (Hc : count r = S (count (mk_ring (buf r) ((head r + 1) mod KEY_BUF_SIZE)%nat (tail r)))).
    { unfold count. cbn [head tail]. ring_lia. }
    assert (Hcons : contents r = e :: contents (mk_ring (buf r) ((head r + 1) mod KEY_BUF_SIZE)%nat (tail r))).
    { unfold contents at 1. rewrite Hc. cbn [seq fmap list_fmap].
      replace ((head r + 0) mod KEY_BUF_SIZE)%nat with (head r) by ring_lia.
      rewrite (list_lookup_total_correct _ _ _ Hel). f_equal.
      unfold contents. cbn [buf head]. rewrite <- fmap_S_seq, <- list_fmap_compose.
      apply list_fmap_ext. intros ? j _. cbn [compose].
      by rewrite Nat.Div0.add_mod_idemp_l, <- Nat.add_assoc. }
    rewrite Hcons. destruct e as [p k]. cbn [fifo_pop fst snd].
    eexists. split; [done|]. split; [split; cbn [buf head tail]; try done; by apply Nat.mod_upper_bound|done].
Qed.

Lemma ring_new_wf : ring_wf ring_new.
Proof. split; cbn; unfold KEY_BUF_SIZE; lia. Qed.

Inductive ring_op := RPush (ev : KeyEvent) | RPop.

Fixpoint ring_run (ops : list ring_op) (r : KeyRing) : outcome (list (option KeyEvent) * KeyRing) :=
  match ops with
  | [] => Ok ([], r)
  | RPush ev :: ops => r ← ring_push r ev; ring_run ops r
  | RPop :: ops => '(o, r) ← ring_pop r; '(os, r) ← ring_run ops r; Ok (o :: os, r)
  end.

Fixpoint fifo_run (ops : list ring_op) (q : list KeyEvent) : list (option KeyEvent) * list KeyEvent :=
  match ops with
  | [] => ([], q)
  | RPush ev :: ops => fifo_run ops (fifo_push q ev)
  | RPop :: ops => let '(o, q) := fifo_pop q in let '(os, q) := fifo_run ops q in (o :: os, q)
  end.

(** The key ring refines a first-in first-out queue of capacity 31: whatever the
    sequence of pushes and pops from the empty ring, no index is out of range, and
    every pop answers what the queue answers. *)
Theorem ring_refines_fifo ops :
  exists r, ring_run ops ring_new = Ok (fst (fifo_run ops []), r) /\
    contents r = snd (fifo_run ops []).
Proof.
  change (@nil KeyEvent) with (contents ring_new). generalize ring_new_wf. generalize ring_new.
  induction ops as [|[ev|] ops IH]; intros r Hwf; cbn [ring_run fifo_run].
  - by exists r.
  - destruct (ring_push_spec r ev Hwf) as (r1 & -> & Hwf1 & <-). cbn [mbind outcome_bind]. by apply IH.
  - destruct (ring_pop_spec r Hwf) as (r1 & -> & Hwf1 & Hc). cbn [mbind outcome_bind].
    destruct (fifo_pop (contents r)) as [o q] eqn:Eq. cbn [fst snd] in *. subst q.
    destruct (IH r1 Hwf1) as (r2 & -> & Hc2). cbn [mbind outcome_bind].
    destruct (fifo_run ops (contents r1)) as [os q']. cbn in *. by exists r2.
Qed.

(** ** From keystrokes to [DG_GetKey] *)

(** A key changing state, and the bytes a PS/2 set-1 keyboard sends for it. *)
Record keystroke := mk_stroke {
  code : Z;
  extended : bool;
  down : bool;
}.

Definition scancodes (k : keystroke) : list Z :=
  (if extended k then [0xE0] else []) ++ [if down k then code k else code k + 0x80].

Definition event_of (k : keystroke) : KeyEvent :=
  mk_event (if down k then 1 else 0) (scancode_to_doom (code k) (extended k)).

(** A make code that Doom knows. *)
Definition mapped (k : keystroke) : bool :=
  (1 <=? code k) && (code k <? 0x60) && negb (scancode_to_doom (code k) (extended k) =? 0).

Fixpoint feed_all (k : doom_keys) (scs : list Z) : outcome doom_keys :=
  match scs with
  | [] => Ok k
  | sc :: scs => k ← feed_scancode k sc; feed_all k scs
  end.

(** [n] calls of [DG_GetKey] on the same two variables, reading them back. *)
Fixpoint get_keys (n : nat) (k : doom_keys) (m : memory) (pp kp : Z)
    : outcome (list (Z * option KeyEvent)) :=
  match n with
  | O => Ok []
  | S n =>
      '(r, k, m) ← DG_GetKey k m pp kp;
      l ← get_keys n k m pp kp;
      Ok ((r, if r =? 1 then Some (mk_event (load32 m pp) (m kp)) else None) :: l)
  end.

Lemma make_bits c : 0 <= c < 0x80 ->
  Z.land c 0x80 = 0 /\ Z.land c 0x7F = c /\
  Z.land (c + 0x80) 0x80 = 0x80 /\ Z.land (c + 0x80) 0x7F = c.
Proof.
  intros Hc.
  assert (H : forallb (fun n => let c := Z.of_nat n in
    (Z.land c 0x80 =? 0) && (Z.land c 0x7F =? c) &&
    (Z.land (c + 0x80) 0x80 =? 0x80) && (Z.land (c + 0x80) 0x7F =? c)) (seq 0 128) = true)
    by (vm_compute; reflexivity).
  rewrite forallb_forall in H. specialize (H (Z.to_nat c)).
  rewrite in_seq in H. specialize (H ltac:(lia)). cbn beta zeta in H. rewrite Z2Nat.id in H by lia.
  repeat (apply andb_prop in H as [H ?]). lia.
Qed.

Lemma feed_stroke k ks : ring_wf (KEY_RING k) -> EXTENDED k = false -> mapped ks = true ->
  exists k', feed_all k (scancodes ks) = Ok k' /\ ring_wf (KEY_RING k') /\ EXTENDED k' = false /\
    contents (KEY_RING k') = fifo_push (contents (KEY_RING k)) (event_of ks).
Proof.
  intros Hwf He Hm. destruct ks as [c x d]. unfold mapped in Hm. cbn [code extended] in Hm.
  apply andb_prop in Hm as [Hm Hd]. apply andb_prop in Hm as [Hc1 Hc2].
  destruct (make_bits c) as (H1 & H2 & H3 & H4); [lia|].
  assert (Hne : ((if d then c else c + 0x80) =? 0xE0) = false) by (destruct d; lia).
  assert (Hlast : forall r, ring_wf r -> exists k', feed_scancode (mk_keys r x) (if d then c else c + 0x80) = Ok k' /\
    ring_wf (KEY_RING k') /\ EXTENDED k' = false /\
    contents (KEY_RING k') = fifo_push (contents r) (event_of (mk_stroke c x d))).
  { intros r Hr. unfold feed_scancode. rewrite Hne. cbn [KEY_RING EXTENDED].
    replace (Z.land (if d then c else c + 0x80) 0x7F) with c by (destruct d; congruence).
    rewrite Hd. replace (Z.land (if d then c else c + 0x80) 0x80 =? 0) with d by (destruct d; [rewrite H1|rewrite H3]; done).
    destruct (ring_push_spec r (event_of (mk_stroke c x d)) Hr) as (r' & E & Hwf' & Hc).
    unfold event_of in *. cbn [code extended down] in *. rewrite E. cbn [mbind outcome_bind]. by eexists. }
  destruct k as [r e]. cbn [KEY_RING EXTENDED] in *. subst e.
  unfold scancodes. cbn [extended code down]. destruct (Hlast r Hwf) as (k' & E & H).
  exists k'. destruct x; cbn [app feed_all].
  - change (feed_scancode (mk_keys r false) 0xE0) with (Ok (mk_keys r true)).
    cbn [mbind outcome_bind]. by rewrite E.
  - by rewrite E.
Qed.

Lemma feed_strokes ks k : ring_wf (KEY_RING k) -> EXTENDED k = false ->
  Forall (fun x => mapped x = true) ks ->
  exists k', feed_all k (ks ≫= scancodes) = Ok k' /\ ring_wf (KEY_RING k') /\
    contents (KEY_RING k') = foldl fifo_push (contents (KEY_RING k)) (event_of <$> ks).
Proof.
  intros Hwf He Hks. revert k Hwf He. induction Hks as [|x ks Hx _ IH]; intros k Hwf He; [by exists k|].
  destruct (feed_stroke k x Hwf He Hx) as (k1 & E1 & Hwf1 & He1 & Hc1).
  destruct (IH k1 Hwf1 He1) as (k2 & E2 & Hwf2 & Hc2). exists k2. cbn [fmap list_fmap foldl]. rewrite <- Hc1.
  split; [|done]. cbn [mbind list_bind].
  assert (Happ : forall l l' k, feed_all k (l ++ l') = (k ← feed_all k l; feed_all k l')).
  { induction l as [|sc l IHl]; intros l' k0; [done|]. cbn. destruct (feed_scancode k0 sc); cbn; [apply IHl|done]. }
  rewrite Happ, E1. cbn. done.
Qed.

Lemma fifo_push_all q l : (length q + length l <= QUEUE_CAP)%nat -> foldl fifo_push q l = q ++ l.
Proof.
  revert q. induction l as [|x l IH]; intros q Hq; cbn [foldl]; [by rewrite app_nil_r|].
  cbn [length] in Hq. unfold fifo_push at 2. rewrite decide_True by lia.
  rewrite IH by (rewrite length_app; cbn [length]; lia). by rewrite <- app_assoc.
Qed.

Lemma get_keys_S n k m pp kp :
  get_keys (S n) k m pp kp =
    ('(r, k, m) ← DG_GetKey k m pp kp;
     l ← get_keys n k m pp kp;
     Ok ((r, if r =? 1 then Some (mk_event (load32 m pp) (m kp)) else None) :: l)).
Proof. done. Qed.

Lemma get_keys_spec pp kp : kp < pp \/ pp + 4 <= kp -> forall q k m,
  ring_wf (KEY_RING k) -> contents (KEY_RING k) = q ->
  Forall (fun ev => 0 <= pressed ev < 256) q ->
  get_keys (S (length q)) k m pp kp = Ok (((fun ev => (1, Some ev)) <$> q) ++ [(0, None)]).
Proof.
  intros Hap. induction q as [|ev q IH]; intros k m Hwf Hq Hp; rewrite get_keys_S; unfold DG_GetKey;
    destruct (ring_pop_spec _ Hwf) as (r & -> & Hwf' & Hc); rewrite Hq in *; cbn [fifo_pop fst snd mbind outcome_bind] in *;
    [done|].
  apply Forall_cons in Hp as [He Hp]. cbn [length].
  rewrite (IH (mk_keys r (EXTENDED k))) by done. cbn [mbind outcome_bind Z.eqb Pos.eqb fmap list_fmap app].
  do 3 f_equal. rewrite Z.eqb_refl. f_equal. destruct ev as [p kk]. cbn [pressed key]. f_equal.
  transitivity (load32 (store32 m pp p) pp); [|rewrite load32_store32; apply Z.mod_small; cbn in He; lia].
  apply load_le_ext. intros x Hx. destruct (Z.eqb_spec x kp); [lia|done].
Qed.

(** C32. Keystrokes arrive: the scancode bytes a keyboard sends for up to 31 presses and
    releases of keys Doom knows, extended ones included, are fed without a panic, and
    [DG_GetKey] then answers exactly those presses and releases, in order, and after
    them that there is no more. *)
Theorem keystrokes_delivered ks m pp kp :
  Forall (fun x => mapped x = true) ks -> (length ks <= QUEUE_CAP)%nat ->
  kp < pp \/ pp + 4 <= kp ->
  exists k, feed_all (mk_keys ring_new false) (ks ≫= scancodes) = Ok k /\
    get_keys (S (length ks)) k m pp kp = Ok (((fun x => (1, Some (event_of x))) <$> ks) ++ [(0, None)]).
Proof.
  intros Hks Hlen Hap.
  destruct (feed_strokes ks (mk_keys ring_new false) ring_new_wf eq_refl Hks) as (k & E & Hwf & Hc).
  exists k. split; [done|]. rewrite fifo_push_all in Hc by by rewrite length_fmap.
  rewrite <- (length_fmap event_of), (get_keys_spec pp kp Hap (event_of <$> ks)); try done.
  - by rewrite <- list_fmap_compose.
  - apply Forall_fmap, Forall_true. intros x. cbn. destruct (down x); lia.
Qed.

Lemma keystrokes_delivered_witness : exists k,
  feed_all (mk_keys ring_new false) [0xE0; 0x48; 0x1E; 0xE0; 0xC8] = Ok k /\
  get_keys 4 k (fun _ => 0) 16 20 =
    Ok [(1, Some (mk_event 1 0xad)); (1, Some (mk_event 1 97)); (1, Some (mk_event 0 0xad)); (0, None)].
Proof.
  apply (keystrokes_delivered [mk_stroke 0x48 true true; mk_stroke 0x1E false true; mk_stroke 0x48 true false]
           (fun _ => 0) 16 20); [repeat constructor|unfold QUEUE_CAP, KEY_BUF_SIZE; cbn; lia|lia].
Defined.
