(* ===== verification/Scheduler.v ===== *)
(** * The global scheduler and its callers (src/thread/scheduler.rs, src/thread/mod.rs)

    [Scheduler] wraps the EEVDF scheduler and owns the bootstrap context.  The
    interface [Dispatcher] is what the interrupt handlers rely on; the wrapper
    around either scheduler implements it. *)

From S2P Require Import Prelude Machine Context Stack Eevdf RoundRobin.

(** ** What a dispatcher promises

    [d_running s] is the context of whoever has the processor, one of the contexts
    [d_contexts s] it knows.  A tick may ask for a switch: it leaves the running context,
    and the one it enters is then running. *)
Class Dispatcher (S : Type) := {
  d_tick : S -> Z -> outcome (S * option (Z * Z));
  d_inv : S -> Prop;
  d_running : S -> outcome Z;
  d_contexts : S -> list Z;
  d_running_ok : forall s, d_inv s -> returns (d_running s);
  d_running_known : forall s p, d_inv s -> d_running s = Ok p -> p ∈ d_contexts s;
  d_tick_contexts : forall s tick s' r,
    d_inv s -> is_u64 tick -> d_tick s tick = Ok (s', r) -> d_contexts s' = d_contexts s;
  d_tick_inv : forall s tick s' r,
    d_inv s -> is_u64 tick -> d_tick s tick = Ok (s', r) -> d_inv s';
  d_tick_running : forall s tick s' r p,
    d_inv s -> is_u64 tick -> d_tick s tick = Ok (s', r) -> d_running s = Ok p ->
    match r with
    | None => d_running s' = Ok p
    | Some (from, to) => from = p /\ d_running s' = Ok to
    end;
}.

(** ** The wrapper

    [bootstrap_ctx] is the address of the field of that name of the static
    [SCHEDULER]; its contents live in the machine memory. *)
Record Scheduler := mk_scheduler {
  eevdf : EevdfScheduler;
  bootstrap_ctx : Z;
}.

(** The initial contents of the bootstrap context. *)
Definition bootstrap_image : ThreadContext := TC.mk 0 0 0 0 0 0 0 0 0 0 0 0 0 0 0 0 0 0x202.

Definition scheduler_new (addr : Z) (m : memory) : Scheduler * memory :=
  (mk_scheduler eevdf_new addr, ctx_write m addr bootstrap_image).

Definition with_eevdf (s : Scheduler) (e : EevdfScheduler) : Scheduler :=
  mk_scheduler e (bootstrap_ctx s).

Definition spawn (s : Scheduler) (t : Thread) : Scheduler := with_eevdf s (eevdf_spawn (eevdf s) t).
Definition spawn_with_weight (s : Scheduler) (t : Thread) (w : Z) : Scheduler :=
  with_eevdf s (eevdf_spawn_with_weight (eevdf s) t w).
Definition len (s : Scheduler) : nat := eevdf_len (eevdf s).
Definition current_thread_id (s : Scheduler) : outcome (option Z) := eevdf_current_thread_id (eevdf s).
Definition unblock_thread (s : Scheduler) (id : Z) : outcome Scheduler :=
  e ← eevdf_unblock_thread (eevdf s) id; Ok (with_eevdf s e).
Definition tick_prepare (s : Scheduler) (tick : Z) : outcome (Scheduler * option (Z * Z)) :=
  '(e, r) ← eevdf_tick_prepare (eevdf s) (bootstrap_ctx s) tick; Ok (with_eevdf s e, r).
Definition block_current_and_prepare_switch (s : Scheduler) (tick : Z)
    : outcome (Scheduler * option (Z * Z)) :=
  '(e, r) ← eevdf_block_current_and_prepare_switch (eevdf s) (bootstrap_ctx s) tick;
  Ok (with_eevdf s e, r).

#[global, refine] Instance scheduler_dispatcher : Dispatcher Scheduler := {
  d_tick := tick_prepare;
  d_inv s := eevdf_wf (eevdf s);
  d_running s := running_ctx (bootstrap_ctx s) (eevdf s);
  d_contexts s := bootstrap_ctx s :: (context_ptr <$> threads (eevdf s));
}.
Proof.
  - intros s Hs. by apply running_ctx_ok.
  - intros s p _ H. by apply running_ctx_known.
  - intros s tick s' r Hs Ht H. unfold tick_prepare in H.
    apply bind_ok in H as ([e r'] & E & H). injection H as <- <-. cbn.
    by rewrite (tick_threads _ _ _ _ _ Hs Ht E).
  - intros s tick s' r Hs Ht H. unfold tick_prepare in H.
    apply bind_ok in H as ([e r'] & E & H). injection H as <- <-.
    by apply (eevdf_invariant_step (bootstrap_ctx s) (OpTick tick) (eevdf s) e r').
  - intros s tick s' r p Hs Ht H Hp. unfold tick_prepare in H.
    apply bind_ok in H as ([e r'] & E & H). injection H as <- <-. cbn.
    by apply (tick_running (bootstrap_ctx s) (eevdf s) tick e r' p).
Defined.

(** A round-robin scheduler with the address of its bootstrap context. *)
#[global, refine] Instance rr_dispatcher : Dispatcher (RoundRobinScheduler * Z) := {
  d_tick s tick := '(r, sw) ← rr_tick_prepare (fst s) (snd s) tick; Ok ((r, snd s), sw);
  d_inv s := rr_wf (fst s);
  d_running s := rr_running_ctx (snd s) (fst s);
  d_contexts s := snd s :: (context_ptr <$> rr_threads (fst s));
}.
Proof.
  - intros s Hs. by apply rr_running_ok.
  - intros [s b] p _ H. cbn in *. unfold rr_running_ctx in H. destruct (rr_current s); [|injection H as <-; by left].
    apply bind_ok in H as (t & E & H). injection H as <-. apply index_ok in E.
    right. apply list_elem_of_fmap. exists t. split; [done|]. by eapply list_elem_of_lookup_2.
  - intros [s b] tick s' r Hs Ht H. cbn in *. apply bind_ok in H as ([s1 r'] & E & H). injection H as <- <-.
    cbn. destruct (decide (rr_threads s = [])) as [He|Hne].
    + rewrite rr_tick_empty in E by done. by injection E as <- <-.
    + destruct (rr_tick_spec s b tick Hs Hne) as (f & t & _ & _ & E'). rewrite E' in E. by injection E as <- <-.
  - intros [s b] tick s' r Hs Ht H. cbn in *. apply bind_ok in H as ([s1 r'] & E & H). injection H as <- <-.
    cbn. destruct (decide (rr_threads s = [])) as [He|Hne].
    + rewrite rr_tick_empty in E by done. by injection E as <- <-.
    + destruct (rr_tick_spec s b tick Hs Hne) as (f & t & _ & Ht' & E'). rewrite E' in E. injection E as <- <-.
      intros i [= <-]. by eapply lookup_lt_Some.
  - intros [s b] tick s' r p Hs Ht H Hp. cbn in *. apply bind_ok in H as ([s1 r'] & E & H). injection H as <- <-.
    cbn. destruct (decide (rr_threads s = [])) as [He|Hne].
    + rewrite rr_tick_empty in E by done. by injection E as <- <-.
    + destruct (rr_tick_spec s b tick Hs Hne) as (f & t & Hf & Ht' & E'). rewrite E' in E. injection E as <- <-.
      split; [congruence|]. unfold rr_running_ctx. cbn. unfold index. by rewrite Ht'.
Defined.

(** ** [enter_scheduler] and [block_and_yield] *)

Definition cli (c : cpu) : cpu := with_flags c (Z.clearbit (flags c) IF_BIT).
Definition sti (c : cpu) : cpu := with_flags c (Z.setbit (flags c) IF_BIT).

(** The machine at the first instruction of [context_switch(from, to)], called from a
    place whose return address is [ret]. *)
Definition at_switch (from to ret : Z) (c : cpu) : cpu :=
  push ret (with_regs c (set_reg RSI to (set_reg RDI from (regs c)))).

Lemma at_switch_regs from to ret c : regs_ok c -> is_u64 from -> is_u64 to -> regs_ok (at_switch from to ret c).
Proof.
  intros Hr Hf Ht r. unfold at_switch, push, with_regs, set_reg. cbn [regs].
  repeat case_decide; try done. by apply wrap64_u64.
Qed.

Inductive dispatch :=
  | Dispatched (c : cpu)   (* context_switch has run *)
  | BadContext             (* error message, then halted for good *)
  | Waiting (c : cpu).     (* interrupts enabled and halted until the next one *)

(** One iteration of the loop of [enter_scheduler].  Taking the [IrqMutex] disables
    interrupts; [release_without_irq_restore] leaves them disabled. *)
Definition enter_scheduler (s : Scheduler) (uptime_ticks ret : Z) (c : cpu)
    : outcome (Scheduler * dispatch) :=
  let c := cli c in
  '(s, switch) ← tick_prepare s uptime_ticks;
  Ok (s, match switch with
         | Some (from, to) =>
             if (to =? 0) || (load64 (mem c) to =? 0) then BadContext
             else Dispatched (exec_block context_switch (at_switch from to ret c))
         | None => Waiting (sti c)
         end).

(** [block_and_yield]; [Waiting] is its halt loop after the deadlock message. *)
Definition block_and_yield (s : Scheduler) (uptime_ticks ret : Z) (c : cpu)
    : outcome (Scheduler * dispatch) :=
  let c := cli c in
  '(s, switch) ← block_current_and_prepare_switch s uptime_ticks;
  Ok (s, match switch with
         | Some (from, to) => Dispatched (exec_block context_switch (at_switch from to ret c))
         | None => Waiting (sti c)
         end).

(** A thread ready to be entered from [c] with [context_switch(from, _)]: its context is
    resumable from there, and [entry] is the address on top of its stack. *)
Definition ready (from ret : Z) (c : cpu) (t : Thread) (entry : Z) : Prop :=
  let s := at_switch from (context_ptr t) ret c in
  valid_call s /\ valid_target s /\ context_ptr t <> 0 /\
  load64 (mem c) (context_ptr t) <> 0 /\
  load64 (mem s) (TC.rsp (ctx_read (mem s) (context_ptr t))) = entry.

(** Entering a ready thread. *)
Lemma ready_enters from ret c t entry : ready from ret c t entry ->
  let c' := exec_block context_switch (at_switch from (context_ptr t) ret c) in
  pc c' = entry /\ interrupts_on (flags c') = true.
Proof.
  intros (Hc & Ht & _ & _ & He) c'.
  destruct (context_switch_switched _ Hc Ht) as (_ & _ & Hpc & Hf & _). fold c' in Hpc, Hf.
  assert (Hsi : regs (at_switch from (context_ptr t) ret c) RSI = context_ptr t) by done.
  rewrite Hsi in Hpc, Hf. split.
  - rewrite Hpc. exact He.
  - rewrite Hf. unfold interrupts_on. by rewrite Z.setbit_eq.
Qed.

(** A first tick with a runnable thread switches away from the bootstrap context. *)
Lemma boot_tick e boot tick i m : eevdf_wf e -> is_u64 tick -> current e = None ->
  metadata e !! i = Some m -> blocked m = false -> fits e 1 ->
  exists e' j t, eevdf_tick_prepare e boot tick = Ok (e', Some (boot, context_ptr t)) /\
    current e' = Some j /\ threads e !! j = Some t.
Proof.
  intros Hwf Ht Hc Hm Hb Hfit.
  assert (Hne : threads e <> []).
  { intros He. apply lookup_lt_Some in Hm. rewrite <- (wf_len e Hwf), He in Hm. cbn in Hm. lia. }
  assert (Hts : time_slice_of e tick = 1) by (unfold time_slice_of; by rewrite Hc).
  destruct (tick_returns e boot tick Hwf) as (e' & r & E); [by rewrite Hts|].
  destruct (eevdf_tick_prepare_ticked _ _ _ _ _ Hwf Ht Hne E) as [_ _ Hch _ (next & Hpk & Hr)].
  destruct r as [[from to]|].
  - destruct Hr as (j & t & _ & Hcur & _ & Hj & -> & Hfrom). rewrite Hc in Hfrom. cbn in Hfrom.
    injection Hfrom as <-. by exists e', j, t.
  - exfalso. destruct Hr as (_ & _ & Hn). destruct next as [j|]; [destruct Hn; congruence|].
    destruct (Forall2_lookup_l _ _ _ _ _ Hch Hm) as (m' & Hm' & (_ & Hb' & _)).
    pose proof (Forall_lookup_1 _ _ _ _ Hpk Hm'). cbn in *. congruence.
Qed.

(** Boot hands over: when [enter_scheduler] is called with a runnable thread and
    every spawned thread ready, it does not return to the caller but continues at the
    entry address of one of the threads, the one the scheduler then holds to be
    current, with interrupts enabled. *)
Theorem enter_scheduler_starts_thread s ticks ret c entry i m :
  eevdf_wf (eevdf s) -> is_u64 ticks -> current (eevdf s) = None -> fits (eevdf s) 1 ->
  metadata (eevdf s) !! i = Some m -> blocked m = false ->
  (forall t, t ∈ threads (eevdf s) -> ready (bootstrap_ctx s) ret (cli c) t (entry t)) ->
  exists s' c' j t, enter_scheduler s ticks ret c = Ok (s', Dispatched c') /\
    current (eevdf s') = Some j /\ threads (eevdf s) !! j = Some t /\
    pc c' = entry t /\ interrupts_on (flags c') = true.
Proof.
  intros Hwf Ht Hc Hfit Hm Hb Hready.
  destruct (boot_tick _ (bootstrap_ctx s) ticks i m Hwf Ht Hc Hm Hb Hfit) as (e' & j & t & E & Hj & Hjt).
  specialize (Hready t (list_elem_of_lookup_2 _ _ _ Hjt)).
  pose proof (ready_enters _ _ _ _ _ Hready) as [Hpc Hif]. destruct Hready as (_ & _ & Hn0 & Hl0 & _).
  unfold enter_scheduler, tick_prepare. rewrite E. cbn [mbind outcome_bind].
  rewrite (proj2 (Z.eqb_neq _ _) Hn0). change (mem (cli c)) with (mem c) in *.
  rewrite (proj2 (Z.eqb_neq _ _) Hl0). cbn [orb].
  eexists _, _, j, t. split; [reflexivity|]. split_and!; [exact Hj|exact Hjt|exact Hpc|exact Hif].
Qed.

(** Yielding: a thread that calls [block_and_yield] while another thread is runnable
    and ready is marked blocked, and the processor continues in a different thread,
    with interrupts enabled; the blocked thread's context records the return address
    of its call. *)
Theorem block_and_yield_switches s ticks ret c entry i t0 s' d :
  eevdf_wf (eevdf s) -> is_u64 ticks -> is_u64 ret -> current (eevdf s) = Some i ->
  threads (eevdf s) !! i = Some t0 ->
  (forall t, t ∈ threads (eevdf s) -> t <> t0 -> ready (context_ptr t0) ret (cli c) t (entry t)) ->
  NoDup (threads (eevdf s)) ->
  block_and_yield s ticks ret c = Ok (s', d) ->
  (exists m, metadata (eevdf s') !! i = Some m /\ blocked m = true) /\
  match d with
  | Dispatched c' => exists j t, j <> i /\ current (eevdf s') = Some j /\
      threads (eevdf s) !! j = Some t /\ pc c' = entry t /\ interrupts_on (flags c') = true /\
      TC.rip (ctx_read (mem c') (context_ptr t0)) = ret
  | BadContext => False
  | Waiting c' => Forall (fun m => blocked m = true) (metadata (eevdf s')) /\
      interrupts_on (flags c') = true
  end.
Proof.
  intros Hwf Ht Hret Hc Ht0 Hready Hnd H. unfold block_and_yield in H. cbv zeta in H.
  apply bind_ok in H as ([s1 r] & E & H). apply ok_pair_inj in H as [<- <-].
  unfold block_current_and_prepare_switch in E. apply bind_ok in E as ([e r'] & E & H).
  injection H as <- <-. cbn [eevdf with_eevdf].
  destruct (eevdf_blocked _ _ _ _ _ _ Hwf Ht Hc E) as [Hblk Hr]. split; [done|].
  destruct r' as [[from to]|].
  - destruct Hr as (j & m & t & u & Hji & Hj & _ & _ & Hti & -> & Hu & ->).
    rewrite Ht0 in Hti. injection Hti as <-.
    assert (Hne : u <> t0).
    { intros ->. apply Hji. by eapply NoDup_lookup. }
    specialize (Hready u (list_elem_of_lookup_2 _ _ _ Hu) Hne).
    pose proof (ready_enters _ _ _ _ _ Hready) as [Hpc Hif].
    destruct Hready as (Hv & Htg & _).
    destruct (context_switch_switched _ Hv Htg) as (_ & _ & _ & _ & Hsv & _).
    assert (Hdi : regs (at_switch (context_ptr t0) (context_ptr u) ret (cli c)) RDI = context_ptr t0) by done.
    rewrite Hdi in Hsv. exists j, u. split_and!; [exact Hji|exact Hj|exact Hu|exact Hpc|exact Hif|].
    rewrite Hsv. etrans; [apply load64_store64_eq|]. by apply wrap64_small.
  - split; [done|]. unfold interrupts_on, sti, with_flags. cbn [flags]. by rewrite Z.setbit_eq.
Qed.

(** ** Two threads at boot *)

Module BootDemo.

Definition boot_addr : Z := 0x1000.
Definition spawn_one (entry stack ctx next : Z) (m : memory) : Thread * memory :=
  match thread_new entry stack ctx next m with
  | Ok (t, m, _) => (t, m)
  | Panic _ => (mk_thread 0 (mk_stack 0 0) 0, m)
  end.
Definition t0 : Thread := mk_thread 0 (mk_stack 0x10000 STACK_SIZE) 0x2000.
Definition t1 : Thread := mk_thread 1 (mk_stack 0x20000 STACK_SIZE) 0x3000.
Definition mem0 : memory :=
  snd (spawn_one 0x402000 0x20000 0x3000 1
         (snd (spawn_one 0x401000 0x10000 0x2000 0 (snd (scheduler_new boot_addr (fun _ => 0)))))).
Definition sched : Scheduler :=
  spawn (spawn (fst (scheduler_new boot_addr (fun _ => 0))) t0) t1.
Definition entry (t : Thread) : Z := if thread_id t =? 0 then 0x401000 else 0x402000.
Definition boot : cpu := mk_cpu (fun _ => 0x8000) 0x400000 0x202 8 16 mem0.

(** The state after the first tick: thread 0 runs. *)
Definition running0 : Scheduler :=
  match tick_prepare sched 1 with Ok (s, _) => s | Panic _ => sched end.
Definition in_t0 : cpu := mk_cpu (fun _ => 0x13000) 0x401010 0x202 8 16 mem0.

Lemma sched_wf : eevdf_wf (eevdf sched).
Proof.
  split; [vm_compute; reflexivity|vm_compute; intros i [=]|..]; repeat constructor; vm_compute; congruence.
Qed.

Lemma running0_wf : eevdf_wf (eevdf running0).
Proof.
  split; [vm_compute; reflexivity|vm_compute; intros i [= <-]; lia|..];
    repeat constructor; vm_compute; congruence.
Qed.

Ltac ready_concrete := unfold ready; cbv zeta; decide_concrete.

End BootDemo.

Lemma enter_scheduler_starts_thread_witness : exists s' c',
  enter_scheduler BootDemo.sched 1 0x400005 BootDemo.boot = Ok (s', Dispatched c') /\
  interrupts_on (flags c') = true.
Proof.
  destruct (enter_scheduler_starts_thread BootDemo.sched 1 0x400005 BootDemo.boot BootDemo.entry 0 meta_new)
    as (s' & c' & j & t & E & _ & _ & _ & H).
  - exact BootDemo.sched_wf.
  - split; vm_compute; congruence.
  - reflexivity.
  - split; [repeat constructor|]; vm_compute; congruence.
  - reflexivity.
  - reflexivity.
  - intros t Ht. cbn in Ht. rewrite !elem_of_cons, elem_of_nil in Ht.
    destruct Ht as [->|[->|[]]]; BootDemo.ready_concrete.
  - exists s', c'. split; [exact E|exact H].
Defined.

Lemma block_and_yield_switches_witness : exists s' d,
  block_and_yield BootDemo.running0 2 0x401015 BootDemo.in_t0 = Ok (s', d) /\
  exists m, metadata (eevdf s') !! 0%nat = Some m /\ blocked m = true.
Proof.
  assert (E : exists e r, block_current_and_prepare_switch BootDemo.running0 2 = Ok (e, r))
    by (vm_compute; eauto).
  destruct E as (e & r & E). eexists _, _.
  assert (E' : block_and_yield BootDemo.running0 2 0x401015 BootDemo.in_t0 = Ok (e, _))
    by (unfold block_and_yield; rewrite E; reflexivity).
  split; [exact E'|].
  refine (proj1 (block_and_yield_switches BootDemo.running0 2 0x401015 BootDemo.in_t0 BootDemo.entry 0
    BootDemo.t0 e _ BootDemo.running0_wf _ _ _ _ _ _ E')).
  - split; vm_compute; congruence.
  - split; vm_compute; congruence.
  - vm_compute. reflexivity.
  - vm_compute. reflexivity.
  - intros t Ht Hne. cbn in Ht. change (threads _) with [BootDemo.t0; BootDemo.t1] in Ht.
    rewrite !elem_of_cons, elem_of_nil in Ht.
    destruct Ht as [->|[->|[]]]; [congruence|]. BootDemo.ready_concrete.
  - change (threads _) with [BootDemo.t0; BootDemo.t1]. 
    apply NoDup_cons. split; [|apply NoDup_singleton].
    rewrite list_elem_of_singleton. discriminate.
Defined.
