(* ===== verification/Sync.v ===== *)
(** * Synchronisation primitives (src/sync.rs)

    [IrqMutex]: a spinlock that disables interrupts while it is held.
    [KMutex]: a sleeping mutex over the scheduler.  Both run on one core, where
    threads interleave by timer interrupts and by [context_switch]. *)

From stdpp Require Import relations.
From S2P Require Import Prelude.

(** ** IrqMutex *)

Module IrqMutex.

(** The interrupt flag of the core and the inner spinlock. *)
Record state := mk { irq_enabled : bool; spin_locked : bool }.

Record IrqMutexGuard := mk_guard { was_enabled : bool }.

(** [lock]: on a single core with interrupts off, a taken spinlock is never released,
    so waiting for it is [None]. *)
Definition lock (s : state) : option (IrqMutexGuard * state) :=
  let g := mk_guard (irq_enabled s) in
  let s := mk false (spin_locked s) in
  if spin_locked s then None else Some (g, mk (irq_enabled s) true).

Definition release_without_irq_restore (_ : IrqMutexGuard) (s : state) : state :=
  mk (irq_enabled s) false.

Definition drop (g : IrqMutexGuard) (s : state) : state :=
  let s := mk (irq_enabled s) false in
  if was_enabled g then mk true (spin_locked s) else s.

(** The interrupt handler's critical section: delivery turns interrupts off, the
    handler locks and drops, and returning turns them on again. *)
Definition handler (s : state) : option state :=
  '(g, s) ← lock (mk false (spin_locked s));
  let s := drop g s in
  Some (mk true (spin_locked s)).

(** What the core does with one such mutex.  A guard in hand is part of the state;
    outside of the critical section the code may set the flag either way. *)
Inductive step : state * option IrqMutexGuard -> state * option IrqMutexGuard -> Prop :=
  | step_lock s g s' : lock s = Some (g, s') -> step (s, None) (s', Some g)
  | step_drop s g : step (s, Some g) (drop g s, None)
  | step_release s g : step (s, Some g) (release_without_irq_restore g s, None)
  | step_flag s b : step (s, None) (mk b (spin_locked s), None)
  | step_interrupt s s' h : irq_enabled s = true -> handler s = Some s' -> step (s, h) (s', h).

Definition init : state * option IrqMutexGuard := (mk true false, None).

Definition inv (c : state * option IrqMutexGuard) : Prop :=
  let '(s, h) := c in
  match h with
  | Some _ => irq_enabled s = false /\ spin_locked s = true
  | None => spin_locked s = false
  end.

Lemma step_inv c c' : step c c' -> inv c -> inv c'.
Proof.
  intros H Hi. destruct H as [[i l] g s' H|s g|s g|s b|[i l] s' h Hon H]; cbn in *; try done.
  - rewrite Hi in H. cbn in H. by injection H as <- <-.
  - unfold drop. by destruct (was_enabled g).
  - unfold handler, lock in H. cbn in *. destruct l; cbn in H; [done|]. injection H as <-. cbn.
    destruct h; [|done]. destruct Hi; congruence.
Qed.

(** The interrupt handler never spins on an [IrqMutex]: in every state reachable
    by locking, dropping, releasing without restoring, and interrupts, if an interrupt
    can be delivered then the handler's own lock and unlock succeed and leave the state
    as they found it; and a [lock]/[drop] pair restores the interrupt flag. *)
Theorem handler_never_spins c :
  rtc step init c ->
  (irq_enabled (fst c) = true -> handler (fst c) = Some (fst c)) /\
  (forall g s', snd c = None -> lock (fst c) = Some (g, s') -> drop g s' = fst c).
Proof.
  intros Hr. assert (Hi : inv c).
  { eapply (rtc_ind_r (fun c => inv c)); [|intros y z _ Hs IH; by eapply step_inv|exact Hr]. done. }
  destruct c as [[i l] h]. cbn in *. split.
  - intros ->. destruct h; [by destruct Hi|]. by subst l.
  - intros g s' -> H. subst l. injection H as <- <-. by destruct i.
Qed.

Lemma handler_never_spins_witness :
  rtc step init (mk false false, None) /\
  (forall g s', lock (mk false false) = Some (g, s') -> drop g s' = mk false false).
Proof.
  assert (H : rtc step init (mk false false, None)).
  { eapply rtc_l; [apply (step_lock (mk true false) (mk_guard true) (mk false true)); reflexivity|].
    eapply rtc_l; [apply step_release|]. apply rtc_refl. }
  split; [exact H|]. intros g s'. apply (proj2 (handler_never_spins _ H)). reflexivity.
Defined.

End IrqMutex.

(** ** KMutex *)

Module KMutex.

(** Where a thread is in [lock] or in the guard's [drop]. *)
Inductive pc :=
  | Outside
  | LockFast                (* first compare_exchange *)
  | LockSched               (* SCHEDULER.lock() *)
  | LockRecheck (was : bool)  (* second compare_exchange, SCHEDULER held *)
  | LockEnqueue (was : bool)  (* waiters.lock().push_back(id) *)
  | LockBlock               (* block_current_and_prepare_switch ... context_switch *)
  | LockDead                (* all threads blocked: the halt loop *)
  | Critical                (* holding the guard *)
  | DropWaiters             (* waiters.lock(), mutex already released *)
  | DropPop                 (* pop_front(), waiters held *)
  | DropSched (id : nat)    (* SCHEDULER.lock(), waiters held *)
  | DropWake (id : nat) (was : bool)  (* unblock_thread(id), both held *)
  | DropEnd.                (* end of the if-let: waiters released *)

#[global] Instance pc_eq_dec : EqDecision pc.
Proof. solve_decision. Defined.

(** The mutex ([locked], [waiters] with its spinlock's owner), the scheduler (its
    spinlock, the current thread, the blocked flags), the interrupt flag, and every
    thread's position. *)
Record kstate := mk {
  locked : bool;
  waiters : list nat;
  waiters_owner : option nat;
  sched_locked : bool;
  irq_enabled : bool;
  cur : nat;
  blocked : nat -> bool;
  pcs : nat -> pc;
}.

(** The current thread moves to [p]. *)
Definition goto (s : kstate) (p : pc) : kstate :=
  mk (locked s) (waiters s) (waiters_owner s) (sched_locked s) (irq_enabled s) (cur s)
     (blocked s) (upd (pcs s) (cur s) p).
Definition set_locked (b : bool) (s : kstate) : kstate :=
  mk b (waiters s) (waiters_owner s) (sched_locked s) (irq_enabled s) (cur s) (blocked s) (pcs s).
Definition set_waiters (l : list nat) (s : kstate) : kstate :=
  mk (locked s) l (waiters_owner s) (sched_locked s) (irq_enabled s) (cur s) (blocked s) (pcs s).
Definition set_owner (o : option nat) (s : kstate) : kstate :=
  mk (locked s) (waiters s) o (sched_locked s) (irq_enabled s) (cur s) (blocked s) (pcs s).
Definition set_sched (b irq : bool) (s : kstate) : kstate :=
  mk (locked s) (waiters s) (waiters_owner s) b irq (cur s) (blocked s) (pcs s).
Definition set_cur (t : nat) (s : kstate) : kstate :=
  mk (locked s) (waiters s) (waiters_owner s) (sched_locked s) (irq_enabled s) t (blocked s) (pcs s).
Definition set_blocked (t : nat) (b : bool) (s : kstate) : kstate :=
  mk (locked s) (waiters s) (waiters_owner s) (sched_locked s) (irq_enabled s) (cur s)
     (upd (blocked s) t b) (pcs s).

Section Threads.
Context (n : nat).

Definition runnable (s : kstate) (t : nat) : bool := bool_decide (t < n)%nat && negb (blocked s t).

(** [SCHEDULER.lock()]: disables interrupts, then spins while it is taken; on one core
    with interrupts off nobody releases it, so that is no step. *)
Definition sched_lock (s : kstate) : option (bool * kstate) :=
  if sched_locked s then None else Some (irq_enabled s, set_sched true false s).

(** One step of [KMutex::lock] by the current thread; [next] is the scheduler's choice
    when the thread blocks. *)
Definition lock_step (s : kstate) (next : option nat) : option kstate :=
  let t := cur s in
  match pcs s t with
  | LockFast =>
      if locked s then Some (goto s LockSched) else Some (goto (set_locked true s) Critical)
  | LockSched =>
      '(was, s) ← sched_lock s; Some (goto s (LockRecheck was))
  | LockRecheck was =>
      if locked s then Some (goto s (LockEnqueue was))
      else Some (goto (set_sched false was (set_locked true s)) Critical)
  | LockEnqueue was =>
      match waiters_owner s with
      | Some _ => None
      | None => Some (goto (set_waiters (waiters s ++ [t]) s) LockBlock)
      end
  | LockBlock =>
      let s := set_blocked t true s in
      match next with
      | Some u =>
          if runnable s u then Some (set_cur u (set_sched false true (goto s LockFast))) else None
      | None =>
          if forallb (fun u => negb (runnable s u)) (seq 0 n)
          then Some (set_sched false true (goto s LockDead)) else None
      end
  | _ => None
  end.

(** One step of [KMutexGuard::drop] by the current thread. *)
Definition drop_step (s : kstate) : option kstate :=
  let t := cur s in
  match pcs s t with
  | Critical => Some (goto (set_locked false s) DropWaiters)
  | DropWaiters =>
      match waiters_owner s with
      | Some _ => None
      | None => Some (goto (set_owner (Some t) s) DropPop)
      end
  | DropPop =>
      match waiters s with
      | [] => Some (goto (set_owner None s) Outside)
      | id :: l => Some (goto (set_waiters l s) (DropSched id))
      end
  | DropSched id =>
      '(was, s) ← sched_lock s; Some (goto s (DropWake id was))
  | DropWake id was => Some (goto (set_sched false was (set_blocked id false s)) DropEnd)
  | DropEnd => Some (goto (set_owner None s) Outside)
  | _ => None
  end.

Inductive event := Enter | Lock (next : option nat) | Drop | Timer (next : nat).

(** A thread outside of the mutex calls [lock]; a step of [lock] or of [drop]; or a timer
    interrupt whose scheduler picks the runnable thread [next] (its own lock of the
    scheduler must succeed). *)
Definition kstep (s : kstate) (e : event) : option kstate :=
  match e with
  | Enter => if decide (pcs s (cur s) = Outside) then Some (goto s LockFast) else None
  | Lock next => lock_step s next
  | Drop => drop_step s
  | Timer next =>
      if irq_enabled s && negb (sched_locked s) && runnable s next then Some (set_cur next s) else None
  end.

Fixpoint krun (s : kstate) (es : list event) : option kstate :=
  match es with [] => Some s | e :: es => s ← kstep s e; krun s es end.

Definition init : kstate :=
  mk false [] None false true 0 (fun _ => false) (fun _ => Outside).

(** ** Invariant *)

Definition in_sched (p : pc) : bool :=
  match p with LockRecheck _ | LockEnqueue _ | LockBlock | DropWake _ _ => true | _ => false end.
Definition saved_irq (p : pc) : bool :=
  match p with LockRecheck w | LockEnqueue w | DropWake _ w => w | _ => true end.
Definition owns_waiters (p : pc) : bool :=
  match p with DropPop | DropSched _ | DropWake _ _ | DropEnd => true | _ => false end.
Definition enqueuing (p : pc) : bool :=
  match p with LockEnqueue _ | LockBlock => true | _ => false end.
Definition waking (p : pc) (id : nat) : bool :=
  match p with DropSched i | DropWake i _ => bool_decide (i = id) | _ => false end.
Definition dropping (p : pc) : bool :=
  match p with DropWaiters | DropPop | DropSched _ | DropWake _ _ => true | _ => false end.
Definition contending (p : pc) : bool :=
  match p with LockFast | LockSched | LockRecheck _ => true | _ => false end.

(** Somebody is on the way to take the mutex or to wake a waiter. *)
Definition pending (s : kstate) : Prop :=
  exists u, dropping (pcs s u) = true \/ blocked s u = false /\ contending (pcs s u) = true.

Record inv (s : kstate) : Prop := {
  i_cur : runnable s (cur s) = true;
  i_range : forall t, (n <= t)%nat -> pcs s t = Outside;
  i_crit : forall t, pcs s t = Critical -> locked s = true;
  i_excl : forall t u, pcs s t = Critical -> pcs s u = Critical -> t = u;
  i_held : locked s = true -> exists t, pcs s t = Critical;
  i_sched : forall t, in_sched (pcs s t) = true -> t = cur s;
  i_irq : irq_enabled s = negb (in_sched (pcs s (cur s))) /\ sched_locked s = in_sched (pcs s (cur s));
  i_saved : forall t, saved_irq (pcs s t) = true;
  i_full : forall t, enqueuing (pcs s t) = true -> locked s = true;
  i_owner : forall t, waiters_owner s = Some t <-> owns_waiters (pcs s t) = true;
  i_blocked : forall t, blocked s t = true ->
    pcs s t = LockFast /\ (t ∈ waiters s \/ exists u, waking (pcs s u) t = true);
  i_waiting : forall t, t ∈ waiters s -> blocked s t = true \/ pcs s t = LockBlock;
  i_queued : forall t, pcs s t = LockBlock -> t ∈ waiters s;
  i_waking : forall u t, waking (pcs s u) t = true -> blocked s t = true /\ t ∉ waiters s;
  i_nodup : NoDup (waiters s);
  i_pending : waiters s <> [] -> locked s = true \/ pending s;
  i_alive : forall t, pcs s t <> LockDead;
}.

Lemma runnable_lt s t : runnable s t = true <-> (t < n)%nat /\ blocked s t = false.
Proof. unfold runnable. by rewrite andb_true_iff, bool_decide_eq_true, negb_true_iff. Qed.

(** Case analysis on whether a position is the moved thread's. *)
Ltac k_cases :=
  cbn; unfold upd; intros; repeat case_decide; subst; cbn in *; try done; try congruence; try lia.

(** What holds of some thread still holds of it after the current thread has moved. *)
Lemma held_upd s p : (exists t, pcs s t = Critical) -> pcs s (cur s) <> Critical ->
  exists t, upd (pcs s) (cur s) p t = Critical.
Proof. intros [t Ht] Hne. exists t. rewrite upd_ne; [done|]. intros ->. done. Qed.

Lemma waker_upd s p t : (t ∈ waiters s \/ exists u, waking (pcs s u) t = true) ->
  (waking (pcs s (cur s)) t = true -> waking p t = true) ->
  t ∈ waiters s \/ exists u, waking (upd (pcs s) (cur s) p u) t = true.
Proof.
  intros [Hw|[u Hu]] Hp; [by left|right]. exists u. unfold upd. case_decide; [subst; auto|done].
Qed.

Lemma pending_upd s p s' : pending s -> blocked s' = blocked s -> pcs s' = upd (pcs s) (cur s) p ->
  (dropping (pcs s (cur s)) = true -> dropping p = true) ->
  (contending (pcs s (cur s)) = true -> contending p = true) -> pending s'.
Proof.
  intros [u Hu] Hb Hp Hd Hc. exists u. rewrite Hb, Hp. unfold upd. case_decide; [subst|done].
  destruct Hu as [Hu|[? Hu]]; auto.
Qed.

(** The fields a move of the current thread leaves alone. *)
Ltac k_blocked :=
  match goal with
  | Hblk : forall t, blocked ?s t = true -> _, E : pcs ?s (cur ?s) = _ |- _ =>
      let t := fresh "t" in let Ht := fresh "Ht" in
      intros t Ht; cbn in Ht; destruct (Hblk t Ht);
      assert (t <> cur s) by congruence; cbn; rewrite upd_ne by done; split; [done|];
      apply waker_upd; [done|rewrite E; done]
  end.
Ltac k_waiting :=
  match goal with
  | Hwait : forall t, t ∈ waiters ?s -> _ |- _ =>
      let t := fresh "t" in let Ht := fresh "Ht" in
      intros t Ht; cbn; unfold upd; case_decide; [subst; destruct (Hwait _ Ht); congruence|by apply Hwait]
  end.
Ltac k_held :=
  match goal with
  | Hheld : locked ?s = true -> _ |- _ = true -> _ =>
      let Hl := fresh in intros Hl; cbn; apply held_upd; [by apply Hheld|congruence]
  end.
Ltac k_owner :=
  match goal with
  | Howner : forall t, waiters_owner ?s = Some t <-> _, E : pcs ?s (cur ?s) = _ |- _ =>
      let t := fresh "t" in
      intros t; cbn; rewrite Howner; unfold upd; case_decide; [subst; by rewrite E|done]
  end.
Ltac k_frame :=
  split; try (k_cases; eauto; fail); try (k_held; fail); try (k_owner; fail); try (k_blocked; fail); try (k_waiting; fail).


(** Open the invariant of a state whose current thread is at [E]. *)
Ltac k_open :=
  intros [Hcur Hrange Hcrit Hexcl Hheld Hsched [Hirq Hsl] Hsaved Hfull Howner Hblk Hwait Hq Hwk Hnd Hpend Halive] Ep;
  destruct (proj1 (runnable_lt _ _) Hcur) as [Hlt Hb];
  rewrite Ep in Hirq, Hsl; cbn in Hirq, Hsl.

Lemma unlock_inv s : inv s -> pcs s (cur s) = Critical ->
  inv (goto (set_locked false s) DropWaiters).
Proof.
  k_open. k_frame.
  - intros t. cbn. unfold upd. case_decide as Ht; [done|]. intros He. exfalso. apply Ht.
    apply Hsched. by destruct (pcs s t).
  - intros _. right. exists (cur s). left. cbn. by rewrite upd_eq.
Qed.

Lemma drop_take_inv s : inv s -> pcs s (cur s) = DropWaiters -> waiters_owner s = None ->
  inv (goto (set_owner (Some (cur s)) s) DropPop).
Proof.
  k_open. intros Eo. k_frame.
  - intros t. cbn. unfold upd. case_decide as Ht; [by subst|]. split; [congruence|].
    intros Ho. apply Howner in Ho. congruence.
  - intros _. right. exists (cur s). left. cbn. by rewrite upd_eq.
Qed.

(** Releasing [waiters] after the drop is done. *)
Lemma drop_leave_inv s : inv s -> owns_waiters (pcs s (cur s)) = true ->
  pcs s (cur s) = DropEnd \/ pcs s (cur s) = DropPop /\ waiters s = [] ->
  inv (goto (set_owner None s) Outside).
Proof.
  intros Hi Ho Hp.
  assert (Howns : forall t, t <> cur s -> owns_waiters (pcs s t) = true -> False).
  { intros t Ht Hot. apply Ht. apply (i_owner s Hi) in Ho, Hot. congruence. }
  assert (Hown : forall t, None = Some t <-> owns_waiters (upd (pcs s) (cur s) Outside t) = true).
  { intros t. split; [done|]. unfold upd. case_decide; [done|]. intros Hot. by destruct (Howns t). }
  destruct Hp as [Ep|[Ep Ew]]; revert Hi Ep; k_open; k_frame; try exact Hown.
  intros Hw. destruct (Hpend Hw) as [Hl|Hp]; [by left|right].
  by apply (pending_upd s Outside); rewrite ?Ep.
Qed.

Lemma drop_pop_inv s id l : inv s -> pcs s (cur s) = DropPop -> waiters s = id :: l ->
  inv (goto (set_waiters l s) (DropSched id)).
Proof.
  k_open. intros Ew. rewrite Ew in *.
  assert (Hnb : forall t, pcs s t <> LockBlock).
  { intros t Ht. assert (t = cur s) by (apply Hsched; by rewrite Ht). congruence. }
  apply NoDup_cons in Hnd as [Hid Hnd].
  assert (Hin : forall t, t ∈ l -> t ∈ id :: l) by (intros; by right).
  assert (Hall : forall t, t ∈ id :: l -> blocked s t = true).
  { intros t Ht. destruct (Hwait t Ht) as [|Ht']; [done|]. by destruct (Hnb t). }
  k_frame; try done.
  - intros t Ht. cbn in *. destruct (Hblk t Ht) as [Hpc Hw]. assert (t <> cur s) by congruence.
    rewrite upd_ne by done. split; [done|]. destruct Hw as [Hw|[u Hu]].
    + apply elem_of_cons in Hw as [->|Hw]; [right|by left]. exists (cur s). rewrite upd_eq.
      cbn. by apply bool_decide_eq_true.
    + right. exists u. rewrite upd_ne; [done|]. intros ->. by rewrite Ep in Hu.
  - intros u t. cbn. unfold upd. case_decide.
    + cbn. intros ->%bool_decide_eq_true. split; [apply Hall; by left|done].
    + intros Hu. destruct (Hwk u t Hu) as [? Hn]. split; [done|]. intros Ht. by apply Hn, Hin.
  - intros _. right. exists (cur s). left. cbn. by rewrite upd_eq.
Qed.

Lemma drop_sched_inv s id : inv s -> pcs s (cur s) = DropSched id ->
  inv (goto (set_sched true false s) (DropWake id (irq_enabled s))).
Proof.
  k_open. k_frame.
  - intros u t. cbn. unfold upd. case_decide; [subst|by apply Hwk].
    cbn. intros H. apply (Hwk (cur s)). by rewrite Ep.
  - intros Hw. destruct (Hpend Hw) as [Hl|Hp]; [by left|right].
    by apply (pending_upd s (DropWake id (irq_enabled s))); rewrite ?Ep.
Qed.

Lemma drop_wake_inv s id was : inv s -> pcs s (cur s) = DropWake id was ->
  inv (goto (set_sched false was (set_blocked id false s)) DropEnd).
Proof.
  k_open. pose proof (Hsaved (cur s)) as Hwas. rewrite Ep in Hwas. cbn in Hwas. subst was.
  destruct (Hwk (cur s) id) as [Hbid Hnid]; [rewrite Ep; by apply bool_decide_eq_true|].
  destruct (Hblk id Hbid) as [Hpid _]. assert (Hic : id <> cur s) by congruence.
  k_frame.
  - apply runnable_lt. cbn. by rewrite upd_ne.
  - intros t. cbn. unfold upd at 1. case_decide as Hti; [done|]. intros Ht.
    destruct (Hblk t Ht) as [Hpc Hw]. rewrite upd_ne by congruence. split; [done|].
    apply waker_upd; [done|]. rewrite Ep. cbn. rewrite bool_decide_eq_true. congruence.
  - intros t Ht. cbn in *. assert (t <> id) by congruence. rewrite (upd_ne (blocked s)) by done.
    destruct (Hwait t Ht) as [|Ht']; [by left|right]. rewrite upd_ne; congruence.
  - intros u t. cbn. unfold upd at 1. case_decide as Hu; [done|]. intros Hwku. exfalso. apply Hu.
    assert (Ho : owns_waiters (pcs s u) = true) by by destruct (pcs s u).
    apply Howner in Ho. assert (waiters_owner s = Some (cur s)) by (apply Howner; by rewrite Ep). congruence.
  - intros _. right. exists id. right. cbn. by rewrite upd_eq, upd_ne, Hpid.
Qed.

(** Taking the free mutex, on either path. *)
Lemma acquire_inv s b irq : inv s -> contending (pcs s (cur s)) = true -> blocked s (cur s) = false ->
  locked s = false -> b = false -> irq = true ->
  inv (goto (set_sched b irq (set_locked true s)) Critical).
Proof.
  intros Hi Hc Hbc El -> ->. assert (Hno : forall t, pcs s t <> Critical).
  { intros t Ht. apply (i_crit s Hi) in Ht. congruence. }
  destruct (pcs s (cur s)) eqn:Ep; try done; revert Hi Ep; k_open; k_frame;
    try (intros _; exists (cur s); cbn; by rewrite upd_eq);
    intros t u; cbn; unfold upd; repeat case_decide; subst; try done;
      intros H1 H2; by (destruct (Hno t) || destruct (Hno u)).
Qed.

(** Moves that only change the current thread's position, before it can be blocked. *)
Lemma lock_move_inv s p : inv s ->
  pcs s (cur s) = Outside /\ p = LockFast \/ pcs s (cur s) = LockFast /\ p = LockSched ->
  inv (goto s p).
Proof.
  intros Hi [[Ep ->]|[Ep ->]]; revert Hi Ep; k_open; k_frame;
    (intros Hw; destruct (Hpend Hw) as [Hl|Hp]; [by left|right];
     eapply (pending_upd s); rewrite ?Ep; done).
Qed.

Lemma lock_sched_inv s : inv s -> pcs s (cur s) = LockSched ->
  inv (goto (set_sched true false s) (LockRecheck (irq_enabled s))).
Proof.
  k_open. k_frame. intros Hw. destruct (Hpend Hw) as [Hl|Hp]; [by left|right].
  by apply (pending_upd s (LockRecheck (irq_enabled s))); rewrite ?Ep.
Qed.

Lemma recheck_fail_inv s was : inv s -> pcs s (cur s) = LockRecheck was -> locked s = true ->
  inv (goto s (LockEnqueue was)).
Proof.
  k_open. intros El. k_frame. intros t. cbn. unfold upd. case_decide; [subst|done].
  pose proof (Hsaved (cur s)) as H. by rewrite Ep in H.
Qed.

Lemma enqueue_inv s was : inv s -> pcs s (cur s) = LockEnqueue was ->
  inv (goto (set_waiters (waiters s ++ [cur s]) s) LockBlock).
Proof.
  k_open. assert (Hl : locked s = true) by (apply (Hfull (cur s)); by rewrite Ep).
  assert (Hnot : cur s ∉ waiters s) by (intros Hin; destruct (Hwait _ Hin); congruence).
  k_frame.
  - intros t Ht. cbn in *. destruct (Hblk t Ht) as [Hpc Hw]. assert (t <> cur s) by congruence.
    rewrite upd_ne by done. split; [done|].
    destruct (waker_upd s LockBlock t Hw) as [|[u Hu]]; [by rewrite Ep|left|right; by exists u].
    apply elem_of_app. by left.
  - intros t Ht. cbn in *. unfold upd. case_decide; [by right|].
    apply elem_of_app in Ht as [Ht|Ht%list_elem_of_singleton]; [by apply Hwait|done].
  - intros t Ht. cbn in *. apply elem_of_app. unfold upd in Ht. case_decide.
    + right. by apply list_elem_of_singleton.
    + left. by apply Hq.
  - intros u t. cbn. unfold upd. case_decide; [done|]. intros Hu. destruct (Hwk u t Hu) as [Hbt Hn].
    split; [done|]. intros [Hin|Hin%list_elem_of_singleton]%elem_of_app; [done|congruence].
  - apply NoDup_app. split_and!; [done| |apply NoDup_singleton].
    intros x Hx ->%list_elem_of_singleton. done.
Qed.

Lemma block_inv s u : inv s -> pcs s (cur s) = LockBlock ->
  runnable (set_blocked (cur s) true s) u = true ->
  inv (set_cur u (set_sched false true (goto (set_blocked (cur s) true s) LockFast))).
Proof.
  k_open. intros Hu. assert (Hl : locked s = true) by (apply (Hfull (cur s)); by rewrite Ep).
  assert (Hns : forall t, in_sched (upd (pcs s) (cur s) LockFast t) = false).
  { intros t. unfold upd. case_decide; [done|]. destruct (in_sched (pcs s t)) eqn:E; [|done].
    apply Hsched in E. congruence. }
  k_frame.
  - intros t. cbn. by rewrite Hns.
  - cbn. by rewrite Hns.
  - intros t. cbn. unfold upd at 1. case_decide as Ht.
    + intros _. subst. rewrite upd_eq. split; [done|]. left. by apply Hq.
    + intros Hbt. destruct (Hblk t Hbt) as [Hpc Hw]. rewrite upd_ne by done. split; [done|].
      apply waker_upd; [done|by rewrite Ep].
  - intros v t. cbn. unfold upd at 1. case_decide; [done|]. intros Hv. destruct (Hwk v t Hv).
    split; [|done]. unfold upd. by case_decide.
Qed.

Lemma timer_inv s u : inv s -> irq_enabled s = true -> runnable s u = true -> inv (set_cur u s).
Proof.
  intros Hi Hon Hu. destruct (i_irq s Hi) as [Hirq Hsl].
  assert (Hns : forall t, in_sched (pcs s t) = false).
  { intros t. destruct (in_sched (pcs s t)) eqn:E; [|done]. pose proof (i_sched s Hi t E). subst t.
    rewrite E in Hirq. cbn in Hirq. congruence. }
  destruct Hi. split; cbn; try done.
  - intros t. by rewrite Hns.
  - rewrite !Hns in *. done.
Qed.

Lemma init_inv : (0 < n)%nat -> inv init.
Proof.
  intros Hn. split; cbn; try done; try (intros; apply elem_of_nil in H; done).
  - by apply runnable_lt.
  - apply NoDup_nil. done.
Qed.

(** A blocked current thread leaves the holder of the mutex runnable. *)
Lemma holder_runnable s : inv s -> pcs s (cur s) = LockBlock ->
  exists u, u <> cur s /\ runnable (set_blocked (cur s) true s) u = true.
Proof.
  k_open. destruct Hheld as [u Hu]; [apply (Hfull (cur s)); by rewrite Ep|].
  assert (u <> cur s) by congruence. exists u. split; [done|].
  apply runnable_lt. split.
  - destruct (decide (u < n)%nat); [done|]. rewrite Hrange in Hu by lia. done.
  - cbn. rewrite upd_ne by done. destruct (blocked s u) eqn:E; [|done].
    destruct (Hblk u E). congruence.
Qed.

Lemma kstep_inv s e s' : inv s -> kstep s e = Some s' -> inv s'.
Proof.
  intros Hi H. destruct e as [|next| |u]; cbn in H.
  - case_decide; [|done]. injection H as <-. apply lock_move_inv; auto.
  - pose proof (i_irq s Hi) as [_ Hsl]. pose proof (i_saved s Hi (cur s)) as Hsv.
    pose proof (proj2 (proj1 (runnable_lt s _) (i_cur s Hi))) as Hb.
    unfold lock_step in H. destruct (pcs s (cur s)) eqn:Ep; try done; cbn in Hsl, Hsv.
    + destruct (locked s) eqn:El; injection H as <-.
      * apply lock_move_inv; auto.
      * change (set_locked true s) with (set_sched (sched_locked s) (irq_enabled s) (set_locked true s)).
        apply acquire_inv; try done; [by rewrite Ep|].
        destruct (i_irq s Hi) as [-> _]. by rewrite Ep.
    + unfold sched_lock in H. rewrite Hsl in H. injection H as <-. by apply lock_sched_inv.
    + destruct (locked s) eqn:El; injection H as <-; [by apply recheck_fail_inv|].
      apply acquire_inv; try done. by rewrite Ep.
    + destruct (waiters_owner s); [done|]. injection H as <-. by eapply enqueue_inv.
    + destruct next as [u|].
      * destruct (runnable _ u) eqn:Eu; [|done]. injection H as <-. by apply block_inv.
      * exfalso. destruct (holder_runnable s Hi Ep) as (u & _ & Hu).
        destruct (forallb _ _) eqn:Ef; [|done]. rewrite forallb_forall in Ef.
        specialize (Ef u). rewrite Hu in Ef. discriminate Ef. apply in_seq.
        apply runnable_lt in Hu as [? _]. lia.
  - pose proof (i_irq s Hi) as [_ Hsl]. unfold drop_step in H.
    destruct (pcs s (cur s)) eqn:Ep; try done; cbn in Hsl.
    + injection H as <-. by apply unlock_inv.
    + destruct (waiters_owner s) eqn:Eo; [done|]. injection H as <-. by apply drop_take_inv.
    + destruct (waiters s) as [|id l] eqn:Ew; injection H as <-; [|by apply drop_pop_inv].
      apply drop_leave_inv; auto. by rewrite Ep.
    + unfold sched_lock in H. rewrite Hsl in H. injection H as <-. by apply drop_sched_inv.
    + injection H as <-. by apply drop_wake_inv.
    + injection H as <-. apply drop_leave_inv; auto. by rewrite Ep.
  - destruct (irq_enabled s) eqn:Eon; [|done]. destruct (sched_locked s); [done|]. cbn in H.
    destruct (runnable s u) eqn:Eu; [|done]. injection H as <-. by apply timer_inv.
Qed.

Lemma krun_inv s es s' : inv s -> krun s es = Some s' -> inv s'.
Proof.
  revert s. induction es as [|e es IH]; intros s Hi H; cbn in H; [by injection H as <-|].
  destruct (kstep s e) as [s1|] eqn:E; [|done]. cbn in H. eapply IH; [|done]. by eapply kstep_inv.
Qed.

(** [KMutex] gives mutual exclusion: however [lock], [drop] and timer interrupts
    interleave, at most one thread is between a successful [lock] and its [drop]. *)
Theorem kmutex_mutual_exclusion es s t u : (0 < n)%nat ->
  krun init es = Some s -> pcs s t = Critical -> pcs s u = Critical -> t = u.
Proof. intros Hn Hr. by apply (i_excl s (krun_inv _ _ _ (init_inv Hn) Hr)). Qed.

(** C9. No wakeup is lost, and the "all threads blocked" branch of [lock] is never taken:
    in every reachable state a thread that is about to block has another runnable thread
    to switch to; and while a blocked thread exists, the mutex is held by a runnable
    thread, or a runnable thread is about to try for it, or a [drop] is under way. *)
Theorem kmutex_no_lost_wakeup es s : (0 < n)%nat -> krun init es = Some s ->
  (forall t, pcs s t <> LockDead) /\
  (pcs s (cur s) = LockBlock ->
     exists u, u <> cur s /\ runnable (set_blocked (cur s) true s) u = true) /\
  (forall t, blocked s t = true ->
     exists u, runnable s u = true /\
       (pcs s u = Critical \/ dropping (pcs s u) = true \/ contending (pcs s u) = true)).
Proof.
  intros Hn Hr. pose proof (krun_inv _ _ _ (init_inv Hn) Hr) as Hi. split_and!.
  - apply (i_alive s Hi).
  - by apply holder_runnable.
  - intros t Ht.
    assert (Hrun : forall u, pcs s u <> Outside -> blocked s u = false -> runnable s u = true).
    { intros u Hu Hb. apply runnable_lt. split; [|done].
      destruct (decide (u < n)%nat); [done|]. rewrite (i_range s Hi) in Hu by lia. done. }
    assert (Hfast : forall u, pcs s u <> LockFast -> blocked s u = false).
    { intros u Hu. destruct (blocked s u) eqn:E; [|done]. destruct (i_blocked s Hi u E). done. }
    assert (Hdrop : forall u, dropping (pcs s u) = true -> exists u, runnable s u = true /\
       (pcs s u = Critical \/ dropping (pcs s u) = true \/ contending (pcs s u) = true)).
    { intros u Hu. exists u. split; [|auto]. apply Hrun; [|apply Hfast]; intros E; by rewrite E in Hu. }
    destruct (i_blocked s Hi t Ht) as [_ [Hw|[u Hu]]].
    + assert (Hne : waiters s <> []) by (intros E; rewrite E in Hw; by apply elem_of_nil in Hw).
      destruct (i_pending s Hi Hne) as [Hl|[u [Hu|[Hbu Hu]]]].
      * destruct (i_held s Hi Hl) as [u Hu]. exists u. split; [|auto].
        apply Hrun; [|apply Hfast]; congruence.
      * by apply (Hdrop u).
      * exists u. split; [|auto]. apply Hrun; [|done]. intros E. by rewrite E in Hu.
    + apply (Hdrop u). by destruct (pcs s u).
Qed.

(** C10. The only way to get stuck: in every reachable state the system can take a step,
    unless the current thread has disabled interrupts in [lock] and spins on the
    waiters' spinlock, which a preempted [drop] holds. *)
Theorem kmutex_stuck_only_on_waiters es s : (0 < n)%nat -> krun init es = Some s ->
  (exists e s', kstep s e = Some s') \/
  (exists was u, pcs s (cur s) = LockEnqueue was /\ irq_enabled s = false /\
     waiters_owner s = Some u /\ u <> cur s /\ owns_waiters (pcs s u) = true).
Proof.
  intros Hn Hr. pose proof (krun_inv _ _ _ (init_inv Hn) Hr) as Hi.
  pose proof (i_irq s Hi) as [Hirq Hsl].
  assert (Htimer : in_sched (pcs s (cur s)) = false -> exists e s', kstep s e = Some s').
  { intros Hns. rewrite Hns in Hirq, Hsl. exists (Timer (cur s)), (set_cur (cur s) s). cbn.
    by rewrite Hirq, Hsl, (i_cur s Hi). }
  destruct (pcs s (cur s)) eqn:Ep; try (left; by apply Htimer).
  - left. exists (Lock None). cbn. unfold lock_step. rewrite Ep. destruct (locked s); eauto.
  - destruct (waiters_owner s) as [u|] eqn:Eo.
    + right. pose proof (proj1 (i_owner s Hi u) Eo) as Hu. exists was, u. split_and!; try done.
      intros ->. by rewrite Ep in Hu.
    + left. exists (Lock None). cbn. unfold lock_step. rewrite Ep, Eo. eauto.
  - left. destruct (holder_runnable s Hi Ep) as (u & _ & Hu). exists (Lock (Some u)).
    cbn. unfold lock_step. rewrite Ep, Hu. eauto.
  - left. exists Drop. cbn. unfold drop_step. rewrite Ep. eauto.
Qed.

End Threads.

(** Three threads: 0 releases the mutex and is preempted while it holds the waiters'
    spinlock, 1 takes the mutex and is preempted in its critical section, 2 wants it. *)
Definition deadlock_schedule : list event :=
  [Enter; Lock None; Drop; Drop; Timer 1; Enter; Lock None; Timer 2;
   Enter; Lock None; Lock None; Lock None].

(** The single-core deadlock is reachable with three threads: after the schedule
    above no thread can take any step and no interrupt can be delivered. *)
Theorem kmutex_deadlock_reachable :
  match krun 3 init deadlock_schedule with
  | Some s => irq_enabled s = false /\ forall e, kstep 3 s e = None
  | None => False
  end.
Proof. vm_compute. split; [reflexivity|]. intros [|next| |u]; reflexivity. Qed.

Lemma kmutex_mutual_exclusion_witness :
  exists s, krun 3 init (take 7 deadlock_schedule) = Some s /\ pcs s 1 = Critical /\
    (forall u, pcs s u = Critical -> 1%nat = u).
Proof.
  eexists. split; [vm_compute; reflexivity|]. split; [reflexivity|]. intros u.
  apply (kmutex_mutual_exclusion 3 (take 7 deadlock_schedule) _ 1 u); [lia|vm_compute; reflexivity|reflexivity].
Defined.

(** Thread 1 waits for the mutex that thread 0 holds. *)
Definition contention : list event :=
  [Enter; Lock None; Timer 1; Enter; Lock None; Lock None; Lock None; Lock None; Lock (Some 0%nat)].

Lemma kmutex_no_lost_wakeup_witness :
  exists s, krun 2 init contention = Some s /\ blocked s 1 = true /\
    exists u, runnable 2 s u = true /\
      (pcs s u = Critical \/ dropping (pcs s u) = true \/ contending (pcs s u) = true).
Proof.
  eexists. split; [vm_compute; reflexivity|]. split; [reflexivity|].
  refine (proj2 (proj2 (kmutex_no_lost_wakeup 2 contention _ _ _)) 1%nat _); [lia|vm_compute; reflexivity|reflexivity].
Defined.

Lemma kmutex_stuck_only_on_waiters_witness :
  exists s, krun 2 init contention = Some s /\
    ((exists e s', kstep 2 s e = Some s') \/
     (exists was u, pcs s (cur s) = LockEnqueue was /\ irq_enabled s = false /\
        waiters_owner s = Some u /\ u <> cur s /\ owns_waiters (pcs s u) = true)).
Proof.
  eexists. split; [vm_compute; reflexivity|].
  apply (kmutex_stuck_only_on_waiters 2 contention); [lia|vm_compute; reflexivity].
Defined.

End KMutex.
