(* ===== verification/Guarded.v ===== *)
(** * Data behind a [KMutex] (src/sync.rs [KMutexGuard] [deref], tests/kmutex_concurrent.rs)

    Threads that share data through the guards of a [KMutex], at the granularity of single
    accesses, with a timer interrupt possible between any two of them.  The specification
    is a machine in which a critical section is one step; every run of the detailed
    machine is a run of that one.  The concurrent test of the repository is then read off
    the specification. *)

From stdpp Require Import relations.
From S2P Require Import Prelude Sync.
Import KMutex.

(** ** Threads that share data *)

Section Client.
Context {T W L : Type}.

(** What a thread does while it has no guard: work on the atomics that are shared besides,
    call [lock], or halt. *)
Inductive next := Go (l : L) (w : W) | Acquire (l : L) | Stop.

Variable outside : L -> W -> next.
(** One access to the data through the guard, with what the thread computes from it;
    [None] when the guard goes out of scope. *)
Variable inside : L -> T -> option (L * T).

Variable n : nat.

Record config := mk_config {
  km : kstate;
  data : T;
  atoms : W;
  locals : nat -> L;
}.

Definition with_km (c : config) (s : kstate) : config := mk_config s (data c) (atoms c) (locals c).

(** The current thread takes a step, in which [next] is the scheduler's choice if it
    blocks; or a timer interrupt comes and [next] runs. *)
Inductive cevent := Own (next : option nat) | Tick (next : nat).

Definition cstep (c : config) (e : cevent) : option config :=
  let t := cur (km c) in
  match e with
  | Tick u => s ← kstep n (km c) (Timer u); Some (with_km c s)
  | Own u =>
      match pcs (km c) t with
      | Outside =>
          match outside (locals c t) (atoms c) with
          | Go l w => Some (mk_config (km c) (data c) w (upd (locals c) t l))
          | Acquire l => s ← kstep n (km c) Enter; Some (mk_config s (data c) (atoms c) (upd (locals c) t l))
          | Stop => None
          end
      | Critical =>
          match inside (locals c t) (data c) with
          | Some (l, d) => Some (mk_config (km c) d (atoms c) (upd (locals c) t l))
          | None => s ← kstep n (km c) Drop; Some (with_km c s)
          end
      | DropWaiters | DropPop | DropSched _ | DropWake _ _ | DropEnd => s ← kstep n (km c) Drop; Some (with_km c s)
      | _ => s ← kstep n (km c) (Lock u); Some (with_km c s)
      end
  end.

Fixpoint crun (c : config) (es : list cevent) : option config :=
  match es with [] => Some c | e :: es => c ← cstep c e; crun c es end.

(** ** Critical sections as single steps *)

Record aconf := mk_aconf {
  adata : T;
  aatoms : W;
  alocals : nat -> L;
  pend : nat -> bool;   (* called [lock], section still to come *)
}.

Definition inside_step (x y : L * T) : Prop := inside (fst x) (snd x) = Some y.

Inductive astep : aconf -> aconf -> Prop :=
  | a_go a t l w : pend a t = false -> outside (alocals a t) (aatoms a) = Go l w ->
      astep a (mk_aconf (adata a) w (upd (alocals a) t l) (pend a))
  | a_acquire a t l : pend a t = false -> outside (alocals a t) (aatoms a) = Acquire l ->
      astep a (mk_aconf (adata a) (aatoms a) (upd (alocals a) t l) (upd (pend a) t true))
  | a_section a t l d : pend a t = true -> rtc inside_step (alocals a t, adata a) (l, d) -> inside l d = None ->
      astep a (mk_aconf d (aatoms a) (upd (alocals a) t l) (upd (pend a) t false)).

(** On the way to the mutex, or holding it. *)
Definition wants (p : pc) : bool :=
  match p with
  | Outside | DropWaiters | DropPop | DropSched _ | DropWake _ _ | DropEnd => false
  | LockFast | LockSched | LockRecheck _ | LockEnqueue _ | LockBlock | LockDead | Critical => true
  end.

(** A section that has begun in the detailed machine has not yet happened in the other. *)
Record rel (c : config) (a : aconf) : Prop := {
  r_inv : inv n (km c);
  r_atoms : aatoms a = atoms c;
  r_pend : forall t, pend a t = wants (pcs (km c) t);
  r_local : forall t, pcs (km c) t <> Critical -> alocals a t = locals c t;
  r_data : (forall t, pcs (km c) t <> Critical) -> adata a = data c;
  r_crit : forall t, pcs (km c) t = Critical -> rtc inside_step (alocals a t, adata a) (locals c t, data c);
}.

(** ** The steps of the mutex *)

Lemma lock_moves s u s' : lock_step n s u = Some s' ->
  (forall t, t <> cur s -> pcs s' t = pcs s t) /\ pcs s (cur s) <> Critical /\ wants (pcs s (cur s)) = true /\
  (pcs s' (cur s) = Critical /\ locked s = false \/ pcs s' (cur s) <> Critical /\ wants (pcs s' (cur s)) = true).
Proof.
  unfold lock_step, sched_lock. intros H.
  repeat (case_match; simplify_option_eq; try done); cbn [pcs goto set_cur set_sched set_blocked set_waiters set_locked cur];
    (split_and!; [intros t Ht; by rewrite ?upd_ne by done|done|done|rewrite upd_eq; auto]).
Qed.

Lemma drop_moves s s' : drop_step s = Some s' ->
  (forall t, t <> cur s -> pcs s' t = pcs s t) /\ pcs s' (cur s) <> Critical /\ wants (pcs s' (cur s)) = false /\
  (pcs s (cur s) = Critical \/ wants (pcs s (cur s)) = false).
Proof.
  unfold drop_step, sched_lock. intros H.
  repeat (case_match; simplify_option_eq; try done); cbn [pcs goto set_cur set_sched set_blocked set_waiters set_locked set_owner cur];
    (split_and!; [intros t Ht; by rewrite ?upd_ne by done|by rewrite upd_eq..|auto]).
Qed.

(** ** Every run is a run of whole sections *)

(** A step of the mutex that neither enters nor leaves a section. *)
Lemma rel_moves c a e s : rel c a -> kstep n (km c) e = Some s ->
  (forall t, pcs s t = pcs (km c) t \/ wants (pcs s t) = wants (pcs (km c) t) /\ pcs s t <> Critical /\ pcs (km c) t <> Critical) ->
  rel (with_km c s) a.
Proof.
  intros [Hi Ha Hp Hl Hd Hc] Hs Hm.
  assert (Hcrit : forall t, pcs s t = Critical <-> pcs (km c) t = Critical).
  { intros t. destruct (Hm t) as [->|(_ & H1 & H2)]; tauto. }
  split; cbn [km data atoms locals with_km]; try done.
  - by eapply kstep_inv.
  - intros t. rewrite Hp. by destruct (Hm t) as [->|(-> & _)].
  - intros t Ht. apply Hl. by rewrite <- Hcrit.
  - intros Ht. apply Hd. intros t. by rewrite <- Hcrit.
  - intros t Ht. apply Hc. by rewrite <- Hcrit.
Qed.

(** Nobody holds a mutex that is free. *)
Lemma free_no_critical s : inv n s -> locked s = false -> forall t, pcs s t <> Critical.
Proof. intros Hi Hl t Ht. pose proof (i_crit n s Hi t Ht). congruence. Qed.

Lemma rel_lock c a u s : rel c a -> kstep n (km c) (Lock u) = Some s -> rel (with_km c s) a.
Proof.
  intros Hr Hs. pose proof Hr as [Hi Ha Hp Hl Hd Hc]. destruct (lock_moves _ _ _ Hs) as (Ho & Hnc & Hw & [[Hcr Hfree]|[Hcr Hw']]).
  - pose proof (free_no_critical _ Hi Hfree) as Hnone. split; cbn [km data atoms locals with_km]; try done.
    + by eapply kstep_inv.
    + intros t. rewrite Hp. destruct (decide (t = cur (km c))) as [->|Ht]; [by rewrite Hw, Hcr|by rewrite Ho].
    + intros t Ht. by apply Hl.
    + intros Ht. by destruct (Ht (cur (km c))).
    + intros t _. rewrite Hl, Hd by done. apply rtc_refl.
  - eapply rel_moves; [done|exact Hs|]. intros t. destruct (decide (t = cur (km c))) as [->|Ht]; [|left; by apply Ho].
    right. by rewrite Hw, Hw'.
Qed.

(** The guard is dropped: the section has happened. *)
Lemma rel_release c a s : rel c a -> pcs (km c) (cur (km c)) = Critical -> inside (locals c (cur (km c))) (data c) = None ->
  kstep n (km c) Drop = Some s -> exists a', astep a a' /\ rel (with_km c s) a'.
Proof.
  intros [Hi Ha Hp Hl Hd Hc] Hcr Hin Hs. set (t := cur (km c)) in *. destruct (drop_moves _ _ Hs) as (Ho & Hnc & Hw & _). fold t in Ho, Hnc, Hw.
  exists (mk_aconf (data c) (aatoms a) (upd (alocals a) t (locals c t)) (upd (pend a) t false)). split.
  - apply a_section; [by rewrite Hp, Hcr|by apply Hc|done].
  - assert (Hothers : forall u, u <> t -> pcs (km c) u <> Critical).
    { intros u Hu Hcu. by apply Hu, (i_excl n _ Hi). }
    split; cbn [km data atoms locals with_km adata aatoms alocals pend]; try done.
    + by eapply kstep_inv.
    + intros u. destruct (decide (u = t)) as [->|Hu]; [by rewrite upd_eq, Hw|by rewrite upd_ne, Hp, Ho].
    + intros u _. destruct (decide (u = t)) as [->|Hu]; [by rewrite upd_eq|]. rewrite upd_ne by done. by apply Hl, Hothers.
    + intros u Hcu. destruct (decide (u = t)) as [->|Hu]; [done|]. rewrite Ho in Hcu by done. by apply Hothers in Hu.
Qed.

(** The current thread works outside. *)
Lemma rel_outside c a c' u : rel c a -> pcs (km c) (cur (km c)) = Outside -> cstep c (Own u) = Some c' ->
  exists a', astep a a' /\ rel c' a'.
Proof.
  intros [Hi Ha Hp Hl Hd Hc] Ep Hs. cbn [cstep] in Hs. rewrite Ep in Hs. set (t := cur (km c)) in *.
  assert (Hpt : pend a t = false) by by rewrite Hp, Ep.
  assert (Hlt : alocals a t = locals c t) by (apply Hl; by rewrite Ep).
  assert (Hother : forall v, pcs (km c) v = Critical -> v <> t) by (intros v Hv ->; congruence).
  assert (Hupd : forall l v, v <> t -> pcs (km c) v <> Critical -> upd (alocals a) t l v = upd (locals c) t l v).
  { intros l v Hv Hcv. rewrite !upd_ne by done. by apply Hl. }
  destruct (outside (locals c t) (atoms c)) as [l w|l|] eqn:Eo; [| |done].
  - injection Hs as <-. exists (mk_aconf (adata a) w (upd (alocals a) t l) (pend a)). split; [apply a_go; [done|by rewrite Hlt, Ha]|].
    split; cbn; try done.
    + intros v Hv. destruct (decide (v = t)) as [->|Hne]; [by rewrite !upd_eq|by apply Hupd].
    + intros v Hv. rewrite !upd_ne by by apply Hother. by apply Hc.
  - destruct (kstep n (km c) Enter) as [s|] eqn:E; [|done]. injection Hs as <-.
    assert (Hi' : inv n s) by by eapply kstep_inv. cbn in E. rewrite decide_True in E by done. injection E as <-.
    exists (mk_aconf (adata a) (aatoms a) (upd (alocals a) t l) (upd (pend a) t true)). split; [apply a_acquire; [done|by rewrite Hlt, Ha]|].
    assert (Hpcs : forall v, v <> t -> pcs (goto (km c) LockFast) v = pcs (km c) v) by (intros v Hv; cbn; by rewrite upd_ne).
    assert (Hpt' : pcs (goto (km c) LockFast) t = LockFast) by (cbn; by rewrite upd_eq).
    split; cbn [km data atoms locals adata aatoms alocals pend]; try done.
    + intros v. destruct (decide (v = t)) as [->|Hne]; [by rewrite upd_eq, Hpt'|by rewrite upd_ne, Hp, Hpcs].
    + intros v Hv. destruct (decide (v = t)) as [->|Hne]; [by rewrite !upd_eq|]. rewrite Hpcs in Hv by done. by apply Hupd.
    + intros Hv. apply Hd. intros v Hcv. apply (Hv v). rewrite Hpcs by by apply Hother. done.
    + intros v Hv. destruct (decide (v = t)) as [->|Hne]; [congruence|]. rewrite Hpcs in Hv by done.
      rewrite !upd_ne by done. by apply Hc.
Qed.

(** The current thread uses its guard. *)
Lemma rel_inside c a l d : rel c a -> pcs (km c) (cur (km c)) = Critical ->
  inside (locals c (cur (km c))) (data c) = Some (l, d) ->
  rel (mk_config (km c) d (atoms c) (upd (locals c) (cur (km c)) l)) a.
Proof.
  intros [Hi Ha Hp Hl Hd Hc] Ep Hs. set (t := cur (km c)) in *. split; cbn; try done.
  - intros v Hv. destruct (decide (v = t)) as [->|Hne]; [done|]. rewrite upd_ne by done. by apply Hl.
  - intros Hv. by destruct (Hv t).
  - intros v Hv. assert (v = t) as -> by by apply (i_excl n _ Hi). rewrite upd_eq.
    eapply rtc_r; [by apply Hc|exact Hs].
Qed.

Lemma cstep_sim c a e c' : rel c a -> cstep c e = Some c' -> exists a', rtc astep a a' /\ rel c' a'.
Proof.
  intros Hr Hs. destruct e as [u|u].
  2: { cbn [cstep] in Hs. destruct (kstep n (km c) (Timer u)) as [s|] eqn:E; [|done]. injection Hs as <-. exists a. split; [done|].
       eapply rel_moves; [done|exact E|]. intros t. left. cbn in E. destruct (_ && _); [|done]. by injection E as <-. }
  assert (Hlock : forall s, kstep n (km c) (Lock u) = Some s -> exists a', rtc astep a a' /\ rel (with_km c s) a').
  { intros s E. exists a. split; [done|]. by eapply rel_lock. }
  assert (Hdrop : pcs (km c) (cur (km c)) <> Critical -> forall s, kstep n (km c) Drop = Some s ->
    exists a', rtc astep a a' /\ rel (with_km c s) a').
  { intros Hnc s E. exists a. split; [done|]. destruct (drop_moves _ _ E) as (Ho & Hnc' & Hw' & [?|Hw]); [done|].
    eapply rel_moves; [done|exact E|]. intros v. destruct (decide (v = cur (km c))) as [->|Hv]; [|left; by apply Ho].
    right. by rewrite Hw, Hw'. }
  destruct (decide (pcs (km c) (cur (km c)) = Outside)) as [Eo|Eo].
  { destruct (rel_outside c a c' u Hr Eo Hs) as (a' & H1 & H2). exists a'. split; [by apply rtc_once|done]. }
  cbn [cstep] in Hs. destruct (pcs (km c) (cur (km c))) eqn:Ep; [done|..].
  7: { destruct (inside _ _) as [[l d]|] eqn:Ei.
       - injection Hs as <-. exists a. split; [done|]. by apply rel_inside.
       - destruct (kstep n (km c) Drop) as [s|] eqn:E; [|done]. injection Hs as <-.
         destruct (rel_release c a s Hr Ep Ei E) as (a' & H1 & H2). exists a'. split; [by apply rtc_once|done]. }
  all: first [destruct (kstep n (km c) (Lock u)) as [s|]; [|done]; injection Hs as <-; by apply Hlock
             |destruct (kstep n (km c) Drop) as [s|]; [|done]; injection Hs as <-; by apply Hdrop].
Qed.

Definition start (d : T) (w : W) (ls : nat -> L) : config := mk_config init d w ls.
Definition astart (d : T) (w : W) (ls : nat -> L) : aconf := mk_aconf d w ls (fun _ => false).

Lemma crun_sim c a es c' : rel c a -> crun c es = Some c' -> exists a', rtc astep a a' /\ rel c' a'.
Proof.
  revert c a. induction es as [|e es IH]; intros c a Hr H; cbn in H; [injection H as <-; by exists a|].
  destruct (cstep c e) as [c1|] eqn:E; [|done]. cbn in H. destruct (cstep_sim _ _ _ _ Hr E) as (a1 & H1 & Hr1).
  destruct (IH _ _ Hr1 H) as (a2 & H2 & Hr2). exists a2. split; [by etrans|done].
Qed.

Lemma run_refines d w ls es c : (0 < n)%nat -> crun (start d w ls) es = Some c ->
  exists a, rtc astep (astart d w ls) a /\ rel c a.
Proof. intros Hn. apply crun_sim. split; try done. by apply init_inv. Qed.

(** C8. Critical sections are atomic.  Whatever the threads compute and whenever timer
    interrupts preempt them, a run of threads that share data through a [KMutex], access
    by access, is a run in which every critical section is a single step: the data and
    the threads' states are those of that run, except that the section of the thread that
    holds the guard has been carried out only in part. *)
Theorem kmutex_sections_atomic d w ls es c : (0 < n)%nat -> crun (start d w ls) es = Some c ->
  exists a, rtc astep (astart d w ls) a /\ aatoms a = atoms c /\
    (forall t, pcs (km c) t <> Critical -> alocals a t = locals c t) /\
    (forall t, pcs (km c) t = Critical -> rtc inside_step (alocals a t, adata a) (locals c t, data c)) /\
    ((forall t, pcs (km c) t <> Critical) -> adata a = data c).
Proof.
  intros Hn H. destruct (run_refines d w ls es c Hn H) as (a & Ha & [Hi H1 H2 H3 H4 H5]). by exists a.
Qed.

End Client.

(** ** The concurrent test *)

Module Concurrent.

Definition WORKERS : nat := 3.
Definition ITERS : nat := 200.
Definition expected : Z := Z.of_nat (WORKERS * ITERS).

(** Where a worker or the verifier is; [k] iterations are left after the present one. *)
Inductive local :=
  | WLoop (k : nat)             (* at the head of the loop *)
  | WLoad (k : nat)             (* has the guard, about to load the counter *)
  | WStore (k : nat) (v : Z)    (* has loaded [v] *)
  | WStored (k : nat)           (* the guard goes out of scope *)
  | WHalt                       (* has counted itself in DONE *)
  | WPanic                      (* an increment overflowed *)
  | VSpin | VLoad | VLoaded (v : Z)
  | VExit (success : bool).

Definition outside (l : local) (DONE : Z) : next (W := Z) :=
  match l with
  | WLoop 0 | WStored 0 => Go WHalt (DONE + 1)
  | WLoop (S k) | WStored (S k) => Acquire (WLoad k)
  | VSpin => if DONE <? Z.of_nat WORKERS then Go VSpin DONE else Acquire VLoad
  | VLoaded final_count => Go (VExit (final_count =? expected)) DONE
  | WLoad _ | WStore _ _ | WHalt | WPanic | VLoad | VExit _ => Stop
  end.

(** [*g += 1] is a load and a store of a [u32]. *)
Definition inside (l : local) (count : Z) : option (local * Z) :=
  match l with
  | WLoad k => Some (WStore k count, count)
  | WStore k v => if v + 1 <? 2 ^ 32 then Some (WStored k, v + 1) else Some (WPanic, count)
  | VLoad => Some (VLoaded count, count)
  | _ => None
  end.

(** Threads 0, 1 and 2 are workers, thread 3 is the verifier. *)
Definition threads (t : nat) : local := if decide (t < WORKERS)%nat then WLoop ITERS else VSpin.

Definition test_run (es : list cevent) : option (config (T := Z) (W := Z) (L := local)) :=
  crun outside inside (WORKERS + 1) (start 0 0 threads) es.

(** *** The count, in the machine with whole sections *)

(** The increments a worker still owes. *)
Definition owes (l : local) : Z :=
  match l with
  | WLoop k | WStored k => Z.of_nat k
  | WLoad k | WStore k _ => Z.of_nat k + 1
  | _ => 0
  end.
Definition halted (l : local) : Z := match l with WHalt => 1 | _ => 0 end.

Definition total (f : local -> Z) (ls : nat -> local) : Z := f (ls 0%nat) + f (ls 1%nat) + f (ls 2%nat).

Lemma total_upd f ls t l : (t < WORKERS)%nat -> total f (upd ls t l) = total f ls - f (ls t) + f l.
Proof.
  unfold WORKERS, total. intros Ht. destruct t as [|[|[|t]]]; [| | |lia]; rewrite upd_eq, !upd_ne by done; lia.
Qed.

Lemma total_other f ls t l : (WORKERS <= t)%nat -> total f (upd ls t l) = total f ls.
Proof. unfold WORKERS, total. intros Ht. by rewrite !upd_ne by lia. Qed.

Definition local_ok (t : nat) (l : local) (DONE : Z) : Prop :=
  if decide (t < WORKERS)%nat
  then match l with WLoop k => (k <= ITERS)%nat | WLoad k | WStored k => (k < ITERS)%nat | WHalt => True | _ => False end
  else match l with
       | VSpin => True | VLoad => Z.of_nat WORKERS <= DONE
       | VLoaded v => v = expected | VExit ok => ok = true | _ => False end.

Record count_ok (a : aconf (T := Z) (W := Z) (L := local)) : Prop := {
  co_local : forall t, local_ok t (alocals a t) (aatoms a);
  co_sum : adata a + total owes (alocals a) = expected;
  co_done : aatoms a = total halted (alocals a);
}.

Lemma owes_range t l DONE : local_ok t l DONE -> (t < WORKERS)%nat -> 0 <= owes l <= Z.of_nat ITERS /\ (owes l = 0 \/ halted l = 0).
Proof. unfold local_ok. intros H Ht. rewrite decide_True in H by done. destruct l; cbn; lia. Qed.

Lemma count_range a : count_ok a -> 0 <= adata a <= expected.
Proof.
  intros [Hl Hs _]. unfold total in Hs.
  destruct (owes_range 0 _ _ (Hl 0%nat)) as [? _]; [unfold WORKERS; lia|].
  destruct (owes_range 1 _ _ (Hl 1%nat)) as [? _]; [unfold WORKERS; lia|].
  destruct (owes_range 2 _ _ (Hl 2%nat)) as [? _]; [unfold WORKERS; lia|].
  change expected with 600 in *. change (Z.of_nat ITERS) with 200 in *. lia.
Qed.

(** When all workers have counted themselves the count is complete. *)
Lemma all_halted a : count_ok a -> Z.of_nat WORKERS <= aatoms a -> adata a = expected.
Proof.
  intros [Hl Hs Hd] Hw. rewrite Hd in Hw. unfold total in Hs, Hw. change (Z.of_nat WORKERS) with 3 in Hw.
  destruct (owes_range 0 _ _ (Hl 0%nat)) as [? Hw0]; [unfold WORKERS; lia|].
  destruct (owes_range 1 _ _ (Hl 1%nat)) as [? Hw1]; [unfold WORKERS; lia|].
  destruct (owes_range 2 _ _ (Hl 2%nat)) as [? Hw2]; [unfold WORKERS; lia|].
  assert (Hh : forall l, 0 <= halted l <= 1) by (intros []; cbn; lia).
  pose proof (Hh (alocals a 0%nat)). pose proof (Hh (alocals a 1%nat)). pose proof (Hh (alocals a 2%nat)). lia.
Qed.

(** What a critical section can have done, partly or in full. *)
Lemma section_states l d x : rtc (inside_step inside) (l, d) x -> 0 <= d <= expected ->
  x = (l, d) \/
  (exists k, l = WLoad k /\ (x = (WStore k d, d) \/ x = (WStored k, d + 1))) \/
  (exists k v, l = WStore k v) \/ l = VLoad /\ x = (VLoaded d, d).
Proof.
  intros Hr Hd. change expected with 600 in Hd. apply rtc_inv in Hr as [<-|(y & Hs & Hr)]; [by left|]. right.
  unfold inside_step in Hs. cbn in Hs. destruct l; try done; [left; exists k; split; [done|]|right; left; eauto|right; right; split; [done|]].
  - injection Hs as <-. apply rtc_inv in Hr as [<-|(y & Hs & Hr)]; [by left|right]. unfold inside_step in Hs. cbn in Hs.
    rewrite (proj2 (Z.ltb_lt _ _)) in Hs by lia. injection Hs as <-. apply rtc_inv in Hr as [<-|(y & Hs & Hr)]; done.
  - injection Hs as <-. apply rtc_inv in Hr as [<-|(y & Hs & Hr)]; done.
Qed.

Lemma local_ok_mono t l D D' : local_ok t l D -> D <= D' -> local_ok t l D'.
Proof. unfold local_ok. case_decide; destruct l; try done; lia. Qed.

(** A thread moves on, with the counter and DONE as they become. *)
Lemma count_upd a t l d D p : count_ok a -> local_ok t l D -> aatoms a <= D ->
  d - adata a = (if decide (t < WORKERS)%nat then owes (alocals a t) - owes l else 0) ->
  D - aatoms a = (if decide (t < WORKERS)%nat then halted l - halted (alocals a t) else 0) ->
  count_ok (mk_aconf d D (upd (alocals a) t l) p).
Proof.
  intros [Hl Hs Hd] Hok HD Hds HDs. split; cbn [alocals adata aatoms].
  - intros u. destruct (decide (u = t)) as [->|Hu]; [by rewrite upd_eq|]. rewrite upd_ne by done. by eapply local_ok_mono.
  - case_decide; [rewrite total_upd by done|rewrite total_other by lia]; lia.
  - case_decide; [rewrite total_upd by done|rewrite total_other by lia]; lia.
Qed.

Lemma astep_count a a' : count_ok a -> astep outside inside a a' -> count_ok a'.
Proof.
  intros Hc Hs. pose proof (count_range a Hc) as Hr. pose proof (all_halted a Hc) as Hall.
  destruct Hs as [a t l w _ Ho|a t l _ Ho|a t l d _ Hi He]; pose proof (co_local a Hc t) as Hl; unfold local_ok in Hl.
  - case_decide as Ht.
    + destruct (alocals a t) as [[|k]|k|k v|[|k]| | | | |v|ok] eqn:El; try done; cbn in Ho; try discriminate Ho; injection Ho as <- <-;
        (apply count_upd; [done|unfold local_ok; by rewrite decide_True|lia|rewrite decide_True, El by done; cbn; lia..]).
    + destruct (alocals a t) as [k|k|k v|k| | | | |v|ok] eqn:El; try done; cbn in Ho; try discriminate Ho; [case_match; [|done]|];
        injection Ho as <- <-; (apply count_upd; [done|unfold local_ok; rewrite decide_False by done|lia|rewrite decide_False by done; lia..]).
      * done.
      * subst v. by rewrite Z.eqb_refl.
  - case_decide as Ht.
    + destruct (alocals a t) as [[|k]|k|k v|[|k]| | | | |v|ok] eqn:El; try done; cbn in Ho; try discriminate Ho; injection Ho as <-;
        (apply count_upd; [done|unfold local_ok; rewrite decide_True by done; lia|lia|rewrite decide_True, El by done; cbn; lia..]).
    + destruct (alocals a t) as [k|k|k v|k| | | | |v|ok] eqn:El; try done; cbn in Ho; try discriminate Ho; case_match eqn:E; [done|].
      injection Ho as <-. apply count_upd; [done|unfold local_ok; rewrite decide_False by done; lia|lia|rewrite decide_False by done; lia..].
  - destruct (section_states _ _ _ Hi Hr) as [[= -> ->]|[(k & El & [[= -> ->]|[= -> ->]])|[(k & v & El)|[El [= -> ->]]]]].
    + apply count_upd; [done|apply (co_local a Hc)|lia|case_decide; lia..].
    + cbn in He. by destruct (adata a + 1 <? _).
    + rewrite El in Hl. case_decide; [|done].
      apply count_upd; [done|unfold local_ok; by rewrite decide_True|lia|rewrite decide_True, El by done; cbn; lia..].
    + rewrite El in Hl. by case_decide.
    + rewrite El in Hl. case_decide; [done|].
      apply count_upd; [done|unfold local_ok; rewrite decide_False by done; by apply Hall|lia|rewrite decide_False by done; lia..].
Qed.

Lemma start_count : count_ok (astart 0 0 threads).
Proof.
  split; [|reflexivity|reflexivity]. intros t. unfold local_ok, astart, threads. cbn [alocals]. by case_decide.
Qed.

Lemma run_count a : rtc (astep outside inside) (astart 0 0 threads) a -> count_ok a.
Proof.
  intros Hr. pose proof start_count as Hc. induction Hr as [a|a b c Hs _ IH]; [done|]. apply IH. by eapply astep_count.
Qed.

(** A section that is under way has not gone past the count. *)
Lemma section_under_way a t l d : count_ok a -> rtc (inside_step inside) (alocals a t, adata a) (l, d) ->
  0 <= d <= expected /\ l <> WPanic /\ forall ok, l = VExit ok -> ok = true.
Proof.
  intros Hc Hr. pose proof (count_range a Hc) as Hd. pose proof (co_local a Hc t) as Hl. unfold local_ok in Hl.
  destruct (section_states _ _ _ Hr Hd) as [[= -> ->]|[(k & El & [[= -> ->]|[= -> ->]])|[(k & v & El)|[El [= -> ->]]]]].
  - split; [done|]. case_decide; destruct (alocals a t); try done. split; [done|]. by intros ok' [= ->].
  - done.
  - split; [|done]. rewrite El in Hl. case_decide as Ht; [|done].
    pose proof (co_sum a Hc) as Hs. pose proof (total_upd owes (alocals a) t (WStored k) Ht) as Hu.
    assert (Hc' : count_ok (mk_aconf (adata a + 1) (aatoms a) (upd (alocals a) t (WStored k)) (pend a))).
    { apply count_upd; [done|unfold local_ok; by rewrite decide_True|lia|rewrite decide_True, El by done; cbn; lia..]. }
    exact (count_range _ Hc').
  - rewrite El in Hl. by case_decide.
  - done.
Qed.

(** C11. The concurrent test never reports a failure.  Three workers count to 200 each under
    the mutex, load and store apart, and a verifier reads the count when they are done:
    in every run, whatever the preemptions, no increment overflows, the count never
    exceeds 600, and a verifier that exits has read exactly 600. *)
Theorem concurrent_test_exact es c : test_run es = Some c ->
  0 <= data c <= expected /\ forall t, locals c t <> WPanic /\ forall ok, locals c t = VExit ok -> ok = true.
Proof.
  intros H. destruct (run_refines outside inside (WORKERS + 1) 0 0 threads es c) as (a & Ha & [Hi _ _ Hl Hd Hcr]);
    [unfold WORKERS; lia|exact H|]. pose proof (run_count a Ha) as Hc. split.
  - destruct (locked (km c)) eqn:El.
    + destruct (i_held _ _ Hi El) as [t Ht]. exact (proj1 (section_under_way a t _ _ Hc (Hcr t Ht))).
    + rewrite <- Hd by by eapply free_no_critical. by apply count_range.
  - intros t. destruct (decide (pcs (km c) t = Critical)) as [Ht|Ht].
    + exact (proj2 (section_under_way a t _ _ Hc (Hcr t Ht))).
    + rewrite <- (Hl t Ht). exact (proj2 (section_under_way a t _ _ Hc (rtc_refl _ _))).
Qed.

(** The schedule of [KMutex.deadlock_schedule] in this test: worker 0 is preempted in its
    first [drop], worker 1 in its first section, worker 2 wants the mutex. *)
Definition hang_schedule : list cevent :=
  let s := Own None in
  [s; s; s; s; s; s; Tick 1; s; s; s; Tick 2; s; s; s; s].

(** C12. The concurrent test can hang: there is a run after which no thread can take a step
    and no interrupt can be delivered, with the verifier still waiting. *)
Theorem concurrent_test_can_hang : exists c, test_run hang_schedule = Some c /\ locals c 3 = VSpin /\
  forall e, cstep outside inside (WORKERS + 1) c e = None.
Proof. eexists. split; [vm_compute; reflexivity|]. split; [reflexivity|]. intros [u|u]; reflexivity. Qed.

Lemma concurrent_test_exact_witness : exists c, test_run hang_schedule = Some c /\ data c = 1 /\ 0 <= data c <= expected /\
  locals c 1 = WStore 199 1 /\ locals c 1 <> WPanic.
Proof.
  eexists. split; [vm_compute; reflexivity|]. split; [reflexivity|].
  destruct (concurrent_test_exact hang_schedule _ ltac:(vm_compute; reflexivity)) as [Hd Hl].
  split; [exact Hd|]. split; [reflexivity|exact (proj1 (Hl 1%nat))].
Defined.

(** In the middle of worker 0's first section. *)
Lemma kmutex_sections_atomic_witness : exists c a,
  crun outside inside 4 (start 0 0 threads) [Own None; Own None; Own None] = Some c /\
  rtc (astep outside inside) (astart 0 0 threads) a /\ pcs (km c) 0 = Critical /\ locals c 0 = WStore 199 0 /\
  rtc (inside_step inside) (alocals a 0, adata a) (locals c 0, data c).
Proof.
  assert (E : exists c, crun outside inside 4 (start 0 0 threads) [Own None; Own None; Own None] = Some c /\
    pcs (km c) 0 = Critical /\ locals c 0 = WStore 199 0) by (eexists; split; [vm_compute; reflexivity|by split]).
  destruct E as (c & E & Hp & Hl).
  destruct (kmutex_sections_atomic outside inside 4 0 0 threads _ c ltac:(lia) E) as (a & Ha & _ & _ & Hc & _).
  exists c, a. split; [exact E|]. split; [exact Ha|]. split; [exact Hp|]. split; [exact Hl|]. exact (Hc 0%nat Hp).
Defined.

End Concurrent.
