(* ===== verification/Tasks.v ===== *)
(** * Cooperative tasks (src/task/executor.rs, keyboard.rs, sleep.rs, mod.rs)

    The executor's ready queue and its wakers, the scancode stream between the
    keyboard interrupt and the shell task, and timer sleeps.  The bounded queue
    ([crossbeam_queue::ArrayQueue]) and the waker cell ([AtomicWaker]) are other
    people's code: they appear through interfaces that state their documented
    behaviour. *)

From stdpp Require Import gmap.
From S2P Require Import Prelude.

(** ** The two library interfaces *)

(** A bounded first-in first-out queue: [push] fails exactly when it is full. *)
Class ArrayQueue (A Q : Type) := {
  aq_new : nat -> Q;
  aq_push : Q -> A -> option Q;
  aq_pop : Q -> option (A * Q);
  aq_items : Q -> list A;
  aq_capacity : Q -> nat;
  aq_new_spec cap : (0 < cap)%nat -> aq_items (aq_new cap) = [] /\ aq_capacity (aq_new cap) = cap;
  aq_push_spec q x :
    match aq_push q x with
    | Some q' => (length (aq_items q) < aq_capacity q)%nat /\
        aq_items q' = aq_items q ++ [x] /\ aq_capacity q' = aq_capacity q
    | None => (aq_capacity q <= length (aq_items q))%nat
    end;
  aq_pop_spec q :
    match aq_pop q with
    | Some (x, q') => aq_items q = x :: aq_items q' /\ aq_capacity q' = aq_capacity q
    | None => aq_items q = []
    end;
}.

(** A cell that holds at most one waker: [register] replaces it, [wake] takes it out. *)
Class AtomicWaker (K C : Type) := {
  aw_new : C;
  aw_register : C -> K -> C;
  aw_take : C -> option K * C;
  aw_held : C -> option K;
  aw_new_spec : aw_held aw_new = None;
  aw_register_spec c w : aw_held (aw_register c w) = Some w;
  aw_take_spec c : fst (aw_take c) = aw_held c /\ aw_held (snd (aw_take c)) = None;
}.

(** ** Task identifiers *)

(** [TaskId::new]: a relaxed [fetch_add]. *)
Definition TaskId_new (next : Z) : Z * Z := (next, wrap64 (next + 1)).

(** ** The ready queue and the wakers *)

Section Tasks.
Context {Q : Type} `{!ArrayQueue Z Q}.

(** A task's future is its state; the waker handed out for a task is its id. *)
Record Executor (F : Type) := mk_executor {
  tasks : gmap Z F;
  task_queue : Q;
  waker_cache : gmap Z Z;
}.
Arguments mk_executor {F}.
Arguments tasks {F}.
Arguments task_queue {F}.
Arguments waker_cache {F}.

Definition QUEUE_SIZE : nat := 100.

Definition executor_new {F} : Executor F := mk_executor ∅ (aq_new QUEUE_SIZE) ∅.

(** [TaskWaker::wake_task]: [expect("task_queue full")]. *)
Definition wake_task (q : Q) (task_id : Z) : outcome Q := expect (aq_push q task_id).

Definition executor_spawn {F} (e : Executor F) (task_id : Z) (f : F) : outcome (Executor F) :=
  match tasks e !! task_id with
  | Some _ => Panic ExplicitPanic
  | None =>
      q ← expect (aq_push (task_queue e) task_id);
      Ok (mk_executor (<[task_id := f]> (tasks e)) q (waker_cache e))
  end.

Section Run.
(** A poll of a future with its waker may push wakeups, its own included; the world it
    acts on is [W].  [true] is [Poll::Ready]. *)
Context {F W : Type}.
Context (poll : F -> Z -> W -> Q -> outcome (bool * F * W * Q)).

(** One iteration of the loop of [run_ready_tasks]; [None] when the queue is empty. *)
Definition run_one (e : Executor F) (s : W) : outcome (option (Executor F * W)) :=
  match aq_pop (task_queue e) with
  | None => Ok None
  | Some (task_id, q) =>
      match tasks e !! task_id with
      | None => Ok (Some (mk_executor (tasks e) q (waker_cache e), s))
      | Some task =>
          let waker := default task_id (waker_cache e !! task_id) in
          let cache := <[task_id := waker]> (waker_cache e) in
          '(ready, task, s, q) ← poll task waker s q;
          if (ready : bool) then
            Ok (Some (mk_executor (delete task_id (tasks e)) q (delete task_id cache), s))
          else Ok (Some (mk_executor (<[task_id := task]> (tasks e)) q cache, s))
      end
  end.

(** [run_ready_tasks], for at most [fuel] iterations. *)
Fixpoint run_ready_tasks (fuel : nat) (e : Executor F) (s : W) : outcome (Executor F * W) :=
  match fuel with
  | O => Ok (e, s)
  | S fuel =>
      r ← run_one e s;
      match r with
      | None => Ok (e, s)
      | Some (e, s) => run_ready_tasks fuel e s
      end
  end.

(** The bookkeeping invariant: only live tasks have a cached waker, and it is theirs. *)
Definition executor_wf (e : Executor F) : Prop :=
  forall id w, waker_cache e !! id = Some w -> w = id /\ is_Some (tasks e !! id).

Lemma run_one_wf e s e' s' : executor_wf e -> run_one e s = Ok (Some (e', s')) -> executor_wf e'.
Proof.
  intros Hwf H. unfold run_one in H. destruct (aq_pop (task_queue e)) as [[id q]|]; [|done].
  destruct (tasks e !! id) as [task|] eqn:Et; [|by injection H as <- <-].
  apply bind_ok in H as ([[[ready task'] s1] q'] & _ & H).
  assert (Hw : default id (waker_cache e !! id) = id).
  { destruct (waker_cache e !! id) as [w|] eqn:Ew; [|done]. by destruct (Hwf id w Ew). }
  destruct ready; injection H as <- <-; intros i w; cbn; rewrite Hw.
  - rewrite lookup_delete_Some, lookup_insert_Some. intros [Hne [[? _]|[_ Hi]]]; [done|].
    rewrite lookup_delete_ne by done. by apply Hwf.
  - rewrite lookup_insert_Some. intros [[-> ->]|[Hne Hi]].
    + by rewrite lookup_insert_eq.
    + rewrite lookup_insert_ne by done. by apply Hwf.
Qed.

Lemma run_ready_wf fuel e s e' s' : executor_wf e ->
  run_ready_tasks fuel e s = Ok (e', s') -> executor_wf e'.
Proof.
  revert e s. induction fuel as [|fuel IH]; intros e s Hwf H; cbn in H; [by injection H as <- <-|].
  apply bind_ok in H as (r & E & H). destruct r as [[e1 s1]|]; [|by injection H as <- <-].
  eapply IH; [|done]. by eapply run_one_wf.
Qed.

(** [k] iterations. *)
Fixpoint run_steps (k : nat) (e : Executor F) (s : W) : outcome (option (Executor F * W)) :=
  match k with
  | O => Ok (Some (e, s))
  | S k =>
      r ← run_one e s;
      match r with
      | None => Ok None
      | Some (e, s) => run_steps k e s
      end
  end.

(** Futures reach the queue through wakers only, so a poll appends to it. *)
Definition poll_appends : Prop := forall f w s q r f' s' q',
  poll f w s q = Ok (r, f', s', q') -> exists l, aq_items q' = aq_items q ++ l.

(** The state when the task [id], with future [f], is next in the queue. *)
Definition next_up (e : Executor F) (id : Z) (f : F) : Prop :=
  (exists q, aq_pop (task_queue e) = Some (id, q)) /\ tasks e !! id = Some f /\
  default id (waker_cache e !! id) = id.

Lemma run_one_queue e s x l id f : poll_appends ->
  aq_items (task_queue e) = x :: l -> x <> id -> tasks e !! id = Some f ->
  match run_one e s with
  | Ok (Some (e', _)) => tasks e' !! id = Some f /\ exists l', aq_items (task_queue e') = l ++ l'
  | Ok None => False
  | Panic _ => True
  end.
Proof.
  intros Happ Hq Hne Hf. unfold run_one. pose proof (aq_pop_spec (task_queue e)) as Hpop.
  destruct (aq_pop (task_queue e)) as [[y q]|]; [|congruence].
  destruct Hpop as [Hpop _]. rewrite Hq in Hpop. injection Hpop as -> ->.
  destruct (tasks e !! y) as [g|] eqn:Eg.
  - destruct (poll _ _ _ _) as [[[[ready g'] s'] q']|] eqn:Ep; [|done]. cbn [mbind outcome_bind].
    destruct (Happ _ _ _ _ _ _ _ _ Ep) as [l' Hl'].
    destruct ready; cbn; (split; [|by exists l']).
    + by rewrite lookup_delete_ne.
    + by rewrite lookup_insert_ne.
  - cbn. split; [done|]. exists []. by rewrite app_nil_r.
Qed.

(** A woken task gets its turn: if a live task's id is at position [k] of the ready
    queue, and not before, then unless a future panics the executor reaches, after
    exactly [k] polls, the point where it polls that task with the task's own waker. *)
Theorem executor_polls_woken_task k e s id f : executor_wf e -> poll_appends ->
  aq_items (task_queue e) !! k = Some id -> id ∉ take k (aq_items (task_queue e)) ->
  tasks e !! id = Some f ->
  match run_steps k e s with
  | Ok (Some (e', _)) => next_up e' id f
  | Ok None => False
  | Panic _ => True
  end.
Proof.
  intros Hwf Happ. revert e s Hwf. induction k as [|k IH]; intros e s Hwf Hk Hfirst Hf; cbn [run_steps].
  - unfold next_up. pose proof (aq_pop_spec (task_queue e)) as Hpop.
    destruct (aq_pop (task_queue e)) as [[y q]|]; [|by rewrite Hpop in Hk].
    destruct Hpop as [Hpop _]. rewrite Hpop in Hk. injection Hk as ->. split_and!; [by eexists|done|].
    destruct (waker_cache e !! id) as [w|] eqn:Ew; [|done]. by destruct (Hwf id w Ew).
  - destruct (aq_items (task_queue e)) as [|x l] eqn:El; [done|]. cbn in Hk, Hfirst.
    apply not_elem_of_cons in Hfirst as [Hne Hfirst].
    pose proof (run_one_queue e s x l id f Happ El (not_eq_sym Hne) Hf) as H1.
    destruct (run_one e s) as [[[e1 s1]|]|] eqn:E1; cbn [mbind outcome_bind]; [|done|done].
    destruct H1 as [Hf1 [l' Hl']]. apply IH; [by eapply run_one_wf| | |done].
    + rewrite Hl'. by apply lookup_app_l_Some.
    + rewrite Hl', take_app_le; [done|]. apply lookup_lt_Some in Hk. lia.
Qed.

End Run.

(** ** Timer sleeps *)

(** [SLEEPERS]: target tick and waker. *)
Record Sleep := mk_sleep {
  target_tick : Z;
  registered : bool;
}.

Definition sleep_new (uptime_ticks ticks : Z) : Sleep :=
  mk_sleep (saturating_add uptime_ticks ticks) false.

(** [Sleep::poll] with the caller's waker. *)
Definition sleep_poll (f : Sleep) (waker uptime_ticks : Z) (sleepers : list (Z * Z))
    : bool * Sleep * list (Z * Z) :=
  if target_tick f <=? uptime_ticks then (true, f, sleepers)
  else if registered f then (false, f, sleepers)
  else (false, mk_sleep (target_tick f) true, sleepers ++ [(target_tick f, waker)]).

(** The loop of [wake_sleepers] from index [i] on; [Vec::remove] shifts the rest down. *)
Fixpoint wake_sleepers_from (fuel i : nat) (now : Z) (sleepers : list (Z * Z)) (q : Q)
    : outcome (list (Z * Z) * Q) :=
  match fuel with
  | O => Ok (sleepers, q)
  | S fuel =>
      if decide (i < length sleepers)%nat then
        e ← index sleepers i;
        if fst e <=? now then
          q ← wake_task q (snd e);
          wake_sleepers_from fuel i now (delete i sleepers) q
        else wake_sleepers_from fuel (S i) now sleepers q
      else Ok (sleepers, q)
  end.

Definition wake_sleepers (now : Z) (sleepers : list (Z * Z)) (q : Q) : outcome (list (Z * Z) * Q) :=
  wake_sleepers_from (S (length sleepers)) 0 now sleepers q.

(** The sleepers that are due, and those that are not. *)
Definition due (now : Z) (l : list (Z * Z)) : list (Z * Z) := filter (fun e => fst e <= now) l.
Definition not_due (now : Z) (l : list (Z * Z)) : list (Z * Z) := filter (fun e => ~ fst e <= now) l.

Lemma wake_from_spec fuel now done_ l q : (length l < fuel)%nat ->
  (length (aq_items q) + length (due now l) <= aq_capacity q)%nat ->
  exists q', wake_sleepers_from fuel (length done_) now (done_ ++ l) q = Ok (done_ ++ not_due now l, q') /\
    aq_items q' = aq_items q ++ (snd <$> due now l) /\ aq_capacity q' = aq_capacity q.
Proof.
  revert done_ l q. induction fuel as [|fuel IH]; intros dn l q Hfuel Hroom; [lia|]. cbn [wake_sleepers_from].
  rewrite length_app. destruct l as [|e l].
  { rewrite decide_False by (cbn; lia). exists q. by rewrite !app_nil_r. }
  rewrite decide_True by (cbn; lia). unfold index.
  rewrite list_lookup_middle by done. cbn [mbind outcome_bind].
  unfold due, not_due in *. rewrite !filter_cons in *. destruct (Z.leb_spec (fst e) now) as [Hle|Hgt].
  - rewrite decide_True in Hroom by done.
    rewrite (decide_False (P := ~ fst e <= now)), (decide_True (P := fst e <= now)) by tauto.
    cbn [length] in *. unfold wake_task. pose proof (aq_push_spec q (snd e)) as Hpush.
    destruct (aq_push q (snd e)) as [q1|]; [|lia]. destruct Hpush as (_ & Hi1 & Hc1). cbn [expect mbind outcome_bind].
    rewrite delete_middle.
    destruct (IH dn l q1) as (q' & E & Hi & Hc); [lia|rewrite Hi1, Hc1, length_app; cbn; lia|].
    exists q'. split; [done|]. rewrite Hi, Hi1, Hc, Hc1. cbn. by rewrite <- app_assoc.
  - rewrite decide_False in Hroom by lia.
    rewrite (decide_True (P := ~ fst e <= now)), (decide_False (P := fst e <= now)) by lia.
    replace (dn ++ e :: l) with ((dn ++ [e]) ++ l) by by rewrite <- app_assoc.
    replace (S (length dn)) with (length (dn ++ [e])) by (rewrite length_app; cbn; lia).
    destruct (IH (dn ++ [e]) l q) as (q' & E & Hi); [cbn in Hfuel; lia|done|].
    exists q'. split; [|done]. rewrite E. by rewrite <- app_assoc.
Qed.

(** [wake_sleepers] terminates and wakes exactly the sleepers whose target tick has
    come, in order, each once, and keeps the others; it does not panic as long as the
    ready queue has room for them. *)
Theorem wake_sleepers_exact now sleepers q :
  (length (aq_items q) + length (due now sleepers) <= aq_capacity q)%nat ->
  exists q', wake_sleepers now sleepers q = Ok (not_due now sleepers, q') /\
    aq_items q' = aq_items q ++ (snd <$> due now sleepers).
Proof.
  intros Hroom. destruct (wake_from_spec (S (length sleepers)) now [] sleepers q) as (q' & E & Hi & _); [lia|done|].
  by exists q'.
Qed.

(** ** The scancode stream *)

Context {SQ C : Type} `{!ArrayQueue Z SQ} `{!AtomicWaker Z C}.

(** The statics [SCANCODE_QUEUE] (initialised once) and [WAKER]. *)
Record scancodes := mk_scancodes {
  SCANCODE_QUEUE : option SQ;
  WAKER : C;
}.

Definition init_scancode_queue (k : scancodes) : scancodes :=
  match SCANCODE_QUEUE k with
  | Some _ => k
  | None => mk_scancodes (Some (aq_new QUEUE_SIZE)) (WAKER k)
  end.

(** [add_scancode]: the wakeup, if any, goes to the executor's queue. *)
Definition add_scancode (k : scancodes) (ready : Q) (scancode : Z) : outcome (scancodes * Q) :=
  match SCANCODE_QUEUE k with
  | None => Ok (k, ready)
  | Some queue =>
      match aq_push queue scancode with
      | None => Ok (k, ready)
      | Some queue =>
          let '(w, c) := aw_take (WAKER k) in
          ready ← match w with Some id => wake_task ready id | None => Ok ready end;
          Ok (mk_scancodes (Some queue) c, ready)
      end
  end.

Definition ScancodeStream_new (k : scancodes) : scancodes := init_scancode_queue k.

(** [poll_next] in its two halves, between which an interrupt may come. *)
Definition poll_register (k : scancodes) (waker : Z) : outcome scancodes :=
  queue ← expect (SCANCODE_QUEUE k);
  Ok (mk_scancodes (Some queue) (aw_register (WAKER k) waker)).

Definition poll_pop (k : scancodes) : outcome (option Z * scancodes) :=
  queue ← expect (SCANCODE_QUEUE k);
  match aq_pop queue with
  | Some (sc, queue) => Ok (Some sc, mk_scancodes (Some queue) (WAKER k))
  | None => Ok (None, k)
  end.

(** *** A task that waits for scancodes

    [Parked]: its last poll was pending; [Polling]: between the two halves of a poll;
    [Running]: it got a scancode and has not polled again. *)
Inductive phase := Parked | Polling | Running.

Record reader := mk_reader {
  keys : scancodes;
  ready : Q;
  at_ : phase;
}.

(** An interrupt; the executor polls the reader or another task from the head of the
    ready queue; the second half of a poll; the reader asks for the next scancode. *)
Inductive reader_event := Irq (sc : Z) | PollStart | PollOther | PollPop | PollAgain.

Definition reader_step (id : Z) (r : reader) (e : reader_event) : outcome reader :=
  match e, at_ r with
  | Irq sc, p => '(k, q) ← add_scancode (keys r) (ready r) sc; Ok (mk_reader k q p)
  | PollStart, Parked =>
      match aq_pop (ready r) with
      | Some (i, q) =>
          if i =? id then k ← poll_register (keys r) id; Ok (mk_reader k q Polling) else Ok r
      | None => Ok r
      end
  | PollOther, p =>
      match aq_pop (ready r) with
      | Some (i, q) => if i =? id then Ok r else Ok (mk_reader (keys r) q p)
      | None => Ok r
      end
  | PollPop, Polling =>
      '(o, k) ← poll_pop (keys r);
      Ok (mk_reader k (ready r) (match o with Some _ => Running | None => Parked end))
  | PollAgain, Running => k ← poll_register (keys r) id; Ok (mk_reader k (ready r) Polling)
  | _, _ => Ok r
  end.

Fixpoint reader_run (id : Z) (r : reader) (es : list reader_event) : outcome reader :=
  match es with [] => Ok r | e :: es => r ← reader_step id r e; reader_run id r es end.

Definition queued (r : reader) : list Z :=
  match SCANCODE_QUEUE (keys r) with Some q => aq_items q | None => [] end.

(** Whoever is not running is either going to be polled or can be woken. *)
Definition reader_inv (id : Z) (r : reader) : Prop :=
  is_Some (SCANCODE_QUEUE (keys r)) /\
  (at_ r <> Running -> id ∈ aq_items (ready r) \/ aw_held (WAKER (keys r)) = Some id) /\
  (at_ r = Parked -> queued r <> [] -> id ∈ aq_items (ready r)).

Lemma wake_task_ok q i q' : wake_task q i = Ok q' -> aq_items q' = aq_items q ++ [i].
Proof.
  unfold wake_task. rewrite expect_ok. intros H. pose proof (aq_push_spec q i) as Hp.
  rewrite H in Hp. by destruct Hp as (_ & ? & _).
Qed.

Lemma irq_inv id k q p sc k' q' : reader_inv id (mk_reader k q p) ->
  add_scancode k q sc = Ok (k', q') -> reader_inv id (mk_reader k' q' p).
Proof.
  unfold reader_inv, queued, add_scancode. intros ([sq Hsq] & Hw & Hp) H. cbn [keys ready at_] in *.
  rewrite Hsq in *. pose proof (aq_push_spec sq sc) as Hpush.
  destruct (aq_push sq sc) as [sq'|]; [|injection H as <- <-; rewrite Hsq; split_and!; auto].
  destruct (aw_take_spec (WAKER k)) as [Htk Hnone].
  destruct (aw_take (WAKER k)) as [w c]. cbn in Htk, Hnone. subst w.
  apply bind_ok in H as (q1 & E & H). injection H as <- <-. cbn [SCANCODE_QUEUE WAKER].
  assert (Hin : p <> Running -> id ∈ aq_items q1).
  { intros Hr. destruct (aw_held (WAKER k)) as [i|].
    - apply wake_task_ok in E as ->. apply elem_of_app.
      destruct (Hw Hr) as [|[= ->]]; [by left|right; by apply list_elem_of_singleton].
    - injection E as <-. by destruct (Hw Hr). }
  split_and!; [done|auto|]. intros -> _. by apply Hin.
Qed.

Lemma reader_step_inv id r e r' : reader_inv id r -> reader_step id r e = Ok r' -> reader_inv id r'.
Proof.
  intros Hi H. destruct r as [k q p]. pose proof (aq_pop_spec q) as Hpop.
  destruct e as [sc| | | |]; destruct p; cbn in H;
    try (by injection H as <-);
    try (apply bind_ok in H as ([k' q'] & E & H); injection H as <-; by eapply irq_inv);
    try (destruct Hi as ([sq Hsq] & Hw & Hp); cbn [keys ready at_ queued] in *).
  1: { destruct (aq_pop q) as [[i q1]|]; [|by injection H as <-]. destruct (i =? id); [|by injection H as <-].
    unfold poll_register in H. cbn in H. rewrite Hsq in H. cbn in H. injection H as <-.
    split_and!; cbn; [done| |done]. intros _. right. apply aw_register_spec. }
  1-3: destruct (aq_pop q) as [[i q1]|]; [|by injection H as <-]; destruct (Z.eqb_spec i id) as [->|Hne];
    [by injection H as <-|]; injection H as <-; destruct Hpop as [Hq _]; rewrite Hq in *;
    (assert (Hin : id ∈ i :: aq_items q1 -> id ∈ aq_items q1)
       by (intros [Heq|]%elem_of_cons; [by destruct Hne|done]));
    (split_and!; cbn [keys ready at_];
      [by eexists|intros Hr; destruct (Hw Hr); auto|intros Hpk Hnn; apply Hin; by apply Hp]).
  - unfold poll_pop in H. cbn in H. rewrite Hsq in H. cbn in H. pose proof (aq_pop_spec sq) as Hsp.
    destruct (aq_pop sq) as [[sc sq']|]; injection H as <-; [by split_and!|].
    split_and!; cbn; [by eexists|intros _; by apply Hw|].
    intros _. unfold queued. cbn. by rewrite Hsq, Hsp.
  - unfold poll_register in H. cbn in H. rewrite Hsq in H. cbn in H. injection H as <-.
    split_and!; cbn; [done| |done]. intros _. right. apply aw_register_spec.
Qed.

Lemma reader_run_inv id r es r' : reader_inv id r -> reader_run id r es = Ok r' -> reader_inv id r'.
Proof.
  revert r. induction es as [|e es IH]; intros r Hi H; cbn in H; [by injection H as <-|].
  apply bind_ok in H as (r1 & E & H). eapply IH; [|done]. by eapply reader_step_inv.
Qed.

(** No keystroke is forgotten: start with the scancode queue initialised and the
    reading task in the ready queue; then, however keyboard interrupts fall between and
    inside the polls of that and other tasks, whenever the task is parked while a
    scancode is waiting, the task is in the executor's ready queue. *)
Theorem scancode_reader_woken id k q es r :
  is_Some (SCANCODE_QUEUE k) -> id ∈ aq_items q ->
  reader_run id (mk_reader k q Parked) es = Ok r ->
  at_ r = Parked -> queued r <> [] -> id ∈ aq_items (ready r).
Proof.
  intros Hk Hq Hrun. eapply reader_run_inv in Hrun as (_ & _ & H); [done|]. split_and!; auto.
Qed.

End Tasks.

(** ** The interfaces can be implemented *)

Module ListQueue.

Record t := mk_q { items : list Z; cap : nat }.

Definition push (q : t) (x : Z) : option t :=
  if decide (length (items q) < cap q)%nat then Some (mk_q (items q ++ [x]) (cap q)) else None.
Definition pop (q : t) : option (Z * t) :=
  match items q with [] => None | x :: l => Some (x, mk_q l (cap q)) end.

#[global, refine] Instance list_queue : ArrayQueue Z t := {
  aq_new c := mk_q [] c;
  aq_push := push;
  aq_pop := pop;
  aq_items := items;
  aq_capacity := cap;
}.
Proof.
  - done.
  - intros q x. unfold push. case_decide; cbn; [done|lia].
  - intros q. unfold pop. by destruct (items q) eqn:E.
Defined.

#[global, refine] Instance option_waker : AtomicWaker Z (option Z) := {
  aw_new := None;
  aw_register _ w := Some w;
  aw_take c := (c, None);
  aw_held c := c;
}.
Proof. all: done. Defined.

End ListQueue.

(** A future that wakes itself once and is then ready. *)
Module TaskDemo.
Import ListQueue.

Definition poll (f : nat) (w : Z) (s : list Z) (q : t) : outcome (bool * nat * list Z * t) :=
  match f with
  | O => Ok (true, O, s ++ [w], q)
  | S f => q ← wake_task q w; Ok (false, f, s ++ [w], q)
  end.

Lemma poll_app : poll_appends (Q := t) poll.
Proof.
  intros [|f] w s q r f' s' q' H; cbn in H.
  - injection H as <- <- <- <-. exists []. by rewrite app_nil_r.
  - apply bind_ok in H as (q1 & E & H). injection H as <- <- <- <-. exists [w]. by apply wake_task_ok.
Qed.

Definition e : Executor (Q := t) nat := mk_executor nat {[1 := 2%nat; 2 := 0%nat]} (mk_q [1; 2] 100) ∅.
End TaskDemo.

Lemma executor_polls_woken_task_witness :
  match run_steps TaskDemo.poll 1 TaskDemo.e [] with
  | Ok (Some (e', _)) => next_up e' 2 0%nat
  | Ok None => False
  | Panic _ => True
  end.
Proof.
  apply (executor_polls_woken_task TaskDemo.poll 1 TaskDemo.e [] 2 0%nat).
  - intros id w. cbn. rewrite lookup_empty. discriminate.
  - exact TaskDemo.poll_app.
  - reflexivity.
  - cbn. rewrite list_elem_of_singleton. discriminate.
  - reflexivity.
Defined.

Lemma wake_sleepers_exact_witness : exists l q',
  wake_sleepers 10 [(5, 1); (20, 2); (10, 3)] (ListQueue.mk_q [] 100) = Ok (l, q') /\
  l = [(20, 2)] /\ aq_items q' = [1; 3].
Proof.
  destruct (wake_sleepers_exact 10 [(5, 1); (20, 2); (10, 3)] (ListQueue.mk_q [] 100)) as (q' & E & Hq).
  - vm_compute. lia.
  - eexists _, q'. split; [exact E|]. split; [vm_compute; reflexivity|]. rewrite Hq. vm_compute. reflexivity.
Defined.

Lemma scancode_reader_woken_witness : exists r,
  reader_run 7 (mk_reader (init_scancode_queue (mk_scancodes None (None : option Z))) (ListQueue.mk_q [7] 100) Parked)
    [PollStart; PollPop; Irq 0x1E] = Ok r /\ 7 ∈ aq_items (ready r).
Proof.
  eexists. split; [reflexivity|].
  eapply (scancode_reader_woken 7 (init_scancode_queue (mk_scancodes None (None : option Z)))
    (ListQueue.mk_q [7] 100) [PollStart; PollPop; Irq 0x1E]).
  - eexists. reflexivity.
  - cbn. left.
  - reflexivity.
  - reflexivity.
  - discriminate.
Defined.
