(* ===== verification/Interrupts.v ===== *)
(** * Interrupt handlers (src/interrupts.rs)

    What the timer and keyboard handlers do once the entry stub has built the
    frame: bookkeeping, the scheduler tick, and either a plain return or a
    preemption.  The scheduler is any [Dispatcher]. *)

From S2P Require Import Prelude Machine Context Preempt Stack Eevdf RoundRobin Scheduler KeyRing Tasks.

Definition PIC_1_OFFSET : Z := 32.
Definition PIC_2_OFFSET : Z := PIC_1_OFFSET + 8.

Inductive InterruptIndex := TimerIndex | KeyboardIndex.
Definition index_as_u8 (i : InterruptIndex) : Z :=
  match i with TimerIndex => PIC_1_OFFSET | KeyboardIndex => PIC_1_OFFSET + 1 end.

(** [configure_pit]: the port writes, in order. *)
Definition configure_pit (frequency : Z) : outcome (list (Z * Z)) :=
  d ← 1193182 /! frequency;
  let divisor := as_u16 d in
  Ok [(0x43, 0x34); (0x40, Z.land divisor 0xFF); (0x40, as_u8 (Z.shiftr divisor 8))].

(** The timer rate: from 19 Hz up to the PIT's input rate the two bytes written to
    channel 0 are the low and high byte of [1193182 / frequency]. *)
Theorem configure_pit_divisor f : 19 <= f <= 1193182 ->
  exists lo hi, configure_pit f = Ok [(0x43, 0x34); (0x40, lo); (0x40, hi)] /\
    0 <= lo < 256 /\ 0 <= hi < 256 /\ lo + 256 * hi = 1193182 / f.
Proof.
  intros Hf. unfold configure_pit. rewrite u64_div_returns by lia. cbn [mbind outcome_bind].
  assert (Hd : 0 <= 1193182 / f < 65536).
  { split; [apply Z.div_pos; lia|]. apply Z.div_lt_upper_bound; lia. }
  unfold as_u16. rewrite Z.mod_small by lia. set (d := 1193182 / f) in *. clearbody d.
  change 0xFF with (Z.ones 8). rewrite Z.land_ones, Z.shiftr_div_pow2 by lia.
  change (2 ^ 8) with 256. unfold as_u8. do 2 eexists. split; [done|]. Z.div_mod_to_equations. lia.
Qed.

Lemma configure_pit_divisor_witness :
  exists lo hi, configure_pit 100 = Ok [(0x43, 0x34); (0x40, lo); (0x40, hi)] /\
    0 <= lo < 256 /\ 0 <= hi < 256 /\ lo + 256 * hi = 11931.
Proof. apply (configure_pit_divisor 100). lia. Defined.

Section Handlers.
Context {D : Type} `{!Dispatcher D}.
Context {Q SQ C : Type} `{!ArrayQueue Z Q} `{!ArrayQueue Z SQ} `{!AtomicWaker Z C}.

(** The statics the handlers touch; [eois] logs the vectors acknowledged at the PIC. *)
Record kernel := mk_kernel {
  SCHEDULER : D;
  TICK_COUNT : Z;
  eois : list Z;
  scan : scancodes (SQ := SQ) (C := C);
  ready_queue : Q;
  doom : doom_keys;
}.

Definition uptime_ticks (k : kernel) : Z := TICK_COUNT k.

(** How a handler ends: back to the stub, or in [context_switch_to]. *)
Inductive irq_end :=
  | Return (m : memory)
  | SwitchTo (m : memory) (to : Z).

Definition with_sched (k : kernel) (s : D) : kernel :=
  mk_kernel s (TICK_COUNT k) (eois k) (scan k) (ready_queue k) (doom k).

Definition notify_end_of_interrupt (k : kernel) (irq : Z) : kernel :=
  mk_kernel (SCHEDULER k) (TICK_COUNT k) (eois k ++ [irq]) (scan k) (ready_queue k) (doom k).

(** [irq_preempt]: save the frame, acknowledge, never return. *)
Definition irq_preempt (k : kernel) (m : memory) (from_ctx to_ctx frame irq : Z)
    : outcome (kernel * irq_end) :=
  m ← irq_preempt_save m from_ctx frame;
  Ok (notify_end_of_interrupt k irq, SwitchTo m to_ctx).

Definition timer_interrupt_inner (k : kernel) (m : memory) (frame : Z) : outcome (kernel * irq_end) :=
  let k := mk_kernel (SCHEDULER k) (wrap64 (TICK_COUNT k + 1)) (eois k) (scan k) (ready_queue k) (doom k) in
  '(s, switch) ← d_tick (SCHEDULER k) (TICK_COUNT k);
  let k := with_sched k s in
  match switch with
  | Some (from_ctx, to_ctx) =>
      if from_ctx =? to_ctx then Ok (notify_end_of_interrupt k (index_as_u8 TimerIndex), Return m)
      else irq_preempt k m from_ctx to_ctx frame (index_as_u8 TimerIndex)
  | None => Ok (notify_end_of_interrupt k (index_as_u8 TimerIndex), Return m)
  end.

(** [scancode] is the byte read from port 0x60. *)
Definition keyboard_interrupt_inner (k : kernel) (m : memory) (frame scancode : Z)
    : outcome (kernel * irq_end) :=
  '(sc, rq) ← add_scancode (scan k) (ready_queue k) scancode;
  dk ← feed_scancode (doom k) scancode;
  let k := mk_kernel (SCHEDULER k) (TICK_COUNT k) (eois k) sc rq dk in
  '(s, switch) ← d_tick (SCHEDULER k) (uptime_ticks k);
  let k := with_sched k s in
  match switch with
  | Some (from_ctx, to_ctx) =>
      if from_ctx =? to_ctx then Ok (notify_end_of_interrupt k (index_as_u8 KeyboardIndex), Return m)
      else irq_preempt k m from_ctx to_ctx frame (index_as_u8 KeyboardIndex)
  | None => Ok (notify_end_of_interrupt k (index_as_u8 KeyboardIndex), Return m)
  end.

(** ** What a handler leaves behind *)

(** The running thread [p] either keeps the processor, with memory untouched, or its
    frame has been saved in its own context and another context runs. *)
Definition handed_over (p frame : Z) (m : memory) (s : D) (r : irq_end) : Prop :=
  match r with
  | Return m' => m' = m /\ d_running s = Ok p
  | SwitchTo m' to => to <> p /\ irq_preempt_save m p frame = Ok m' /\ d_running s = Ok to
  end.

Lemma dispatch_hands_over (k : kernel) (s s' : D) (sw : option (Z * Z)) (tick : Z) (m : memory)
    (frame irq p : Z) (k' : kernel) (r : irq_end) :
  d_inv s -> is_u64 tick -> d_tick s tick = Ok (s', sw) -> d_running s = Ok p ->
  match sw with
  | Some (from, to) =>
      if from =? to then Ok (notify_end_of_interrupt (with_sched k s') irq, Return m)
      else irq_preempt (with_sched k s') m from to frame irq
  | None => Ok (notify_end_of_interrupt (with_sched k s') irq, Return m)
  end = Ok (k', r) ->
  k' = notify_end_of_interrupt (with_sched k s') irq /\ d_inv s' /\ d_contexts s' = d_contexts s /\
  handed_over p frame m s' r.
Proof.
  intros Hi Ht Hd Hp H. pose proof (d_tick_running s tick s' sw p Hi Ht Hd Hp) as Hr.
  pose proof (d_tick_inv s tick s' sw Hi Ht Hd) as Hi'.
  pose proof (d_tick_contexts s tick s' sw Hi Ht Hd) as Hc.
  destruct sw as [[from to]|].
  - destruct Hr as [-> Hr]. destruct (Z.eqb_spec p to) as [<-|Hne].
    + by apply ok_pair_inj in H as [<- <-].
    + unfold irq_preempt in H. apply bind_ok in H as (m' & E & H).
      apply ok_pair_inj in H as [<- <-]. by split_and!.
  - by apply ok_pair_inj in H as [<- <-].
Qed.

Lemma timer_inner_spec k m frame p k' r :
  d_inv (SCHEDULER k) -> d_running (SCHEDULER k) = Ok p ->
  timer_interrupt_inner k m frame = Ok (k', r) ->
  TICK_COUNT k' = wrap64 (TICK_COUNT k + 1) /\ eois k' = eois k ++ [PIC_1_OFFSET] /\
  d_inv (SCHEDULER k') /\ d_contexts (SCHEDULER k') = d_contexts (SCHEDULER k) /\
  handed_over p frame m (SCHEDULER k') r.
Proof.
  intros Hi Hp H. unfold timer_interrupt_inner in H. cbn [SCHEDULER TICK_COUNT] in H.
  apply bind_ok in H as ([s sw] & Hd & H).
  assert (Ht : is_u64 (wrap64 (TICK_COUNT k + 1))) by apply wrap64_u64.
  destruct (dispatch_hands_over _ _ _ _ _ _ _ _ _ _ _ Hi Ht Hd Hp H) as (-> & Hi' & Hc & Hh). done.
Qed.

Lemma keyboard_inner_spec k m frame scancode p k' r :
  d_inv (SCHEDULER k) -> is_u64 (TICK_COUNT k) -> d_running (SCHEDULER k) = Ok p ->
  keyboard_interrupt_inner k m frame scancode = Ok (k', r) ->
  add_scancode (scan k) (ready_queue k) scancode = Ok (scan k', ready_queue k') /\
  feed_scancode (doom k) scancode = Ok (doom k') /\
  TICK_COUNT k' = TICK_COUNT k /\ eois k' = eois k ++ [PIC_1_OFFSET + 1] /\
  d_inv (SCHEDULER k') /\ d_contexts (SCHEDULER k') = d_contexts (SCHEDULER k) /\
  handed_over p frame m (SCHEDULER k') r.
Proof.
  intros Hi Ht Hp H. unfold keyboard_interrupt_inner in H.
  apply bind_ok in H as ([sc rq] & Ea & H). apply bind_ok in H as (dk & Ef & H).
  cbn [SCHEDULER uptime_ticks TICK_COUNT] in H. apply bind_ok in H as ([s sw] & Hd & H).
  destruct (dispatch_hands_over _ _ _ _ _ _ _ _ _ _ _ Hi Ht Hd Hp H) as (-> & Hi' & Hc & Hh). done.
Qed.

(** C19. The timer handler: it counts the tick, acknowledges the interrupt exactly once on
    every path, and hands over correctly: either the interrupted thread continues with
    memory untouched and is still the running one, or its frame has been saved into the
    context of exactly the thread that was running, and the thread the scheduler now
    holds to be running is the one switched to. *)
Theorem timer_interrupt_hands_over k m frame p k' r :
  d_inv (SCHEDULER k) -> d_running (SCHEDULER k) = Ok p ->
  timer_interrupt_inner k m frame = Ok (k', r) ->
  TICK_COUNT k' = wrap64 (TICK_COUNT k + 1) /\ eois k' = eois k ++ [PIC_1_OFFSET] /\
  d_inv (SCHEDULER k') /\ handed_over p frame m (SCHEDULER k') r.
Proof. intros Hi Hp H. by destruct (timer_inner_spec _ _ _ _ _ _ Hi Hp H) as (? & ? & ? & _ & ?). Qed.

(** The keyboard handler delivers the scancode to both consumers (the shell's stream
    and the Doom key ring), acknowledges exactly once, and hands over like the timer. *)
Theorem keyboard_interrupt_hands_over k m frame scancode p k' r :
  d_inv (SCHEDULER k) -> is_u64 (TICK_COUNT k) -> d_running (SCHEDULER k) = Ok p ->
  keyboard_interrupt_inner k m frame scancode = Ok (k', r) ->
  add_scancode (scan k) (ready_queue k) scancode = Ok (scan k', ready_queue k') /\
  feed_scancode (doom k) scancode = Ok (doom k') /\
  TICK_COUNT k' = TICK_COUNT k /\ eois k' = eois k ++ [PIC_1_OFFSET + 1] /\
  d_inv (SCHEDULER k') /\ handed_over p frame m (SCHEDULER k') r.
Proof.
  intros Hi Ht Hp H.
  by destruct (keyboard_inner_spec _ _ _ _ _ _ _ Hi Ht Hp H) as (? & ? & ? & ? & ? & _ & ?).
Qed.

End Handlers.

(** ** A tick that preempts *)

Module HandlerDemo.

Definition k0 : kernel (D := Scheduler) (Q := ListQueue.t) (SQ := ListQueue.t) (C := option Z) :=
  mk_kernel BootDemo.running0 1 [] (init_scancode_queue (mk_scancodes None None))
    (ListQueue.mk_q [] 100) (mk_keys ring_new false).

(** A frame at 0x9000 whose interrupted stack pointer is 0x12000. *)
Definition mem1 : memory := store64 BootDemo.mem0 (0x9000 + 144) 0x12000.

Lemma k0_inv : d_inv (SCHEDULER k0).
Proof. exact BootDemo.running0_wf. Qed.

End HandlerDemo.

Lemma timer_interrupt_hands_over_witness : exists k' r,
  timer_interrupt_inner HandlerDemo.k0 HandlerDemo.mem1 0x9000 = Ok (k', r) /\
  TICK_COUNT k' = 2 /\ eois k' = [32].
Proof.
  assert (Hok : is_ok (timer_interrupt_inner HandlerDemo.k0 HandlerDemo.mem1 0x9000) = true) by (vm_compute; reflexivity).
  destruct (timer_interrupt_inner HandlerDemo.k0 HandlerDemo.mem1 0x9000) as [[k' r]|] eqn:E; [|discriminate Hok].
  exists k', r. split; [reflexivity|].
  destruct (timer_interrupt_hands_over HandlerDemo.k0 HandlerDemo.mem1 0x9000 0x2000 k' r
    HandlerDemo.k0_inv) as (Ht & He & _); [vm_compute; reflexivity|exact E|].
  split; [exact Ht|exact He].
Defined.

Lemma keyboard_interrupt_hands_over_witness : exists k' r,
  keyboard_interrupt_inner HandlerDemo.k0 HandlerDemo.mem1 0x9000 0x1E = Ok (k', r) /\
  eois k' = [33].
Proof.
  assert (Hok : is_ok (keyboard_interrupt_inner HandlerDemo.k0 HandlerDemo.mem1 0x9000 0x1E) = true) by (vm_compute; reflexivity).
  destruct (keyboard_interrupt_inner HandlerDemo.k0 HandlerDemo.mem1 0x9000 0x1E) as [[k' r]|] eqn:E; [|discriminate Hok].
  exists k', r. split; [reflexivity|].
  destruct (keyboard_interrupt_hands_over HandlerDemo.k0 HandlerDemo.mem1 0x9000 0x1E 0x2000 k' r
    HandlerDemo.k0_inv) as (_ & _ & _ & He & _); [split; vm_compute; congruence|vm_compute; reflexivity|exact E|].
  exact He.
Defined.
