(* ===== verification/Kernel.v ===== *)
(** * The machine as the threads see it

    The composition of the context switch, the interrupt stubs and handlers and the
    scheduler: a step relation on the whole machine (scheduler and statics, processor,
    memory) whose steps are the running thread's own instructions, interrupts that
    return, interrupts that preempt, the switches of [block_and_yield] and
    [enter_scheduler], and the creation of a thread.  Every thread has a view of the
    machine, its registers and its live stack, wherever these are kept at the moment; the
    kernel's steps leave every view alone. *)

From stdpp Require Import relations gmap.
From S2P Require Import Prelude Machine Context Preempt Stack Eevdf RoundRobin Scheduler KeyRing Tasks Interrupts.

(** ** Views *)

(** A register file as a [ThreadContext], with the stack pointer and the program counter
    the thread itself would observe. *)
Definition tc_of (rsp rip rflags : Z) (g : reg -> Z) : ThreadContext :=
  TC.mk rsp rip (g RBX) (g RBP) (g R12) (g R13) (g R14) (g R15)
        (g RAX) (g RCX) (g RDX) (g RSI) (g RDI) (g R8) (g R9) (g R10) (g R11) rflags.

Definition cpu_view (c : cpu) : ThreadContext := tc_of (regs c RSP) (pc c) (flags c) (regs c).

(** What a thread that is not running will see when it is resumed. *)
Definition parked_view (m : memory) (p : Z) : ThreadContext :=
  let c := ctx_read m p in
  tc_of (TC.rsp c + 8) (load64 m (TC.rsp c)) (Z.setbit (TC.rflags c) IF_BIT) (ctx_gpr c).

Definition bytes_between (m : memory) (lo hi : Z) : list Z :=
  (fun i => m (lo + Z.of_nat i)) <$> seq 0 (Z.to_nat (hi - lo)).

Lemma bytes_between_agree m m' lo hi : mem_agree lo hi m m' -> bytes_between m lo hi = bytes_between m' lo hi.
Proof.
  intros H. unfold bytes_between. apply list_fmap_ext. intros i x Hx%lookup_seq.
  apply H. lia.
Qed.

Lemma tc_of_ext a b f g g' : (forall r, r <> RSP -> g r = g' r) -> tc_of a b f g = tc_of a b f g'.
Proof. intros H. unfold tc_of. by rewrite !H by done. Qed.

Lemma restored_view s p s' : restored s (ctx_read (mem s) p) s' -> cpu_view s' = parked_view (mem s) p.
Proof.
  intros [Hg Hsp Hpc Hf _ _]. unfold cpu_view, parked_view. rewrite Hsp, Hpc, Hf. by apply tc_of_ext.
Qed.

(** A preempted thread's view is what it was when the interrupt came. *)
Lemma preempted_view m m' p frame s : frame_read m frame = frame_of s -> interruptible s ->
  0 <= p -> p + CTX_SIZE <= u64_mod -> apart p CTX_SIZE (regs s RSP - 8) 8 ->
  irq_preempt_save m p frame = Ok m' ->
  parked_view m' p = cpu_view s /\ TC.rsp (ctx_read m' p) = regs s RSP - 8 /\
  TC.rflags (ctx_read m' p) = flags s /\
  (forall x, x < p \/ p + CTX_SIZE <= x -> x < regs s RSP - 8 \/ regs s RSP <= x -> m' x = m x).
Proof.
  intros Hfr (Hr & Hfl & Hif & _ & _ & _ & Hsp & _) Hp Hp' Hap Hsave.
  pose proof (irq_preempt_saved m p frame) as Hs. cbv zeta in Hs. rewrite Hfr in Hs.
  cbn [Irq.rsp Irq.rip frame_of] in Hs.
  destruct Hs as (m1 & E & Hc & Hret & Hm); [done|done|lia|done|].
  rewrite E in Hsave. injection Hsave as ->. split_and!; [|by rewrite Hc|by rewrite Hc|exact Hm].
  unfold parked_view, cpu_view. rewrite Hc.
  cbn [TC.rsp TC.rflags ctx_of_frame frame_of Irq.rflags]. rewrite Hret, (setbit_noop _ Hif).
  replace (regs s RSP - 8 + 8) with (regs s RSP) by lia. apply tc_of_ext. by intros [].
Qed.

(** The view of a thread inside a call of [context_switch] is that of its caller after
    the call: registers the caller expects kept are kept. *)
Definition returned (v v' : ThreadContext) (ret : Z) : Prop :=
  TC.rsp v' = TC.rsp v /\ TC.rip v' = ret /\ TC.rflags v' = Z.setbit (TC.rflags v) IF_BIT /\
  TC.rbx v' = TC.rbx v /\ TC.rbp v' = TC.rbp v /\ TC.r12 v' = TC.r12 v /\
  TC.r13 v' = TC.r13 v /\ TC.r14 v' = TC.r14 v /\ TC.r15 v' = TC.r15 v.

(** ** Where the threads live *)

(** Each context pointer with its thread's stack, from the lowest address to the end. *)
Definition layout := gmap Z (Z * Z).

(** Room for an interrupt frame and the handler's return address. *)
Definition ROOM : Z := 192.

Record placed (L : layout) : Prop := {
  pl_ctx : forall q lo hi, L !! q = Some (lo, hi) -> 0 <= q /\ q + CTX_SIZE <= u64_mod;
  pl_stack : forall q lo hi, L !! q = Some (lo, hi) ->
    0 <= lo /\ lo <= hi /\ hi + 8 < u64_mod /\ apart q CTX_SIZE lo (hi - lo);
  pl_apart : forall q lo hi q' lo' hi', q <> q' -> L !! q = Some (lo, hi) -> L !! q' = Some (lo', hi') ->
    apart q CTX_SIZE q' CTX_SIZE /\ apart q CTX_SIZE lo' (hi' - lo') /\ apart lo (hi - lo) lo' (hi' - lo');
}.

(** The memory that belongs to the saved state of [q]: its context and its stack from
    the saved stack pointer up. *)
Definition owns (L : layout) (m : memory) (q x : Z) : Prop :=
  match L !! q with
  | None => False
  | Some (_, hi) => q <= x < q + CTX_SIZE \/ TC.rsp (ctx_read m q) <= x < hi
  end.

(** Every saved state but [p]'s is left alone. *)
Definition spares (L : layout) (p : Z) (m m' : memory) : Prop :=
  forall q x, q <> p -> owns L m q x -> m' x = m x.

Record parked_ok (m : memory) (q lo hi : Z) : Prop := {
  pk_room : lo + ROOM <= TC.rsp (ctx_read m q) + 8;
  pk_top : TC.rsp (ctx_read m q) + 8 <= hi;
  pk_flags : flags_ok (TC.rflags (ctx_read m q));
}.

Record running_ok (c : cpu) (lo hi : Z) : Prop := {
  rn_regs : regs_ok c;
  rn_flags : flags_ok (flags c);
  rn_pc : is_u64 (pc c) /\ is_u64 (cs c) /\ is_u64 (ss c);
  rn_room : lo + ROOM <= regs c RSP;
  rn_top : regs c RSP <= hi;
}.

(** What leaves a saved state alone leaves it in order, with the same view. *)
Lemma parked_kept L m m' q lo hi : L !! q = Some (lo, hi) -> parked_ok m q lo hi ->
  (forall x, owns L m q x -> m' x = m x) ->
  parked_ok m' q lo hi /\ ctx_read m' q = ctx_read m q /\ parked_view m' q = parked_view m q /\
  bytes_between m' (TC.rsp (ctx_read m q) + 8) hi = bytes_between m (TC.rsp (ctx_read m q) + 8) hi.
Proof.
  intros HL [Hr Ht Hf] Hk. unfold owns in Hk. rewrite HL in Hk.
  assert (E : ctx_read m' q = ctx_read m q) by (apply ctx_read_agree; intros x Hx; apply Hk; lia).
  split_and!; [split; by rewrite E|exact E| |].
  - unfold parked_view. rewrite E. f_equal. apply load_le_ext. intros x Hx. apply Hk. change (Z.of_nat 8) with 8 in Hx. lia.
  - apply bytes_between_agree. intros x Hx. apply Hk. lia.
Qed.

Lemma parked_resumable L m q lo hi : placed L -> L !! q = Some (lo, hi) -> parked_ok m q lo hi ->
  resumable q (ctx_read m q).
Proof.
  intros HL Hq [Hr Ht Hf]. destruct (pl_ctx L HL _ _ _ Hq). destruct (pl_stack L HL _ _ _ Hq) as (? & ? & ? & ?).
  unfold resumable, apart, ROOM in *. split_and!; try done; lia.
Qed.

Lemma restored_running s p s' lo hi : resumable p (ctx_read (mem s) p) ->
  parked_ok (mem s) p lo hi -> is_u64 (cs s) -> is_u64 (ss s) ->
  restored s (ctx_read (mem s) p) s' -> running_ok s' lo hi.
Proof.
  intros (_ & _ & H8 & Hu & _ & _) [Hr Ht Hf] Hcs Hss [Hg Hsp Hpc Hfl [Ecs Ess] _].
  split.
  - intros r. destruct (decide (r = RSP)) as [->|Hne].
    + rewrite Hsp. unfold is_u64, u64_max, u64_mod in *. lia.
    + rewrite Hg by done. unfold ctx_read. destruct r; cbn; apply load64_u64.
  - rewrite Hfl. by apply flags_ok_sti.
  - rewrite Hpc, Ecs, Ess. split_and!; [apply load64_u64|done..].
  - lia.
  - lia.
Qed.

(** ** The machine and its steps *)

Section Machine.
Context {Q SQ C : Type} `{!ArrayQueue Z Q} `{!ArrayQueue Z SQ} `{!AtomicWaker Z C}.

Abbreviation kern := (kernel (D := Scheduler) (Q := Q) (SQ := SQ) (C := C)).

Record config := mk_config {
  statics : kern;
  core : cpu;
  places : layout;
}.

Definition runs (σ : config) (p : Z) : Prop := d_running (SCHEDULER (statics σ)) = Ok p.
Definition is_running (σ : config) (q : Z) : bool :=
  match d_running (SCHEDULER (statics σ)) with Ok p => p =? q | Panic _ => false end.

Definition view_regs (σ : config) (q : Z) : ThreadContext :=
  if is_running σ q then cpu_view (core σ) else parked_view (mem (core σ)) q.

(** What thread [q] can see of the machine: its registers and its stack from the stack
    pointer up. *)
Definition view (σ : config) (q : Z) : ThreadContext * list Z :=
  (view_regs σ q,
   match places σ !! q with
   | Some (_, hi) => bytes_between (mem (core σ)) (TC.rsp (view_regs σ q)) hi
   | None => []
   end).

(** The two hardware interrupts: entry stub and handler. *)
Definition irq_entry (i : InterruptIndex) : list instr * list instr :=
  match i with TimerIndex => timer_interrupt_entry | KeyboardIndex => keyboard_interrupt_entry end.
Definition irq_inner (i : InterruptIndex) (scancode : Z) (k : kern) (m : memory) (frame : Z)
    : outcome (kern * irq_end) :=
  match i with
  | TimerIndex => timer_interrupt_inner k m frame
  | KeyboardIndex => keyboard_interrupt_inner k m frame scancode
  end.

(** The state at the handler's first instruction. *)
Definition at_handler (i : InterruptIndex) (handler : Z) (c : cpu) : cpu :=
  exec_block (fst (irq_entry i)) (deliver_interrupt handler c).

(** What a handler may do to memory besides its modelled stores: anything but the saved
    states of the parked threads and the running stack from the frame up. *)
Definition handler_leaves (L : layout) (p frame hi : Z) (m m' : memory) : Prop :=
  spares L p m m' /\ mem_agree frame hi m m'.

Section Steps.

(** What the threads do on their own. *)
Variable prog : Z -> ThreadContext * list Z -> ThreadContext * list Z -> Prop.

Inductive kstep : config -> config -> Prop :=
  (** The running thread executes; it may use the scheduler, but neither adds threads nor
      gives up the processor, stays on its stack and off the others' saved states. *)
  | step_own σ σ' p :
      runs σ p -> runs σ' p -> places σ' = places σ ->
      d_inv (SCHEDULER (statics σ')) -> is_u64 (TICK_COUNT (statics σ')) ->
      d_contexts (SCHEDULER (statics σ')) = d_contexts (SCHEDULER (statics σ)) ->
      (forall lo hi, places σ !! p = Some (lo, hi) -> running_ok (core σ') lo hi) ->
      spares (places σ) p (mem (core σ)) (mem (core σ')) ->
      prog p (view σ p) (view σ' p) -> kstep σ σ'
  (** An interrupt whose handler returns to the stub. *)
  | step_irq_return i scancode handler k c L p lo hi m k' m' u :
      runs (mk_config k c L) p -> L !! p = Some (lo, hi) -> interrupts_on (flags c) = true ->
      let frame := regs (at_handler i handler c) RDI in
      handler_leaves L p frame hi (mem (at_handler i handler c)) m ->
      irq_inner i scancode k m frame = Ok (k', Return m') ->
      regs u RSP = frame -> flags_ok (flags u) -> handler_leaves L p frame hi m' (mem u) ->
      kstep (mk_config k c L) (mk_config k' (exec_block (snd (irq_entry i)) u) L)
  (** An interrupt whose handler preempts: it ends in [context_switch_to]. *)
  | step_irq_switch i scancode handler k c L p lo hi m k' m' to t :
      runs (mk_config k c L) p -> L !! p = Some (lo, hi) -> interrupts_on (flags c) = true ->
      let frame := regs (at_handler i handler c) RDI in
      handler_leaves L p frame hi (mem (at_handler i handler c)) m ->
      irq_inner i scancode k m frame = Ok (k', SwitchTo m' to) ->
      regs t RDI = to -> flags_ok (flags t) -> cs t = cs c -> ss t = ss c ->
      (forall q x, owns L m' q x -> mem t x = m' x) ->
      kstep (mk_config k c L) (mk_config k' (exec_block context_switch_to t) L)
  (** The running thread blocks itself. *)
  | step_yield k c L ret s' c' :
      is_u64 ret -> block_and_yield (SCHEDULER k) (uptime_ticks k) ret c = Ok (s', Dispatched c') ->
      kstep (mk_config k c L) (mk_config (with_sched k s') c' L)
  (** Boot enters the scheduler. *)
  | step_enter k c L ret s' c' :
      is_u64 ret -> current (eevdf (SCHEDULER k)) = None ->
      enter_scheduler (SCHEDULER k) (uptime_ticks k) ret c = Ok (s', Dispatched c') ->
      kstep (mk_config k c L) (mk_config (with_sched k s') c' L)
  (** The running thread spawns another one in two new blocks. *)
  | step_spawn k c L p lo hi entry_point stack_ptr stack_bytes ctx_ptr next m t m' next' :
      runs (mk_config k c L) p -> L !! p = Some (lo, hi) ->
      spares L p (mem c) m -> mem_agree (regs c RSP) hi (mem c) m ->
      placement_ok entry_point stack_ptr stack_bytes ctx_ptr -> 256 <= stack_bytes ->
      L !! ctx_ptr = None -> placed (<[ctx_ptr := (stack_ptr, stack_ptr + stack_bytes)]> L) ->
      with_stack_size entry_point stack_ptr stack_bytes ctx_ptr next m = Ok (t, m', next') ->
      kstep (mk_config k c L)
        (mk_config (with_sched k (spawn (SCHEDULER k) t)) (with_mem c m')
           (<[ctx_ptr := (stack_ptr, stack_ptr + stack_bytes)]> L)).

(** ** Invariant *)

Record kernel_ok (σ : config) : Prop := {
  ko_sched : d_inv (SCHEDULER (statics σ));
  ko_tick : is_u64 (TICK_COUNT (statics σ));
  ko_nodup : NoDup (d_contexts (SCHEDULER (statics σ)));
  ko_known : forall q, q ∈ d_contexts (SCHEDULER (statics σ)) -> is_Some (places σ !! q);
  ko_placed : placed (places σ);
  ko_running : forall p lo hi, runs σ p -> places σ !! p = Some (lo, hi) -> running_ok (core σ) lo hi;
  ko_parked : forall q lo hi, ~ runs σ q -> places σ !! q = Some (lo, hi) ->
    parked_ok (mem (core σ)) q lo hi;
}.

(** A thread's own move: one of its program, or the return from a call in which it gave
    up the processor. *)
Definition own_move (q : Z) (v v' : ThreadContext * list Z) : Prop :=
  prog q v v' \/ exists ret, returned (fst v) (fst v') ret /\ snd v' = snd v.

(** What a step does to the views: the invariant survives, no thread disappears, and each
    view stays or makes one of the given moves. *)
Definition step_sound (move : Z -> ThreadContext * list Z -> ThreadContext * list Z -> Prop) (σ σ' : config) : Prop :=
  kernel_ok σ' /\ forall q, is_Some (places σ !! q) ->
    is_Some (places σ' !! q) /\ (view σ' q = view σ q \/ move q (view σ q) (view σ' q)).

Lemma is_running_spec σ p q : runs σ p -> is_running σ q = (p =? q).
Proof. unfold runs, is_running. by intros ->. Qed.

Lemma runs_inj σ p q : runs σ p -> runs σ q -> p = q.
Proof. unfold runs. congruence. Qed.

(** A thread that runs in neither state, and whose saved state was left alone. *)
Lemma parked_same σ σ' p p' q lo hi : runs σ p -> runs σ' p' -> q <> p -> q <> p' ->
  places σ !! q = Some (lo, hi) -> places σ' !! q = Some (lo, hi) ->
  parked_ok (mem (core σ)) q lo hi ->
  (forall x, owns (places σ) (mem (core σ)) q x -> mem (core σ') x = mem (core σ) x) ->
  parked_ok (mem (core σ')) q lo hi /\ view σ' q = view σ q.
Proof.
  intros Hp Hp' Hne Hne' HL HL' Hk Hm.
  destruct (parked_kept _ _ _ _ _ _ HL Hk Hm) as (Hk' & Ec & Ev & Eb). split; [exact Hk'|].
  unfold view, view_regs. rewrite (is_running_spec _ _ _ Hp), (is_running_spec _ _ _ Hp').
  rewrite !(proj2 (Z.eqb_neq _ _)) by done. rewrite HL, HL', Ev. f_equal. exact Eb.
Qed.

(** The step's scheduler part: who runs, and the same contexts as before. *)
Record sched_step (k k' : kern) (p' : Z) : Prop := {
  ss_inv : d_inv (SCHEDULER k');
  ss_tick : is_u64 (TICK_COUNT k');
  ss_ctx : d_contexts (SCHEDULER k') = d_contexts (SCHEDULER k);
  ss_runs : d_running (SCHEDULER k') = Ok p';
}.

Lemma irq_inner_spec i scancode k m frame p k' r :
  d_inv (SCHEDULER k) -> is_u64 (TICK_COUNT k) -> d_running (SCHEDULER k) = Ok p ->
  irq_inner i scancode k m frame = Ok (k', r) ->
  match r with
  | Return m' => m' = m /\ sched_step k k' p
  | SwitchTo m' to => to <> p /\ irq_preempt_save m p frame = Ok m' /\ sched_step k k' to
  end.
Proof.
  intros Hi Ht Hp H.
  assert (d_inv (SCHEDULER k') /\ is_u64 (TICK_COUNT k') /\
    d_contexts (SCHEDULER k') = d_contexts (SCHEDULER k) /\ handed_over p frame m (SCHEDULER k') r)
    as (Hi' & Ht' & Hc & Hh).
  { destruct i; cbn [irq_inner] in H.
    - destruct (timer_inner_spec _ _ _ _ _ _ Hi Hp H) as (Et & _ & ? & ? & ?).
      split_and!; try done. rewrite Et. apply wrap64_u64.
    - destruct (keyboard_inner_spec _ _ _ _ _ _ _ Hi Ht Hp H) as (_ & _ & Et & _ & ? & ? & ?).
      split_and!; try done. by rewrite Et. }
  destruct r as [m'|m' to]; cbn [handed_over] in Hh.
  - destruct Hh. done.
  - destruct Hh as (? & ? & ?). done.
Qed.

Lemma irq_entry_stub i : irq_stub (irq_entry i).
Proof. destruct i; [by left|by right]. Qed.

Lemma running_interruptible c L p lo hi : placed L -> L !! p = Some (lo, hi) -> running_ok c lo hi ->
  interrupts_on (flags c) = true -> interruptible c.
Proof.
  intros HL Hp [Hr Hf (Hpc & Hcs & Hss) Hlo Hhi] Hif.
  destruct (pl_stack L HL _ _ _ Hp) as (? & ? & ? & _). unfold ROOM in *.
  unfold interruptible. split_and!; try done; lia.
Qed.

Lemma own_sound move σ σ' : kernel_ok σ -> (exists p, runs σ p /\ runs σ' p /\ places σ' = places σ /\
    sched_step (statics σ) (statics σ') p /\
    (forall lo hi, places σ !! p = Some (lo, hi) -> running_ok (core σ') lo hi) /\
    spares (places σ) p (mem (core σ)) (mem (core σ')) /\
    (view σ' p = view σ p \/ move p (view σ p) (view σ' p))) -> step_sound move σ σ'.
Proof.
  intros [Hi Ht Hnd Hkn HL Hrun Hpk] (p & Hp & Hp' & EL & [Hi' Ht' Hc' _] & Hok & Hsp & Hv).
  assert (Hsame : forall q lo hi, q <> p -> places σ !! q = Some (lo, hi) ->
    parked_ok (mem (core σ')) q lo hi /\ view σ' q = view σ q).
  { intros q lo hi Hne Hq. apply (parked_same σ σ' p p q); try done; [congruence|..].
    - apply Hpk; [|done]. intros Hr. by apply Hne, (runs_inj σ).
    - intros x Hx. by apply (Hsp q). }
  split.
  - split; try done; rewrite ?EL; try done.
    + by rewrite Hc'.
    + intros q Hq. rewrite Hc' in Hq. auto.
    + intros q lo hi Hq HLq. rewrite <- (runs_inj σ' p q Hp' Hq) in HLq. auto.
    + intros q lo hi Hq HLq. apply (Hsame q lo hi); [|done]. by intros ->.
  - intros q [[lo hi] Hq]. split; [by rewrite EL, Hq|]. destruct (decide (q = p)) as [->|Hne]; [done|].
    left. by apply (Hsame q lo hi).
Qed.

(** The stub's frame is inside the running stack, below the stack pointer. *)
Lemma frame_inside c L p lo hi : placed L -> L !! p = Some (lo, hi) -> running_ok c lo hi ->
  lo <= frame_addr c /\ frame_addr c + FRAME_SIZE <= regs c RSP /\ regs c RSP - 16 < frame_addr c + FRAME_SIZE.
Proof.
  intros HL Hp [Hr _ _ Hlo _]. rewrite (frame_addr_eq c Hr).
  pose proof (Z.mod_pos_bound (regs c RSP) 16 eq_refl). unfold ROOM, FRAME_SIZE in *. lia.
Qed.

(** The stub writes below the running stack pointer only. *)
Lemma handler_mem i handler c L p lo hi : placed L -> L !! p = Some (lo, hi) -> running_ok c lo hi ->
  interrupts_on (flags c) = true ->
  (forall x, x < lo \/ regs c RSP <= x -> mem (at_handler i handler c) x = mem c x) /\
  regs (at_handler i handler c) RDI = frame_addr c /\
  frame_read (mem (at_handler i handler c)) (frame_addr c) = frame_of c.
Proof.
  intros HL Hp Hok Hif. pose proof (frame_inside _ _ _ _ _ HL Hp Hok) as (Hlo & Hhi & _).
  pose proof (running_interruptible _ _ _ _ _ HL Hp Hok Hif) as Hint.
  destruct (stub_entered (irq_entry i) c handler (irq_entry_stub i) Hint) as [Erdi _ Ef _ Em].
  split_and!; [|exact Erdi|exact Ef]. intros x Hx. apply Em. lia.
Qed.

(** A saved state is outside of every other thread's stack. *)
Lemma owns_apart L m q p lo hi x : placed L -> q <> p -> L !! p = Some (lo, hi) ->
  (forall lo' hi', L !! q = Some (lo', hi') -> parked_ok m q lo' hi') -> owns L m q x ->
  (x < lo \/ hi <= x) /\ (x < p \/ p + CTX_SIZE <= x).
Proof.
  intros HL Hne Hp Hk Hx. unfold owns in Hx. destruct (L !! q) as [[lo' hi']|] eqn:Hq; [|done].
  destruct (pl_apart L HL _ _ _ _ _ _ Hne Hq Hp) as (H1 & H2 & H3).
  destruct (pl_apart L HL _ _ _ _ _ _ (not_eq_sym Hne) Hp Hq) as (_ & H4 & _).
  destruct (pl_stack L HL _ _ _ Hq) as (_ & Hlh & _). destruct (pl_stack L HL _ _ _ Hp) as (_ & Hlh' & _).
  destruct (Hk lo' hi' eq_refl) as [Hr _ _].
  unfold apart, ROOM, CTX_SIZE in *. lia.
Qed.

Lemma owns_stable L m m' q x : (forall y, q <= y < q + CTX_SIZE -> m' y = m y) ->
  owns L m' q x <-> owns L m q x.
Proof.
  intros H. unfold owns. rewrite (ctx_read_agree m' m q); [done|]. intros y Hy. by apply H.
Qed.

Lemma spares_trans L p m1 m2 m3 : spares L p m1 m2 -> spares L p m2 m3 -> spares L p m1 m3.
Proof.
  intros H1 H2 q x Hne Hx. rewrite <- (H1 q x Hne Hx). apply (H2 q x Hne).
  apply (owns_stable L m1); [|done]. intros y Hy. apply (H1 q y Hne).
  unfold owns in *. destruct (L !! q) as [[lo hi]|]; [by left|done].
Qed.

Lemma entry_spares i handler k c L p lo hi : kernel_ok (mk_config k c L) -> runs (mk_config k c L) p ->
  L !! p = Some (lo, hi) -> interrupts_on (flags c) = true -> spares L p (mem c) (mem (at_handler i handler c)).
Proof.
  intros [_ _ _ _ HL Hrun Hpk] Hp HLp Hif q x Hne Hx. cbn [core places] in *.
  destruct (handler_mem i handler _ _ _ _ _ HL HLp (Hrun _ _ _ Hp HLp) Hif) as (Hm & _ & _).
  destruct (owns_apart L (mem c) q p lo hi x HL Hne HLp) as [H _]; [|done|].
  { intros lo' hi' Hq. apply Hpk; [|done]. intros Hr. by apply Hne, (runs_inj (mk_config k c L)). }
  destruct (Hrun _ _ _ Hp HLp) as [_ _ _ _ Htop]. apply Hm. lia.
Qed.

(** Equal registers and an untouched live stack: an equal view. *)
Lemma running_same σ σ' p lo hi : runs σ p -> runs σ' p -> places σ !! p = Some (lo, hi) ->
  places σ' !! p = Some (lo, hi) -> (forall r, regs (core σ') r = regs (core σ) r) ->
  pc (core σ') = pc (core σ) -> flags (core σ') = flags (core σ) ->
  mem_agree (regs (core σ) RSP) hi (mem (core σ)) (mem (core σ')) -> view σ' p = view σ p.
Proof.
  intros Hp Hp' HL HL' Hr Hpc Hf Hm. unfold view, view_regs.
  rewrite (is_running_spec _ _ _ Hp), (is_running_spec _ _ _ Hp'), Z.eqb_refl, HL, HL'.
  assert (E : cpu_view (core σ') = cpu_view (core σ)).
  { unfold cpu_view. rewrite Hpc, Hf, Hr. by apply tc_of_ext. }
  rewrite E. f_equal. symmetry. by apply bytes_between_agree.
Qed.

Lemma irq_return_sound move i scancode handler k c L p lo hi m k' m' u :
  kernel_ok (mk_config k c L) -> runs (mk_config k c L) p -> L !! p = Some (lo, hi) ->
  interrupts_on (flags c) = true ->
  let frame := regs (at_handler i handler c) RDI in
  handler_leaves L p frame hi (mem (at_handler i handler c)) m ->
  irq_inner i scancode k m frame = Ok (k', Return m') ->
  regs u RSP = frame -> flags_ok (flags u) -> handler_leaves L p frame hi m' (mem u) ->
  step_sound move (mk_config k c L) (mk_config k' (exec_block (snd (irq_entry i)) u) L).
Proof.
  intros Hko Hp HLp Hif frame [Hs1 Ha1] H Hsp Hfl [Hs2 Ha2].
  pose proof (entry_spares i handler _ _ _ _ _ _ Hko Hp HLp Hif) as Hs0.
  pose proof Hko as [Hi Ht _ _ HL Hrun _]. cbn [statics places] in *. pose proof (Hrun _ _ _ Hp HLp) as Hok. cbn [core] in Hok.
  destruct (irq_inner_spec _ _ _ _ _ _ _ _ Hi Ht Hp H) as [-> Hss].
  pose proof (running_interruptible _ _ _ _ _ HL HLp Hok Hif) as Hint.
  destruct (handler_mem i handler _ _ _ _ _ HL HLp Hok Hif) as (Hm & Erdi & _).
  pose proof (frame_inside _ _ _ _ _ HL HLp Hok) as (Hf1 & Hf2 & _). pose proof (rn_top _ _ _ Hok) as Htop.
  assert (Efr : frame = frame_addr c) by exact Erdi.
  assert (Ersp : regs (at_handler i handler c) RSP = frame).
  { destruct (stub_entered (irq_entry i) c handler (irq_entry_stub i) Hint) as [E1 E2 _ _ _].
    subst frame. unfold at_handler. congruence. }
  destruct (interrupt_returns (irq_entry i) c u handler (irq_entry_stub i) Hint) as (Hr & Hpc & Hff & Hcs & Hss' & Hmm).
  { by etrans; [|symmetry; exact Ersp]. }
  { fold (at_handler i handler c). rewrite Ersp. eapply mem_agree_sub; [eapply mem_agree_trans; [exact Ha1|exact Ha2]|..].
    - lia.
    - rewrite Efr. lia. }
  { done. }
  set (c' := exec_block _ u) in *. clearbody c'.
  assert (Hruns' : runs (mk_config k' c' L) p) by apply Hss.
  assert (Hag : mem_agree (regs c RSP) hi (mem c) (mem c')).
  { intros x Hx. unfold FRAME_SIZE in Hf2. rewrite Hmm, <- (Ha2 x), <- (Ha1 x), Hm by (rewrite ?Efr; lia). done. }
  apply own_sound; [done|]. exists p. cbn [statics core places]. split_and!; try done.
  - intros lo' hi' HL'. rewrite HLp in HL'. injection HL' as <- <-. destruct Hok as [? ? (? & ? & ?) ? ?].
    split; rewrite ?Hff, ?Hpc, ?Hcs, ?Hss', ?Hr; try done. intros r. by rewrite Hr.
  - rewrite Hmm. eapply spares_trans; [exact Hs0|]. by eapply spares_trans.
  - left. by apply (running_same (mk_config k c L) (mk_config k' c' L) p lo hi).
Qed.

(** The view of [p] once its state is saved in memory. *)
Definition parked_full (m : memory) (p hi : Z) : ThreadContext * list Z :=
  (parked_view m p, bytes_between m (TC.rsp (ctx_read m p) + 8) hi).

Lemma view_parked σ p' q lo hi : runs σ p' -> q <> p' -> places σ !! q = Some (lo, hi) ->
  view σ q = parked_full (mem (core σ)) q hi.
Proof.
  intros Hp Hne HL. unfold view, view_regs. rewrite (is_running_spec _ _ _ Hp), HL.
  by rewrite (proj2 (Z.eqb_neq _ _)) by done.
Qed.

Lemma parked_full_kept L m m' q lo hi : L !! q = Some (lo, hi) -> parked_ok m q lo hi ->
  (forall x, owns L m q x -> m' x = m x) -> parked_ok m' q lo hi /\ parked_full m' q hi = parked_full m q hi.
Proof.
  intros HL Hk Hm. destruct (parked_kept _ _ _ _ _ _ HL Hk Hm) as (Hk' & Ec & Ev & Eb).
  split; [done|]. unfold parked_full. by rewrite Ec, Ev, Eb.
Qed.

(** Every way of switching: the running thread [p] has been saved in the memory of [t],
    the other saved states are as they were, and [to]'s is loaded. *)
Lemma switch_sound move k c L p lo hi k' t to c' :
  kernel_ok (mk_config k c L) -> runs (mk_config k c L) p -> L !! p = Some (lo, hi) ->
  sched_step k k' to -> to <> p -> spares L p (mem c) (mem t) ->
  parked_ok (mem t) p lo hi -> is_u64 (cs t) -> is_u64 (ss t) ->
  (resumable to (ctx_read (mem t) to) -> restored t (ctx_read (mem t) to) c') ->
  (parked_full (mem t) p hi = view (mk_config k c L) p \/
   move p (view (mk_config k c L) p) (parked_full (mem t) p hi)) ->
  step_sound move (mk_config k c L) (mk_config k' c' L).
Proof.
  intros [Hi Ht Hnd Hkn HL Hrun Hpk] Hp HLp [Hi' Ht' Hc' Hr'] Hne Hsp Hpkp Hcs Hss Hres Hv.
  cbn [statics core places] in *.
  assert (Hto : is_Some (L !! to)).
  { apply Hkn. rewrite <- Hc'. by apply d_running_known. }
  destruct Hto as [[lot hit] HLt].
  assert (Hold : forall q lo hi, q <> p -> L !! q = Some (lo, hi) ->
    parked_ok (mem t) q lo hi /\ parked_full (mem t) q hi = view (mk_config k c L) q).
  { intros q lo1 hi1 Hq HLq. rewrite (view_parked _ p q lo1 hi1 Hp Hq HLq). cbn [core].
    apply (parked_full_kept L); [done| |intros x Hx; by apply (Hsp q)].
    apply Hpk; [|done]. intros Hr. by apply Hq, (runs_inj (mk_config k c L)). }
  assert (Hall : forall q lo hi, L !! q = Some (lo, hi) -> parked_ok (mem t) q lo hi).
  { intros q lo1 hi1 HLq. destruct (decide (q = p)) as [->|Hq]; [|by apply Hold].
    rewrite HLp in HLq. by injection HLq as <- <-. }
  pose proof (parked_resumable L _ _ _ _ HL HLt (Hall _ _ _ HLt)) as Hrs. specialize (Hres Hrs).
  pose proof (restored_running _ _ _ _ _ Hrs (Hall _ _ _ HLt) Hcs Hss Hres) as Hrok.
  pose proof (restored_mem _ _ _ Hres) as Hmem. destruct (Hall _ _ _ HLt) as [Hroom Htop _].
  assert (Hnew : forall q lo hi, q <> to -> L !! q = Some (lo, hi) ->
    parked_ok (mem c') q lo hi /\ parked_full (mem c') q hi = parked_full (mem t) q hi).
  { intros q lo1 hi1 Hq HLq. apply (parked_full_kept L); [done|by apply Hall|]. intros x Hx.
    destruct (owns_apart L (mem t) q to lot hit x HL Hq HLt (Hall q) Hx) as [H _].
    apply Hmem. unfold ROOM in Hroom. lia. }
  assert (Hruns' : runs (mk_config k' c' L) to) by exact Hr'.
  split.
  - split; cbn [statics core places]; try done.
    + by rewrite Hc'.
    + intros q Hq. rewrite Hc' in Hq. auto.
    + intros q lo1 hi1 Hq HLq. rewrite <- (runs_inj _ _ _ Hruns' Hq), HLt in HLq. by injection HLq as <- <-.
    + intros q lo1 hi1 Hq HLq. apply Hnew; [|done]. by intros ->.
  - intros q [[lo1 hi1] HLq]. cbn [places] in *. split; [by rewrite HLq|].
    destruct (decide (q = to)) as [->|Hq].
    + left. rewrite <- (proj2 (Hold to lo1 hi1 Hne HLq)). unfold view, view_regs.
      rewrite (is_running_spec _ _ _ Hruns'), Z.eqb_refl. cbn [core places]. rewrite HLq.
      rewrite (restored_view _ _ _ Hres). unfold parked_full. f_equal.
      apply bytes_between_agree. intros x Hx. apply Hmem. cbn [TC.rsp parked_view tc_of] in Hx. lia.
    + rewrite (view_parked _ to q lo1 hi1 Hruns' Hq HLq). cbn [core].
      rewrite (proj2 (Hnew q lo1 hi1 Hq HLq)). destruct (decide (q = p)) as [->|Hqp].
      * rewrite HLp in HLq. by injection HLq as <- <-.
      * left. by apply (Hold q lo1 hi1).
Qed.

Lemma irq_switch_sound move i scancode handler k c L p lo hi m k' m' to t :
  kernel_ok (mk_config k c L) -> runs (mk_config k c L) p -> L !! p = Some (lo, hi) ->
  interrupts_on (flags c) = true ->
  let frame := regs (at_handler i handler c) RDI in
  handler_leaves L p frame hi (mem (at_handler i handler c)) m ->
  irq_inner i scancode k m frame = Ok (k', SwitchTo m' to) ->
  regs t RDI = to -> flags_ok (flags t) -> cs t = cs c -> ss t = ss c ->
  (forall q x, owns L m' q x -> mem t x = m' x) ->
  step_sound move (mk_config k c L) (mk_config k' (exec_block context_switch_to t) L).
Proof.
  intros Hko Hp HLp Hif frame [Hs1 Ha1] H Hrdi Hfl Hcs Hss Hown.
  pose proof (entry_spares i handler _ _ _ _ _ _ Hko Hp HLp Hif) as Hs0.
  pose proof Hko as [Hi Ht _ _ HL Hrun Hpk]. cbn [statics places core] in *. pose proof (Hrun _ _ _ Hp HLp) as Hok.
  destruct (irq_inner_spec _ _ _ _ _ _ _ _ Hi Ht Hp H) as (Hne & Hsave & Hsst).
  pose proof (running_interruptible _ _ _ _ _ HL HLp Hok Hif) as Hint.
  destruct (handler_mem i handler _ _ _ _ _ HL HLp Hok Hif) as (Hm & Efr & Hread).
  pose proof (frame_inside _ _ _ _ _ HL HLp Hok) as (Hf1 & Hf2 & _).
  destruct (pl_ctx L HL _ _ _ HLp) as [Hp0 Hp1]. destruct (pl_stack L HL _ _ _ HLp) as (_ & _ & _ & Hapt).
  destruct Hok as [Hregs Hflg (Hpc & Hcsu & Hssu) Hroom Htop].
  unfold FRAME_SIZE, ROOM, apart in *.
  destruct (preempted_view m m' p frame c) as (Hview & Hrsp & Hrfl & Hm'); [|done..|unfold apart; lia|done|].
  { rewrite <- Hread, <- Efr. symmetry. apply frame_read_agree. eapply mem_agree_sub; [exact Ha1|fold frame; lia|].
    unfold FRAME_SIZE. fold frame in Efr. rewrite Efr. lia. }
  assert (Hpk' : parked_ok m' p lo hi) by (split; rewrite ?Hrsp, ?Hrfl; unfold ROOM; [lia|lia|done]).
  assert (Hsm : spares L p (mem c) m) by by eapply spares_trans.
  assert (Hsm' : spares L p (mem c) m').
  { intros q x Hq Hx. rewrite <- (Hsm q x Hq Hx).
    destruct (owns_apart L (mem c) q p lo hi x HL Hq HLp) as [H1 H2]; [|done|].
    { intros lo' hi' HLq. apply Hpk; [|done]. intros Hr. by apply Hq, (runs_inj (mk_config k c L)). }
    unfold CTX_SIZE in *. apply Hm'; lia. }
  destruct (parked_full_kept L m' (mem t) p lo hi HLp Hpk' (Hown p)) as [Hpkt Hfull].
  apply (switch_sound _ k c L p lo hi k' t to); try done.
  - eapply spares_trans; [exact Hsm'|]. intros q x _ Hx. by apply (Hown q).
  - by rewrite Hcs.
  - by rewrite Hss.
  - intros Hres. rewrite <- Hrdi. apply context_switch_to_restored; by rewrite ?Hrdi.
  - left. rewrite Hfull. unfold view, view_regs. rewrite (is_running_spec _ _ _ Hp), Z.eqb_refl. cbn [core places].
    rewrite HLp. unfold parked_full. rewrite Hview, Hrsp. f_equal.
    replace (regs c RSP - 8 + 8) with (TC.rsp (cpu_view c)) by (cbn [TC.rsp cpu_view tc_of]; lia).
    apply bytes_between_agree. cbn [TC.rsp cpu_view tc_of]. intros x Hx. rewrite Hm' by lia. fold frame in Efr.
    rewrite <- (Ha1 x) by lia. rewrite Hm by lia. done.
Qed.

(** What [context_switch] saves about its caller is the caller's view after the call. *)
Lemma coop_saved k c L p lo hi to ret : kernel_ok (mk_config k c L) -> runs (mk_config k c L) p ->
  L !! p = Some (lo, hi) -> is_u64 to -> is_u64 ret ->
  let t := exec_block context_save (at_switch p to ret (cli c)) in
  spares L p (mem c) (mem t) /\ parked_ok (mem t) p lo hi /\ regs t RDI = to /\ flags_ok (flags t) /\
  cs t = cs c /\ ss t = ss c /\
  returned (cpu_view c) (parked_view (mem t) p) ret /\
  TC.rsp (ctx_read (mem t) p) = regs c RSP - 8 /\ mem_agree (regs c RSP) hi (mem c) (mem t).
Proof.
  intros [_ _ _ _ HL Hrun Hpk] Hp HLp Hto Hret. cbn [core places] in *.
  destruct (Hrun _ _ _ Hp HLp) as [Hr Hf _ Hroom Htop].
  destruct (pl_ctx L HL _ _ _ HLp) as [Hp0 Hp1]. destruct (pl_stack L HL _ _ _ HLp) as (Hlo & _ & Hhi & Hapt).
  set (s := at_switch p to ret (cli c)). unfold ROOM, apart in *.
  assert (Esp : regs s RSP = regs c RSP - 8).
  { apply (wrap64_small (regs c RSP - 8)). pose proof (Hr RSP). unfold is_u64 in *. lia. }
  assert (Emem : mem s = store64 (mem c) (regs c RSP - 8) ret) by (rewrite <- Esp; reflexivity).
  assert (Hvc : valid_call s).
  { unfold valid_call. change (regs s RDI) with p. rewrite Esp. split_and!; try lia.
    - apply at_switch_regs; [done|unfold is_u64, u64_max, u64_mod, CTX_SIZE in *; lia|done].
    - by apply flags_ok_cli.
    - unfold apart. lia. }
  destruct (context_save_saved s Hvc) as [Hsv Hrdi [Hfl _] [Ecs Ess] Hmem]. change (regs s RDI) with p in *. rewrite Esp in Hmem.
  set (t := exec_block context_save s) in *.
  assert (Hag : forall x, (x < p \/ p + CTX_SIZE <= x) -> (x < regs c RSP - 16 \/ regs c RSP <= x) -> mem t x = mem c x).
  { intros x H1 H2. rewrite Hmem by lia. rewrite Emem. apply store64_outside. lia. }
  assert (Ersp : TC.rsp (ctx_read (mem t) p) = regs c RSP - 8) by by rewrite Hsv.
  assert (Hrip : load64 (mem t) (regs c RSP - 8) = ret).
  { transitivity (load64 (mem s) (regs c RSP - 8)).
    2: { rewrite Emem, load64_store64_eq. by apply wrap64_small. }
    apply load_le_ext. intros x Hx. change (Z.of_nat 8) with 8 in Hx. apply Hmem; lia. }
  clearbody t. split_and!; [| |exact Hrdi|exact Hfl|exact Ecs|exact Ess| |exact Ersp|].
  - intros q x Hq Hx. destruct (owns_apart L (mem c) q p lo hi x HL Hq HLp) as [H1 H2]; [|done|].
    { intros lo' hi' HLq. apply Hpk; [|done]. intros Hr'. by apply Hq, (runs_inj (mk_config k c L)). }
    apply Hag; lia.
  - split; rewrite ?Ersp; unfold ROOM; try lia. rewrite Hsv. cbn. by apply flags_ok_cli.
  - unfold parked_view. rewrite Hsv. unfold returned, tc_of, cpu_view.
    cbn [TC.rsp TC.rip TC.rflags TC.rbx TC.rbp TC.r12 TC.r13 TC.r14 TC.r15 saved_ctx ctx_gpr].
    rewrite Esp, Hrip. cbn [tc_of TC.rsp TC.rflags]. split_and!; [lia|reflexivity| |reflexivity..].
    change (flags s) with (Z.clearbit (flags c) IF_BIT). apply Z.bits_inj'. intros n Hn.
    rewrite !Z.setbit_eqb, Z.clearbit_eqb by done. by destruct (IF_BIT =? n); [|rewrite andb_true_r].
  - intros x Hx. symmetry. apply Hag; lia.
Qed.

Lemma coop_sound k c L p k' to ret : kernel_ok (mk_config k c L) -> runs (mk_config k c L) p ->
  sched_step k k' to -> to <> p -> is_u64 ret ->
  step_sound own_move (mk_config k c L) (mk_config k' (exec_block context_switch (at_switch p to ret (cli c))) L).
Proof.
  intros Hko Hp Hsst Hne Hret. pose proof Hko as [Hi _ _ Hkn HL Hrun _]. cbn [statics core places] in *.
  destruct (Hkn p) as [[lo hi] HLp]; [by apply d_running_known|].
  assert (is_Some (L !! to)) as [[lot hit] HLt].
  { apply Hkn. rewrite <- (ss_ctx _ _ _ Hsst). apply d_running_known; apply Hsst. }
  destruct (pl_ctx L HL _ _ _ HLt) as [Ht0 Ht1].
  assert (Htou : is_u64 to) by (unfold is_u64, u64_max, u64_mod, CTX_SIZE in *; lia).
  destruct (coop_saved k c L p lo hi to ret Hko Hp HLp Htou Hret)
    as (Hsp & Hpk & Hrdi & Hfl & Hcs & Hss & Hret' & Ersp & Hag).
  rewrite context_switch_split, exec_block_app. set (t := exec_block context_save _) in *. clearbody t.
  destruct (Hrun _ _ _ Hp HLp) as [_ _ (_ & Hcsu & Hssu) _ _].
  apply (switch_sound _ k c L p lo hi k' t to); try done; [by rewrite Hcs|by rewrite Hss|..].
  - intros Hres. rewrite <- Hrdi. apply context_switch_to_restored; by rewrite ?Hrdi.
  - right. right. exists ret. unfold view, view_regs. rewrite (is_running_spec _ _ _ Hp), Z.eqb_refl.
    cbn [core places fst snd parked_full]. rewrite HLp. split; [done|]. rewrite Ersp.
    replace (regs c RSP - 8 + 8) with (TC.rsp (cpu_view c)) by (cbn [TC.rsp cpu_view tc_of]; lia).
    symmetry. by apply bytes_between_agree.
Qed.

(** Switching away from a thread that is not current any more, or from boot, enters
    another context. *)
Lemma boot_switch_other b e tick e' from to : eevdf_wf e -> is_u64 tick -> current e = None ->
  NoDup (b :: (context_ptr <$> threads e)) -> eevdf_tick_prepare e b tick = Ok (e', Some (from, to)) -> to <> from.
Proof.
  intros Hwf Ht Hc Hnd E. destruct (decide (threads e = [])) as [He|Hne]; [by rewrite tick_empty in E|].
  destruct (eevdf_tick_prepare_ticked _ _ _ _ _ Hwf Ht Hne E) as [_ _ _ _ (next & _ & i & t & _ & _ & _ & Hi & -> & Hf)].
  rewrite Hc in Hf. cbn in Hf. injection Hf as <-. apply NoDup_cons in Hnd as [Hb _]. intros Heq. apply Hb.
  rewrite <- Heq. apply list_elem_of_fmap. exists t. split; [done|]. by eapply list_elem_of_lookup_2.
Qed.

Lemma block_switch_other b e tick e' from to : eevdf_wf e -> is_u64 tick ->
  NoDup (b :: (context_ptr <$> threads e)) ->
  eevdf_block_current_and_prepare_switch e b tick = Ok (e', Some (from, to)) -> to <> from.
Proof.
  intros Hwf Ht Hnd E. destruct (current e) as [i|] eqn:Hc.
  - destruct (eevdf_blocked _ _ _ _ _ _ Hwf Ht Hc E) as [_ (j & m & t & u & Hji & _ & _ & _ & Hti & -> & Htj & ->)].
    apply NoDup_cons in Hnd as [_ Hnd]. intros Heq. apply Hji. eapply (NoDup_lookup _ _ _ (context_ptr u) Hnd).
    + by rewrite list_lookup_fmap, Htj.
    + by rewrite list_lookup_fmap, Hti, Heq.
  - apply block_current_ok in E as (s0 & Hwf0 & Hth & Hc0 & _ & _ & E); [|done].
    apply (boot_switch_other b s0 tick e'); try done; congruence.
Qed.

Lemma op_sched_step op σ e' from to p : kernel_ok σ -> runs σ p -> op_ok op ->
  let s := SCHEDULER (statics σ) in
  threads e' = threads (eevdf s) -> eevdf_apply (bootstrap_ctx s) op (eevdf s) = Ok (e', Some (from, to)) ->
  from = p /\ sched_step (statics σ) (with_sched (statics σ) (with_eevdf s e')) to.
Proof.
  intros [Hi Ht _ _ _ _ _] Hp Hop s Hth E.
  destruct (apply_running _ _ _ _ _ _ Hi Hop E Hp) as (Hwf & Hf & Hr). split; [done|].
  split; [exact Hwf|exact Ht| |exact Hr]. cbn. by rewrite Hth.
Qed.

Lemma dispatched_inj c c' : Dispatched c = Dispatched c' -> c = c'.
Proof. by injection 1. Qed.

Lemma yield_sound k c L ret s' c' : kernel_ok (mk_config k c L) -> is_u64 ret ->
  block_and_yield (SCHEDULER k) (uptime_ticks k) ret c = Ok (s', Dispatched c') ->
  step_sound own_move (mk_config k c L) (mk_config (with_sched k s') c' L).
Proof.
  intros Hko Hret H. pose proof Hko as [Hi Ht Hnd _ _ _ _]. cbn [statics] in Hi, Ht, Hnd.
  destruct (d_running_ok _ Hi) as [p Hp]. unfold block_and_yield in H. cbv zeta in H.
  apply bind_ok in H as ([s1 r] & E & H). apply ok_pair_inj in H as [<- H].
  destruct r as [[from to]|]; [|discriminate H]. apply dispatched_inj in H as <-.
  unfold block_current_and_prepare_switch in E. apply bind_ok in E as ([e r'] & E & H). injection H as <- ->.
  pose proof (block_switch_other _ _ _ _ _ _ Hi Ht Hnd E) as Hne.
  assert (Hth : threads e = threads (eevdf (SCHEDULER k))).
  { destruct (block_current_ok _ _ _ _ _ Hi E) as (s0 & Hwf0 & <- & _ & _ & _ & E0). by eapply tick_threads. }
  destruct (op_sched_step (OpBlock (uptime_ticks k)) (mk_config k c L) e from to p Hko Hp Ht Hth E) as [-> Hss].
  exact (coop_sound k c L p _ to ret Hko Hp Hss Hne Hret).
Qed.

Lemma enter_sound k c L ret s' c' : kernel_ok (mk_config k c L) -> is_u64 ret ->
  current (eevdf (SCHEDULER k)) = None ->
  enter_scheduler (SCHEDULER k) (uptime_ticks k) ret c = Ok (s', Dispatched c') ->
  step_sound own_move (mk_config k c L) (mk_config (with_sched k s') c' L).
Proof.
  intros Hko Hret Hc H. pose proof Hko as [Hi Ht Hnd _ _ _ _]. cbn [statics] in Hi, Ht, Hnd.
  destruct (d_running_ok _ Hi) as [p Hp]. unfold enter_scheduler in H. cbv zeta in H.
  apply bind_ok in H as ([s1 r] & E & H). apply ok_pair_inj in H as [<- H].
  destruct r as [[from to]|]; [|discriminate H]. destruct (_ || _); [discriminate H|]. apply dispatched_inj in H as <-.
  unfold tick_prepare in E. apply bind_ok in E as ([e r'] & E & H). injection H as <- ->.
  pose proof (boot_switch_other _ _ _ _ _ _ Hi Ht Hc Hnd E) as Hne.
  pose proof (tick_threads _ _ _ _ _ Hi Ht E) as Hth.
  destruct (op_sched_step (OpTick (uptime_ticks k)) (mk_config k c L) e from to p Hko Hp Ht Hth E) as [-> Hss].
  exact (coop_sound k c L p _ to ret Hko Hp Hss Hne Hret).
Qed.

Lemma spawn_sound k c L p lo hi entry_point stack_ptr stack_bytes ctx_ptr next m t m' next' :
  kernel_ok (mk_config k c L) -> runs (mk_config k c L) p -> L !! p = Some (lo, hi) ->
  spares L p (mem c) m -> mem_agree (regs c RSP) hi (mem c) m ->
  placement_ok entry_point stack_ptr stack_bytes ctx_ptr -> 256 <= stack_bytes ->
  L !! ctx_ptr = None -> placed (<[ctx_ptr := (stack_ptr, stack_ptr + stack_bytes)]> L) ->
  with_stack_size entry_point stack_ptr stack_bytes ctx_ptr next m = Ok (t, m', next') ->
  step_sound own_move (mk_config k c L)
    (mk_config (with_sched k (spawn (SCHEDULER k) t)) (with_mem c m')
       (<[ctx_ptr := (stack_ptr, stack_ptr + stack_bytes)]> L)).
Proof.
  intros [Hi Ht Hnd Hkn HL Hrun Hpk] Hp HLp Hsp Hag Hpl Hb Hnone HL' E. cbn [statics core places] in *.
  destruct (with_stack_size_writes _ _ _ _ _ _ _ _ _ Hpl E) as (Ectx & [Hsp1 Hsp2] & Hfl & Hw).
  set (L' := <[ctx_ptr := _]> L) in *. set (σ := mk_config k c L).
  set (σ' := mk_config (with_sched k (spawn (SCHEDULER k) t)) (with_mem c m') L').
  assert (HLn : L' !! ctx_ptr = Some (stack_ptr, stack_ptr + stack_bytes)) by apply lookup_insert_eq.
  assert (Hold : forall q lo hi, L !! q = Some (lo, hi) -> q <> ctx_ptr /\ L' !! q = Some (lo, hi)).
  { intros q lo1 hi1 HLq. assert (q <> ctx_ptr) by congruence. split; [done|].
    etrans; [|exact HLq]. by apply lookup_insert_ne. }
  destruct (Hold p lo hi HLp) as [Hpne HLp'].
  assert (Hp' : runs σ' p) by (apply running_ctx_app; exact Hp).
  pose proof (Hrun _ _ _ Hp HLp) as Hok. pose proof (rn_room _ _ _ Hok) as Hroom. unfold ROOM in Hroom.
  assert (Hsame : forall q lo hi, q <> p -> L !! q = Some (lo, hi) -> parked_ok m' q lo hi /\ view σ' q = view σ q).
  { intros q lo1 hi1 Hq HLq. destruct (Hold q lo1 hi1 HLq) as [Hqn HLq'].
    assert (Hpkq : parked_ok (mem c) q lo1 hi1) by (apply Hpk; [intros Hr; by apply Hq, (runs_inj σ)|done]).
    apply (parked_same σ σ' p p q); try done. intros x Hx. cbn [σ places core] in Hx. cbn [σ' core mem with_mem].
    destruct (owns_apart L' (mem c) q ctx_ptr stack_ptr (stack_ptr + stack_bytes) x HL' Hqn HLn) as [H1 H2].
    - intros lo2 hi2 HLq2. rewrite HLq' in HLq2. by injection HLq2 as <- <-.
    - unfold owns in *. by rewrite HLq', HLq in *.
    - rewrite Hw by done. by apply (Hsp q). }
  split.
  - split; cbn [statics core places σ' mem with_mem].
    + apply spawn_wf; [exact Hi|]. unfold meta_ok, is_u64, u64_max, DEFAULT_WEIGHT. cbn. unfold DEFAULT_WEIGHT. lia.
    + exact Ht.
    + cbn. rewrite fmap_app, app_comm_cons. apply NoDup_app. split_and!; [exact Hnd| |apply NoDup_singleton].
      intros q Hq Hq'. apply list_elem_of_singleton in Hq'. unfold context_ptr in Hq' at 1. rewrite Ectx in Hq'. subst q.
      destruct (Hkn _ Hq) as [? Hl]. congruence.
    + intros q Hq. cbn in Hq. rewrite fmap_app, app_comm_cons, elem_of_app in Hq. destruct Hq as [Hq|Hq].
      * destruct (Hkn q Hq) as [[lo1 hi1] HLq]. destruct (Hold q lo1 hi1 HLq) as [_ ->]. done.
      * apply list_elem_of_singleton in Hq. unfold context_ptr in Hq. rewrite Ectx in Hq. subst q. by rewrite HLn.
    + exact HL'.
    + intros q lo1 hi1 Hq HLq. rewrite <- (runs_inj σ' p q Hp' Hq), HLp' in HLq. injection HLq as <- <-.
      destruct Hok. by split.
    + intros q lo1 hi1 Hq HLq. destruct (decide (q = ctx_ptr)) as [->|Hqn].
      * rewrite HLn in HLq. injection HLq as <- <-. split; rewrite ?Hfl; unfold ROOM; [lia|lia|done].
      * assert (HLo : L !! q = Some (lo1, hi1)) by (etrans; [symmetry; by apply lookup_insert_ne|exact HLq]).
        apply (Hsame q lo1 hi1); [|done]. by intros ->.
  - intros q [[lo1 hi1] HLq]. cbn [σ places] in HLq. destruct (Hold q lo1 hi1 HLq) as [_ HLq'].
    split; [cbn [σ' places]; by rewrite HLq'|]. left. destruct (decide (q = p)) as [->|Hq]; [|by apply (Hsame q lo1 hi1)].
    apply (running_same σ σ' p lo hi); try done. cbn [σ σ' core mem with_mem].
    intros x Hx. destruct (pl_apart L' HL' _ _ _ _ _ _ (not_eq_sym Hpne) HLn HLp') as (_ & H1 & H2).
    rewrite (Hag x Hx). symmetry. unfold apart in *. apply Hw; lia.
Qed.

Lemma kstep_sound σ σ' : kernel_ok σ -> kstep σ σ' -> step_sound own_move σ σ'.
Proof.
  intros Hko Hs. destruct Hs as [σ1 σ2 p Hp Hp' HL Hi Ht Hc Hok Hsp Hpr| | | | |].
  - apply own_sound; [done|]. exists p. split_and!; try done. right. by left.
  - eapply irq_return_sound; eassumption.
  - eapply irq_switch_sound; eassumption.
  - eapply yield_sound; eassumption.
  - eapply enter_sound; eassumption.
  - eapply spawn_sound; eassumption.
Qed.


(** The state of the stub's exit with a balanced stack. *)
Lemma at_handler_ready i handler c : interruptible c ->
  regs (at_handler i handler c) RSP = frame_addr c /\ flags_ok (flags (at_handler i handler c)).
Proof.
  intros Hint. destruct (stub_entered (irq_entry i) c handler (irq_entry_stub i) Hint) as [_ E _ Ef _].
  split; [exact E|]. unfold at_handler. rewrite Ef. apply flags_ok_gate. apply Hint.
Qed.

Lemma handler_leaves_refl L p frame hi m : handler_leaves L p frame hi m m.
Proof. by split. Qed.

(** The processor at [context_switch_to(to)] when the handler did nothing else. *)
Definition switching (c : cpu) (m : memory) (to : Z) : cpu :=
  mk_cpu (set_reg RDI to (regs c)) (pc c) (flags c) (cs c) (ss c) m.

(** Where the timer interrupt leads: a step of the machine that no thread can see. *)
Lemma timer_step σ : kernel_ok σ -> interrupts_on (flags (core σ)) = true ->
  let e := eevdf (SCHEDULER (statics σ)) in
  fits e (time_slice_of e (wrap64 (TICK_COUNT (statics σ) + 1))) ->
  exists σ' m frame r, kstep σ σ' /\ irq_inner TimerIndex 0 (statics σ) m frame = Ok (statics σ', r) /\
    places σ' = places σ /\ step_sound (fun _ _ _ => False) σ σ'.
Proof.
  destruct σ as [k c L]. intros Hko Hif e Hfit. pose proof Hko as [Hi Ht _ Hkn HL Hrun _].
  cbn [statics core places] in *. destruct (d_running_ok _ Hi) as [p Hp].
  destruct (Hkn p) as [[lo hi] HLp]; [by apply d_running_known|].
  pose proof (Hrun _ _ _ Hp HLp) as Hok. pose proof (running_interruptible _ _ _ _ _ HL HLp Hok Hif) as Hint.
  destruct (handler_mem TimerIndex 0 _ _ _ _ _ HL HLp Hok Hif) as (_ & Erdi & Hread).
  destruct (at_handler_ready TimerIndex 0 c Hint) as [Ersp Hfl].
  destruct (tick_returns e (bootstrap_ctx (SCHEDULER k)) _ Hi Hfit) as (e' & r & Et).
  set (h := at_handler TimerIndex 0 c) in *.
  assert (Hsave : exists m', irq_preempt_save (mem h) p (frame_addr c) = Ok m').
  { unfold irq_preempt_save. rewrite Hread. cbn [Irq.rsp frame_of]. unfold u64_sub.
    destruct Hint as (_ & _ & _ & _ & _ & _ & H192 & _). rewrite (proj2 (Z.leb_le _ _)) by lia. cbn [mbind outcome_bind]. eauto. }
  assert (Hin : exists k' r', irq_inner TimerIndex 0 k (mem h) (frame_addr c) = Ok (k', r')).
  { cbn [irq_inner]. unfold timer_interrupt_inner. cbn [SCHEDULER TICK_COUNT d_tick scheduler_dispatcher].
    unfold tick_prepare. fold e. rewrite Et. cbn [mbind outcome_bind].
    destruct r as [[from to]|]; [|eauto]. destruct (from =? to); [eauto|].
    destruct (tick_running _ _ _ _ _ _ Hi (wrap64_u64 _) Et Hp) as [-> _]. destruct Hsave as [m' Em].
    unfold irq_preempt. rewrite Em. cbn [mbind outcome_bind]. eauto. }
  destruct Hin as (k' & r' & Ek). rewrite <- Erdi in Ek. destruct r' as [m'|m' to].
  - destruct (irq_inner_spec _ _ _ _ _ _ _ _ Hi Ht Hp Ek) as [-> _].
    exists (mk_config k' (exec_block (snd (irq_entry TimerIndex)) h) L), (mem h), (regs h RDI), (Return (mem h)).
    split; [|split; [exact Ek|split; [reflexivity|]]].
    + exact (step_irq_return TimerIndex 0 0 k c L p lo hi (mem h) k' (mem h) h Hp HLp Hif
        (handler_leaves_refl _ _ _ _ _) Ek (eq_trans Ersp (eq_sym Erdi)) Hfl (handler_leaves_refl _ _ _ _ _)).
    + exact (irq_return_sound _ TimerIndex 0 0 k c L p lo hi (mem h) k' (mem h) h Hko Hp HLp Hif
        (handler_leaves_refl _ _ _ _ _) Ek (eq_trans Ersp (eq_sym Erdi)) Hfl (handler_leaves_refl _ _ _ _ _)).
  - exists (mk_config k' (exec_block context_switch_to (switching c m' to)) L), (mem h), (regs h RDI), (SwitchTo m' to).
    split; [|split; [exact Ek|split; [reflexivity|]]].
    + exact (step_irq_switch TimerIndex 0 0 k c L p lo hi (mem h) k' m' to (switching c m' to) Hp HLp Hif
        (handler_leaves_refl _ _ _ _ _) Ek eq_refl (rn_flags _ _ _ Hok) eq_refl eq_refl (fun _ _ _ => eq_refl)).
    + exact (irq_switch_sound _ TimerIndex 0 0 k c L p lo hi (mem h) k' m' to (switching c m' to) Hko Hp HLp Hif
        (handler_leaves_refl _ _ _ _ _) Ek eq_refl (rn_flags _ _ _ Hok) eq_refl eq_refl (fun _ _ _ => eq_refl)).
Qed.

(** C2. A timer interrupt is always served: in every state of the kernel in which
    interrupts are enabled and the scheduler's arithmetic has room for one more slice,
    the timer interrupt leads to a next state, with the tick counted. *)
Theorem timer_always_served σ : kernel_ok σ -> interrupts_on (flags (core σ)) = true ->
  let e := eevdf (SCHEDULER (statics σ)) in
  let tick := wrap64 (TICK_COUNT (statics σ) + 1) in
  fits e (time_slice_of e tick) ->
  exists σ', kstep σ σ' /\ TICK_COUNT (statics σ') = tick.
Proof.
  intros Hko Hif e tick Hfit. destruct (timer_step σ Hko Hif Hfit) as (σ' & m & frame & r & Hs & Hin & _ & _).
  exists σ'. split; [exact Hs|]. destruct (d_running_ok _ (ko_sched σ Hko)) as [p Hp].
  by destruct (timer_inner_spec _ _ _ _ _ _ (ko_sched σ Hko) Hp Hin).
Qed.

End Steps.
End Machine.

(** ** A boot with two threads *)

(** Placement of finitely many threads, decided. *)
Definition apartb (a n b k : Z) : bool := (a + n <=? b) || (b + k <=? a).
Definition thread_placedb (t : Z * (Z * Z)) : bool :=
  let '(q, (lo, hi)) := t in
  (0 <=? q) && (q + CTX_SIZE <=? u64_mod) && (0 <=? lo) && (lo <=? hi) && (hi + 8 <? u64_mod) &&
  apartb q CTX_SIZE lo (hi - lo).
Definition pair_placedb (t u : Z * (Z * Z)) : bool :=
  let '(q, (lo, hi)) := t in let '(q', (lo', hi')) := u in
  (q =? q') || apartb q CTX_SIZE q' CTX_SIZE && apartb q CTX_SIZE lo' (hi' - lo') && apartb lo (hi - lo) lo' (hi' - lo').

Lemma placedb_placed l :
  forallb thread_placedb l && forallb (fun t => forallb (pair_placedb t) l) l = true ->
  placed (list_to_map l).
Proof.
  intros [H1 H2]%andb_true_iff. rewrite forallb_forall in H1, H2.
  assert (Hin : forall q x, (list_to_map l : layout) !! q = Some x -> In (q, x) l).
  { intros q x Hq. apply list_elem_of_In. by apply elem_of_list_to_map_2. }
  assert (Hap : forall a n b k, apartb a n b k = true -> apart a n b k).
  { intros. unfold apartb, apart in *. lia. }
  assert (Ht : forall q lo hi, (list_to_map l : layout) !! q = Some (lo, hi) ->
    0 <= q /\ q + CTX_SIZE <= u64_mod /\ 0 <= lo /\ lo <= hi /\ hi + 8 < u64_mod /\ apart q CTX_SIZE lo (hi - lo)).
  { intros q lo hi Hq. specialize (H1 _ (Hin _ _ Hq)). cbn [thread_placedb] in H1.
    rewrite !andb_true_iff in H1. destruct H1 as [H1 Ha]. apply Hap in Ha. split_and!; try done; lia. }
  split.
  - intros q lo hi Hq. apply Ht in Hq. tauto.
  - intros q lo hi Hq. apply Ht in Hq. tauto.
  - intros q lo hi q' lo' hi' Hne Hq Hq'. specialize (H2 _ (Hin _ _ Hq)). rewrite forallb_forall in H2.
    specialize (H2 _ (Hin _ _ Hq')). cbn [pair_placedb] in H2. rewrite (proj2 (Z.eqb_neq q q')) in H2 by done.
    cbn [orb] in H2. rewrite !andb_true_iff in H2. destruct H2 as [[Ha Hb] Hc]. split_and!; by apply Hap.
Qed.

Module KernelDemo.

Definition places0 : layout :=
  list_to_map [(0x1000, (0x6000, 0x9000)); (0x2000, (0x10000, 0x14000)); (0x3000, (0x20000, 0x24000))].

(** Boot has spawned two threads and not entered the scheduler yet. *)
Definition boot0 : config (Q := ListQueue.t) (SQ := ListQueue.t) (C := option Z) :=
  mk_config (with_sched HandlerDemo.k0 BootDemo.sched) BootDemo.boot places0.

(** The threads execute nothing of their own. *)
Definition no_moves (_ : Z) (_ _ : ThreadContext * list Z) : Prop := False.

Lemma boot0_ok : kernel_ok boot0.
Proof.
  assert (Hruns : forall q, runs boot0 q -> q = 0x1000) by (intros q Hq; injection Hq as <-; reflexivity).
  assert (Hin : forall q lo hi, places0 !! q = Some (lo, hi) ->
    (q, (lo, hi)) ∈ [(0x1000, (0x6000, 0x9000)); (0x2000, (0x10000, 0x14000)); (0x3000, (0x20000, 0x24000))]).
  { intros q lo hi. apply elem_of_list_to_map_2. }
  split.
  - exact BootDemo.sched_wf.
  - split; vm_compute; congruence.
  - change (NoDup [0x1000; 0x2000; 0x3000]).
    repeat (apply NoDup_cons; split; [rewrite ?elem_of_cons, elem_of_nil; lia|]). apply NoDup_nil. done.
  - intros q Hq. change (q ∈ [0x1000; 0x2000; 0x3000]) in Hq. rewrite !elem_of_cons, elem_of_nil in Hq.
    destruct Hq as [->|[->|[->|[]]]]; vm_compute; eauto.
  - apply placedb_placed. vm_compute. reflexivity.
  - intros p lo hi Hp HL. apply Hruns in Hp as ->. apply Hin in HL.
    rewrite !elem_of_cons, elem_of_nil in HL. destruct HL as [[= -> ->]|[[=]|[[=]|[]]]].
    split; [intros []|..]; vm_compute; intuition congruence.
  - intros q lo hi Hq HL. apply Hin in HL. rewrite !elem_of_cons, elem_of_nil in HL.
    destruct HL as [[= -> -> ->]|[[= -> -> ->]|[[= -> -> ->]|[]]]]; [by destruct Hq|..];
      split; vm_compute; congruence.
Qed.

End KernelDemo.

(** Boot enters the scheduler, and a timer interrupt follows. *)
Lemma boot0_enters : exists s' c', kstep KernelDemo.no_moves KernelDemo.boot0
    (mk_config (with_sched (statics KernelDemo.boot0) s') c' KernelDemo.places0).
Proof.
  destruct (enter_scheduler_starts_thread BootDemo.sched 1 0x400005 BootDemo.boot BootDemo.entry 0 meta_new)
    as (s' & c' & j & t & E & _ & _ & _ & H).
  - exact BootDemo.sched_wf.
  - split; vm_compute; congruence.
  - reflexivity.
  - split; [repeat constructor|]; vm_compute; congruence.
  - reflexivity.
  - reflexivity.
  - intros t Ht. cbn in Ht. rewrite !elem_of_cons, elem_of_nil in Ht.
    destruct Ht as [->|[->|[]]]; BootDemo.ready_concrete.
  - exists s', c'.
    apply (step_enter KernelDemo.no_moves (statics KernelDemo.boot0) BootDemo.boot KernelDemo.places0 0x400005 s' c').
    + split; vm_compute; congruence.
    + reflexivity.
    + exact E.
Qed.


Lemma timer_always_served_witness : exists σ',
  kstep KernelDemo.no_moves KernelDemo.boot0 σ' /\ TICK_COUNT (statics σ') = 2.
Proof.
  apply (timer_always_served KernelDemo.no_moves KernelDemo.boot0 KernelDemo.boot0_ok).
  - vm_compute. reflexivity.
  - split; [repeat constructor|]; vm_compute; congruence.
Defined.
