(* ===== verification/Liveness.v ===== *)
(** * Liveness of the machine

    Kernel gives the machine, Fairness what the scheduler does when it is asked again and
    again.  Here both meet: over executions of the machine in which the threads keep away
    from the scheduler, and timer and keyboard interrupts keep coming, every runnable thread
    has the processor again and again. *)

From stdpp Require Import gmap.
From S2P Require Import Prelude Machine Context Preempt Stack Eevdf Fairness KeyRing Scheduler Tasks Interrupts Kernel.

Section Liveness.
Context {Q SQ C : Type} `{!ArrayQueue Z Q} `{!ArrayQueue Z SQ} `{!AtomicWaker Z C}.
Variable prog : Z -> ThreadContext * list Z -> ThreadContext * list Z -> Prop.

Abbreviation conf := (config (Q := Q) (SQ := SQ) (C := C)).
Abbreviation sched σ := (eevdf (SCHEDULER (statics σ))).

(** An execution with [n] interrupts, and the states it goes through after the first. *)
Inductive execution : nat -> conf -> list conf -> Prop :=
  | ex_nil σ : execution 0 σ []
  | ex_quiet n σ σ' σs : kstep prog σ σ' -> SCHEDULER (statics σ') = SCHEDULER (statics σ) ->
      TICK_COUNT (statics σ') = TICK_COUNT (statics σ) -> execution n σ' σs -> execution n σ (σ' :: σs)
  | ex_irq n i scancode m frame r σ σ' σs : kstep prog σ σ' ->
      irq_inner i scancode (statics σ) m frame = Ok (statics σ', r) -> execution n σ' σs ->
      execution (S n) σ (σ' :: σs).

(** Either handler asks the scheduler, the timer's at the next tick and the keyboard's at
    the same. *)
Lemma irq_asks i scancode (k k' : kernel (D := Scheduler) (Q := Q) (SQ := SQ) (C := C)) m frame r :
  irq_inner i scancode k m frame = Ok (k', r) ->
  TICK_COUNT k' = (if i is TimerIndex then wrap64 (TICK_COUNT k + 1) else TICK_COUNT k) /\
  exists e sw, eevdf_tick_prepare (eevdf (SCHEDULER k)) (bootstrap_ctx (SCHEDULER k)) (TICK_COUNT k') = Ok (e, sw) /\
    SCHEDULER k' = with_eevdf (SCHEDULER k) e.
Proof.
  assert (Hend : forall (k1 : kernel (D := Scheduler) (Q := Q) (SQ := SQ) (C := C)) irq sw k2 r2,
    match sw with
    | Some (from, to) => if from =? to then Ok (notify_end_of_interrupt k1 irq, Return m) else irq_preempt k1 m from to frame irq
    | None => Ok (notify_end_of_interrupt k1 irq, Return m)
    end = Ok (k2, r2) -> SCHEDULER k2 = SCHEDULER k1 /\ TICK_COUNT k2 = TICK_COUNT k1).
  { intros k1 irq sw k2 r2 H. destruct sw as [[from to]|]; [destruct (from =? to)|]; try by injection H as <- <-.
    unfold irq_preempt in H. apply bind_ok in H as (m' & _ & H). by injection H as <- <-. }
  assert (Hask : forall (k1 : kernel (D := Scheduler) (Q := Q) (SQ := SQ) (C := C)) irq k2 r2,
    ('(s, switch) ← d_tick (SCHEDULER k1) (TICK_COUNT k1);
     let k := with_sched k1 s in
     match switch with
     | Some (from, to) => if from =? to then Ok (notify_end_of_interrupt k irq, Return m) else irq_preempt k m from to frame irq
     | None => Ok (notify_end_of_interrupt k irq, Return m)
     end) = Ok (k2, r2) -> TICK_COUNT k2 = TICK_COUNT k1 /\
    exists e sw, eevdf_tick_prepare (eevdf (SCHEDULER k1)) (bootstrap_ctx (SCHEDULER k1)) (TICK_COUNT k2) = Ok (e, sw) /\
      SCHEDULER k2 = with_eevdf (SCHEDULER k1) e).
  { intros k1 irq k2 r2 H. apply bind_ok in H as ([s sw] & Hd & H). apply Hend in H as [Hs Ht].
    cbn [d_tick scheduler_dispatcher] in Hd. unfold tick_prepare in Hd. apply bind_ok in Hd as ([e sw'] & He & Hd).
    injection Hd as <- <-. cbn [with_sched SCHEDULER TICK_COUNT] in Hs, Ht. rewrite Ht. eauto. }
  destruct i; cbn [irq_inner].
  - intros H. unfold timer_interrupt_inner in H. by apply Hask in H.
  - unfold keyboard_interrupt_inner. intros H. apply bind_ok in H as ([sc rq] & _ & H). apply bind_ok in H as (dk & _ & H).
    by apply Hask in H.
Qed.

(** The scheduler's state between interrupts. *)
Record ticking (σ : conf) (n : nat) : Prop := {
  tg_steady : steady (sched σ);
  tg_pace : last_switch_tick (sched σ) = TICK_COUNT (statics σ);
  tg_tick : is_u64 (TICK_COUNT (statics σ));
  tg_left : TICK_COUNT (statics σ) + Z.of_nat n <= u64_max;
}.

Lemma ticking_irq i scancode m frame r (σ σ' : conf) n : ticking σ (S n) ->
  irq_inner i scancode (statics σ) m frame = Ok (statics σ', r) ->
  exists sw, eevdf_tick_prepare (sched σ) (bootstrap_ctx (SCHEDULER (statics σ))) (TICK_COUNT (statics σ')) = Ok (sched σ', sw) /\
    soon (sched σ) (TICK_COUNT (statics σ')) /\ ticking σ' n /\ threads (sched σ') = threads (sched σ) /\
    bootstrap_ctx (SCHEDULER (statics σ')) = bootstrap_ctx (SCHEDULER (statics σ)) /\
    (i = TimerIndex -> TICK_COUNT (statics σ') = TICK_COUNT (statics σ) + 1).
Proof.
  intros [Hst Hp Ht Hl] H. destruct (irq_asks _ _ _ _ _ _ _ H) as [Etick (e & sw & He & Es)]. exists sw.
  assert (Hu : is_u64 (TICK_COUNT (statics σ'))) by (rewrite Etick; destruct i; [apply wrap64_u64|done]).
  assert (Hnext : TICK_COUNT (statics σ) <= TICK_COUNT (statics σ') <= TICK_COUNT (statics σ) + 1 /\
    (i = TimerIndex -> TICK_COUNT (statics σ') = TICK_COUNT (statics σ) + 1)).
  { rewrite Etick. destruct i; [rewrite wrap64_small by (unfold is_u64 in *; lia)|]; split; intros; (done || lia). }
  destruct Hnext as [Hnext Htimer]. assert (Hsoon : soon (sched σ) (TICK_COUNT (statics σ'))) by (unfold soon; lia).
  rewrite Es. cbn [eevdf with_eevdf bootstrap_ctx]. split_and!; try done.
  - split; rewrite ?Es; cbn [eevdf with_eevdf]; [by eapply steady_tick| |done|lia].
    by destruct (next_tick_choice _ _ _ _ _ Hst Hu Hsoon He) as (_ & _ & _ & _ & _ & -> & _).
  - exact (tick_threads _ _ _ _ _ (st_wf _ Hst) Hu He).
Qed.

(** An execution as the scheduler sees it. *)
Lemma execution_asked n σ σs : execution n σ σs -> ticking σ n ->
  exists log e, asked (bootstrap_ctx (SCHEDULER (statics σ))) n (sched σ) log e /\
    forall c, c ∈ log -> exists σ', σ' ∈ σs /\ current (sched σ') = c /\ threads (sched σ') = threads (sched σ).
Proof.
  induction 1 as [σ|n σ σ' σs _ Hs Ht _ IH|n i scancode m frame r σ σ' σs _ Hin _ IH]; intros Htg.
  - exists [], (sched σ). split; [constructor|]. intros c Hc. by apply elem_of_nil in Hc.
  - destruct IH as (log & e & Ha & Hlog); [destruct Htg; split; rewrite ?Hs, ?Ht; done|].
    rewrite Hs in Ha. exists log, e. split; [exact Ha|]. intros c Hc. destruct (Hlog c Hc) as (τ & Hτ & Hcur & Hth).
    exists τ. rewrite Hth, Hs. split; [by constructor|done].
  - destruct (ticking_irq _ _ _ _ _ _ _ _ Htg Hin) as (sw & He & Hsoon & Htg' & Hth & Hb & _).
    destruct (IH Htg') as (log & e & Ha & Hlog). exists (current (sched σ') :: log), e. split.
    + eapply asked_cons; [exact (tg_tick _ _ Htg')|exact Hsoon|exact He|]. by rewrite Hb in Ha.
    + intros c [->|Hc]%elem_of_cons; [exists σ'; split; [constructor|done]|].
      destruct (Hlog c Hc) as (τ & Hτ & Hcur & Hth'). exists τ. rewrite Hth', Hth. split; [by constructor|done].
Qed.

(** All threads can be interrupted when they run. *)
Definition interrupts_open (σ : conf) : Prop :=
  forall t, t ∈ threads (sched σ) -> interrupts_on (TC.rflags (fst (view σ (context_ptr t)))) = true.

Lemma runs_thread (σ : conf) i t : current (sched σ) = Some i -> threads (sched σ) !! i = Some t -> runs σ (context_ptr t).
Proof.
  intros Hc Ht. unfold runs. cbn [d_running scheduler_dispatcher]. unfold running_ctx, from_context. rewrite Hc.
  unfold index. by rewrite Ht.
Qed.

(** As long as there is room, the timer can go on interrupting. *)
Lemma executions_exist n σ : kernel_ok σ -> interrupts_open σ -> ticking σ n -> room n (sched σ) ->
  exists σs, execution n σ σs.
Proof.
  revert σ. induction n as [|n IH]; intros σ Hko Hopen Htg Hroom; [exists []; constructor|].
  destruct (st_current _ (tg_steady _ _ Htg)) as (c & mc & Hc & Hmc & Hbc).
  assert (exists t, threads (sched σ) !! c = Some t) as [t Ht].
  { apply lookup_lt_is_Some_2. rewrite (wf_len _ (st_wf _ (tg_steady _ _ Htg))). by eapply lookup_lt_Some. }
  pose proof (runs_thread σ c t Hc Ht) as Hruns.
  assert (Hif : interrupts_on (flags (core σ)) = true).
  { specialize (Hopen t (list_elem_of_lookup_2 _ _ _ Ht)). unfold view, view_regs in Hopen.
    rewrite (is_running_spec _ _ _ Hruns), Z.eqb_refl in Hopen. exact Hopen. }
  assert (Hw : wrap64 (TICK_COUNT (statics σ) + 1) = last_switch_tick (sched σ) + 1).
  { rewrite (tg_pace _ _ Htg). apply wrap64_small. destruct Htg as [_ _ Hu Hl]. unfold is_u64 in *. lia. }
  destruct (timer_step prog σ Hko Hif) as (σ' & m & frame & r & Hs & Hin & Hpl & Hko' & Hview).
  { rewrite Hw, (next_slice _ c _ Hc) by (unfold soon; lia). destruct Hroom as (Hv & Hwt & _).
    split; [eapply Forall_impl; [exact Hv|]; cbn; lia|lia]. }
  destruct (ticking_irq _ _ _ _ _ _ _ _ Htg Hin) as (sw & He & Hsoon & Htg' & Hth & Hb & Htk).
  destruct (IH σ' Hko') as [σs Hex]; [|done| |exists (σ' :: σs); by econstructor].
  - intros t' Ht'. rewrite Hth in Ht'. destruct (Hview (context_ptr t')) as [_ [->|[]]]; [|by apply Hopen].
    apply (ko_known _ Hko). cbn [d_contexts scheduler_dispatcher]. apply elem_of_cons. right. by apply list_elem_of_fmap_2.
  - eapply room_tick; [exact (st_wf _ (tg_steady _ _ Htg))|exact Hroom|by eapply tick_advances; [apply Htg| |exact He]|].
    rewrite (tg_pace _ _ Htg'), (tg_pace _ _ Htg). by apply Htk.
Qed.

(** C7. No thread starves.  Take a state of the machine between two ticks, its threads
    interruptible and its scheduler steady with room for [n] more ticks.  Then timer interrupts
    can go on [n] times without a panic.  And in every execution with [n] interrupts, of timer
    and keyboard in any order and with any moves of the threads in between, as long as these
    leave the scheduler alone, every thread that is not blocked has the processor at least
    once, if [n] is above twice the number of runnable threads times their weight plus
    1024. *)
Theorem no_thread_starves n σ i t m : kernel_ok σ -> interrupts_open σ -> ticking σ n -> room n (sched σ) ->
  threads (sched σ) !! i = Some t -> metadata (sched σ) !! i = Some m -> blocked m = false ->
  patience (sched σ) < Z.of_nat n ->
  (exists σs, execution n σ σs) /\
  forall σs, execution n σ σs -> exists σ', σ' ∈ σ :: σs /\ runs σ' (context_ptr t).
Proof.
  intros Hko Hopen Htg Hroom Ht Hm Hb Hn. split; [by apply executions_exist|]. intros σs Hex.
  destruct (execution_asked n σ σs Hex Htg) as (log & e & Ha & Hlog).
  pose proof (asked_runs _ _ _ _ _ i m Ha (tg_steady _ _ Htg) Hm Hb Hn) as Hin.
  apply elem_of_cons in Hin as [Hc|Hin]; [exists σ; split; [constructor|by eapply runs_thread]|].
  destruct (Hlog _ Hin) as (σ' & Hσ' & Hc & Hth). exists σ'. split; [by constructor|].
  apply (runs_thread σ' i); [done|by rewrite Hth].
Qed.

End Liveness.

(** ** Two threads *)

Module LivenessDemo.

(** Boot has entered the scheduler: thread 0 runs, thread 1 has not yet. *)
Definition entered := enter_scheduler BootDemo.sched 1 0x400005 BootDemo.boot.

Definition started : config (Q := ListQueue.t) (SQ := ListQueue.t) (C := option Z) :=
  match entered with
  | Ok (s, Dispatched c) => mk_config (with_sched (statics KernelDemo.boot0) s) c KernelDemo.places0
  | _ => KernelDemo.boot0
  end.

Lemma started_ok : kernel_ok started.
Proof.
  assert (Hd : match entered with Ok (_, Dispatched _) => true | _ => false end = true) by (vm_compute; reflexivity).
  unfold started. destruct entered as [[s [c| |]]|] eqn:E; try discriminate Hd.
  apply (kstep_sound KernelDemo.no_moves KernelDemo.boot0); [exact KernelDemo.boot0_ok|].
  apply (step_enter KernelDemo.no_moves (statics KernelDemo.boot0) BootDemo.boot KernelDemo.places0 0x400005 s c); [|reflexivity|exact E].
  split; vm_compute; congruence.
Qed.

End LivenessDemo.

Lemma no_thread_starves_witness :
  (exists σs, execution KernelDemo.no_moves (Z.to_nat 12289) LivenessDemo.started σs) /\
  forall σs, execution KernelDemo.no_moves (Z.to_nat 12289) LivenessDemo.started σs ->
    exists σ', σ' ∈ LivenessDemo.started :: σs /\ runs σ' 0x3000.
Proof.
  apply (no_thread_starves KernelDemo.no_moves (Z.to_nat 12289) LivenessDemo.started 1 BootDemo.t1 (mk_meta 0 1024 false)).
  - exact LivenessDemo.started_ok.
  - intros t Ht. replace (threads _) with [BootDemo.t0; BootDemo.t1] in Ht by (vm_compute; reflexivity). rewrite !elem_of_cons, elem_of_nil in Ht. destruct Ht as [->|[->|[]]]; vm_compute; reflexivity.
  - split; [split|..].
    + split; [vm_compute; reflexivity|vm_compute; intros i [= <-]; lia|..]; repeat constructor; vm_compute; congruence.
    + exists 0%nat, (mk_meta 0 1024 false). split_and!; vm_compute; reflexivity.
    + intros i m j m' Hi _ Hj _. revert Hi Hj. vm_compute (metadata _). vm_compute (current _).
      destruct i as [|[|i]], j as [|[|j]]; cbn; intros; simplify_eq; vm_compute; congruence.
    + intros m. vm_compute (metadata _). rewrite !elem_of_cons, elem_of_nil. intros [->|[->|[]]] _; vm_compute; congruence.
    + vm_compute. reflexivity.
    + split; vm_compute; congruence.
    + vm_compute. congruence.
  - split_and!; [repeat constructor|..]; vm_compute; congruence.
  - vm_compute. reflexivity.
  - vm_compute. reflexivity.
  - reflexivity.
  - vm_compute. reflexivity.
Defined.
