(* ===== verification/Locks.v ===== *)
(** * The kernel's locks under preemption and interrupts

    Every static of the kernel is behind a [spin::Mutex] or an [IrqMutex] (src/sync.rs).
    On one core a lock is safe if it is never waited for with interrupts disabled while
    its holder is preempted.  This file keeps of each kernel routine the locks it takes,
    the nesting, and where it disables interrupts; gives these programs a semantics with
    threads, interrupts and preemption; and proves a static check of the nesting sound.
    The check accepts the routines the running kernel uses, and rejects [KMutex::lock]
    and the creation of a thread, which take the heap's lock with interrupts disabled. *)

From S2P Require Import Prelude.

(** The spinlocks: the scheduler's (inside its [IrqMutex]), the interrupt controller's,
    the key ring's, the console's, the serial port's, the heap's, the sleepers', the
    executor slot's, and the waiter list's of a [KMutex]. *)
Inductive lock :=
  | SCHEDULER | PICS | KEY_RING | WRITER | SERIAL1 | ALLOCATOR | SLEEPERS | EXECUTOR | WAITERS.

#[global] Instance lock_eq_dec : EqDecision lock.
Proof. solve_decision. Defined.

(** ** Programs *)

Inductive code :=
  | Work                       (* computation that takes no lock *)
  | Seq (a b : code)
  | Alt (a b : code)           (* a branch *)
  | Loop (a : code)            (* any number of rounds *)
  | Hold (l : lock) (a : code) (* the scope of a guard of [spin::Mutex::lock] *)
  | NoIrq (a : code)           (* interrupts disabled, and restored at the end *)
  | Yield (a : code)           (* interrupts disabled for [a], then [context_switch] *)
  | Halt.                      (* [enable_and_hlt], [hlt] *)

(** What is left of a routine in progress. *)
Inductive item :=
  | Run (c : code)
  | Unlock (l : lock)
  | Restore (was_enabled : bool)
  | SwitchAway                 (* [context_switch]; it enables interrupts *)
  | IrqEnd.                    (* back from an interrupt: IRETQ or [context_switch_to] *)

Section Programs.

(** The interrupt sources and what their handlers do. *)
Context {irq_source : Type} (handler : irq_source -> code).

Record machine := mk_machine {
  irq_enabled : bool;
  owner : lock -> option nat;
  cur : nat;
  todo : nat -> list item;
}.

(** The current thread continues with [k]. *)
Definition continue (m : machine) (k : list item) : machine :=
  mk_machine (irq_enabled m) (owner m) (cur m) (upd (todo m) (cur m) k).
Definition set_irq (b : bool) (m : machine) : machine := mk_machine b (owner m) (cur m) (todo m).
Definition set_owner (l : lock) (o : option nat) (m : machine) : machine :=
  mk_machine (irq_enabled m) (upd (owner m) l o) (cur m) (todo m).
Definition set_cur (t : nat) (m : machine) : machine := mk_machine (irq_enabled m) (owner m) t (todo m).

(** [Go b next]: the current thread makes a step; [b] decides its branches, [next] is the
    scheduler's choice where there is one.  [Interrupt i]: an interrupt is delivered. *)
Inductive event := Go (b : bool) (next : option nat) | Interrupt (i : irq_source).

Definition code_step (m : machine) (c : code) (k : list item) (b : bool) : option machine :=
  match c with
  | Work => Some (continue m k)
  | Seq x y => Some (continue m (Run x :: Run y :: k))
  | Alt x y => Some (continue m (Run (if b then x else y) :: k))
  | Loop x => Some (continue m (if b then Run x :: Run (Loop x) :: k else k))
  | Hold l x =>
      match owner m l with
      | Some _ => None
      | None => Some (continue (set_owner l (Some (cur m)) m) (Run x :: Unlock l :: k))
      end
  | NoIrq x => Some (continue (set_irq false m) (Run x :: Restore (irq_enabled m) :: k))
  | Yield x => Some (continue (set_irq false m) (Run x :: SwitchAway :: k))
  | Halt => Some (continue (set_irq true m) k)
  end.

(** [None] is a thread that spins, or has nothing left to do. *)
Definition go (m : machine) (b : bool) (next : option nat) : option machine :=
  match todo m (cur m) with
  | [] => None
  | Run c :: k => code_step m c k b
  | Unlock l :: k => Some (continue (set_owner l None m) k)
  | Restore was :: k => Some (continue (if was then set_irq true m else m) k)
  | SwitchAway :: k =>
      match next with
      | Some u => Some (set_cur u (set_irq true (continue m k)))
      | None => None
      end
  | IrqEnd :: k =>
      let m := set_irq true (continue m k) in
      Some (match next with Some u => set_cur u m | None => m end)
  end.

Definition lstep (m : machine) (e : event) : option machine :=
  match e with
  | Go b next => go m b next
  | Interrupt i =>
      if irq_enabled m
      then Some (set_irq false (continue m (Run (handler i) :: IrqEnd :: todo m (cur m))))
      else None
  end.

Fixpoint lrun (m : machine) (es : list event) : option machine :=
  match es with
  | [] => Some m
  | e :: es => m ← lstep m e; lrun m es
  end.

Definition start (progs : nat -> code) : machine :=
  mk_machine true (fun _ => None) 0 (fun t => [Run (progs t)]).

(** Nothing will ever happen again: the current thread waits for a lock with interrupts
    disabled. *)
Definition wedged (m : machine) : Prop :=
  irq_enabled m = false /\ exists l a k, todo m (cur m) = Run (Hold l a) :: k /\ owner m l <> None.

Lemma wedged_stuck m e : wedged m -> lstep m e = None.
Proof.
  intros (Hi & l & a & k & Ht & Ho). destruct e; cbn.
  - unfold go. rewrite Ht. cbn. by destruct (owner m l).
  - by rewrite Hi.
Qed.

(** ** The check *)

(** The locks that are only ever taken with interrupts disabled. *)
Context (irq_lock : lock -> bool).

(** [off]: interrupts are disabled; [held]: the locks held.  With interrupts disabled
    exactly the interrupt locks may be taken, no lock is taken twice, and neither a
    switch nor a halt happens inside. *)
Fixpoint check (off : bool) (held : list lock) (c : code) : bool :=
  match c with
  | Work => true
  | Seq a b | Alt a b => check off held a && check off held b
  | Loop a => check off held a
  | Hold l a => eqb off (irq_lock l) && bool_decide (l ∉ held) && check off (l :: held) a
  | NoIrq a => check true held a
  | Yield a => negb off && check true held a
  | Halt => negb off
  end.

Definition plain (held : list lock) : Prop := Forall (fun l => irq_lock l = false) held.

Fixpoint todo_ok (off : bool) (held : list lock) (k : list item) : Prop :=
  match k with
  | [] => off = false /\ held = []
  | Run c :: k => check off held c = true /\ todo_ok off held k
  | Unlock l :: k => exists held', held = l :: held' /\ todo_ok off held' k
  | Restore was :: k => off = true /\ (was = true -> plain held) /\ todo_ok (negb was) held k
  | SwitchAway :: k | IrqEnd :: k => off = true /\ plain held /\ todo_ok false held k
  end.

(** [held t] are the locks of thread [t]; the others than the current thread were
    interrupted or switched away from, with interrupts enabled. *)
Record locks_ok (m : machine) (held : nat -> list lock) : Prop := {
  lk_todo : forall t, todo_ok (if decide (t = cur m) then negb (irq_enabled m) else false) (held t) (todo m t);
  lk_plain : forall t, t <> cur m \/ irq_enabled m = true -> plain (held t);
  lk_owner : forall l t, owner m l = Some t <-> l ∈ held t;
  lk_nodup : forall t, NoDup (held t);
}.

(** A handler runs on top of a thread that holds no interrupt lock. *)
Lemma check_weaken c h ext : plain ext -> check true h c = true -> check true (h ++ ext) c = true.
Proof.
  intros Hp. revert h. induction c as [|a IHa b IHb|a IHa b IHb|a IHa|l a IHa|a IHa|a IHa|]; intros h H; cbn in *; try done; auto.
  - apply andb_true_iff in H as [H1 H2]. by rewrite IHa, IHb.
  - apply andb_true_iff in H as [H1 H2]. by rewrite IHa, IHb.
  - apply andb_true_iff in H as [H H3]. apply andb_true_iff in H as [H1 H2]. apply bool_decide_eq_true_1 in H2.
    assert (Hi : irq_lock l = true) by (by destruct (irq_lock l)).
    change (l :: h ++ ext) with ((l :: h) ++ ext).
    rewrite H1, bool_decide_eq_true_2, (IHa (l :: h)); [done|done|]. rewrite elem_of_app. intros [Hl|Hl]; [done|].
    pose proof (proj1 (Forall_forall _ _) Hp l Hl). cbn in *. congruence.
Qed.

(** The current thread moves to [k], now holding [h]. *)
Lemma cur_moves m held b o k h : locks_ok m held -> todo_ok (negb b) h k -> (b = true -> plain h) ->
  (forall l t, o l = Some t <-> l ∈ upd held (cur m) h t) -> NoDup h ->
  locks_ok (mk_machine b o (cur m) (upd (todo m) (cur m) k)) (upd held (cur m) h).
Proof.
  intros [Ht Hp _ Hn] Hk Hb Ho Hh. split; cbn [irq_enabled owner cur todo]; try done; intros t; unfold upd.
  - specialize (Ht t). by case_decide.
  - case_decide; [|intros _; apply Hp; by left]. intros [?|?]; [done|auto].
  - case_decide; auto.
Qed.

(** ... with the locks unchanged. *)
Lemma cur_moves_same m held b k : locks_ok m held -> todo_ok (negb b) (held (cur m)) k ->
  (b = true -> plain (held (cur m))) ->
  exists held', locks_ok (mk_machine b (owner m) (cur m) (upd (todo m) (cur m) k)) held'.
Proof.
  intros Hm Hk Hb. exists (upd held (cur m) (held (cur m))). apply cur_moves; try done.
  - intros l t. rewrite (lk_owner _ _ Hm). unfold upd. by case_decide; subst.
  - apply Hm.
Qed.

Lemma switch_ok m held u : locks_ok m held -> irq_enabled m = true -> locks_ok (set_cur u m) held.
Proof.
  intros [Ht Hp Ho Hn] Hi. split; cbn [irq_enabled owner cur todo set_cur]; try done.
  - intros t. specialize (Ht t). rewrite Hi in *. cbn [negb] in *. by destruct (decide (t = cur m)), (decide (t = u)).
  - intros t _. apply Hp. by right.
Qed.

Lemma take_ok m held l a k : locks_ok m held -> todo m (cur m) = Run (Hold l a) :: k -> owner m l = None ->
  locks_ok (continue (set_owner l (Some (cur m)) m) (Run a :: Unlock l :: k)) (upd held (cur m) (l :: held (cur m))).
Proof.
  intros Hm Ek Eo. pose proof (lk_todo _ _ Hm (cur m)) as Ht. rewrite decide_True, Ek in Ht by done.
  cbn [todo_ok check] in Ht. destruct Ht as [Hc Hk]. apply andb_true_iff in Hc as [Hc Ha].
  apply andb_true_iff in Hc as [He Hl]. apply bool_decide_eq_true_1 in Hl. apply eqb_prop in He.
  apply (cur_moves m held (irq_enabled m)); try done.
  - split; [done|]. by exists (held (cur m)).
  - intros Hi. rewrite Hi in He. apply Forall_cons. split; [done|]. apply Hm. by right.
  - intros l' t. cbn [owner set_owner]. unfold upd. destruct (decide (l' = l)) as [->|Hne].
    + case_decide as Ht; split; intros H; [by left|by subst|congruence|].
      apply (lk_owner _ _ Hm) in H. congruence.
    + rewrite (lk_owner _ _ Hm). case_decide; subst; [|done]. rewrite elem_of_cons. tauto.
  - apply NoDup_cons. split; [done|apply Hm].
Qed.

Lemma release_ok m held l k : locks_ok m held -> todo m (cur m) = Unlock l :: k ->
  exists held', locks_ok (continue (set_owner l None m) k) held'.
Proof.
  intros Hm Ek. pose proof (lk_todo _ _ Hm (cur m)) as Ht. rewrite decide_True, Ek in Ht by done.
  cbn [todo_ok] in Ht. destruct Ht as (h & Eh & Hk). exists (upd held (cur m) h).
  pose proof (lk_nodup _ _ Hm (cur m)) as Hn. rewrite Eh in Hn. apply NoDup_cons in Hn as [Hl Hn].
  apply (cur_moves m held (irq_enabled m)); try done.
  - intros Hi. assert (Hp : plain (held (cur m))) by (apply Hm; by right). rewrite Eh in Hp. by apply Forall_cons in Hp as [_ Hp].
  - intros l' t. cbn [owner set_owner]. unfold upd. destruct (decide (l' = l)) as [->|Hne].
    + split; [done|]. case_decide; subst; [done|]. intros Hl'%(lk_owner _ _ Hm).
      assert (Ho : owner m l = Some (cur m)) by (apply (lk_owner _ _ Hm); rewrite Eh; by left). congruence.
    + rewrite (lk_owner _ _ Hm). case_decide; subst; [|done]. rewrite Eh, elem_of_cons. tauto.
Qed.

Lemma go_ok m held b next m' : locks_ok m held -> go m b next = Some m' -> exists held', locks_ok m' held'.
Proof.
  intros Hm H. unfold go in H. destruct (todo m (cur m)) as [|[c|l|was| |] k] eqn:Ek; [done|..].
  all: pose proof (lk_todo _ _ Hm (cur m)) as Ht; rewrite decide_True, Ek in Ht by done; cbn [todo_ok] in Ht.
  all: pose proof (fun H => lk_plain _ _ Hm (cur m) (or_intror H)) as Hp.
  - destruct Ht as [Hc Hk]. destruct c; cbn [code_step check] in *.
    + injection H as <-. by apply (cur_moves_same m held (irq_enabled m)).
    + injection H as <-. apply andb_true_iff in Hc as [? ?]. by apply (cur_moves_same m held (irq_enabled m)).
    + injection H as <-. apply andb_true_iff in Hc as [? ?]. apply (cur_moves_same m held (irq_enabled m)); [done|by destruct b|done].
    + injection H as <-. apply (cur_moves_same m held (irq_enabled m)); [done|by destruct b|done].
    + destruct (owner m l) eqn:Eo; [done|]. injection H as <-. eauto using take_ok.
    + injection H as <-. apply (cur_moves_same m held false); [done| |done]. cbn [todo_ok negb]. by rewrite Hc.
    + injection H as <-. apply andb_true_iff in Hc as [Hi Hc]. rewrite negb_involutive in Hi.
      apply (cur_moves_same m held false); [done| |done]. cbn [todo_ok negb]. rewrite Hi in *. auto.
    + injection H as <-. rewrite negb_involutive in Hc. rewrite Hc in *. by apply (cur_moves_same m held true).
  - injection H as <-. by eapply release_ok.
  - injection H as <-. destruct Ht as (Hoff & Hpl & Hk). apply negb_true_iff in Hoff. destruct was.
    + apply (cur_moves_same m held true); auto.
    + apply (cur_moves_same m held (irq_enabled m)); [done|by rewrite Hoff|]. congruence.
  - destruct next as [u|]; [|done]. injection H as <-. destruct Ht as (_ & Hpl & Hk).
    destruct (cur_moves_same m held true k) as [held' Hm']; [done..|]. exists held'. by apply (switch_ok _ _ u) in Hm'.
  - injection H as <-. destruct Ht as (_ & Hpl & Hk).
    destruct (cur_moves_same m held true k) as [held' Hm']; [done..|]. exists held'.
    destruct next as [u|]; [|done]. by apply (switch_ok _ _ u) in Hm'.
Qed.

(** A thread that runs with interrupts disabled does not have to wait. *)
Lemma go_returns m held : locks_ok m held -> irq_enabled m = false -> exists m', go m true (Some 0%nat) = Some m'.
Proof.
  intros Hm Hi. pose proof (lk_todo _ _ Hm (cur m)) as Ht. rewrite decide_True, Hi in Ht by done. cbn [negb] in Ht.
  unfold go. destruct (todo m (cur m)) as [|[c|l|was| |] k]; cbn [todo_ok] in Ht; eauto; [by destruct Ht|].
  destruct Ht as [Hc _]. destruct c; cbn [code_step check] in *; eauto.
  apply andb_true_iff in Hc as [Hc _]. apply andb_true_iff in Hc as [He Hl].
  apply eqb_prop in He. apply bool_decide_eq_true_1 in Hl.
  destruct (owner m l) as [t|] eqn:Eo; [|eauto]. exfalso. apply (lk_owner _ _ Hm) in Eo.
  destruct (decide (t = cur m)) as [->|Hne]; [done|].
  pose proof (proj1 (Forall_forall _ _) (lk_plain _ _ Hm t (or_introl Hne)) l Eo). cbn in *. congruence.
Qed.

Lemma lstep_ok m held e m' : (forall i, check true [] (handler i) = true) ->
  locks_ok m held -> lstep m e = Some m' -> exists held', locks_ok m' held'.
Proof.
  intros Hh Hm H. destruct e as [b next|i]; cbn [lstep] in H; [by eapply go_ok|].
  destruct (irq_enabled m) eqn:Hi; [|done]. injection H as <-.
  assert (Hp : plain (held (cur m))) by (apply Hm; by right).
  apply (cur_moves_same m held false); [done| |done]. cbn [todo_ok negb].
  pose proof (lk_todo _ _ Hm (cur m)) as Ht. rewrite decide_True, Hi in Ht by done.
  split_and!; try done. by apply (check_weaken _ []).
Qed.

Lemma start_ok progs : (forall t, check false [] (progs t) = true) -> locks_ok (start progs) (fun _ => []).
Proof.
  intros Hc. split; cbn [irq_enabled owner cur todo start].
  - intros t. case_decide; cbn [todo_ok negb]; auto.
  - intros t _. apply List.Forall_nil.
  - intros l t. split; [done|]. by intros ?%elem_of_nil.
  - intros t. apply NoDup_nil_2.
Qed.

Lemma lrun_ok m held es m' : (forall i, check true [] (handler i) = true) ->
  locks_ok m held -> lrun m es = Some m' -> exists held', locks_ok m' held'.
Proof.
  intros Hh. revert m held. induction es as [|e es IH]; intros m held Hm H; cbn in H.
  - injection H as <-. eauto.
  - destruct (lstep m e) as [m1|] eqn:E; [|done]. destruct (lstep_ok _ _ _ _ Hh Hm E) as [h1 H1]. eauto.
Qed.

(** The check is sound. *)
Lemma checked_never_wedged progs es m : (forall i, check true [] (handler i) = true) ->
  (forall t, check false [] (progs t) = true) -> lrun (start progs) es = Some m ->
  (irq_enabled m = true -> forall l, irq_lock l = true -> owner m l = None) /\
  (irq_enabled m = false -> exists m', lstep m (Go true (Some 0%nat)) = Some m').
Proof.
  intros Hh Hc H. destruct (lrun_ok _ _ _ _ Hh (start_ok progs Hc) H) as [held Hm]. split.
  - intros Hi l Hl. destruct (owner m l) as [t|] eqn:Eo; [|done]. apply (lk_owner _ _ Hm) in Eo.
    pose proof (proj1 (Forall_forall _ _) (lk_plain _ _ Hm t (or_intror Hi)) l Eo). cbn in *. congruence.
  - intros Hi. by apply (go_returns m held).
Qed.

End Programs.

(** ** The kernel's routines *)

(** [IrqMutex::lock] up to the drop of its guard: the flag is saved and cleared, the inner
    spinlock taken; released first, then the flag restored. *)
Definition irq_hold (l : lock) (a : code) : code := NoIrq (Hold l a).

(** Allocating and freeing: [GlobalAlloc] of [Locked<FixedSizeBlockAllocator>]. *)
Definition heap_locks : code := Hold ALLOCATOR Work.
(** Pushing to a vector or a map may allocate. *)
Definition push_locks : code := Alt heap_locks Work.

(** [vga_buffer::_print], [vga_buffer::clear_screen] and [serial::_print]. *)
Definition print_locks : code := NoIrq (Hold WRITER Work).
Definition clear_screen_locks : code := NoIrq (Hold WRITER Work).
Definition serial_print_locks : code := NoIrq (Hold SERIAL1 Work).

(** [wake_sleepers]: the wakers it removes are dropped with the lock held. *)
Definition wake_sleepers_locks : code := Hold SLEEPERS (Loop (Alt heap_locks Work)).
Definition sleep_poll_locks : code := Alt Work (Hold SLEEPERS push_locks).

(** [executor_entry] takes the executor out of its slot. *)
Definition executor_entry_locks : code := Hold EXECUTOR Work.

(** [feed_scancode] and [DG_GetKey]. *)
Definition feed_scancode_locks : code := Alt Work (NoIrq (Hold KEY_RING Work)).
Definition DG_GetKey_locks : code := NoIrq (Hold KEY_RING Work).

(** [int 0x80]: the gate disables interrupts; SYS_PUTCHAR prints. *)
Definition syscall_locks : code := NoIrq (Alt print_locks Work).

(** [println!] with the number of threads: the scheduler's guard lives until the text is
    printed. *)
Definition print_len_locks : code := irq_hold SCHEDULER print_locks.
(** A breakpoint trap prints, behind an interrupt gate. *)
Definition breakpoint_locks : code := NoIrq print_locks.

(** [block_and_yield]: the guard is released without restoring the flag. *)
Definition block_and_yield_locks : code := Yield (Hold SCHEDULER Work).
(** [KMutexGuard::drop]: the waiters' guard lives to the end of the [if let]. *)
Definition kmutex_drop_locks : code := Hold WAITERS (Alt (irq_hold SCHEDULER Work) Work).
(** [KMutex::lock]: the slow path rechecks with the scheduler held, queues itself and
    yields, or gives up the guard. *)
Definition kmutex_lock_locks : code :=
  Loop (Alt (Yield (Hold SCHEDULER (Hold WAITERS push_locks))) (irq_hold SCHEDULER Work)).

(** [SCHEDULER.lock().spawn(Thread::with_stack_size(..))], as in [kernel_main] and
    [cmd_doom]: the receiver is evaluated first, so stack, context and vectors are
    allocated under the scheduler's lock. *)
Definition spawn_thread_locks : code :=
  irq_hold SCHEDULER (Seq heap_locks (Seq heap_locks (Seq push_locks push_locks))).

(** The two interrupt handlers. *)
Inductive irq := Timer | Keyboard.
Definition irq_locks (i : irq) : code :=
  let sched := Seq (irq_hold SCHEDULER Work) (Hold PICS Work) in
  match i with
  | Timer => sched
  | Keyboard => Seq feed_scancode_locks sched
  end.

(** The locks the handlers use, or that are used under them. *)
Definition irq_lock (l : lock) : bool :=
  match l with
  | SCHEDULER | PICS | KEY_RING | WRITER | SERIAL1 => true
  | ALLOCATOR | SLEEPERS | EXECUTOR | WAITERS => false
  end.

(** What the executor thread and the Doom thread are made of, once both run.  Creating a
    thread and [KMutex::lock] are not among them: see below. *)
Definition routines : list code :=
  [Work; Halt; heap_locks; push_locks; print_locks; clear_screen_locks; serial_print_locks;
   wake_sleepers_locks; sleep_poll_locks; executor_entry_locks; DG_GetKey_locks; syscall_locks;
   print_len_locks; breakpoint_locks; block_and_yield_locks; kmutex_drop_locks].

Inductive composed : code -> Prop :=
  | composed_routine c : c ∈ routines -> composed c
  | composed_seq a b : composed a -> composed b -> composed (Seq a b)
  | composed_alt a b : composed a -> composed b -> composed (Alt a b)
  | composed_loop a : composed a -> composed (Loop a).

Lemma composed_checked c : composed c -> check irq_lock false [] c = true.
Proof.
  induction 1 as [c H|a b _ IHa _ IHb|a b _ IHa _ IHb|a _ IH]; cbn; rewrite ?IHa, ?IHb; try done.
  assert (Hall : forallb (check irq_lock false []) routines = true) by (vm_compute; reflexivity).
  rewrite forallb_forall in Hall. apply Hall. by apply list_elem_of_In.
Qed.

Lemma irq_checked i : check irq_lock true [] (irq_locks i) = true.
Proof. by destruct i. Qed.

(** C13. The kernel's locks never stop the machine: whatever the threads do, composed of the
    kernel's routines (but for thread creation and [KMutex::lock]) in any order, branching and looping, and wherever interrupts and
    preemptions fall, no lock that an interrupt handler needs is held when an interrupt
    can arrive, and whoever runs with interrupts disabled, handler or thread, never has to
    wait for a lock. *)
Theorem kernel_never_wedged progs es m :
  (forall t, composed (progs t)) -> lrun irq_locks (start progs) es = Some m ->
  (irq_enabled m = true -> forall l, irq_lock l = true -> owner m l = None) /\
  (irq_enabled m = false -> ~ wedged m /\ exists m', lstep irq_locks m (Go true (Some 0%nat)) = Some m').
Proof.
  intros Hc H.
  destruct (checked_never_wedged irq_locks irq_lock progs es m irq_checked (fun t => composed_checked _ (Hc t)) H) as [H1 H2].
  split; [exact H1|]. intros Hi. destruct (H2 Hi) as [m' Hm]. split; [|eauto].
  intros Hw. by rewrite (wedged_stuck irq_locks) in Hm.
Qed.

(** C14. Creating a thread while another one is inside of the heap allocator stops the
    machine: there is an execution of two threads, one allocating memory, the other
    creating a thread, in which the second waits for the heap's lock with interrupts
    disabled, so that the first can never release it. *)
Theorem thread_creation_wedges : exists es m,
  lrun irq_locks (start (fun t => if decide (t = 0%nat) then heap_locks else spawn_thread_locks)) es = Some m /\
  wedged m /\ forall e, lstep irq_locks m e = None.
Proof.
  set (s := Go (irq_source := irq) true None).
  exists [s; Interrupt Timer; s; s; s; s; s; s; s; s; s; Go true (Some 1%nat); s; s; s].
  destruct (lrun _ _ _) as [m|] eqn:E; [|by vm_compute in E]. exists m.
  assert (Hw : wedged m).
  { vm_compute in E. injection E as <-. split; [reflexivity|]. do 3 eexists. split; [reflexivity|]. by vm_compute. }
  split; [done|]. split; [done|]. intros e. by apply wedged_stuck.
Qed.

(** [KMutex::lock] queues itself the same way: it is not accepted by the check, whichever
    locks are declared interrupt locks, because the heap is also used with interrupts on. *)
Lemma kmutex_lock_unchecked safe : check safe false [] heap_locks = true ->
  check safe false [] kmutex_lock_locks = false.
Proof. cbn. destruct (safe ALLOCATOR), (safe SCHEDULER), (safe WAITERS); done. Qed.

Lemma kernel_never_wedged_witness : exists m,
  lrun irq_locks (start (fun t => if decide (t = 0%nat) then heap_locks else print_locks))
    [Go true None; Interrupt Timer] = Some m /\ ~ wedged m.
Proof.
  eexists. split; [vm_compute; reflexivity|].
  refine (proj1 (proj2 (kernel_never_wedged (fun t => if decide (t = 0%nat) then heap_locks else print_locks)
    [Go true None; Interrupt Timer] _ _ eq_refl) eq_refl)).
  intros t. destruct (decide (t = 0%nat)); apply composed_routine; repeat constructor.
Defined.
