(* ===== verification/Alloc.v ===== *)
(** * Heap allocators: interface and bump allocator
    (src/allocator.rs, src/allocator/bump.rs)

    [HeapAllocator] is what a [GlobalAlloc] implementation promises: blocks that are
    big enough, aligned, inside of the heap, and never shared.  The free-list
    allocator ([LinkedList]) and the fixed-size-block allocator ([FixedBlock])
    implement it too. *)

From S2P Require Import Prelude.

Definition HEAP_START : Z := 0x444444440000.
Definition HEAP_SIZE : Z := 56 * 1024 * 1024.

(** [(addr + align - 1) & !(align - 1)] *)
Definition align_up (addr align : Z) : outcome Z :=
  a ← addr +! align;
  b ← a -! 1;
  mask ← align -! 1;
  Ok (Z.land b (not64 mask)).

(** [core::alloc::Layout] *)
Record Layout := mk_layout {
  size : Z;
  align : Z;
}.

Definition ISIZE_MAX : Z := 2 ^ 63 - 1.

(** [Layout::from_size_align] *)
Definition is_pow2 (a : Z) : bool := (0 <? a) && (Z.land a (a - 1) =? 0).
Definition from_size_align (sz al : Z) : option Layout :=
  if is_pow2 al && (sz <=? ISIZE_MAX - (al - 1)) then Some (mk_layout sz al) else None.

(** A layout a client may ask for: nonzero size, power-of-two alignment, and both far
    below the address space (no heap is that large). *)
Definition layout_ok (l : Layout) : Prop :=
  1 <= size l <= 2 ^ 61 /\ exists k, 0 <= k <= 61 /\ align l = 2 ^ k.

(** [align_up] rounds up to the next multiple. *)
Lemma align_up_ok addr k : 0 <= addr -> 0 <= k <= 61 -> addr + 2 ^ k <= u64_max ->
  exists r, align_up addr (2 ^ k) = Ok r /\ addr <= r < addr + 2 ^ k /\ r mod 2 ^ k = 0.
Proof.
  intros Ha Hk Hm. pose proof (Z.pow_pos_nonneg 2 k). unfold align_up.
  rewrite u64_add_returns by done. cbn [mbind outcome_bind].
  rewrite (proj2 (u64_sub_ok (addr + 2 ^ k) 1 _)) by (split; [reflexivity|lia]). cbn [mbind outcome_bind].
  rewrite (proj2 (u64_sub_ok (2 ^ k) 1 _)) by (split; [reflexivity|lia]). cbn [mbind outcome_bind].
  rewrite land_not64_ones by (unfold is_u64; lia). eexists. split; [done|].
  pose proof (Z.mod_pos_bound (addr + 2 ^ k - 1) (2 ^ k)). split; [lia|].
  rewrite Zminus_mod, Zmod_mod, Z.sub_diag. apply Z.mod_0_l. lia.
Qed.

(** [align_up]: for a power-of-two alignment, and an address that leaves room for it,
    the result is the least multiple of the alignment that is not below the address. *)
Theorem align_up_least addr k r : 0 <= addr -> 0 <= k <= 61 -> addr + 2 ^ k <= u64_max ->
  align_up addr (2 ^ k) = Ok r ->
  addr <= r /\ r mod 2 ^ k = 0 /\ forall x, addr <= x -> x mod 2 ^ k = 0 -> r <= x.
Proof.
  intros Ha Hk Hm Hr. destruct (align_up_ok addr k Ha Hk Hm) as (r' & E & Hb & Hz).
  rewrite E in Hr. injection Hr as ->. split_and!; [lia|done|]. intros x Hx Hxz.
  pose proof (Z.pow_pos_nonneg 2 k).
  apply Z.mod_divide in Hxz as [q ->]; [|lia]. apply Z.mod_divide in Hz as [q' ->]; [|lia].
  set (P := 2 ^ k) in *. clearbody P. assert (q' * P < (q + 1) * P) by lia.
  assert (q' < q + 1) by nia. nia.
Qed.

Lemma align_up_least_witness : 0x1001 <= 0x1010 /\ (0x1010 mod 16 = 0) /\
  forall x, 0x1001 <= x -> x mod 16 = 0 -> 0x1010 <= x.
Proof. apply (align_up_least 0x1001 4 0x1010); [lia|lia|vm_compute; congruence|reflexivity]. Defined.

(** ** The interface *)

Definition range_of (b : Z * Layout) : Z * Z := (fst b, size (snd b)).

(** A block as its owner sees it. *)
Definition block_ok (heap : Z * Z) (b : Z * Layout) : Prop :=
  0 < fst b /\ fst b mod align (snd b) = 0 /\ inside (range_of b) heap.

Class HeapAllocator (S : Type) := {
  ha_alloc : S -> Layout -> outcome (Z * S);
  ha_dealloc : S -> Z -> Layout -> outcome S;
  ha_heap : S -> Z * Z;
  ha_inv : S -> list (Z * Layout) -> Prop;
  ha_perm :: forall s, Proper (Permutation ==> iff) (ha_inv s);
  ha_blocks s live : ha_inv s live ->
    Forall (block_ok (ha_heap s)) live /\ pairwise (range_of <$> live);
  ha_addresses s live : ha_inv s live -> fst (ha_heap s) + snd (ha_heap s) <= u64_max;
  ha_alloc_ok s live l : ha_inv s live -> layout_ok l ->
    exists p s', ha_alloc s l = Ok (p, s') /\ ha_heap s' = ha_heap s /\
      ha_inv s' (if p =? 0 then live else (p, l) :: live);
  ha_dealloc_ok s live p l : ha_inv s ((p, l) :: live) -> layout_ok l ->
    exists s', ha_dealloc s p l = Ok s' /\ ha_heap s' = ha_heap s /\ ha_inv s' live;
}.

(** A client: it allocates, and frees blocks it holds (the [n]-th one). *)
Inductive heap_op := Alloc (l : Layout) | Free (n : nat).

Fixpoint heap_run {S} `{!HeapAllocator S} (ops : list heap_op) (s : S) (live : list (Z * Layout))
    : outcome (S * list (Z * Layout)) :=
  match ops with
  | [] => Ok (s, live)
  | Alloc l :: ops =>
      '(p, s) ← ha_alloc s l;
      heap_run ops s (if p =? 0 then live else (p, l) :: live)
  | Free n :: ops =>
      match live !! n with
      | None => heap_run ops s live
      | Some (p, l) => s ← ha_dealloc s p l; heap_run ops s (delete n live)
      end
  end.

Definition op_layout_ok (o : heap_op) : Prop := match o with Alloc l => layout_ok l | Free _ => True end.

(** Whatever the allocator behind the interface, a client never receives overlapping
    memory: after any sequence of allocations and frees nothing has panicked, and all
    blocks the client holds are aligned as asked, inside of the heap, and pairwise
    disjoint. *)
Lemma heap_run_disjoint {S} `{!HeapAllocator S} (s : S) ops :
  ha_inv s [] -> Forall op_layout_ok ops ->
  exists s' live, heap_run ops s [] = Ok (s', live) /\
    Forall (block_ok (ha_heap s)) live /\ pairwise (range_of <$> live).
Proof.
  intros Hi Hops.
  assert (Hg : forall live, ha_inv s live -> Forall (fun b => layout_ok (snd b)) live ->
    exists s' live', heap_run ops s live = Ok (s', live') /\ ha_heap s' = ha_heap s /\ ha_inv s' live').
  { clear Hi. revert s. induction Hops as [|o ops Ho _ IH]; intros s live Hi Hl; cbn [heap_run]; [eauto|].
    destruct o as [l|n].
    - destruct (ha_alloc_ok s live l Hi Ho) as (p & s1 & -> & Hh & Hi1). cbn [mbind outcome_bind].
      rewrite <- Hh. apply IH; [done|]. destruct (p =? 0); [done|]. by constructor.
    - destruct (live !! n) as [[p l]|] eqn:En; [|by apply IH].
      pose proof (delete_Permutation live n (p, l) En) as Hperm. rewrite Hperm in Hi, Hl.
      apply Forall_cons in Hl as [Hlp Hl].
      destruct (ha_dealloc_ok s _ p l Hi Hlp) as (s1 & -> & Hh & Hi1). cbn [mbind outcome_bind].
      rewrite <- Hh. by apply IH. }
  destruct (Hg [] Hi (Forall_nil_2 _)) as (s' & live & E & Hh & Hi'). exists s', live. split; [done|].
  rewrite <- Hh. by apply ha_blocks.
Qed.

(** ** The bump allocator *)

Record BumpAllocator := mk_bump {
  heap_start : Z;
  heap_end : Z;
  next : Z;
  allocations : Z;
}.

Definition bump_new : BumpAllocator := mk_bump 0 0 0 0.

Definition bump_init (_ : BumpAllocator) (start sz : Z) : outcome BumpAllocator :=
  e ← start +! sz;
  Ok (mk_bump start e start 0).

(** A null pointer is 0. *)
Definition bump_alloc (b : BumpAllocator) (l : Layout) : outcome (Z * BumpAllocator) :=
  alloc_start ← align_up (next b) (align l);
  match checked_add alloc_start (size l) with
  | None => Ok (0, b)
  | Some alloc_end =>
      if heap_end b <? alloc_end then Ok (0, b) else
      n ← allocations b +! 1;
      Ok (alloc_start, mk_bump (heap_start b) (heap_end b) alloc_end n)
  end.

Definition bump_dealloc (b : BumpAllocator) (_ptr : Z) (_layout : Layout) : outcome BumpAllocator :=
  n ← allocations b -! 1;
  Ok (mk_bump (heap_start b) (heap_end b) (if n =? 0 then heap_start b else next b) n).

(** Everything handed out lies between the start of the heap and [next]. *)
Record bump_inv (b : BumpAllocator) (live : list (Z * Layout)) : Prop := {
  bi_heap : 0 < heap_start b /\ heap_start b <= next b <= heap_end b /\ heap_end b <= 2 ^ 61;
  bi_count : allocations b = Z.of_nat (length live);
  bi_layouts : Forall (fun x => 1 <= size (snd x)) live;
  bi_blocks : Forall (block_ok (heap_start b, next b - heap_start b)) live;
  bi_disjoint : pairwise (range_of <$> live);
  bi_sum : Zsum (size ∘ snd <$> live) <= next b - heap_start b;
}.

#[global] Instance bump_inv_perm b : Proper (Permutation ==> iff) (bump_inv b).
Proof.
  assert (H : forall l k, l ≡ₚ k -> bump_inv b l -> bump_inv b k).
  { intros l k Hp [H1 H2 H3 H4 H5 H6]. rewrite Hp in H2, H3, H4, H5, H6. by split. }
  intros l k Hp. split; apply H; by rewrite Hp.
Qed.

Lemma count_le_sum live : Forall (fun x : Z * Layout => 1 <= size (snd x)) live ->
  Z.of_nat (length live) <= Zsum (size ∘ snd <$> live).
Proof. induction 1; cbn in *; lia. Qed.

Lemma block_ok_grow lo n m b : n <= m -> block_ok (lo, n) b -> block_ok (lo, m) b.
Proof. intros Hn (H1 & H2 & H3). split_and!; try done. unfold inside in *. cbn in *. lia. Qed.

Lemma bump_alloc_inv b live l : bump_inv b live -> layout_ok l ->
  exists p b', bump_alloc b l = Ok (p, b') /\ heap_start b' = heap_start b /\ heap_end b' = heap_end b /\
    bump_inv b' (if p =? 0 then live else (p, l) :: live).
Proof.
  intros Hi (Hsz & k & Hk & Hal). pose proof Hi as [(Hs & Hn & He) Hc Hl Hb Hd Hsum].
  unfold bump_alloc. rewrite Hal.
  assert (H62 : 2 ^ k <= 2 ^ 61) by (apply Z.pow_le_mono_r; lia).
  change (2 ^ 61) with 2305843009213693952 in *.
  destruct (align_up_ok (next b) k) as (r & -> & Hr & Hmod); [lia|lia|unfold u64_max; lia|].
  cbn [mbind outcome_bind]. unfold checked_add. rewrite (proj2 (Z.leb_le _ _)) by (unfold u64_max; lia).
  destruct (Z.ltb_spec (heap_end b) (r + size l)); [exists 0, b; by split_and!|].
  pose proof (count_le_sum live Hl). rewrite u64_add_returns by (unfold u64_max; lia). cbn [mbind outcome_bind].
  do 2 eexists. split; [done|]. split_and!; try done.
  rewrite (proj2 (Z.eqb_neq _ _)) by lia. split; cbn [heap_start heap_end next allocations length].
  - lia.
  - lia.
  - by constructor; [cbn; lia|].
  - constructor; [|eapply Forall_impl; [exact Hb|]; intros x; apply block_ok_grow; lia].
    unfold block_ok, inside, range_of. cbn. rewrite Hal. split_and!; [lia|done|lia|lia].
  - cbn [fmap list_fmap pairwise]. split; [|done]. apply Forall_fmap. eapply Forall_impl; [exact Hb|].
    intros x (_ & _ & Hin). unfold apart_r, apart, inside, range_of in *. cbn in *. lia.
  - cbn in *. lia.
Qed.

Lemma bump_dealloc_inv b live p l : bump_inv b ((p, l) :: live) ->
  exists b', bump_dealloc b p l = Ok b' /\ heap_start b' = heap_start b /\ heap_end b' = heap_end b /\
    bump_inv b' live.
Proof.
  intros [(Hs & Hn & He) Hc Hl Hb [_ Hd] Hsum]. cbn [length] in Hc.
  apply Forall_cons in Hl as [Hl1 Hl]. apply Forall_cons in Hb as [_ Hb]. cbn in Hl1, Hsum.
  unfold bump_dealloc. rewrite (proj2 (u64_sub_ok _ _ (allocations b - 1))) by (split; [reflexivity|lia]).
  cbn [mbind outcome_bind]. eexists. split; [done|]. split_and!; try done.
  destruct (Z.eqb_spec (allocations b - 1) 0) as [H0|H0].
  - assert (live = []) as -> by (destruct live; [done|cbn in Hc; lia]).
    split; cbn in *; try done; lia.
  - split; cbn in *; try done; lia.
Qed.

#[global, refine] Instance bump_allocator : HeapAllocator BumpAllocator := {
  ha_alloc := bump_alloc;
  ha_dealloc := bump_dealloc;
  ha_heap b := (heap_start b, heap_end b - heap_start b);
  ha_inv := bump_inv;
}.
Proof.
  - intros b live [(_ & Hn & _) _ _ Hb Hd _]. split; [|done].
    eapply Forall_impl; [exact Hb|]. intros x. apply block_ok_grow. lia.
  - intros b live [(_ & _ & He) _ _ _ _ _]. change (2 ^ 61) with 2305843009213693952 in He. unfold u64_max. cbn. lia.
  - intros b live l Hi Hl. destruct (bump_alloc_inv b live l Hi Hl) as (p & b' & E & Hs & He & Hi').
    exists p, b'. by rewrite Hs, He.
  - intros b live p l Hi _. destruct (bump_dealloc_inv b live p l Hi) as (b' & E & Hs & He & Hi').
    exists b'. by rewrite Hs, He.
Defined.

(** The bump allocator from its [init] on. *)
Theorem bump_blocks_disjoint start sz ops : 0 < start -> 0 <= sz -> start + sz <= 2 ^ 61 ->
  Forall op_layout_ok ops ->
  exists b b' live, bump_init bump_new start sz = Ok b /\ heap_run ops b [] = Ok (b', live) /\
    Forall (block_ok (start, sz)) live /\ pairwise (range_of <$> live).
Proof.
  intros H0 Hs He Hops. exists (mk_bump start (start + sz) start 0).
  assert (Hi : ha_inv (mk_bump start (start + sz) start 0) []) by (split; cbn; (done || lia)).
  destruct (heap_run_disjoint _ ops Hi Hops) as (b' & live & Hr & Hb & Hd).
  exists b', live. split_and!; [|done| |done].
  - unfold bump_init. by rewrite u64_add_returns by (unfold u64_max; lia).
  - cbn in Hb. by replace (start + sz - start) with sz in Hb by lia.
Qed.
