(* ===== verification/LinkedList.v ===== *)
(** * The free-list allocator (src/allocator/linked_list.rs)

    Free regions are kept in a singly linked list whose nodes live in the regions
    themselves; the model keeps the list of (address, size) in list order.  On a
    64-bit target a [ListNode] is 16 bytes, 8-aligned. *)

From S2P Require Import Prelude Alloc.

Definition NODE_SIZE : Z := 16.
Definition NODE_ALIGN : Z := 8.

(** [ListNode]: its address and its [size] field. *)
Record ListNode := mk_node {
  start_addr : Z;
  node_size : Z;
}.

Definition end_addr (r : ListNode) : outcome Z := start_addr r +! node_size r.

(** [LinkedListAllocator]: the nodes behind the dummy head. *)
Definition LinkedListAllocator : Type := list ListNode.

Definition list_new : LinkedListAllocator := [].

Definition add_free_region (a : LinkedListAllocator) (addr sz : Z) : outcome LinkedListAllocator :=
  up ← align_up addr NODE_ALIGN;
  _ ← assert_ (up =? addr);
  _ ← assert_ (NODE_SIZE <=? sz);
  Ok (mk_node addr sz :: a).

Definition list_init (a : LinkedListAllocator) (start sz : Z) : outcome LinkedListAllocator :=
  add_free_region a start sz.

(** [Err(())] is [None]. *)
Definition alloc_from_region (r : ListNode) (sz al : Z) : outcome (option Z) :=
  alloc_start ← align_up (start_addr r) al;
  match checked_add alloc_start sz with
  | None => Ok None
  | Some alloc_end =>
      e ← end_addr r;
      if e <? alloc_end then Ok None else
      e ← end_addr r;
      excess ← e -! alloc_end;
      if (0 <? excess) && (excess <? NODE_SIZE) then Ok None else Ok (Some alloc_start)
  end.

(** The first region that fits is unlinked; the rest keeps its order. *)
Fixpoint find_region (a : LinkedListAllocator) (sz al : Z)
    : outcome (option (ListNode * Z) * LinkedListAllocator) :=
  match a with
  | [] => Ok (None, [])
  | region :: a' =>
      fit ← alloc_from_region region sz al;
      match fit with
      | Some alloc_start => Ok (Some (region, alloc_start), a')
      | None => '(found, a') ← find_region a' sz al; Ok (found, region :: a')
      end
  end.

(** [layout.align_to(8).expect(..).pad_to_align()], then at least a node. *)
Definition size_align (l : Layout) : outcome (Z * Z) :=
  let al := Z.max (align l) NODE_ALIGN in
  l ← expect (from_size_align (size l) al);
  padded ← align_up (size l) (align l);
  Ok (Z.max padded NODE_SIZE, align l).

Definition list_alloc (a : LinkedListAllocator) (l : Layout) : outcome (Z * LinkedListAllocator) :=
  '(sz, al) ← size_align l;
  '(found, a) ← find_region a sz al;
  match found with
  | Some (region, alloc_start) =>
      alloc_end ← expect (checked_add alloc_start sz);
      e ← end_addr region;
      excess ← e -! alloc_end;
      a ← (if 0 <? excess then add_free_region a alloc_end excess else Ok a);
      Ok (alloc_start, a)
  | None => Ok (0, a)
  end.

Definition list_dealloc (a : LinkedListAllocator) (ptr : Z) (l : Layout) : outcome LinkedListAllocator :=
  '(sz, _) ← size_align l;
  add_free_region a ptr sz.

(** ** Sizes as the allocator sees them *)

(** What [size_align] returns for a layout it accepts. *)
Definition foot (l : Layout) : Z :=
  let al := Z.max (align l) NODE_ALIGN in
  Z.max ((size l + al - 1) / al * al) NODE_SIZE.

Lemma pow2_ok k : 0 <= k <= 61 -> is_pow2 (2 ^ k) = true.
Proof.
  intros Hk. unfold is_pow2. pose proof (Z.pow_pos_nonneg 2 k).
  replace (2 ^ k - 1) with (Z.ones k) by (rewrite Z.ones_equiv; lia).
  rewrite Z.land_ones, Z_mod_same_full by lia. rewrite andb_true_iff. lia.
Qed.

Lemma max_pow2 k : 0 <= k <= 61 -> exists j, 3 <= j <= 61 /\ Z.max (2 ^ k) NODE_ALIGN = 2 ^ j /\ k <= j.
Proof.
  intros Hk. destruct (Z.le_gt_cases k 3).
  - exists 3. split; [lia|]. split; [|lia]. unfold NODE_ALIGN.
    assert (2 ^ k <= 2 ^ 3) by (apply Z.pow_le_mono_r; lia). change (2 ^ 3) with 8 in *. lia.
  - exists k. split; [lia|]. split; [|lia]. unfold NODE_ALIGN.
    assert (2 ^ 3 <= 2 ^ k) by (apply Z.pow_le_mono_r; lia). change (2 ^ 3) with 8 in *. lia.
Qed.

Lemma round_up_unique a P r : 0 < P -> a <= r < a + P -> r mod P = 0 -> r = (a + P - 1) / P * P.
Proof.
  intros HP Hr Hm. apply Z.mod_divide in Hm as [q ->]; [|lia]. f_equal.
  apply Z.div_unique_pos with (r := a + P - 1 - q * P); nia.
Qed.

Lemma size_align_ok l : layout_ok l ->
  exists j, 3 <= j <= 61 /\ size_align l = Ok (foot l, 2 ^ j) /\ (align l | 2 ^ j) /\
    foot l mod 8 = 0 /\ 16 <= foot l <= 2 ^ 62 /\ size l <= foot l.
Proof.
  intros (Hsz & k & Hk & Hal). destruct (max_pow2 k Hk) as (j & Hj & Hmax & Hkj).
  exists j. split; [done|]. unfold size_align, foot. rewrite Hal, Hmax.
  assert (Hj8 : 2 ^ j = 2 ^ (j - 3) * 8) by (change 8 with (2 ^ 3); rewrite <- Z.pow_add_r by lia; f_equal; lia).
  assert (Hjb : 8 <= 2 ^ j <= 2 ^ 61).
  { split; [change 8 with (2 ^ 3)|]; apply Z.pow_le_mono_r; lia. }
  change (2 ^ 61) with 2305843009213693952 in *. change (2 ^ 62) with 4611686018427387904.
  unfold from_size_align. rewrite (pow2_ok j) by lia.
  rewrite (proj2 (Z.leb_le _ _)) by (unfold ISIZE_MAX; change (2 ^ 63) with 9223372036854775808; lia).
  cbn [andb expect mbind outcome_bind size align].
  destruct (align_up_ok (size l) j) as (r & -> & Hr & Hmod); [lia|lia|unfold u64_max; lia|].
  cbn [mbind outcome_bind]. rewrite <- (round_up_unique (size l) (2 ^ j) r) by (done || lia).
  unfold NODE_SIZE. split_and!; [done| | |lia..].
  - exists (2 ^ (j - k)). rewrite <- Z.pow_add_r by lia. f_equal. lia.
  - apply Z.mod_divide in Hmod as [q ->]; [|lia]. rewrite Hj8. apply Z.mod_divide; [lia|].
    destruct (Z.max_spec (q * (2 ^ (j - 3) * 8)) 16) as [[_ ->]|[_ ->]]; [by exists 2|].
    exists (q * 2 ^ (j - 3)). lia.
Qed.

(** ** First fit *)

(** Where a block of [sz] bytes aligned to [al] would go in a region; it fits when what is
    left over is nothing or can hold a node. *)
Definition place (r : ListNode) (al : Z) : Z := (start_addr r + al - 1) / al * al.
Definition fits_region (r : ListNode) (sz al : Z) : Prop :=
  let excess := start_addr r + node_size r - (place r al + sz) in
  excess = 0 \/ NODE_SIZE <= excess.

Definition region_ok (r : ListNode) : Prop :=
  0 < start_addr r /\ start_addr r mod 8 = 0 /\ NODE_SIZE <= node_size r /\
  start_addr r + node_size r <= 2 ^ 61.

Lemma alloc_from_region_ok r sz j : region_ok r -> 3 <= j <= 61 -> 16 <= sz <= 2 ^ 62 ->
  start_addr r <= place r (2 ^ j) /\ place r (2 ^ j) mod 2 ^ j = 0 /\
  exists o, alloc_from_region r sz (2 ^ j) = Ok o /\
    match o with
    | Some st => st = place r (2 ^ j) /\ fits_region r sz (2 ^ j)
    | None => ~ fits_region r sz (2 ^ j)
    end.
Proof.
  intros (H0 & H8 & Hs & He) Hj Hsz. unfold alloc_from_region, fits_region, NODE_SIZE in *. cbv zeta.
  assert (Hjb : 0 < 2 ^ j <= 2 ^ 61) by (split; [apply Z.pow_pos_nonneg; lia|apply Z.pow_le_mono_r; lia]).
  change (2 ^ 61) with 2305843009213693952 in *. change (2 ^ 62) with 4611686018427387904 in *.
  destruct (align_up_ok (start_addr r) j) as (st & -> & Hr & Hmod); [lia|lia|unfold u64_max; lia|].
  assert (Hpl : place r (2 ^ j) = st) by (symmetry; apply round_up_unique; [lia|done|done]).
  rewrite Hpl. split; [lia|]. split; [done|]. cbn [mbind outcome_bind].
  unfold checked_add. rewrite (proj2 (Z.leb_le _ _)) by (unfold u64_max; lia).
  unfold end_addr. rewrite u64_add_returns by (unfold u64_max; lia). cbn [mbind outcome_bind].
  destruct (Z.ltb_spec (start_addr r + node_size r) (st + sz)); [eexists; split; [done|]; cbn; lia|].
  rewrite (proj2 (u64_sub_ok _ _ (start_addr r + node_size r - (st + sz)))) by (split; [reflexivity|lia]).
  cbn [mbind outcome_bind].
  destruct ((0 <? _) && (_ <? 16)) eqn:Ex; (eexists; split; [done|]; cbn).
  - apply andb_prop in Ex as [E1 E2]. lia.
  - apply andb_false_iff in Ex. split; [done|]. lia.
Qed.

Lemma find_region_ok a sz j : Forall region_ok a -> 3 <= j <= 61 -> 16 <= sz <= 2 ^ 62 ->
  exists o a', find_region a sz (2 ^ j) = Ok (o, a') /\
    match o with
    | Some (r, st) => exists l1 l2, a = l1 ++ r :: l2 /\ a' = l1 ++ l2 /\
        st = place r (2 ^ j) /\ fits_region r sz (2 ^ j) /\
        Forall (fun r => ~ fits_region r sz (2 ^ j)) l1
    | None => a' = a /\ Forall (fun r => ~ fits_region r sz (2 ^ j)) a
    end.
Proof.
  intros Ha Hj Hsz. induction Ha as [|r a Hr Ha IH]; cbn [find_region]; [by exists None, []|].
  destruct (alloc_from_region_ok r sz j Hr Hj Hsz) as (_ & _ & o & -> & Ho). cbn [mbind outcome_bind].
  destruct o as [st|].
  - destruct Ho as [-> Hf]. do 2 eexists. split; [done|]. exists [], a. by split_and!.
  - destruct IH as (o & a' & -> & Hrest). cbn [mbind outcome_bind]. do 2 eexists. split; [done|].
    destruct o as [[r' st]|].
    + destruct Hrest as (l1 & l2 & -> & -> & -> & Hf & Hn). exists (r :: l1), l2. split_and!; try done. by constructor.
    + destruct Hrest as [-> Hn]. split; [done|]. by constructor.
Qed.

Lemma add_free_region_ok a addr sz : 0 <= addr <= 2 ^ 61 -> addr mod 8 = 0 -> NODE_SIZE <= sz ->
  add_free_region a addr sz = Ok (mk_node addr sz :: a).
Proof.
  intros Ha H8 Hsz. unfold add_free_region. change NODE_ALIGN with (2 ^ 3).
  change (2 ^ 61) with 2305843009213693952 in *.
  destruct (align_up_ok addr 3) as (r & -> & Hr & Hm); [lia|lia|unfold u64_max; lia|].
  change (2 ^ 3) with 8 in *. assert (r = addr) as -> by (Z.div_mod_to_equations; lia).
  cbn [mbind outcome_bind]. rewrite Z.eqb_refl, (proj2 (Z.leb_le _ _) Hsz). done.
Qed.

(** ** Invariant *)

(** The allocator together with the heap it was initialised with. *)
Record list_heap := mk_list_heap {
  l_free : LinkedListAllocator;
  l_range : Z * Z;
}.

Definition free_range (r : ListNode) : Z * Z := (start_addr r, node_size r).
Definition live_range (b : Z * Layout) : Z * Z := (fst b, foot (snd b)).

Definition live_ok (b : Z * Layout) : Prop :=
  layout_ok (snd b) /\ fst b mod align (snd b) = 0 /\ fst b mod 8 = 0.

(** Free regions and blocks in use tile parts of the heap without overlap. *)
Record list_inv (s : list_heap) (live : list (Z * Layout)) : Prop := {
  li_heap : 0 < fst (l_range s) /\ fst (l_range s) + snd (l_range s) <= 2 ^ 61;
  li_free : Forall region_ok (l_free s);
  li_live : Forall live_ok live;
  li_inside : Forall (fun x => inside x (l_range s)) ((free_range <$> l_free s) ++ (live_range <$> live));
  li_disjoint : pairwise ((free_range <$> l_free s) ++ (live_range <$> live));
}.

#[global] Instance list_inv_perm s : Proper (Permutation ==> iff) (list_inv s).
Proof.
  assert (H : forall l k, l ≡ₚ k -> list_inv s l -> list_inv s k).
  { intros l k Hp [H1 H2 H3 H4 H5]. rewrite Hp in H3, H4, H5. by split. }
  intros l k Hp. split; apply H; by rewrite Hp.
Qed.

Lemma list_init_inv start sz : 0 < start -> start mod 8 = 0 -> NODE_SIZE <= sz -> start + sz <= 2 ^ 61 ->
  exists a, list_init list_new start sz = Ok a /\ list_inv (mk_list_heap a (start, sz)) [].
Proof.
  intros H0 H8 Hs He. exists [mk_node start sz]. split.
  - apply add_free_region_ok; try done. unfold NODE_SIZE in Hs. lia.
  - split; cbn; [done| |done| |].
    + by repeat constructor.
    + repeat constructor; cbn; lia.
    + done.
Qed.

(** Splitting a region into an allocated part and what is left behind it. *)
Lemma split_inv heap l1 l2 r p l live :
  list_inv (mk_list_heap (l1 ++ r :: l2) heap) live -> live_ok (p, l) ->
  let excess := start_addr r + node_size r - (p + foot l) in
  start_addr r <= p -> 16 <= foot l -> foot l mod 8 = 0 -> excess = 0 \/ NODE_SIZE <= excess ->
  list_inv (mk_list_heap ((if 0 <? excess then [mk_node (p + foot l) excess] else []) ++ l1 ++ l2) heap)
           ((p, l) :: live).
Proof.
  intros [Hh Hf Hl Hin Hd] Hok excess Hp Hft Hf8 Hex. cbn [l_free l_range] in *.
  rewrite <- Permutation_middle in Hf, Hin, Hd. cbn in Hin, Hd.
  apply Forall_cons in Hf as [Hr Hf]. apply Forall_cons in Hin as [Hir Hin].
  assert (Hsub : inside (p, foot l) (free_range r) /\
    (excess <> 0 -> inside (p + foot l, excess) (free_range r))).
  { unfold inside, free_range. cbn. unfold NODE_SIZE in *. lia. }
  destruct Hsub as [Hs1 Hs2].
  assert (Hall : pairwise ((free_range <$> (if 0 <? excess then [mk_node (p + foot l) excess] else [])) ++
    (p, foot l) :: (free_range <$> l1 ++ l2) ++ (live_range <$> live))).
  { pose proof (pairwise_inside _ _ _ Hs1 Hd) as Hd1.
    destruct (Z.ltb_spec 0 excess); [|done]. cbn [fmap list_fmap app pairwise]. split; [|done].
    constructor; [|eapply Forall_impl; [exact (proj1 Hd)|]; intros z; apply apart_inside, Hs2; lia].
    unfold apart_r, apart, free_range. cbn. lia. }
  assert (Htr : forall x, inside x (free_range r) -> inside x heap).
  { unfold inside in *. lia. }
  split; cbn [l_free l_range].
  - done.
  - apply Forall_app. split; [|done]. destruct (Z.ltb_spec 0 excess); [|done].
    constructor; [|done]. destruct Hr as (Hr0 & Hr8 & Hrs & Hre). destruct Hok as (_ & _ & Hp8).
    unfold region_ok, NODE_SIZE in *. cbn in *. split_and!; [lia| |lia|lia].
    rewrite Zplus_mod, Hp8, Hf8. done.
  - by constructor.
  - rewrite fmap_app, <- app_assoc. cbn [fmap list_fmap]. rewrite <- Permutation_middle. apply Forall_app. split.
    + destruct (Z.ltb_spec 0 excess); [|done]. repeat constructor; apply Htr, Hs2; lia.
    + constructor; [by apply Htr|done].
  - rewrite fmap_app, <- app_assoc. cbn [fmap list_fmap]. by rewrite <- Permutation_middle.
Qed.

(** What an allocation does to the list: nothing, or it takes out the first region that
    fits, and puts back what is left of it. *)
Definition alloc_result (free : LinkedListAllocator) (l : Layout) (al p : Z) (a : LinkedListAllocator) : Prop :=
  find_region free (foot l) al = Ok (None, free) /\ p = 0 /\ a = free \/
  exists l1 r l2, let excess := start_addr r + node_size r - (p + foot l) in
    free = l1 ++ r :: l2 /\ find_region free (foot l) al = Ok (Some (r, p), l1 ++ l2) /\ start_addr r <= p /\
    (excess = 0 \/ NODE_SIZE <= excess) /\ live_ok (p, l) /\ 0 < p /\
    a = (if 0 <? excess then [mk_node (p + foot l) excess] else []) ++ l1 ++ l2.

Lemma list_alloc_spec free l : Forall region_ok free -> layout_ok l ->
  exists j p a, 3 <= j <= 61 /\ 16 <= foot l <= 2 ^ 62 /\ foot l mod 8 = 0 /\ size_align l = Ok (foot l, 2 ^ j) /\
    list_alloc free l = Ok (p, a) /\ alloc_result free l (2 ^ j) p a.
Proof.
  intros Hreg Hl. destruct (size_align_ok l Hl) as (j & Hj & E & Hdiv & Hf8 & Hft & Hsz). exists j.
  unfold list_alloc, alloc_result. rewrite E. cbn [mbind outcome_bind].
  destruct (find_region_ok free (foot l) j Hreg Hj Hft) as (o & a' & -> & Ho). cbn [mbind outcome_bind].
  destruct o as [[r st]|]; [|exists 0, a'; destruct Ho as [-> _]; split; [done|]; split; [done|]; split; [done|]; split; [done|]; split; [done|]; by left].
  destruct Ho as (l1 & l2 & -> & -> & -> & Hfit & _).
  assert (Hr : region_ok r) by (apply Forall_app in Hreg as [_ Hreg]; by apply Forall_cons in Hreg as [? _]).
  destruct (alloc_from_region_ok r (foot l) j Hr Hj Hft) as (Hlo & Hmod & _).
  set (st := place r (2 ^ j)) in *. unfold fits_region in Hfit. fold st in Hfit. cbv zeta in Hfit.
  pose proof Hr as (Hr0 & _ & _ & Hre). change (2 ^ 61) with 2305843009213693952 in *.
  unfold NODE_SIZE in Hfit. unfold checked_add. rewrite (proj2 (Z.leb_le _ _)) by (unfold u64_max; lia).
  cbn [expect mbind outcome_bind]. unfold end_addr. rewrite u64_add_returns by (unfold u64_max; lia).
  cbn [mbind outcome_bind].
  rewrite (proj2 (u64_sub_ok _ _ (start_addr r + node_size r - (st + foot l)))) by (split; [reflexivity|lia]).
  cbn [mbind outcome_bind].
  assert (Hst8 : st mod 8 = 0).
  { apply Z.mod_divide; [lia|]. apply Z.divide_trans with (2 ^ j); [|by apply Z.mod_divide; [lia|]].
    exists (2 ^ (j - 3)). change 8 with (2 ^ 3). rewrite <- Z.pow_add_r by lia. f_equal. lia. }
  assert (Hok : live_ok (st, l)).
  { split_and!; try done. destruct Hl as (_ & k & Hk & Hal). cbn.
    apply Z.mod_divide; [rewrite Hal; lia|]. apply Z.divide_trans with (2 ^ j); [done|by apply Z.mod_divide; [lia|]]. }
  exists st. eexists. split; [done|]. split; [done|]. split; [done|]. split; [done|]. split; [|right; exists l1, r, l2; cbv zeta; split_and!; try done; lia].
  destruct (Z.ltb_spec 0 (start_addr r + node_size r - (st + foot l))) as [Hpos|Hpos]; [|done].
  rewrite add_free_region_ok; [done|lia|by rewrite Zplus_mod, Hst8, Hf8|unfold NODE_SIZE; lia].
Qed.

Lemma list_alloc_inv s live l : list_inv s live -> layout_ok l ->
  exists p a, list_alloc (l_free s) l = Ok (p, a) /\
    list_inv (mk_list_heap a (l_range s)) (if p =? 0 then live else (p, l) :: live).
Proof.
  intros Hi Hl. destruct (list_alloc_spec (l_free s) l (li_free _ _ Hi) Hl) as (j & p & a & _ & Hft & Hf8 & _ & E & H).
  exists p, a. split; [done|]. destruct s as [free heap]. cbn [l_free l_range] in *.
  destruct H as [(_ & -> & ->)|(l1 & r & l2 & -> & _ & Hlo & Hex & Hok & Hp & ->)]; [done|].
  rewrite (proj2 (Z.eqb_neq _ _)) by lia. apply split_inv; (done || lia).
Qed.

Lemma list_dealloc_inv s live p l : list_inv s ((p, l) :: live) ->
  exists a, list_dealloc (l_free s) p l = Ok a /\ list_inv (mk_list_heap a (l_range s)) live.
Proof.
  intros [Hh Hf Hl Hin Hd]. apply Forall_cons in Hl as [(Hlo & Hal & Hp8) Hl]. cbn in Hlo, Hal, Hp8.
  destruct (size_align_ok l Hlo) as (j & Hj & E & _ & Hf8 & Hft & Hsz).
  unfold list_dealloc. rewrite E. cbn [mbind outcome_bind].
  cbn [fmap list_fmap] in Hin, Hd. rewrite <- Permutation_middle in Hin, Hd.
  apply Forall_cons in Hin as [Hip Hin]. unfold live_range in Hip at 1. unfold inside in Hip. cbn in Hip.
  rewrite add_free_region_ok by (unfold NODE_SIZE; lia || done). eexists. split; [done|].
  split; cbn [l_free l_range]; try done.
  - constructor; [|done]. unfold region_ok, NODE_SIZE. cbn. split_and!; try done; lia.
  - constructor; [|done]. unfold inside. cbn. lia.
Qed.

#[global, refine] Instance list_allocator : HeapAllocator list_heap := {
  ha_alloc s l := '(p, a) ← list_alloc (l_free s) l; Ok (p, mk_list_heap a (l_range s));
  ha_dealloc s p l := a ← list_dealloc (l_free s) p l; Ok (mk_list_heap a (l_range s));
  ha_heap := l_range;
  ha_inv := list_inv;
}.
Proof.
  - intros s live [Hh _ Hl Hin Hd]. apply Forall_app in Hin as [_ Hin]. apply pairwise_app in Hd as (_ & Hd & _).
    assert (Hsub : forall b, live_ok b -> inside (range_of b) (live_range b)).
    { intros b (Hlo & _). destruct (size_align_ok _ Hlo) as (j & _ & _ & _ & _ & _ & Hsz).
      unfold inside, range_of, live_range. cbn. lia. }
    split.
    + apply Forall_forall. intros b Hb. pose proof (proj1 (Forall_forall _ _) Hl b Hb) as Hlb.
      pose proof (proj1 (Forall_forall _ _) Hin _ (list_elem_of_fmap_2 live_range _ _ Hb)) as Hib. cbn in Hib.
      specialize (Hsub b Hlb). destruct Hlb as (_ & Hal & _).
      unfold block_ok, inside in *. cbn in *. split_and!; try done; lia.
    + eapply pairwise_shrink; [|exact Hd]. eapply Forall_impl; [exact Hl|exact Hsub].
  - intros s live [[_ He] _ _ _ _]. change (2 ^ 61) with 2305843009213693952 in He. unfold u64_max. lia.
  - intros s live l Hi Hl. destruct (list_alloc_inv s live l Hi Hl) as (p & a & -> & Hi').
    exists p, (mk_list_heap a (l_range s)). done.
  - intros s live p l Hi _. destruct (list_dealloc_inv s live p l Hi) as (a & -> & Hi').
    exists (mk_list_heap a (l_range s)). done.
Defined.

(** First fit finds what there is: the free-list allocator returns null only when no
    free region can take the block, and then its free list is unchanged; otherwise the
    block comes from the first region of the list that can take it. *)
Theorem list_alloc_first_fit s live l j : list_inv s live -> layout_ok l ->
  size_align l = Ok (foot l, 2 ^ j) -> 3 <= j <= 61 ->
  exists p a, list_alloc (l_free s) l = Ok (p, a) /\
    (p = 0 -> a = l_free s /\ Forall (fun r => ~ fits_region r (foot l) (2 ^ j)) (l_free s)) /\
    (p <> 0 -> exists l1 r l2, l_free s = l1 ++ r :: l2 /\ p = place r (2 ^ j) /\
       fits_region r (foot l) (2 ^ j) /\ Forall (fun r => ~ fits_region r (foot l) (2 ^ j)) l1).
Proof.
  intros Hi Hl E Hj. destruct (list_alloc_inv s live l Hi Hl) as (p & a & Ea & _).
  exists p, a. split; [done|]. unfold list_alloc in Ea. rewrite E in Ea. cbn [mbind outcome_bind] in Ea.
  destruct (size_align_ok l Hl) as (_ & _ & _ & _ & _ & Hft & _).
  destruct (find_region_ok (l_free s) (foot l) j (li_free _ _ Hi) Hj Hft) as (o & a' & Ef & Ho).
  rewrite Ef in Ea. cbn [mbind outcome_bind] in Ea. destruct o as [[r st]|].
  - destruct Ho as (l1 & l2 & Hs & -> & -> & Hf & Hn).
    apply bind_ok in Ea as (ae & _ & Ea). apply bind_ok in Ea as (e & _ & Ea).
    apply bind_ok in Ea as (ex & _ & Ea). apply bind_ok in Ea as (a2 & _ & Ea).
    apply ok_pair_inj in Ea as [<- <-]. split; [|intros _; by exists l1, r, l2].
    pose proof (li_free _ _ Hi) as Hreg. rewrite Hs in Hreg. apply Forall_app in Hreg as [_ Hreg].
    apply Forall_cons in Hreg as [Hr _].
    destruct (alloc_from_region_ok r (foot l) j Hr Hj Hft) as (Hlo & _). destruct Hr. lia.
  - apply ok_pair_inj in Ea as [<- <-]. destruct Ho as [-> Hn]. done.
Qed.

(** ** Witnesses *)

Module ListDemo.
Definition heap : list_heap := mk_list_heap [mk_node 0x10000 0x1000] (0x10000, 0x1000).
Lemma heap_inv : list_inv heap [].
Proof.
  destruct (list_init_inv 0x10000 0x1000) as (a & E & Hi); [lia|done|vm_compute; congruence|vm_compute; congruence|].
  injection E as <-. exact Hi.
Qed.
Lemma layout_24 : layout_ok (mk_layout 24 8).
Proof. split; [cbn; lia|]. exists 3. split; [lia|done]. Qed.
End ListDemo.

Lemma list_alloc_first_fit_witness : exists p a,
  list_alloc (l_free ListDemo.heap) (mk_layout 24 8) = Ok (p, a) /\
  (p = 0 -> a = l_free ListDemo.heap /\ Forall (fun r => ~ fits_region r 24 8) (l_free ListDemo.heap)).
Proof.
  destruct (list_alloc_first_fit ListDemo.heap [] (mk_layout 24 8) 3 ListDemo.heap_inv ListDemo.layout_24)
    as (p & a & E & H & _); [reflexivity|lia|].
  exists p, a. split; [exact E|exact H].
Defined.

(** The free-list allocator from its [init] on. *)
Theorem list_blocks_disjoint start sz ops : 0 < start -> start mod 8 = 0 -> NODE_SIZE <= sz ->
  start + sz <= 2 ^ 61 -> Forall op_layout_ok ops ->
  exists a s' live, list_init list_new start sz = Ok a /\
    heap_run ops (mk_list_heap a (start, sz)) [] = Ok (s', live) /\
    Forall (block_ok (start, sz)) live /\ pairwise (range_of <$> live).
Proof.
  intros H0 H8 Hs He Hops. destruct (list_init_inv start sz H0 H8 Hs He) as (a & Ha & Hi).
  destruct (@heap_run_disjoint list_heap list_allocator (mk_list_heap a (start, sz)) ops Hi Hops) as (s' & live & Hr & Hb & Hd).
  by exists a, s', live.
Qed.
