(* ===== verification/FixedBlock.v ===== *)
(** * The global allocator: fixed-size blocks (src/allocator/fixed_size_block.rs)

    One free list per block size; larger requests, and blocks for an empty list, come
    from a fallback heap.  The fallback ([linked_list_allocator::Heap]) is another
    crate's code: it is any [HeapAllocator].  A free list is modelled as the list of
    its block addresses, head first. *)

From S2P Require Import Prelude Alloc LinkedList.

Definition BLOCK_SIZES : list Z := [8; 16; 32; 64; 128; 256; 512; 1024; 2048].

(** [size_of] and [align_of] of the one-pointer [ListNode]. *)
Definition LINK_SIZE : Z := 8.
Definition LINK_ALIGN : Z := 8.

(** [BLOCK_SIZES.iter().position(|&s| s >= required)] *)
Definition list_index (l : Layout) : option nat :=
  let required := Z.max (size l) (align l) in
  fst <$> list_find (fun s => required <= s) BLOCK_SIZES.

Section Blocks.
Context {S : Type} `{!HeapAllocator S}.

Record FixedSizeBlockAllocator := mk_fixed {
  list_heads : list (list Z);
  fallback_allocator : S;
}.

(** [new] with an empty fallback heap. *)
Definition fixed_new (empty : S) : FixedSizeBlockAllocator :=
  mk_fixed (replicate (length BLOCK_SIZES) []) empty.

(** [init] with the fallback's own [init]. *)
Definition fixed_init (heap_init : S -> Z -> Z -> outcome S) (a : FixedSizeBlockAllocator)
    (start sz : Z) : outcome FixedSizeBlockAllocator :=
  f ← heap_init (fallback_allocator a) start sz; Ok (mk_fixed (list_heads a) f).

Definition fallback_alloc (a : FixedSizeBlockAllocator) (l : Layout)
    : outcome (Z * FixedSizeBlockAllocator) :=
  '(p, f) ← ha_alloc (fallback_allocator a) l; Ok (p, mk_fixed (list_heads a) f).

Definition fixed_alloc (a : FixedSizeBlockAllocator) (l : Layout)
    : outcome (Z * FixedSizeBlockAllocator) :=
  match list_index l with
  | Some i =>
      free ← index (list_heads a) i;
      match free with
      | node :: rest =>
          hs ← index_set (list_heads a) i rest;
          Ok (node, mk_fixed hs (fallback_allocator a))
      | [] =>
          block_size ← index BLOCK_SIZES i;
          l ← expect (from_size_align block_size block_size);
          fallback_alloc a l
      end
  | None => fallback_alloc a l
  end.

Definition fixed_dealloc (a : FixedSizeBlockAllocator) (ptr : Z) (l : Layout)
    : outcome FixedSizeBlockAllocator :=
  match list_index l with
  | Some i =>
      bs ← index BLOCK_SIZES i;
      _ ← assert_ (LINK_SIZE <=? bs);
      _ ← assert_ (LINK_ALIGN <=? bs);
      free ← index (list_heads a) i;
      hs ← index_set (list_heads a) i (ptr :: free);
      Ok (mk_fixed hs (fallback_allocator a))
  | None =>
      p ← expect (if ptr =? 0 then None else Some ptr);
      f ← ha_dealloc (fallback_allocator a) p l;
      Ok (mk_fixed (list_heads a) f)
  end.

(** [ptr::copy_nonoverlapping] *)
Definition copy (m : Z -> Z) (src dst n : Z) : Z -> Z :=
  fun x => if (dst <=? x) && (x <? dst + n) then m (src + (x - dst)) else m x.

Definition fixed_realloc (a : FixedSizeBlockAllocator) (m : Z -> Z) (ptr : Z) (l : Layout) (new_size : Z)
    : outcome (Z * FixedSizeBlockAllocator * (Z -> Z)) :=
  match from_size_align new_size (align l) with
  | None => Ok (0, a, m)
  | Some new_layout =>
      '(new_ptr, a) ← fixed_alloc a new_layout;
      if new_ptr =? 0 then Ok (new_ptr, a, m) else
      let m := copy m ptr new_ptr (Z.min (size l) new_size) in
      a ← fixed_dealloc a ptr l;
      Ok (new_ptr, a, m)
  end.

(** ** Invariant *)

(** The layout with which a request is charged to the fallback heap. *)
Definition class_layout (i : nat) : Layout := let bs := default 0 (BLOCK_SIZES !! i) in mk_layout bs bs.
Definition granted (l : Layout) : Layout :=
  match list_index l with Some i => class_layout i | None => l end.

(** The blocks parked in the free lists. *)
Definition parked (hs : list (list Z)) : list (Z * Layout) :=
  concat (imap (fun i ps => (fun p => (p, class_layout i)) <$> ps) hs).

Definition charge (b : Z * Layout) : Z * Layout := (fst b, granted (snd b)).

(** Everything the fallback has handed out is either parked or held by a client. *)
Record fixed_inv (a : FixedSizeBlockAllocator) (live : list (Z * Layout)) : Prop := {
  fi_heads : length (list_heads a) = length BLOCK_SIZES;
  fi_live : Forall (fun b => layout_ok (snd b)) live;
  fi_fallback : ha_inv (fallback_allocator a) (parked (list_heads a) ++ (charge <$> live));
}.

#[global] Instance fixed_inv_perm a : Proper (Permutation ==> iff) (fixed_inv a).
Proof.
  assert (H : forall l k, l ≡ₚ k -> fixed_inv a l -> fixed_inv a k).
  { intros l k Hp [H1 H2 H3]. rewrite Hp in H2, H3. by split. }
  intros l k Hp. split; apply H; by rewrite Hp.
Qed.

(** Taking a block from, or adding one to, a free list. *)
Lemma parked_insert hs i p ps : hs !! i = Some ps ->
  parked (<[i := p :: ps]> hs) ≡ₚ (p, class_layout i) :: parked hs.
Proof.
  intros Hi. unfold parked. rewrite <- (take_drop_middle hs i ps Hi) at 2.
  rewrite insert_take_drop by by eapply lookup_lt_Some.
  rewrite !imap_app, !concat_app. cbn [imap concat]. rewrite Nat.add_0_r, length_take.
  assert (i < length hs)%nat by by eapply lookup_lt_Some.
  replace (i `min` length hs)%nat with i by lia. cbn [fmap list_fmap].
  by rewrite <- app_comm_cons, <- Permutation_middle.
Qed.

Lemma class_ok i bs : BLOCK_SIZES !! i = Some bs ->
  exists k, 3 <= k <= 11 /\ bs = 2 ^ k /\ class_layout i = mk_layout bs bs.
Proof.
  intros Hi. unfold class_layout. rewrite Hi.
  change BLOCK_SIZES with (Z.pow 2 <$> seqZ 3 9) in Hi. rewrite list_lookup_fmap in Hi.
  destruct (seqZ 3 9 !! i) as [k|] eqn:Ek; [|done]. injection Hi as <-.
  apply lookup_seqZ in Ek as [-> Hlt]. exists (3 + Z.of_nat i). split; [lia|done].
Qed.

Lemma class_layout_ok i bs : BLOCK_SIZES !! i = Some bs -> layout_ok (class_layout i).
Proof.
  intros Hi. destruct (class_ok i bs Hi) as (k & Hk & -> & ->).
  assert (2 ^ k <= 2 ^ 61) by (apply Z.pow_le_mono_r; lia). pose proof (Z.pow_pos_nonneg 2 k).
  split; [cbn; lia|]. exists k. split; [lia|done].
Qed.

Lemma list_index_some l i : list_index l = Some i ->
  exists bs, BLOCK_SIZES !! i = Some bs /\ size l <= bs /\ align l <= bs.
Proof.
  unfold list_index. destruct (list_find _ _) as [[j bs]|] eqn:E; [|done]. intros [= <-].
  apply list_find_Some in E as (Hj & Hle & _). exists bs. split; [done|]. lia.
Qed.

Lemma granted_ok l : layout_ok l -> layout_ok (granted l) /\ size l <= size (granted l) /\
  (align l | align (granted l)).
Proof.
  intros Hl. unfold granted. destruct (list_index l) as [i|] eqn:E; [|split_and!; [done|lia|done]].
  destruct (list_index_some l i E) as (bs & Hi & Hs & Ha).
  split; [by eapply class_layout_ok|]. destruct (class_ok i bs Hi) as (k & Hk & -> & ->). cbn. split; [done|].
  destruct Hl as (_ & j & Hj & Hal). rewrite Hal in *.
  assert (j <= k) by (apply (Z.pow_le_mono_r_iff 2); lia).
  exists (2 ^ (k - j)). rewrite <- Z.pow_add_r by lia. f_equal. lia.
Qed.

(** A request met by the fallback heap. *)
Lemma fallback_alloc_inv a live l : fixed_inv a live -> layout_ok l ->
  exists p a', fallback_alloc a (granted l) = Ok (p, a') /\
    ha_heap (fallback_allocator a') = ha_heap (fallback_allocator a) /\
    fixed_inv a' (if p =? 0 then live else (p, l) :: live).
Proof.
  intros [Hh Hl Hf] Hlo. destruct (granted_ok l Hlo) as (Hg & _).
  destruct (ha_alloc_ok _ _ _ Hf Hg) as (p & f & E & Hheap & Hi).
  unfold fallback_alloc. rewrite E. cbn [mbind outcome_bind]. do 2 eexists. split; [done|]. split; [done|].
  destruct (p =? 0); split; cbn; try done.
  - by constructor.
  - by rewrite <- Permutation_middle.
Qed.

Lemma fixed_alloc_inv a live l : fixed_inv a live -> layout_ok l ->
  exists p a', fixed_alloc a l = Ok (p, a') /\
    ha_heap (fallback_allocator a') = ha_heap (fallback_allocator a) /\
    fixed_inv a' (if p =? 0 then live else (p, l) :: live).
Proof.
  intros Hi Hlo. unfold fixed_alloc. destruct (list_index l) as [i|] eqn:El.
  2: { pose proof (fallback_alloc_inv a live l Hi Hlo) as H. unfold granted in H. by rewrite El in H. }
  destruct (list_index_some l i El) as (bs & Hbs & _).
  destruct (class_ok i bs Hbs) as (k & Hk & -> & Hcl). pose proof Hi as [Hh Hl Hf].
  destruct (lookup_lt_is_Some_2 (list_heads a) i) as [free Hfree]; [rewrite Hh; by eapply lookup_lt_Some|].
  unfold index. rewrite Hfree, Hbs. cbn [mbind outcome_bind]. destruct free as [|node rest].
  - unfold from_size_align. rewrite pow2_ok by lia.
    assert (2 ^ k <= 2 ^ 11) by (apply Z.pow_le_mono_r; lia).
    rewrite (proj2 (Z.leb_le _ _)) by (unfold ISIZE_MAX; change (2 ^ 11) with 2048 in *; change (2 ^ 63) with 9223372036854775808; lia).
    cbn [andb expect mbind outcome_bind].
    pose proof (fallback_alloc_inv a live l Hi Hlo) as Hfa. unfold granted in Hfa. by rewrite El, Hcl in Hfa.
  - unfold index_set. rewrite decide_True by by eapply lookup_lt_Some. cbn [mbind outcome_bind].
    do 2 eexists. split; [done|]. split; [done|].
    assert (Hp : parked (list_heads a) ≡ₚ (node, class_layout i) :: parked (<[i := rest]> (list_heads a))).
    { rewrite <- (parked_insert _ i node rest).
      - by rewrite list_insert_insert_eq, list_insert_id.
      - apply list_lookup_insert_eq. by eapply lookup_lt_Some. }
    assert (Hn : node <> 0).
    { rewrite Hp in Hf. apply ha_blocks in Hf as [Hf _]. apply Forall_cons in Hf as [[H0 _] _]. cbn in H0. lia. }
    rewrite (proj2 (Z.eqb_neq _ _) Hn). split; cbn.
    + by rewrite length_insert.
    + by constructor.
    + rewrite <- Permutation_middle. unfold charge at 1. cbn. unfold granted. rewrite El. by rewrite Hp in Hf.
Qed.

Lemma fixed_dealloc_inv a live p l : fixed_inv a ((p, l) :: live) -> layout_ok l ->
  exists a', fixed_dealloc a p l = Ok a' /\
    ha_heap (fallback_allocator a') = ha_heap (fallback_allocator a) /\ fixed_inv a' live.
Proof.
  intros [Hh Hl Hf] Hlo. apply Forall_cons in Hl as [_ Hl]. cbn [fmap list_fmap] in Hf.
  rewrite <- Permutation_middle in Hf. unfold charge in Hf at 1. cbn [fst snd] in Hf.
  unfold fixed_dealloc. unfold granted in Hf at 1. destruct (list_index l) as [i|] eqn:El.
  - destruct (list_index_some l i El) as (bs & Hbs & _). destruct (class_ok i bs Hbs) as (k & Hk & -> & Hcl).
    assert (2 ^ 3 <= 2 ^ k) by (apply Z.pow_le_mono_r; lia). change (2 ^ 3) with 8 in *.
    unfold index. rewrite Hbs. cbn [mbind outcome_bind]. unfold LINK_SIZE, LINK_ALIGN.
    rewrite (proj2 (Z.leb_le 8 _)) by done. cbn [assert_ mbind outcome_bind].
    destruct (lookup_lt_is_Some_2 (list_heads a) i) as [free Hfree]; [rewrite Hh; by eapply lookup_lt_Some|].
    rewrite Hfree. cbn [mbind outcome_bind]. unfold index_set. rewrite decide_True by by eapply lookup_lt_Some.
    cbn [mbind outcome_bind]. eexists. split; [done|]. split; [done|].
    split; cbn [list_heads fallback_allocator].
    + by rewrite length_insert.
    + done.
    + by rewrite parked_insert.
  - assert (Hp : p <> 0).
    { apply ha_blocks in Hf as [Hf _]. apply Forall_cons in Hf as [[H0 _] _]. cbn in H0. lia. }
    rewrite (proj2 (Z.eqb_neq _ _) Hp). cbn [expect mbind outcome_bind].
    destruct (ha_dealloc_ok _ _ _ _ Hf Hlo) as (f & -> & Hheap & Hi). cbn [mbind outcome_bind].
    eexists. split; [done|]. split; [done|]. by split.
Qed.

(** The client's block is the inner part of the block charged to the fallback. *)
Lemma charged_block heap b : layout_ok (snd b) -> block_ok heap (charge b) -> block_ok heap b.
Proof.
  intros Hl (H0 & Hal & Hin). destruct (granted_ok _ Hl) as (Hg & Hs & Hd). unfold charge in *. cbn in *.
  split_and!; [done| |unfold inside, range_of in *; cbn in *; lia].
  destruct Hl as (_ & k & Hk & Ha). destruct Hg as (_ & j & Hj & Ha').
  pose proof (Z.pow_pos_nonneg 2 k). pose proof (Z.pow_pos_nonneg 2 j).
  apply Z.mod_divide; [lia|]. etrans; [exact Hd|]. apply Z.mod_divide; [lia|done].
Qed.

#[global, refine] Instance fixed_allocator : HeapAllocator FixedSizeBlockAllocator := {
  ha_alloc := fixed_alloc;
  ha_dealloc := fixed_dealloc;
  ha_heap a := ha_heap (fallback_allocator a);
  ha_inv := fixed_inv;
}.
Proof.
  - intros a live [Hh Hl Hf]. apply ha_blocks in Hf as [Hb Hd]. rewrite fmap_app in Hd.
    apply Forall_app in Hb as [_ Hb]. apply pairwise_app in Hd as (_ & Hd & _).
    rewrite <- list_fmap_compose in Hd. split.
    + rewrite Forall_fmap in Hb. apply Forall_forall. intros b Hin.
      apply charged_block; [by apply (proj1 (Forall_forall _ _) Hl)|by apply (proj1 (Forall_forall _ _) Hb)].
    + eapply pairwise_shrink; [|exact Hd]. eapply Forall_impl; [exact Hl|]. intros b Hlb. cbn.
      destruct (granted_ok _ Hlb) as (_ & Hs & _). unfold inside, range_of, charge. cbn. lia.
  - intros a live [_ _ Hf]. exact (ha_addresses _ _ Hf).
  - apply fixed_alloc_inv.
  - intros a live p l. apply fixed_dealloc_inv.
Defined.

(** C15. The kernel heap hands out disjoint memory.  Take the global allocator as [init]
    leaves it, over any fallback heap that keeps its own promises from its [init] on:
    whatever clients then allocate and free, nothing panics, and the blocks they hold are
    aligned as asked, inside of the heap, and pairwise disjoint. *)
Theorem kernel_heap_disjoint empty heap_init a start sz ops :
  (exists f, heap_init empty start sz = Ok f /\ ha_heap f = (start, sz) /\ ha_inv f []) ->
  fixed_init heap_init (fixed_new empty) start sz = Ok a ->
  Forall op_layout_ok ops ->
  exists a' live, heap_run ops a [] = Ok (a', live) /\
    Forall (block_ok (start, sz)) live /\ pairwise (range_of <$> live).
Proof.
  intros (f & Hf & Hh & Hi) Ha Hops. unfold fixed_init in Ha. cbn [fallback_allocator fixed_new] in Ha.
  rewrite Hf in Ha. cbn [mbind outcome_bind] in Ha. injection Ha as Ha. subst a. rewrite <- Hh.
  apply (@heap_run_disjoint _ fixed_allocator (mk_fixed (list_heads (fixed_new empty)) f)); [|done]. by split.
Qed.

(** What [realloc] does to the heap and to memory. *)
Lemma realloc_copies a live m ptr l new_size :
  fixed_inv a ((ptr, l) :: live) -> layout_ok l -> layout_ok (mk_layout new_size (align l)) ->
  exists p a' m', fixed_realloc a m ptr l new_size = Ok (p, a', m') /\
    (p = 0 -> fixed_inv a' ((ptr, l) :: live) /\ m' = m) /\
    (p <> 0 -> fixed_inv a' ((p, mk_layout new_size (align l)) :: live) /\
       (forall i, 0 <= i < Z.min (size l) new_size -> m' (p + i) = m (ptr + i)) /\
       (forall b x, b ∈ live -> fst b <= x < fst b + size (snd b) -> m' x = m x)).
Proof.
  intros Hi Hl Hn. unfold fixed_realloc.
  assert (from_size_align new_size (align l) = Some (mk_layout new_size (align l))) as ->.
  { destruct Hn as (Hs & k & Hk & Ha). cbn in *. unfold from_size_align. rewrite Ha, pow2_ok by done.
    assert (2 ^ k <= 2 ^ 61) by (apply Z.pow_le_mono_r; lia). change (2 ^ 61) with 2305843009213693952 in *.
    by rewrite (proj2 (Z.leb_le _ _)) by (unfold ISIZE_MAX; change (2 ^ 63) with 9223372036854775808; lia). }
  destruct (fixed_alloc_inv _ _ _ Hi Hn) as (p & a1 & -> & _ & Hi1). cbn [mbind outcome_bind].
  destruct (Z.eqb_spec p 0) as [->|Hp]; [do 3 eexists; split; [done|]; by split_and!|].
  pose proof (proj2 (ha_blocks _ _ Hi1)) as [Hnew _].
  rewrite Permutation_swap in Hi1. destruct (fixed_dealloc_inv _ _ _ _ Hi1 Hl) as (a2 & -> & _ & Hi2).
  cbn [mbind outcome_bind]. do 3 eexists. split; [done|]. split; [done|]. intros _. split_and!; [done| |].
  - intros i Hii. unfold copy. destruct (Z.leb_spec p (p + i)); [|lia].
    destruct (Z.ltb_spec (p + i) (p + Z.min (size l) new_size)); [|lia]. cbn. f_equal. lia.
  - intros b x Hb Hx. unfold copy.
    cbn [fmap list_fmap] in Hnew. apply Forall_cons in Hnew as [_ Hnew]. rewrite Forall_fmap, Forall_forall in Hnew.
    specialize (Hnew b Hb). unfold apart_r, apart, range_of in Hnew. cbn in Hnew.
    destruct ((p <=? x) && (x <? p + _)) eqn:E; [|done]. apply andb_prop in E as [E1 E2]. lia.
Qed.

(** A block just freed is the next one handed out in its size class, and the heap is then
    as it was before the free. *)
Lemma alloc_after_dealloc a p l a' : is_Some (list_index l) -> fixed_dealloc a p l = Ok a' -> fixed_alloc a' l = Ok (p, a).
Proof.
  intros [i Hi]. unfold fixed_dealloc, fixed_alloc. rewrite Hi. unfold index, index_set. intros H.
  destruct (BLOCK_SIZES !! i) as [bs|]; [|done]. cbn [mbind outcome_bind] in H.
  destruct (LINK_SIZE <=? bs); [|done]. destruct (LINK_ALIGN <=? bs); [|done]. cbn [assert_ mbind outcome_bind] in H.
  destruct (list_heads a !! i) as [free|] eqn:E; [|done]. cbn [mbind outcome_bind] in H.
  pose proof (lookup_lt_Some _ _ _ E) as Hlt. rewrite decide_True in H by done. cbn in H. injection H as <-.
  cbn [list_heads fallback_allocator]. rewrite list_lookup_insert_eq by done. cbn [mbind outcome_bind].
  rewrite decide_True by by rewrite length_insert. cbn [mbind outcome_bind].
  rewrite list_insert_insert_eq, list_insert_id by done. by destruct a.
Qed.

(** [realloc]: it never panics; it either fails and leaves the heap, the old block and
    memory alone, or returns a block of the new size in place of the old one, with the
    first [min(old, new)] bytes copied and the bytes of every other live block
    untouched. *)
Theorem fixed_realloc_copies a live m ptr l new_size :
  fixed_inv a ((ptr, l) :: live) -> layout_ok l -> layout_ok (mk_layout new_size (align l)) ->
  exists p a' m', fixed_realloc a m ptr l new_size = Ok (p, a', m') /\
    (p = 0 -> fixed_inv a' ((ptr, l) :: live) /\ m' = m) /\
    (p <> 0 -> fixed_inv a' ((p, mk_layout new_size (align l)) :: live) /\
       (forall i, 0 <= i < Z.min (size l) new_size -> m' (p + i) = m (ptr + i)) /\
       (forall b x, b ∈ live -> fst b <= x < fst b + size (snd b) -> m' x = m x)).
Proof. apply realloc_copies. Qed.

End Blocks.

(** ** The fallback interface can be implemented *)

Module FixedDemo.

(** A heap of 64 KiB behind the block lists, with the free-list allocator as fallback. *)
Definition empty : list_heap := mk_list_heap [mk_node 0x10000 0x10000] (0x10000, 0x10000).

Lemma empty_inv : list_inv empty [].
Proof.
  destruct (list_init_inv 0x10000 0x10000) as (a & E & Hi); [lia|done|vm_compute; congruence|vm_compute; congruence|].
  injection E as <-. exact Hi.
Qed.

Lemma new_inv : fixed_inv (fixed_new empty) [].
Proof. split; [done|done|exact empty_inv]. Qed.

Definition small : Layout := mk_layout 24 8.
Lemma small_ok n : 1 <= n <= 2 ^ 61 -> layout_ok (mk_layout n 8).
Proof. intros Hn. split; [done|]. exists 3. split; [lia|done]. Qed.

(** One 24-byte block in use. *)
Definition one : FixedSizeBlockAllocator (S := list_heap) :=
  match fixed_alloc (fixed_new empty) small with Ok (_, a) => a | Panic _ => fixed_new empty end.

Lemma one_inv : fixed_inv one [(0x10000, small)].
Proof.
  destruct (fixed_alloc_inv (fixed_new empty) [] small new_inv (small_ok 24 ltac:(lia))) as (p & a & E & _ & Hi).
  assert (Hv : fixed_alloc (fixed_new empty) small = Ok (0x10000, one)) by (vm_compute; reflexivity).
  rewrite E in Hv. injection Hv as -> ->. exact Hi.
Qed.

End FixedDemo.

Lemma fixed_realloc_copies_witness : exists p a' m',
  fixed_realloc FixedDemo.one (fun x => x mod 256) 0x10000 FixedDemo.small 100 = Ok (p, a', m') /\
  (p <> 0 -> forall i, 0 <= i < 24 -> m' (p + i) = (0x10000 + i) mod 256).
Proof.
  destruct (fixed_realloc_copies FixedDemo.one [] (fun x => x mod 256) 0x10000 FixedDemo.small 100
    FixedDemo.one_inv (FixedDemo.small_ok 24 ltac:(lia)) (FixedDemo.small_ok 100 ltac:(lia)))
    as (p & a' & m' & E & _ & H).
  exists p, a', m'. split; [exact E|]. intros Hp. exact (proj1 (proj2 (H Hp))).
Defined.

(** The free-list allocator as fallback of the kernel heap. *)
Definition list_heap_init (h : list_heap) (start sz : Z) : outcome list_heap :=
  a ← list_init (l_free h) start sz; Ok (mk_list_heap a (start, sz)).

Lemma kernel_heap_disjoint_witness : exists a a' live,
  fixed_init list_heap_init (fixed_new (mk_list_heap list_new (0, 0))) HEAP_START HEAP_SIZE = Ok a /\
  heap_run [Alloc (mk_layout 24 8); Alloc (mk_layout 100 8); Free 1; Alloc (mk_layout 17 8)] a [] = Ok (a', live) /\
  pairwise (range_of <$> live).
Proof.
  destruct (list_init_inv HEAP_START HEAP_SIZE) as (f & Hf & Hi);
    [done|done|vm_compute; congruence|vm_compute; congruence|].
  assert (Hx : list_heap_init (mk_list_heap list_new (0, 0)) HEAP_START HEAP_SIZE
    = Ok (mk_list_heap f (HEAP_START, HEAP_SIZE))) by (unfold list_heap_init; cbn [l_free]; by rewrite Hf).
  assert (Ha : fixed_init list_heap_init (fixed_new (mk_list_heap list_new (0, 0))) HEAP_START HEAP_SIZE
    = Ok (mk_fixed (list_heads (fixed_new f)) (mk_list_heap f (HEAP_START, HEAP_SIZE)))).
  { unfold fixed_init. cbn [fallback_allocator fixed_new]. rewrite Hx. done. }
  assert (Hex : exists f, list_heap_init (mk_list_heap list_new (0, 0)) HEAP_START HEAP_SIZE = Ok f /\
    @ha_heap _ list_allocator f = (HEAP_START, HEAP_SIZE) /\ @ha_inv _ list_allocator f []).
  { eexists. split; [exact Hx|]. split; [reflexivity|exact Hi]. }
  destruct (@kernel_heap_disjoint list_heap list_allocator (mk_list_heap list_new (0, 0)) list_heap_init _ HEAP_START HEAP_SIZE
    [Alloc (mk_layout 24 8); Alloc (mk_layout 100 8); Free 1; Alloc (mk_layout 17 8)]
    Hex Ha) as (a' & live & Hr & _ & Hd).
  - repeat (constructor; [first [exact I|apply FixedDemo.small_ok; lia]|]). constructor.
  - eexists _, a', live. split; [exact Ha|]. split; [exact Hr|exact Hd].
Defined.
