(* ===== verification/HeapMem.v ===== *)
(** * A heap that keeps its lists in the memory it owns (src/allocator/)

    The allocators of the kernel have no memory of their own: the nodes of their free
    lists lie in the free blocks.  The class [HeapMemory] says what an operation writes
    there, and the class [MemAllocator] relates an allocator that follows pointers in
    memory to one that is a value.  A client of such an allocator sees independent
    arrays of bytes. *)

From S2P Require Import Prelude Machine Alloc LinkedList FixedBlock.

(** ** Blocks in use keep their bytes *)

Definition keeps (live : list (Z * Layout)) (m m' : memory) : Prop :=
  forall b x, b ∈ live -> fst b <= x < fst b + size (snd b) -> m' x = m x.

Lemma keeps_refl live m : keeps live m m.
Proof. done. Qed.

Lemma keeps_trans live m1 m2 m3 : keeps live m1 m2 -> keeps live m2 m3 -> keeps live m1 m3.
Proof. intros H1 H2 b x Hb Hx. by rewrite (H2 b x), (H1 b x). Qed.

Lemma keeps_tail b live m m' : keeps (b :: live) m m' -> keeps live m m'.
Proof. intros H c x Hc. apply H. by right. Qed.

Lemma keeps_incl live live' m m' : (forall b, b ∈ live' -> b ∈ live) -> keeps live m m' -> keeps live' m m'.
Proof. intros Hs H b x Hb. apply H. by apply Hs. Qed.

(** Only the blocks in use differ: what a client may do to memory. *)
Definition in_blocks (live : list (Z * Layout)) (x : Z) : Prop :=
  exists b, b ∈ live /\ fst b <= x < fst b + size (snd b).
Definition client_writes (live : list (Z * Layout)) (m m' : memory) : Prop :=
  forall x, ~ in_blocks live x -> m' x = m x.

#[export] Hint Resolve keeps_refl : molt.

(** ** What an operation writes *)

Class HeapMemory (S : Type) `{!HeapAllocator S} := {
  hm_alloc : S -> Layout -> memory -> memory;
  hm_dealloc : S -> Z -> Layout -> memory -> memory;
  hm_alloc_keeps s live l m : ha_inv s live -> layout_ok l -> keeps live m (hm_alloc s l m);
  hm_dealloc_keeps s live p l m : ha_inv s ((p, l) :: live) -> keeps live m (hm_dealloc s p l m);
}.

(** ** An allocator on memory

    [ma_rep a m s]: with [a] outside of the heap and its lists in [m], the allocator is in
    the state [s].  Loops over lists in memory take fuel. *)
Class MemAllocator (A S : Type) `{!HeapAllocator S, !HeapMemory S} := {
  ma_alloc : nat -> A -> Layout -> memory -> option (outcome (Z * A * memory));
  ma_dealloc : A -> Z -> Layout -> memory -> outcome (A * memory);
  ma_rep : A -> memory -> S -> Prop;
  ma_fuel : S -> nat;
  ma_rep_client a m s live m' : ha_inv s live -> ma_rep a m s -> client_writes live m m' -> ma_rep a m' s;
  ma_alloc_ok a m s live l p s' : ha_inv s live -> ma_rep a m s -> layout_ok l -> ha_alloc s l = Ok (p, s') ->
    exists a', ma_rep a' (hm_alloc s l m) s' /\
      forall fuel, (ma_fuel s <= fuel)%nat -> ma_alloc fuel a l m = Some (Ok (p, a', hm_alloc s l m));
  ma_dealloc_ok a m s live p l s' : ha_inv s ((p, l) :: live) -> ma_rep a m s -> layout_ok l ->
    ha_dealloc s p l = Ok s' ->
    exists a', ma_dealloc a p l m = Ok (a', hm_dealloc s p l m) /\ ma_rep a' (hm_dealloc s p l m) s';
}.

#[global] Hint Mode HeapMemory ! - : typeclass_instances.
#[global] Hint Mode MemAllocator ! - - - : typeclass_instances.
#[global] Hint Mode MemAllocator - ! - - : typeclass_instances.

(** ** A client *)

(** It allocates, frees, resizes and writes to its [n]-th block. *)
Inductive mem_op :=
  | OAlloc (l : Layout)
  | OFree (n : nat)
  | ORealloc (n : nat) (new_size : Z)
  | OWrite (n : nat) (off v : Z).

Section Client.
Context {A S : Type} `{HS : !HeapAllocator S, HM : !HeapMemory S, HA : !MemAllocator A S}.

Record client := mk_client {
  cl_alloc : A;
  cl_mem : memory;
  cl_blocks : list (Z * Layout);
}.

(** [GlobalAlloc::realloc]; null on failure. *)
Definition mem_realloc (fuel : nat) (a : A) (m : memory) (ptr : Z) (l : Layout) (new_size : Z)
    : option (outcome (Z * A * memory)) :=
  match from_size_align new_size (align l) with
  | None => Some (Ok (0, a, m))
  | Some new_layout =>
      match ma_alloc fuel a new_layout m with
      | None => None
      | Some r => Some (
          '(new_ptr, a, m) ← r;
          if new_ptr =? 0 then Ok (new_ptr, a, m) else
          let m := copy m ptr new_ptr (Z.min (size l) new_size) in
          '(a, m) ← ma_dealloc a ptr l m;
          Ok (new_ptr, a, m))
      end
  end.

(** Requests that name no block, or a byte outside of it, are not made. *)
Definition client_step (fuel : nat) (c : client) (o : mem_op) : option (outcome client) :=
  match o with
  | OAlloc l =>
      match ma_alloc fuel (cl_alloc c) l (cl_mem c) with
      | None => None
      | Some r => Some ('(p, a, m) ← r; Ok (mk_client a m (if p =? 0 then cl_blocks c else (p, l) :: cl_blocks c)))
      end
  | OFree n =>
      match cl_blocks c !! n with
      | None => Some (Ok c)
      | Some (p, l) => Some ('(a, m) ← ma_dealloc (cl_alloc c) p l (cl_mem c); Ok (mk_client a m (delete n (cl_blocks c))))
      end
  | ORealloc n new_size =>
      match cl_blocks c !! n with
      | None => Some (Ok c)
      | Some (p, l) =>
          match mem_realloc fuel (cl_alloc c) (cl_mem c) p l new_size with
          | None => None
          | Some r => Some ('(q, a, m) ← r;
              Ok (mk_client a m (if q =? 0 then cl_blocks c else <[n := (q, mk_layout new_size (align l))]> (cl_blocks c))))
          end
      end
  | OWrite n off v =>
      match cl_blocks c !! n with
      | Some (p, l) =>
          if (0 <=? off) && (off <? size l)
          then Some (Ok (mk_client (cl_alloc c) (fun x => if x =? p + off then v else cl_mem c x) (cl_blocks c)))
          else Some (Ok c)
      | None => Some (Ok c)
      end
  end.

Fixpoint client_run (fuel : nat) (os : list mem_op) (c : client) : option (outcome client) :=
  match os with
  | [] => Some (Ok c)
  | o :: os =>
      match client_step fuel c o with
      | Some (Ok c) => client_run fuel os c
      | r => r
      end
  end.

End Client.

#[global] Arguments client A : clear implicits.

(** ** Independent arrays *)

Abbreviation arrays := (list (Layout * list Z)).

(** A block is new and holds anything, goes away, changes its length but not what remains,
    or has one byte written; nothing else changes. *)
Inductive arr_step : mem_op -> arrays -> arrays -> Prop :=
  | as_alloc l bs t : length bs = Z.to_nat (size l) -> arr_step (OAlloc l) t ((l, bs) :: t)
  | as_null l t : arr_step (OAlloc l) t t
  | as_free n t : arr_step (OFree n) t (delete n t)
  | as_realloc n k l bs bs' t : t !! n = Some (l, bs) -> length bs' = Z.to_nat k ->
      take (Z.to_nat (Z.min (size l) k)) bs' = take (Z.to_nat (Z.min (size l) k)) bs ->
      arr_step (ORealloc n k) t (<[n := (mk_layout k (align l), bs')]> t)
  | as_realloc_null n k t : arr_step (ORealloc n k) t t
  | as_write n off v l bs t : t !! n = Some (l, bs) -> 0 <= off < size l ->
      arr_step (OWrite n off v) t (<[n := (l, <[Z.to_nat off := v]> bs)]> t)
  | as_outside n off v t : (forall l bs, t !! n = Some (l, bs) -> ~ 0 <= off < size l) -> arr_step (OWrite n off v) t t.

Inductive arr_run : list mem_op -> arrays -> arrays -> Prop :=
  | ar_nil t : arr_run [] t t
  | ar_cons o os t t' t'' : arr_step o t t' -> arr_run os t' t'' -> arr_run (o :: os) t t''.

(** ** The client sees independent arrays *)

Definition block_bytes (m : memory) (p n : Z) : list Z := (fun i => m (p + Z.of_nat i)) <$> seq 0 (Z.to_nat n).
Definition block_view (m : memory) (b : Z * Layout) : Layout * list Z := (snd b, block_bytes m (fst b) (size (snd b))).
Definition view (m : memory) (live : list (Z * Layout)) : arrays := block_view m <$> live.

Definition mem_op_ok (o : mem_op) : Prop :=
  match o with
  | OAlloc l => layout_ok l
  | ORealloc _ k => 1 <= k <= 2 ^ 61
  | _ => True
  end.

Lemma bytes_length m p n : length (block_bytes m p n) = Z.to_nat n.
Proof. unfold block_bytes. by rewrite length_fmap, length_seq. Qed.

Lemma bytes_lookup m p n i : (i < Z.to_nat n)%nat -> block_bytes m p n !! i = Some (m (p + Z.of_nat i)).
Proof. intros Hi. unfold block_bytes. by rewrite list_lookup_fmap, lookup_seq_lt. Qed.

Lemma bytes_ext m m' p q n : (forall i, 0 <= i < n -> m' (q + i) = m (p + i)) -> block_bytes m' q n = block_bytes m p n.
Proof. intros H. apply list_fmap_ext. intros i k Hk. apply lookup_seq in Hk as [-> Hk]. apply H. lia. Qed.

Lemma take_bytes m p n k : 0 <= k <= n -> take (Z.to_nat k) (block_bytes m p n) = block_bytes m p k.
Proof. intros Hk. unfold block_bytes. rewrite <- fmap_take, take_seq. do 2 f_equal. lia. Qed.

Lemma keeps_block live m m' b : keeps live m m' -> b ∈ live -> block_view m' b = block_view m b.
Proof. intros H Hb. unfold block_view. f_equal. apply bytes_ext. intros i Hi. apply (H b); [done|lia]. Qed.

Lemma keeps_view live m m' : keeps live m m' -> view m' live = view m live.
Proof. intros H. apply list_fmap_ext. intros i b Hb. eapply keeps_block; [exact H|]. by eapply list_elem_of_lookup_2. Qed.

(** *** Lists without one element *)

Lemma delete_beyond {T} (l : list T) n : l !! n = None -> delete n l = l.
Proof. revert n. induction l as [|x l IH]; intros [|n] H; try done. cbn. f_equal. by apply IH. Qed.

Lemma delete_others {T} (l : list T) n i x : l !! i = Some x -> i <> n -> x ∈ delete n l.
Proof.
  intros Hx Hi. apply list_elem_of_lookup. exists (if decide (i < n)%nat then i else (i - 1)%nat). case_decide.
  - by rewrite list_lookup_delete_lt.
  - rewrite list_lookup_delete_ge by lia. by replace (S (i - 1)) with i by lia.
Qed.

Lemma insert_permutation {T} (l : list T) n x y : l !! n = Some x -> <[n := y]> l ≡ₚ y :: delete n l.
Proof.
  revert n. induction l as [|z l IH]; intros [|n] H; try done. cbn. rewrite (IH n H). apply Permutation_swap.
Qed.

Lemma keeps_perm live live' m m' : live ≡ₚ live' -> keeps live m m' -> keeps live' m m'.
Proof. intros Hp. apply keeps_incl. intros b. by rewrite Hp. Qed.

Lemma realloc_layout_ok l k : layout_ok l -> 1 <= k <= 2 ^ 61 ->
  layout_ok (mk_layout k (align l)) /\ from_size_align k (align l) = Some (mk_layout k (align l)).
Proof.
  intros (Hs & j & Hj & Ha) Hk. split; [split; [cbn; lia|by exists j]|].
  unfold from_size_align. rewrite Ha, pow2_ok by done.
  assert (2 ^ j <= 2 ^ 61) by (apply Z.pow_le_mono_r; lia). change (2 ^ 61) with 2305843009213693952 in *.
  by rewrite (proj2 (Z.leb_le _ _)) by (unfold ISIZE_MAX; change (2 ^ 63) with 9223372036854775808; lia).
Qed.

Section ClientProof.
Context {A S : Type} `{HS : !HeapAllocator S, HM : !HeapMemory S, HA : !MemAllocator A S}.

(** The heap the allocator was set up with. *)
Variable range : Z * Z.

Record client_inv (c : client A) (s : S) : Prop := {
  ci_range : ha_heap s = range;
  ci_inv : ha_inv s (cl_blocks c);
  ci_rep : ma_rep (cl_alloc c) (cl_mem c) s;
  ci_layouts : Forall (fun b => layout_ok (snd b)) (cl_blocks c);
}.

(** A write into a block leaves the other blocks alone. *)
Lemma block_write_keeps s p l live m m' : ha_inv s ((p, l) :: live) ->
  (forall x, x < p \/ p + size l <= x -> m' x = m x) -> keeps live m m'.
Proof.
  intros Hi Hw b x Hb Hx. apply Hw. destruct (ha_blocks s _ Hi) as [_ [Hap _]].
  rewrite Forall_fmap, Forall_forall in Hap. specialize (Hap b Hb). unfold apart_r, apart, range_of in Hap. cbn in Hap. lia.
Qed.

(** It is no business of the heap's either. *)
Lemma block_write_client p l live m m' : (p, l) ∈ live ->
  (forall x, x < p \/ p + size l <= x -> m' x = m x) -> client_writes live m m'.
Proof.
  intros Hb Hw x Hx. apply Hw. destruct (decide (p <= x < p + size l)) as [Hin|]; [|lia].
  exfalso. apply Hx. by exists (p, l).
Qed.

Lemma alloc_step_ok c s l : client_inv c s -> layout_ok l -> exists c' s', client_inv c' s' /\
  arr_step (OAlloc l) (view (cl_mem c) (cl_blocks c)) (view (cl_mem c') (cl_blocks c')) /\
  forall fuel, (ma_fuel s <= fuel)%nat -> client_step fuel c (OAlloc l) = Some (Ok c').
Proof.
  intros [Hg Hi Hr Hl] Hlo. destruct (ha_alloc_ok s _ l Hi Hlo) as (p & s' & E & Hg' & Hi').
  set (m := hm_alloc s l (cl_mem c)).
  assert (Hk : keeps (cl_blocks c) (cl_mem c) m) by by apply hm_alloc_keeps.
  destruct (ma_alloc_ok _ _ s _ l p s' Hi Hr Hlo E) as (a' & Hr' & E').
  exists (mk_client a' m (if p =? 0 then cl_blocks c else (p, l) :: cl_blocks c)), s'. split_and!.
  - split; cbn [cl_blocks cl_alloc cl_mem]; try done; [congruence|]. destruct (p =? 0); [done|by constructor].
  - cbn [cl_blocks cl_mem]. destruct (p =? 0).
    + rewrite (keeps_view _ _ _ Hk). apply as_null.
    + unfold view. cbn [fmap list_fmap]. fold (view m (cl_blocks c)). rewrite (keeps_view _ _ _ Hk). apply as_alloc, bytes_length.
  - intros fuel Hf. cbn [client_step]. by rewrite E'.
Qed.

Lemma free_step_ok c s n : client_inv c s -> exists c' s', client_inv c' s' /\
  arr_step (OFree n) (view (cl_mem c) (cl_blocks c)) (view (cl_mem c') (cl_blocks c')) /\
  forall fuel, client_step fuel c (OFree n) = Some (Ok c').
Proof.
  intros Hc. pose proof Hc as [Hg Hi Hr Hl]. cbn [client_step]. destruct (cl_blocks c !! n) as [[p l]|] eqn:En.
  - pose proof (delete_Permutation _ _ _ En) as Hp. rewrite Hp in Hi, Hl. apply Forall_cons in Hl as [Hlo Hl].
    destruct (ha_dealloc_ok s _ p l Hi Hlo) as (s' & E & Hg' & Hi').
    destruct (ma_dealloc_ok _ _ s _ p l s' Hi Hr Hlo E) as (a' & E' & Hr').
    exists (mk_client a' (hm_dealloc s p l (cl_mem c)) (delete n (cl_blocks c))), s'. split; [split; try done; congruence|]. split.
    + cbn [cl_blocks cl_mem]. rewrite (keeps_view _ _ _ (hm_dealloc_keeps s _ p l (cl_mem c) Hi)).
      unfold view. rewrite list_fmap_delete. apply as_free.
    + intros _. by rewrite E'.
  - exists c, s. split; [done|]. split; [|done].
    assert (Hd : delete n (view (cl_mem c) (cl_blocks c)) = view (cl_mem c) (cl_blocks c)).
    { apply delete_beyond. unfold view. by rewrite list_lookup_fmap, En. }
    rewrite <- Hd at 2. apply as_free.
Qed.

Lemma write_step_ok c s n off v : client_inv c s -> exists c', client_inv c' s /\
  arr_step (OWrite n off v) (view (cl_mem c) (cl_blocks c)) (view (cl_mem c') (cl_blocks c')) /\
  forall fuel, client_step fuel c (OWrite n off v) = Some (Ok c').
Proof.
  intros Hc. pose proof Hc as [Hg Hi Hr Hl]. cbn [client_step]. destruct (cl_blocks c !! n) as [[p l]|] eqn:En.
  2: { exists c. split; [done|]. split; [|done]. apply as_outside. intros l bs. unfold view. by rewrite list_lookup_fmap, En. }
  destruct ((0 <=? off) && (off <? size l)) eqn:Eo.
  2: { exists c. split; [done|]. split; [|done]. apply as_outside. intros l' bs. unfold view. rewrite list_lookup_fmap, En.
       intros [= <- _]. apply andb_false_iff in Eo. lia. }
  apply andb_prop in Eo as [H1 H2]. set (m := fun x => if x =? p + off then v else cl_mem c x).
  assert (Hout : forall x, x < p \/ p + size l <= x -> m x = cl_mem c x).
  { intros x Hx. unfold m. by rewrite (proj2 (Z.eqb_neq _ _)) by lia. }
  pose proof (list_elem_of_lookup_2 _ _ _ En) as Hin.
  exists (mk_client (cl_alloc c) m (cl_blocks c)). split; [|split; [|done]].
  - split; try done. eapply ma_rep_client; [exact Hi|exact Hr|]. by eapply block_write_client.
  - cbn [cl_blocks cl_mem].
    assert (E : view m (cl_blocks c) = <[n := (l, <[Z.to_nat off := v]> (block_bytes (cl_mem c) p (size l)))]> (view (cl_mem c) (cl_blocks c))).
    { apply list_eq. intros i. unfold view. rewrite list_lookup_fmap. destruct (decide (i = n)) as [->|Hin'].
      - rewrite En, list_lookup_insert_eq by (rewrite length_fmap; by eapply lookup_lt_Some). cbn. unfold block_view. cbn [fst snd].
        do 2 f_equal. apply list_eq. intros k. destruct (decide (k = Z.to_nat off)) as [->|Hk].
        + rewrite list_lookup_insert_eq, bytes_lookup by (rewrite ?bytes_length; lia). unfold m. f_equal.
          by rewrite (proj2 (Z.eqb_eq _ _)) by lia.
        + rewrite list_lookup_insert_ne by done. unfold block_bytes. rewrite !list_lookup_fmap.
          destruct (seq _ _ !! k) eqn:Ek; [|done]. apply lookup_seq in Ek as [-> ?]. cbn. f_equal. unfold m.
          by rewrite (proj2 (Z.eqb_neq _ _)) by lia.
      - rewrite list_lookup_insert_ne, list_lookup_fmap by done. destruct (cl_blocks c !! i) as [b|] eqn:Ei; [|done]. cbn. f_equal.
        pose proof (delete_Permutation _ _ _ En) as Hp. rewrite Hp in Hi.
        eapply keeps_block; [by eapply block_write_keeps|by eapply delete_others]. }
    rewrite E. eapply as_write; [unfold view; by rewrite list_lookup_fmap, En|lia].
Qed.

(** The block moves with its bytes; the others stay. *)
Lemma realloc_moves s live p l q l' m : ha_inv s ((q, l') :: (p, l) :: live) ->
  let m2 := copy m p q (Z.min (size l) (size l')) in
  keeps ((p, l) :: live) m m2 /\ client_writes ((q, l') :: (p, l) :: live) m m2 /\
  forall i, 0 <= i < Z.min (size l) (size l') -> m2 (q + i) = m (p + i).
Proof.
  intros Hi m2. assert (Hout : forall x, x < q \/ q + size l' <= x -> m2 x = m x).
  { intros x Hx. unfold m2, copy. destruct ((q <=? x) && (x <? _)) eqn:E; [|done]. apply andb_prop in E as [? ?]. lia. }
  split; [by eapply block_write_keeps|]. split; [eapply block_write_client; [left|done]|].
  intros i Hii. unfold m2, copy. rewrite (proj2 (Z.leb_le _ _)), (proj2 (Z.ltb_lt _ _)) by lia. cbn. f_equal. lia.
Qed.

Lemma realloc_view n live p l q k m m' : live !! n = Some (p, l) ->
  keeps (delete n live) m m' -> 0 <= k -> 0 <= size l -> (forall i, 0 <= i < Z.min (size l) k -> m' (q + i) = m (p + i)) ->
  arr_step (ORealloc n k) (view m live) (view m' (<[n := (q, mk_layout k (align l))]> live)).
Proof.
  intros En Hk Hk0 Hs0 Hcopy.
  assert (E : view m' (<[n := (q, mk_layout k (align l))]> live) = <[n := (mk_layout k (align l), block_bytes m' q k)]> (view m live)).
  { apply list_eq. intros i. unfold view. rewrite list_fmap_insert. cbn [block_view fst snd size].
    destruct (decide (i = n)) as [->|Hi].
    - rewrite !list_lookup_insert_eq; [done|rewrite length_fmap; by eapply lookup_lt_Some..].
    - rewrite !list_lookup_insert_ne, !list_lookup_fmap by done. destruct (live !! i) as [b|] eqn:Ei; [|done]. cbn. f_equal.
      eapply keeps_block; [exact Hk|by eapply delete_others]. }
  rewrite E. eapply (as_realloc n k l (block_bytes m p (size l)) (block_bytes m' q k)).
  - unfold view. by rewrite list_lookup_fmap, En.
  - apply bytes_length.
  - rewrite !take_bytes by lia. by apply bytes_ext.
Qed.

Lemma realloc_step_ok c s n k : client_inv c s -> 1 <= k <= 2 ^ 61 -> exists c' s', client_inv c' s' /\
  arr_step (ORealloc n k) (view (cl_mem c) (cl_blocks c)) (view (cl_mem c') (cl_blocks c')) /\
  forall fuel, (ma_fuel s <= fuel)%nat -> client_step fuel c (ORealloc n k) = Some (Ok c').
Proof.
  intros Hc Hk. pose proof Hc as [Hg Hi Hr Hl]. cbn [client_step]. destruct (cl_blocks c !! n) as [[p l]|] eqn:En.
  2: { exists c, s. split; [done|]. split; [apply as_realloc_null|done]. }
  pose proof (list_elem_of_lookup_2 _ _ _ En) as Hin.
  pose proof (proj1 (Forall_forall _ _) Hl _ Hin) as Hlo. cbn in Hlo.
  destruct (realloc_layout_ok l k Hlo Hk) as [Hlo' Ef]. set (l' := mk_layout k (align l)) in *. unfold mem_realloc. rewrite Ef.
  destruct (ha_alloc_ok s _ l' Hi Hlo') as (q & s1 & E1 & Hg1 & Hi1).
  destruct (ma_alloc_ok _ _ s _ l' q s1 Hi Hr Hlo' E1) as (a1 & Hr1 & Ea).
  set (m1 := hm_alloc s l' (cl_mem c)) in *. assert (Hk1 : keeps (cl_blocks c) (cl_mem c) m1) by by apply hm_alloc_keeps.
  destruct (q =? 0) eqn:Eq.
  { exists (mk_client a1 m1 (cl_blocks c)), s1. split; [split; try done; congruence|]. split.
    - cbn [cl_mem cl_blocks]. rewrite (keeps_view _ _ _ Hk1). apply as_realloc_null.
    - intros fuel Hf. rewrite Ea by done. cbn [mbind outcome_bind]. rewrite Eq. cbn [mbind outcome_bind]. by rewrite Eq. }
  pose proof (delete_Permutation _ _ _ En) as Hp. set (rest := delete n (cl_blocks c)) in *.
  rewrite Hp in Hi1. destruct (realloc_moves s1 rest p l q l' m1 Hi1) as (Hk2 & Hw2 & Hc2). cbn [size l'] in Hk2, Hw2, Hc2.
  set (m2 := copy m1 p q _) in *.
  assert (Hr2 : ma_rep a1 m2 s1) by by eapply ma_rep_client.
  rewrite Permutation_swap in Hi1. destruct (ha_dealloc_ok s1 _ p l Hi1 Hlo) as (s2 & E2 & Hg2 & Hi2).
  destruct (ma_dealloc_ok _ _ s1 _ p l s2 Hi1 Hr2 Hlo E2) as (a2 & Ed & Hr3). set (m3 := hm_dealloc s1 p l m2) in *.
  assert (Hk3 : keeps ((q, l') :: rest) m2 m3) by by apply hm_dealloc_keeps.
  exists (mk_client a2 m3 (<[n := (q, l')]> (cl_blocks c))), s2. split; [|split].
  - split; cbn [cl_blocks cl_alloc cl_mem]; [congruence| |done|by apply Forall_insert].
    by rewrite (insert_permutation _ _ _ _ En).
  - cbn [cl_mem cl_blocks]. apply (realloc_view n _ p l q k); [done| |lia|destruct Hlo; lia|].
    + eapply keeps_trans; [|by eapply keeps_tail]. eapply keeps_trans; [|by eapply keeps_tail].
      eapply keeps_tail. eapply keeps_perm; [exact Hp|done].
    + intros i Hii. rewrite (Hk3 (q, l')); [|left|cbn; lia]. rewrite Hc2 by done. apply (Hk1 (p, l)); [done|cbn; lia].
  - intros fuel Hf. rewrite Ea by done. cbn [mbind outcome_bind]. rewrite Eq. fold m2. rewrite Ed. cbn [mbind outcome_bind]. by rewrite Eq.
Qed.

Lemma client_step_ok c s o : client_inv c s -> mem_op_ok o -> exists c' s', client_inv c' s' /\
  arr_step o (view (cl_mem c) (cl_blocks c)) (view (cl_mem c') (cl_blocks c')) /\
  forall fuel, (ma_fuel s <= fuel)%nat -> client_step fuel c o = Some (Ok c').
Proof.
  intros Hc Ho. destruct o as [l|n|n k|n off v].
  - by apply alloc_step_ok.
  - destruct (free_step_ok c s n Hc) as (c' & s' & ? & ? & ?). exists c', s'. auto.
  - by apply realloc_step_ok.
  - destruct (write_step_ok c s n off v Hc) as (c' & ? & ? & ?). exists c', s. auto.
Qed.

(** Whatever the client does, with enough fuel nothing panics, and its blocks behave as
    independent arrays. *)
Lemma client_run_arrays os c s : client_inv c s -> Forall mem_op_ok os -> exists F c' s', client_inv c' s' /\
  arr_run os (view (cl_mem c) (cl_blocks c)) (view (cl_mem c') (cl_blocks c')) /\
  forall fuel, (F <= fuel)%nat -> client_run fuel os c = Some (Ok c').
Proof.
  intros Hc Ho. revert c s Hc. induction Ho as [|o os Ho _ IH]; intros c s Hc.
  - exists 0%nat, c, s. split; [done|]. split; [constructor|done].
  - destruct (client_step_ok c s o Hc Ho) as (c1 & s1 & Hc1 & Hs & E). destruct (IH c1 s1 Hc1) as (F & c2 & s2 & Hc2 & Hr & E2).
    exists (max (ma_fuel s) F), c2, s2. split; [done|]. split; [by econstructor|].
    intros fuel Hf. cbn [client_run]. rewrite E by lia. apply E2. lia.
Qed.

End ClientProof.
