(* ===== verification/ListMem.v ===== *)
(** * The free-list allocator in memory (src/allocator/linked_list.rs)

    [LinkedListAllocator] as the code has it: a dummy head outside of the heap, and a node
    at the start of each free region, reached through its predecessor's [next].  It
    refines the allocator of LinkedList, whose state is the list of regions. *)

From S2P Require Import Prelude Machine Alloc LinkedList HeapMem.

(** The compiler chooses the order of the two fields of a [ListNode]. *)
Class NodeLayout := {
  size_at : Z;
  next_at : Z;
  node_fields : size_at = 0 /\ next_at = 8 \/ size_at = 8 /\ next_at = 0;
}.

Section ListMem.
Context `{NL : NodeLayout}.

(** ** Operations

    The pointer in [head.next] is the state outside of memory; 0 is [None].  A cursor is
    the dummy head or the address of a node. *)

Definition node_at (m : memory) (a : Z) : ListNode := mk_node a (load64 m (a + size_at)).

Definition next_of (head : Z) (m : memory) (current : option Z) : Z :=
  match current with None => head | Some a => load64 m (a + next_at) end.

Definition set_next (head : Z) (m : memory) (current : option Z) (v : Z) : Z * memory :=
  match current with None => (v, m) | Some a => (head, store64 m (a + next_at) v) end.

(** [node_ptr.write(node)] *)
Definition write_node (m : memory) (addr sz next : Z) : memory :=
  store64 (store64 m (addr + size_at) sz) (addr + next_at) next.

Definition m_add_free_region (head : Z) (m : memory) (addr sz : Z) : outcome (Z * memory) :=
  up ← align_up addr NODE_ALIGN;
  _ ← assert_ (up =? addr);
  _ ← assert_ (NODE_SIZE <=? sz);
  Ok (addr, write_node m addr sz head).

Fixpoint m_find_region (fuel : nat) (current : option Z) (head : Z) (m : memory) (sz al : Z)
    : option (outcome (option (Z * Z) * Z * memory)) :=
  match fuel with
  | O => None
  | S fuel =>
      let region := next_of head m current in
      if region =? 0 then Some (Ok (None, head, m)) else
      match alloc_from_region (node_at m region) sz al with
      | Panic p => Some (Panic p)
      | Ok (Some alloc_start) =>
          let next := load64 m (region + next_at) in
          let m := store64 m (region + next_at) 0 in
          let found := next_of head m current in
          let '(head, m) := set_next head m current 0 in
          if found =? 0 then Some (Panic ExpectFailed) else
          let '(head, m) := set_next head m current next in
          Some (Ok (Some (found, alloc_start), head, m))
      | Ok None => m_find_region fuel (Some region) head m sz al
      end
  end.

Definition m_list_alloc (fuel : nat) (head : Z) (l : Layout) (m : memory) : option (outcome (Z * Z * memory)) :=
  match size_align l with
  | Panic p => Some (Panic p)
  | Ok (sz, al) =>
      match m_find_region fuel None head m sz al with
      | None => None
      | Some r => Some (
          '(found, head, m) ← r;
          match found with
          | Some (region, alloc_start) =>
              alloc_end ← expect (checked_add alloc_start sz);
              e ← end_addr (node_at m region);
              excess ← e -! alloc_end;
              '(head, m) ← (if 0 <? excess then m_add_free_region head m alloc_end excess else Ok (head, m));
              Ok (alloc_start, head, m)
          | None => Ok (0, head, m)
          end)
      end
  end.

Definition m_list_dealloc (head ptr : Z) (l : Layout) (m : memory) : outcome (Z * memory) :=
  '(sz, _) ← size_align l;
  m_add_free_region head m ptr sz.

Definition m_list_init (head : Z) (m : memory) (start sz : Z) : outcome (Z * memory) := m_add_free_region head m start sz.

(** ** What they write, as the list of regions has it *)

Definition first (a : LinkedListAllocator) : Z := match a with [] => 0 | r :: _ => start_addr r end.

Fixpoint unlink_mem (prev : option Z) (a : LinkedListAllocator) (sz al : Z) (m : memory) : memory :=
  match a with
  | [] => m
  | r :: a =>
      match alloc_from_region r sz al with
      | Ok (Some _) =>
          let m := store64 m (start_addr r + next_at) 0 in
          match prev with
          | None => m
          | Some q => store64 (store64 m (q + next_at) 0) (q + next_at) (first a)
          end
      | _ => unlink_mem (Some (start_addr r)) a sz al m
      end
  end.

Definition list_alloc_mem (s : list_heap) (l : Layout) (m : memory) : memory :=
  match size_align l with
  | Panic _ => m
  | Ok (sz, al) =>
      let m := unlink_mem None (l_free s) sz al m in
      match find_region (l_free s) sz al with
      | Ok (Some (r, st), rest) =>
          let excess := start_addr r + node_size r - (st + sz) in
          if 0 <? excess then write_node m (st + sz) excess (first rest) else m
      | _ => m
      end
  end.

Definition list_dealloc_mem (s : list_heap) (p : Z) (l : Layout) (m : memory) : memory :=
  write_node m p (foot l) (first (l_free s)).

(** ** Chains of nodes *)

Fixpoint chain (m : memory) (p : Z) (a : LinkedListAllocator) : Prop :=
  match a with
  | [] => p = 0
  | r :: a => p = start_addr r /\ load64 m (p + size_at) = node_size r /\ chain m (load64 m (p + next_at)) a
  end.

(** A node is the first 16 bytes of its region. *)
Definition node_range (r : ListNode) : Z * Z := (start_addr r, NODE_SIZE).

Lemma chain_first m p a : chain m p a -> p = first a.
Proof. destruct a; [done|]. by intros (? & _). Qed.

Lemma fields_apart : 0 <= size_at <= 8 /\ 0 <= next_at <= 8 /\ (size_at + 8 <= next_at \/ next_at + 8 <= size_at).
Proof. destruct node_fields as [[-> ->]|[-> ->]]; lia. Qed.

Lemma chain_agree m m' p a :
  (forall r x, r ∈ a -> start_addr r <= x < start_addr r + NODE_SIZE -> m' x = m x) -> chain m p a -> chain m' p a.
Proof.
  revert p. induction a as [|r a IH]; intros p H; [done|]. intros (-> & Hs & Hc). pose proof fields_apart as Hf.
  assert (Hld : forall o, 0 <= o <= 8 -> load64 m' (start_addr r + o) = load64 m (start_addr r + o)).
  { intros o Ho. apply load_le_ext. intros x Hx. apply (H r); [left|]. unfold NODE_SIZE. cbn in Hx. lia. }
  cbn [chain]. split; [done|]. rewrite !Hld by lia. split; [done|]. apply IH; [|done]. intros r' x Hr. apply H. by right.
Qed.

Lemma write_node_outside m addr sz next x : x < addr \/ addr + NODE_SIZE <= x -> write_node m addr sz next x = m x.
Proof. intros Hx. pose proof fields_apart. unfold write_node, NODE_SIZE in *. by rewrite !store64_outside by lia. Qed.

Lemma write_node_loads m addr sz next : is_u64 sz -> is_u64 next ->
  load64 (write_node m addr sz next) (addr + size_at) = sz /\ load64 (write_node m addr sz next) (addr + next_at) = next.
Proof.
  intros Hs Hn. pose proof fields_apart. unfold write_node.
  rewrite load64_store64_ne, !load64_store64_eq, !wrap64_small by (done || lia). done.
Qed.

(** ** Finding and unlinking a region *)

(** The field [next] of the node at [q] does not contain [x]. *)
Definition off_next (q x : Z) : Prop := x < q + next_at \/ q + next_at + 8 <= x.

Lemma unlink_mem_outside prev a sz al m x : (forall q, prev = Some q -> off_next q x) ->
  (forall r, r ∈ a -> off_next (start_addr r) x) -> unlink_mem prev a sz al m x = m x.
Proof.
  unfold off_next. revert prev. induction a as [|r a IH]; intros prev Hp Ha; [done|]. cbn [unlink_mem].
  assert (Hr := Ha r (list_elem_of_here _ _)).
  assert (Hrest : unlink_mem (Some (start_addr r)) a sz al m x = m x).
  { apply IH; [by intros q [= <-]|]. intros r' Hr'. apply Ha. by right. }
  destruct (alloc_from_region r sz al) as [[st|]|]; [|done..]. destruct prev as [q|]; [specialize (Hp q eq_refl)|];
    by rewrite !store64_outside by lia.
Qed.

Lemma unlink_mem_load prev a sz al m b : (forall q, prev = Some q -> q + next_at + 8 <= b \/ b + 8 <= q + next_at) ->
  (forall r, r ∈ a -> start_addr r + next_at + 8 <= b \/ b + 8 <= start_addr r + next_at) ->
  load64 (unlink_mem prev a sz al m) b = load64 m b.
Proof.
  intros Hp Ha. apply load_le_ext. intros x Hx. cbn in Hx. apply unlink_mem_outside; unfold off_next.
  - intros q Hq. specialize (Hp q Hq). lia.
  - intros r Hr. specialize (Ha r Hr). lia.
Qed.

Definition node_apart (q : Z) (r : ListNode) : Prop := q + NODE_SIZE <= start_addr r \/ start_addr r + NODE_SIZE <= q.

(** No two nodes overlap. *)
Fixpoint nodes_apart (a : LinkedListAllocator) : Prop :=
  match a with [] => True | r :: a => Forall (node_apart (start_addr r)) a /\ nodes_apart a end.

Lemma first_u64 a : Forall region_ok a -> is_u64 (first a).
Proof.
  destruct 1 as [|r a (H0 & _ & Hs & He) _]; cbn [first]; [unfold is_u64, u64_max; lia|].
  unfold is_u64, u64_max, NODE_SIZE in *. change (2 ^ 61) with 2305843009213693952 in He. lia.
Qed.

(** The search leaves a cursor's own node alone except for its [next]. *)
Definition cursor_apart (current : option Z) (a : LinkedListAllocator) : Prop :=
  match current with None => True | Some q => Forall (node_apart q) a end.

(** The first region fits: it is taken out of the chain. *)
Lemma unlink_first current head m r a : chain m (next_of head m current) (r :: a) -> Forall region_ok (r :: a) ->
  cursor_apart current (r :: a) -> nodes_apart (r :: a) ->
  let m1 := store64 m (start_addr r + next_at) 0 in
  let hm := set_next (fst (set_next head m1 current 0)) (snd (set_next head m1 current 0)) current (first a) in
  next_of head m1 current = start_addr r /\
  snd hm = (match current with None => m1 | Some q => store64 (store64 m1 (q + next_at) 0) (q + next_at) (first a) end) /\
  fst hm = (match current with None => first a | Some _ => head end) /\
  chain (snd hm) (next_of (fst hm) (snd hm) current) a.
Proof.
  intros (Hn & _ & Hc) Hreg Hcur [Hap _] m1 hm. pose proof fields_apart as Hf. apply Forall_cons in Hreg as [_ Hreg].
  assert (Hu := first_u64 _ Hreg). pose proof (chain_first _ _ _ Hc) as Hfirst. rewrite Hn in Hc, Hfirst.
  assert (Hc1 : forall m', (forall x, (forall r', r' ∈ a -> start_addr r' <= x < start_addr r' + NODE_SIZE -> m' x = m x)) -> chain m' (first a) a).
  { intros m' H. rewrite <- Hfirst. eapply chain_agree; [|exact Hc]. intros r' x Hr' Hx. by eapply H. }
  rewrite Forall_forall in Hap. unfold node_apart, NODE_SIZE in *. destruct current as [q|]; cbn [set_next next_of fst snd] in *.
  - apply Forall_cons in Hcur as [Hqr Hqa]. rewrite Forall_forall in Hqa. unfold node_apart, NODE_SIZE in *. split_and!.
    + unfold m1. rewrite load64_store64_ne by lia. exact Hn.
    + done.
    + done.
    + unfold hm. cbn [snd fst]. rewrite load64_store64_eq, wrap64_small by done. apply Hc1. intros x r' Hr' Hx.
      specialize (Hap r' Hr'). specialize (Hqa r' Hr'). unfold m1. by rewrite !store64_outside by lia.
  - split_and!; [exact Hn|done|done|]. unfold hm. cbn [snd fst]. apply Hc1. intros x r' Hr' Hx. specialize (Hap r' Hr').
    unfold m1. by rewrite store64_outside by lia.
Qed.

Lemma m_find_region_ok a sz j fuel current head m : 3 <= j <= 61 -> 16 <= sz <= 2 ^ 62 -> (length a < fuel)%nat ->
  chain m (next_of head m current) a -> Forall region_ok a -> cursor_apart current a -> nodes_apart a ->
  let m' := unlink_mem current a sz (2 ^ j) m in
  exists o a' head', find_region a sz (2 ^ j) = Ok (o, a') /\
    m_find_region fuel current head m sz (2 ^ j) = Some (Ok ((fun p => (start_addr (fst p), snd p)) <$> o, head', m')) /\
    head' = (match current with None => first a' | Some _ => head end) /\ chain m' (next_of head' m' current) a'.
Proof.
  intros Hj Hsz. revert fuel current head m. induction a as [|r a IH]; intros fuel current head m Hf Hc Hreg Hcur Hap;
    (destruct fuel as [|fuel]; [cbn in Hf; lia|]); cbn [m_find_region find_region unlink_mem].
  - cbn in Hc. rewrite Hc. exists None, [], head. split_and!; try done. by destruct current; cbn in *.
  - pose proof Hc as (Hn & Hs & Hc'). pose proof Hreg as [Hr Hreg']%Forall_cons. pose proof fields_apart as Hfa.
    assert (H0 : start_addr r <> 0) by (destruct Hr; lia).
    rewrite Hn. rewrite (proj2 (Z.eqb_neq _ _)) by done.
    assert (node_at m (start_addr r) = r) as -> by (unfold node_at; rewrite <- Hn, Hs, Hn; by destruct r).
    destruct (alloc_from_region_ok r sz j Hr Hj Hsz) as (_ & _ & o & E & _). rewrite E. cbn [mbind outcome_bind].
    destruct o as [st|].
    + destruct (unlink_first current head m r a Hc Hreg Hcur Hap) as (H1 & H2 & H3 & H4).
      rewrite Hn in Hc'. rewrite (chain_first _ _ _ Hc'), H1. rewrite (proj2 (Z.eqb_neq _ _)) by done.
      destruct (set_next head _ current 0) as [h1 m1] eqn:E1. cbn [fst snd] in *.
      destruct (set_next h1 m1 current (first a)) as [h2 m2] eqn:E2. cbn [fst snd] in *. subst h2. rewrite <- H2.
      eexists _, _, _. split_and!; [done|reflexivity|done|done].
    + destruct Hap as [Hra Hap]. cbn in Hf.
      destruct (IH fuel (Some (start_addr r)) head m ltac:(lia)) as (o & a' & head' & -> & E2 & -> & Hc2); [cbn; by rewrite <- Hn|done|done|done|].
      cbn [mbind outcome_bind]. set (m' := unlink_mem _ _ _ _ _) in *.
      exists o, (r :: a'), head. split_and!; [done|exact E2|destruct current; [done|exact Hn]|].
      assert (Hother : forall b, start_addr r + next_at + 8 <= b \/ b + 8 <= start_addr r + next_at ->
        (forall r', r' ∈ a -> start_addr r' + NODE_SIZE <= b \/ b + 8 <= start_addr r') -> load64 m' b = load64 m b).
      { intros b Hb Hb'. apply unlink_mem_load; [by intros q [= <-]|]. intros r' Hr'. specialize (Hb' r' Hr'). unfold NODE_SIZE in *. lia. }
      rewrite Forall_forall in Hra. unfold node_apart, NODE_SIZE in *.
      assert (next_of head m' current = start_addr r) as ->.
      { destruct current as [q|]; [|exact Hn]. cbn [next_of] in *. rewrite <- Hn. apply Forall_cons in Hcur as [Hqr Hqa].
        rewrite Forall_forall in Hqa. unfold node_apart, NODE_SIZE in *. apply Hother; [lia|]. intros r' Hr'. specialize (Hqa r' Hr'). lia. }
      cbn [chain]. split; [done|]. split; [|exact Hc2]. rewrite Hother; [congruence|lia|]. intros r' Hr'. specialize (Hra r' Hr'). lia.
Qed.

(** ** The state in memory *)

Definition list_rep (head : Z) (m : memory) (s : list_heap) : Prop := chain m head (l_free s).

Definition in_free (s : list_heap) (x : Z) : Prop := exists r, r ∈ l_free s /\ start_addr r <= x < start_addr r + node_size r.

(** Free regions are apart from each other and from the blocks in use. *)
Lemma free_apart_regions a l1 r l2 : a = l1 ++ r :: l2 -> pairwise (free_range <$> a) ->
  Forall (fun r' => start_addr r + node_size r <= start_addr r' \/ start_addr r' + node_size r' <= start_addr r) (l1 ++ l2).
Proof.
  intros -> Hd. rewrite <- Permutation_middle in Hd. destruct Hd as [Hd _]. rewrite Forall_fmap in Hd.
  eapply Forall_impl; [exact Hd|]. intros r' H. unfold apart_r, apart, free_range in H. cbn in H. lia.
Qed.

Lemma inv_pairwise s live : list_inv s live -> pairwise (free_range <$> l_free s).
Proof. intros Hi. by apply li_disjoint, pairwise_app in Hi as (? & _). Qed.

Lemma regions_nodes_apart a : Forall region_ok a -> pairwise (free_range <$> a) -> nodes_apart a.
Proof.
  induction 1 as [|r a (_ & _ & Hs & _) Hr IH]; [done|]. intros [Hd Hp]. split; [|by apply IH].
  rewrite Forall_fmap in Hd. rewrite Forall_forall in Hd, Hr |- *. intros r' Hr'. specialize (Hd r' Hr').
  destruct (Hr r' Hr') as (_ & _ & Hs' & _). unfold apart_r, apart, free_range, node_apart in *. cbn in Hd. lia.
Qed.

Lemma inv_not_in_blocks s live x : list_inv s live -> in_free s x -> ~ in_blocks live x.
Proof.
  intros Hi (r & Hr & Hx) (b & Hb & Hxb). pose proof (li_live _ _ Hi) as Hl. rewrite Forall_forall in Hl.
  destruct (Hl b Hb) as (Hlo & _). destruct (size_align_ok _ Hlo) as (_ & _ & _ & _ & _ & _ & Hsz).
  apply li_disjoint, pairwise_app in Hi as (_ & _ & Hd).
  rewrite Forall_fmap, Forall_forall in Hd. specialize (Hd r Hr). cbn in Hd. rewrite Forall_fmap, Forall_forall in Hd.
  specialize (Hd b Hb). unfold apart_r, apart, free_range, live_range in Hd. cbn in Hd. lia.
Qed.

Lemma nodes_apart_elem a r r' : nodes_apart a -> r ∈ a -> r' ∈ a -> r' = r \/ node_apart (start_addr r) r'.
Proof.
  induction a as [|r0 a IH]; [by intros _ ?%elem_of_nil|]. intros [Hd Hp] Hr Hr'. rewrite Forall_forall in Hd.
  apply elem_of_cons in Hr as [->|Hr], Hr' as [->|Hr']; [by left|right; by apply Hd| |by apply IH].
  right. specialize (Hd r Hr). unfold node_apart in *. lia.
Qed.

(** A field [next] is in the free region of its node. *)
Lemma next_in_free s r x : Forall region_ok (l_free s) -> r ∈ l_free s -> ~ in_free s x -> off_next (start_addr r) x.
Proof.
  intros Hreg Hr Hx. rewrite Forall_forall in Hreg. destruct (Hreg r Hr) as (_ & _ & Hs & _). pose proof fields_apart.
  unfold off_next, NODE_SIZE in *. destruct (decide (start_addr r <= x < start_addr r + node_size r)) as [Hin|]; [|lia].
  exfalso. apply Hx. by exists r.
Qed.

(** An allocation writes into free memory only. *)
Lemma list_alloc_mem_outside s l m x : Forall region_ok (l_free s) -> layout_ok l -> ~ in_free s x -> list_alloc_mem s l m x = m x.
Proof.
  intros Hreg Hl Hx. destruct (list_alloc_spec (l_free s) l Hreg Hl) as (j & p & a & _ & Hft & _ & E & _ & H).
  unfold list_alloc_mem. rewrite E.
  assert (Hu : unlink_mem None (l_free s) (foot l) (2 ^ j) m x = m x).
  { apply unlink_mem_outside; [done|]. intros r Hr. by eapply next_in_free. }
  destruct H as [(-> & _)|(l1 & r & l2 & Ef & -> & Hlo & Hex & _)]; [done|].
  destruct (Z.ltb_spec 0 (start_addr r + node_size r - (p + foot l))); [|done]. rewrite write_node_outside; [done|].
  destruct (decide (start_addr r <= x < start_addr r + node_size r)) as [Hin|]; [|unfold NODE_SIZE in *; lia].
  exfalso. apply Hx. exists r. split; [|done]. rewrite Ef. apply elem_of_app. right. left.
Qed.

Lemma m_add_free_region_ok head m addr sz : 0 <= addr <= 2 ^ 61 -> addr mod 8 = 0 -> NODE_SIZE <= sz ->
  m_add_free_region head m addr sz = Ok (addr, write_node m addr sz head).
Proof.
  intros Ha H8 Hs. pose proof (add_free_region_ok [] addr sz Ha H8 Hs) as H. unfold add_free_region in H. unfold m_add_free_region.
  destruct (align_up addr NODE_ALIGN) as [up|]; [|done]. cbn [mbind outcome_bind] in *.
  destruct (up =? addr); [|done]. cbn [assert_ mbind outcome_bind] in *. by destruct (NODE_SIZE <=? sz).
Qed.

(** A new node in front of a chain that it does not touch. *)
Lemma chain_cons m addr sz a : is_u64 sz -> Forall region_ok a -> chain m (first a) a -> Forall (node_apart addr) a ->
  chain (write_node m addr sz (first a)) addr (mk_node addr sz :: a).
Proof.
  intros Hs Hreg Hc Hap. destruct (write_node_loads m addr sz (first a) Hs (first_u64 _ Hreg)) as [H1 H2].
  cbn [chain start_addr node_size]. rewrite H1, H2. split; [done|]. split; [done|]. eapply chain_agree; [|exact Hc].
  intros r x Hr Hx. rewrite Forall_forall in Hap. specialize (Hap r Hr). unfold node_apart in Hap. apply write_node_outside. lia.
Qed.

Lemma chain_size m p a r : chain m p a -> r ∈ a -> load64 m (start_addr r + size_at) = node_size r.
Proof.
  revert p. induction a as [|r0 a IH]; intros p; [by intros _ ?%elem_of_nil|]. intros (-> & Hs & Hc) [->|Hr]%elem_of_cons; [done|].
  by eapply IH.
Qed.

(** Unlinking does not touch the sizes. *)
Lemma unlink_size m p a r sz al : chain m p a -> nodes_apart a -> r ∈ a ->
  load64 (unlink_mem None a sz al m) (start_addr r + size_at) = node_size r.
Proof.
  intros Hc Hap Hr. pose proof fields_apart. rewrite unlink_mem_load; [by eapply chain_size|done|].
  intros r' Hr'. destruct (nodes_apart_elem a r r' Hap Hr Hr') as [->|Hn]; [lia|]. unfold node_apart, NODE_SIZE in Hn. lia.
Qed.

(** The second half of an allocation: what is left of the region goes back. *)
Lemma give_back l1 l2 r p l m : region_ok r -> Forall region_ok (l1 ++ l2) -> pairwise (free_range <$> l1 ++ r :: l2) ->
  start_addr r <= p -> p mod 8 = 0 -> foot l mod 8 = 0 -> 16 <= foot l <= 2 ^ 62 ->
  let excess := start_addr r + node_size r - (p + foot l) in
  excess = 0 \/ NODE_SIZE <= excess -> chain m (first (l1 ++ l2)) (l1 ++ l2) ->
  let a := (if 0 <? excess then [mk_node (p + foot l) excess] else []) ++ l1 ++ l2 in
  let m' := if 0 <? excess then write_node m (p + foot l) excess (first (l1 ++ l2)) else m in
  chain m' (first a) a /\
  (alloc_end ← expect (checked_add p (foot l)); e ← end_addr r; excess ← e -! alloc_end;
   '(head, m) ← (if 0 <? excess then m_add_free_region (first (l1 ++ l2)) m alloc_end excess else Ok (first (l1 ++ l2), m));
   Ok (p, head, m)) = Ok (p, first a, m').
Proof.
  intros (Hr0 & Hr8 & Hrs & Hre) Hreg Hpw Hlo Hp8 Hf8 Hft excess Hex Hc a m'.
  pose proof (free_apart_regions _ _ _ _ eq_refl Hpw) as Hothers. change (2 ^ 61) with 2305843009213693952 in *.
  assert (Hend : excess = start_addr r + node_size r - (p + foot l)) by done. unfold NODE_SIZE in Hrs, Hex. split.
  - unfold a, m'. destruct (Z.ltb_spec 0 excess); [|done]. cbn [app first start_addr]. apply chain_cons; [unfold is_u64, u64_max; lia|done|done|].
    rewrite Forall_forall in Hothers, Hreg |- *. intros r' Hr'. specialize (Hothers r' Hr'). destruct (Hreg r' Hr') as (_ & _ & ? & _).
    unfold node_apart, NODE_SIZE in *. lia.
  - unfold checked_add. unfold NODE_SIZE in *. rewrite (proj2 (Z.leb_le _ _)) by (unfold u64_max; lia). cbn [expect mbind outcome_bind].
    unfold end_addr. rewrite u64_add_returns by (unfold u64_max; lia). cbn [mbind outcome_bind].
    rewrite (proj2 (u64_sub_ok _ _ excess)) by (split; [reflexivity|lia]). cbn [mbind outcome_bind]. unfold a, m'.
    destruct (Z.ltb_spec 0 excess); [|done].
    rewrite m_add_free_region_ok; [done|change (2 ^ 61) with 2305843009213693952; lia|by rewrite Zplus_mod, Hp8, Hf8|unfold NODE_SIZE; lia].
Qed.

Lemma m_list_alloc_ok s live l head m p a : list_inv s live -> list_rep head m s -> layout_ok l ->
  list_alloc (l_free s) l = Ok (p, a) ->
  chain (list_alloc_mem s l m) (first a) a /\
  forall fuel, (length (l_free s) < fuel)%nat -> m_list_alloc fuel head l m = Some (Ok (p, first a, list_alloc_mem s l m)).
Proof.
  intros Hi Hrep Hl E. pose proof (li_free _ _ Hi) as Hreg. pose proof (inv_pairwise _ _ Hi) as Hpw.
  pose proof (regions_nodes_apart _ Hreg Hpw) as Hap.
  destruct (list_alloc_spec (l_free s) l Hreg Hl) as (j & p' & a' & Hj & Hft & Hf8 & Esz & E' & Hres).
  rewrite E in E'. injection E' as <- <-. unfold list_alloc_mem, m_list_alloc. rewrite Esz.
  set (m1 := unlink_mem None (l_free s) (foot l) (2 ^ j) m).
  assert (Hfind : forall fuel, (length (l_free s) < fuel)%nat -> exists o a' head', find_region (l_free s) (foot l) (2 ^ j) = Ok (o, a') /\
    m_find_region fuel None head m (foot l) (2 ^ j) = Some (Ok ((fun q => (start_addr (fst q), snd q)) <$> o, head', m1)) /\
    head' = first a' /\ chain m1 head' a') by (intros fuel Hf; by apply m_find_region_ok).
  destruct Hres as [(Ef & -> & ->)|(l1 & r & l2 & Efree & Ef & Hlo & Hex & (_ & _ & Hp8) & _ & ->)]; rewrite Ef in Hfind |- *;
    destruct (Hfind _ (Nat.lt_succ_diag_r _)) as (o & a' & head' & [= <- <-] & _ & -> & Hc).
  - split; [exact Hc|]. intros fuel Hf. by destruct (Hfind fuel Hf) as (o & a' & head' & [= <- <-] & -> & -> & _).
  - assert (Hin : r ∈ l_free s) by (rewrite Efree; apply elem_of_app; right; left).
    assert (Hn : node_at m1 (start_addr r) = r).
    { unfold node_at, m1. rewrite (unlink_size m head) by done. by destruct r. }
    rewrite Efree in Hreg, Hpw. pose proof Hreg as [Hreg1 [Hr Hreg2]%Forall_cons]%Forall_app.
    destruct (give_back l1 l2 r p l m1 Hr ltac:(by apply Forall_app) Hpw Hlo Hp8 Hf8 Hft Hex Hc) as [Hc' Eg]. split; [exact Hc'|].
    intros fuel Hf. destruct (Hfind fuel Hf) as (o & a' & head' & [= <- <-] & -> & -> & _). cbn [fmap option_fmap option_map fst snd mbind outcome_bind].
    rewrite Hn. f_equal. exact Eg.
Qed.

Lemma m_list_dealloc_ok s live p l head m a : list_inv s ((p, l) :: live) -> list_rep head m s ->
  list_dealloc (l_free s) p l = Ok a ->
  m_list_dealloc head p l m = Ok (first a, list_dealloc_mem s p l m) /\ chain (list_dealloc_mem s p l m) (first a) a.
Proof.
  intros Hi Hrep E. pose proof (li_live _ _ Hi) as [(Hlo & _ & Hp8) _]%Forall_cons. cbn in Hlo, Hp8.
  destruct (list_dealloc_inv s live p l Hi) as (a' & E' & Hi'). rewrite E in E'. injection E' as <-.
  destruct (size_align_ok l Hlo) as (j & Hj & Esz & _ & Hf8 & Hft & _).
  unfold list_dealloc in E. unfold m_list_dealloc, list_dealloc_mem. rewrite Esz in E |- *. cbn [mbind outcome_bind] in *.
  pose proof (li_inside _ _ Hi) as Hin. cbn [fmap list_fmap] in Hin. rewrite <- Permutation_middle in Hin.
  apply Forall_cons in Hin as [Hip _]. pose proof (li_heap _ _ Hi) as Hh. unfold live_range, inside in Hip. cbn in Hip.
  rewrite add_free_region_ok in E by (unfold NODE_SIZE; lia || done). injection E as <-.
  rewrite m_add_free_region_ok by (unfold NODE_SIZE; lia || done). rewrite (chain_first _ _ _ Hrep). split; [done|].
  cbn [first start_addr]. pose proof (li_free _ _ Hi') as Hreg. cbn [l_free] in Hreg.
  pose proof (regions_nodes_apart _ Hreg (inv_pairwise _ _ Hi')) as [Hap _]. apply Forall_cons in Hreg as [_ Hreg].
  unfold list_rep in Hrep. rewrite (chain_first _ _ _ Hrep) in Hrep.
  apply chain_cons; [unfold is_u64, u64_max; change (2 ^ 62) with 4611686018427387904 in Hft; lia|done|done|exact Hap].
Qed.

End ListMem.

(** ** The instances *)

#[global, refine] Instance list_memory `{NodeLayout} : HeapMemory list_heap := {
  hm_alloc := list_alloc_mem;
  hm_dealloc := list_dealloc_mem;
}.
Proof.
  - intros s live l m Hi Hl b x Hb Hx. apply list_alloc_mem_outside; [by eapply li_free|done|].
    intros Hf. eapply inv_not_in_blocks; [exact Hi|exact Hf|]. by exists b.
  - intros s live p l m Hi b x Hb Hx. apply write_node_outside.
    pose proof (li_live _ _ Hi) as Hl. rewrite Forall_forall in Hl.
    destruct (Hl (p, l) (list_elem_of_here _ _)) as (Hlo & _). destruct (Hl b (list_elem_of_further _ _ _ Hb)) as (Hlob & _).
    destruct (size_align_ok _ Hlo) as (_ & _ & _ & _ & _ & Hft & _). destruct (size_align_ok _ Hlob) as (_ & _ & _ & _ & _ & _ & Hszb).
    apply li_disjoint, pairwise_app in Hi as (_ & [Hd _] & _). rewrite Forall_fmap, Forall_forall in Hd. specialize (Hd b Hb).
    unfold compose, apart_r, apart, live_range in Hd. cbn [fst snd] in Hd, Hft. unfold NODE_SIZE. lia.
Defined.

#[global, refine] Instance list_mem_allocator `{NodeLayout} : MemAllocator Z list_heap := {
  ma_alloc := m_list_alloc;
  ma_dealloc := m_list_dealloc;
  ma_rep := list_rep;
  ma_fuel s := S (length (l_free s));
}.
Proof.
  - intros head m s live m' Hi Hr Hw. eapply chain_agree; [|exact Hr]. intros r x Hin Hx. apply Hw.
    eapply inv_not_in_blocks; [exact Hi|]. exists r. split; [done|].
    pose proof (li_free _ _ Hi) as Hreg. rewrite Forall_forall in Hreg. destruct (Hreg r Hin) as (_ & _ & Hs & _). lia.
  - intros head m s live l p s' Hi Hr Hl E. cbn in E. destruct (list_alloc (l_free s) l) as [[q a]|] eqn:Ea; [|done].
    cbn in E. injection E as <- <-. exists (first a). by apply (m_list_alloc_ok s live).
  - intros head m s live p l s' Hi Hr Hl E. cbn in E. destruct (list_dealloc (l_free s) p l) as [a|] eqn:Ea; [|done].
    cbn in E. injection E as <-. exists (first a). by apply (m_list_dealloc_ok s live).
Defined.

Lemma list_init_rep `{NodeLayout} start sz m : 0 < start -> start mod 8 = 0 -> NODE_SIZE <= sz -> start + sz <= 2 ^ 61 ->
  exists head m' s, m_list_init 0 m start sz = Ok (head, m') /\ list_inv s [] /\ list_rep head m' s /\ l_range s = (start, sz).
Proof.
  intros H0 H8 Hs He. unfold NODE_SIZE in Hs. change (2 ^ 61) with 2305843009213693952 in He.
  destruct (list_init_inv start sz) as (a & E & Hi); [done|done|unfold NODE_SIZE; lia|change (2 ^ 61) with 2305843009213693952; lia|].
  unfold m_list_init. rewrite m_add_free_region_ok by (change (2 ^ 61) with 2305843009213693952; unfold NODE_SIZE; lia || done).
  unfold list_init, list_new in E. rewrite add_free_region_ok in E by (change (2 ^ 61) with 2305843009213693952; unfold NODE_SIZE; lia || done).
  injection E as <-. exists start, (write_node m start sz 0), (mk_list_heap [mk_node start sz] (start, sz)).
  split; [done|]. split; [done|]. split; [|done]. apply (chain_cons m start sz []); [unfold is_u64, u64_max; lia|done..].
Qed.
