(* ===== verification/BlockMem.v ===== *)
(** * The kernel's allocator in memory (src/allocator/fixed_size_block.rs)

    [FixedSizeBlockAllocator] as the code has it: one pointer per size class outside of the
    heap, and in each free block the pointer to the next.  It refines the allocator of
    FixedBlock, over any fallback heap that is itself an allocator on memory, and so the
    global allocator gives its clients independent arrays of bytes. *)

From S2P Require Import Prelude Machine Alloc LinkedList FixedBlock HeapMem ListMem.

Section BlockMem.
Context {A S : Type} `{HS : !HeapAllocator S, HM : !HeapMemory S, HA : !MemAllocator A S}.

Abbreviation fixed := (FixedSizeBlockAllocator (S := S)).

(** ** Operations

    0 is [None]; a [ListNode] is the pointer [next]. *)

Record block_heads := mk_heads {
  bm_heads : list Z;
  bm_fallback : A;
}.

Definition m_fallback_alloc (fuel : nat) (a : block_heads) (l : Layout) (m : memory) : option (outcome (Z * block_heads * memory)) :=
  match ma_alloc fuel (bm_fallback a) l m with
  | None => None
  | Some r => Some ('(p, f, m) ← r; Ok (p, mk_heads (bm_heads a) f, m))
  end.

Definition m_fixed_alloc (fuel : nat) (a : block_heads) (l : Layout) (m : memory) : option (outcome (Z * block_heads * memory)) :=
  match list_index l with
  | Some i =>
      match index (bm_heads a) i with
      | Panic e => Some (Panic e)
      | Ok node =>
          if node =? 0 then
            match (block_size ← index BLOCK_SIZES i; expect (from_size_align block_size block_size)) with
            | Panic e => Some (Panic e)
            | Ok l => m_fallback_alloc fuel a l m
            end
          else Some (
            hs ← index_set (bm_heads a) i 0;
            hs ← index_set hs i (load64 m node);
            Ok (node, mk_heads hs (bm_fallback a), store64 m node 0))
      end
  | None => m_fallback_alloc fuel a l m
  end.

Definition m_fixed_dealloc (a : block_heads) (ptr : Z) (l : Layout) (m : memory) : outcome (block_heads * memory) :=
  match list_index l with
  | Some i =>
      bs ← index BLOCK_SIZES i;
      _ ← assert_ (LINK_SIZE <=? bs);
      _ ← assert_ (LINK_ALIGN <=? bs);
      next ← index (bm_heads a) i;
      hs ← index_set (bm_heads a) i 0;
      let m := store64 m ptr next in
      hs ← index_set hs i ptr;
      Ok (mk_heads hs (bm_fallback a), m)
  | None =>
      p ← expect (if ptr =? 0 then None else Some ptr);
      '(f, m) ← ma_dealloc (bm_fallback a) p l m;
      Ok (mk_heads (bm_heads a) f, m)
  end.

(** ** What they write *)

Definition fixed_alloc_mem (s : fixed) (l : Layout) (m : memory) : memory :=
  match (i ← list_index l; list_heads s !! i) with
  | Some (node :: _) => store64 m node 0
  | _ => hm_alloc (fallback_allocator s) (granted l) m
  end.

Definition fixed_dealloc_mem (s : fixed) (p : Z) (l : Layout) (m : memory) : memory :=
  match (i ← list_index l; list_heads s !! i) with
  | Some ps => store64 m p (default 0 (head ps))
  | None => hm_dealloc (fallback_allocator s) p l m
  end.

(** ** Chains of blocks *)

Fixpoint block_chain (m : memory) (p : Z) (ps : list Z) : Prop :=
  match ps with [] => p = 0 | q :: ps => p = q /\ block_chain m (load64 m q) ps end.

Definition block_rep (a : block_heads) (m : memory) (s : fixed) : Prop :=
  Forall2 (block_chain m) (bm_heads a) (list_heads s) /\ ma_rep (bm_fallback a) m (fallback_allocator s).

Lemma block_chain_head m p ps : block_chain m p ps -> p = default 0 (head ps).
Proof. destruct ps; [done|]. by intros [? _]. Qed.

Lemma block_chain_agree m m' p ps : (forall q x, q ∈ ps -> q <= x < q + LINK_SIZE -> m' x = m x) ->
  block_chain m p ps -> block_chain m' p ps.
Proof.
  revert p. induction ps as [|q ps IH]; intros p H; [done|]. intros [-> Hc]. split; [done|].
  assert (load64 m' q = load64 m q) as ->.
  { apply load_le_ext. intros x Hx. apply (H q); [left|exact Hx]. }
  apply IH; [|done]. intros q' x Hq. apply H. by right.
Qed.

Lemma class_size i : (i < length BLOCK_SIZES)%nat -> LINK_SIZE <= size (class_layout i).
Proof.
  intros Hi. destruct (lookup_lt_is_Some_2 BLOCK_SIZES i Hi) as [bs Hb]. destruct (class_ok i bs Hb) as (k & Hk & -> & ->).
  cbn. unfold LINK_SIZE. change 8 with (2 ^ 3). apply Z.pow_le_mono_r; lia.
Qed.

Lemma elem_of_parked hs i ps p : hs !! i = Some ps -> p ∈ ps -> (p, class_layout i) ∈ parked hs.
Proof.
  intros Hi Hp. unfold parked. apply list_elem_of_In, in_concat. exists ((fun p => (p, class_layout i)) <$> ps).
  split; apply list_elem_of_In; [|by apply (list_elem_of_fmap_2 (fun p => (p, class_layout i)))].
  apply list_elem_of_lookup. exists i. by rewrite list_lookup_imap, Hi.
Qed.

(** The chains stay as long as the parked blocks do. *)
Lemma chains_keep heads hs m m' : (length hs <= length BLOCK_SIZES)%nat -> keeps (parked hs) m m' ->
  Forall2 (block_chain m) heads hs -> Forall2 (block_chain m') heads hs.
Proof.
  intros Hlen Hk Hf. apply Forall2_same_length_lookup. split; [by eapply Forall2_length|]. intros i p ps Hp Hps.
  eapply block_chain_agree; [|by eapply (Forall2_lookup_lr _ _ _ i)]. intros q x Hq Hx.
  apply (Hk (q, class_layout i)); [by eapply elem_of_parked|]. cbn [fst snd].
  assert (Hi : (i < length BLOCK_SIZES)%nat) by (apply lookup_lt_Some in Hps; lia). pose proof (class_size i Hi). lia.
Qed.

(** Blocks charged to the fallback contain the clients'. *)
Lemma keeps_charge live m m' : Forall (fun b => layout_ok (snd b)) live -> keeps (charge <$> live) m m' -> keeps live m m'.
Proof.
  intros Hl Hk b x Hb Hx. rewrite Forall_forall in Hl. destruct (granted_ok _ (Hl b Hb)) as (_ & Hs & _).
  apply (Hk (charge b)); [by apply list_elem_of_fmap_2|]. unfold charge. cbn [fst snd]. lia.
Qed.

Lemma in_blocks_charge live x : Forall (fun b => layout_ok (snd b)) live -> in_blocks live x -> in_blocks (charge <$> live) x.
Proof.
  intros Hl (b & Hb & Hx). rewrite Forall_forall in Hl. destruct (granted_ok _ (Hl b Hb)) as (_ & Hs & _).
  exists (charge b). split; [by apply list_elem_of_fmap_2|]. unfold charge. cbn [fst snd]. lia.
Qed.

(** ** Allocation and freeing *)

Lemma parked_pop hs i p rest : hs !! i = Some (p :: rest) -> parked hs ≡ₚ (p, class_layout i) :: parked (<[i := rest]> hs).
Proof.
  intros Hi. rewrite <- (parked_insert _ i p rest).
  - by rewrite list_insert_insert_eq, list_insert_id.
  - apply list_lookup_insert_eq. by eapply lookup_lt_Some.
Qed.

(** An allocation is served from a free list, or by the fallback. *)
Lemma fixed_alloc_cases s live l p s' : fixed_inv s live -> layout_ok l -> fixed_alloc s l = Ok (p, s') ->
  (exists i rest, list_index l = Some i /\ list_heads s !! i = Some (p :: rest) /\
     s' = mk_fixed (<[i := rest]> (list_heads s)) (fallback_allocator s)) \/
  (match (i ← list_index l; list_heads s !! i) with Some (_ :: _) => False | _ => True end /\
   exists f, ha_alloc (fallback_allocator s) (granted l) = Ok (p, f) /\ s' = mk_fixed (list_heads s) f).
Proof.
  intros [Hh _ _] Hl. unfold fixed_alloc, fallback_alloc, granted. destruct (list_index l) as [i|] eqn:El; cbn [mbind option_bind].
  2: { intros H. right. split; [done|]. destruct (ha_alloc _ l) as [[q f]|]; [|done]. cbn in H. injection H as <- <-. by exists f. }
  destruct (list_index_some l i El) as (bs & Hbs & _). destruct (class_ok i bs Hbs) as (k & Hk & -> & ->).
  destruct (lookup_lt_is_Some_2 (list_heads s) i) as [free Hfree]; [rewrite Hh; by eapply lookup_lt_Some|].
  unfold index. rewrite Hfree. cbn [mbind outcome_bind]. destruct free as [|node rest].
  - rewrite Hbs. cbn [mbind outcome_bind]. intros H. right. split; [done|].
    destruct (from_size_align (2 ^ k) (2 ^ k)) as [l'|] eqn:Ef; [|done]. cbn [expect mbind outcome_bind] in H.
    unfold from_size_align in Ef. destruct (_ && _); [|done]. injection Ef as <-.
    destruct (ha_alloc _ _) as [[q f]|]; [|done]. cbn in H. injection H as <- <-. by exists f.
  - unfold index_set. rewrite decide_True by by eapply lookup_lt_Some. cbn. intros [= <- <-]. left. by exists i, rest.
Qed.

(** One word at the start of a block in use by the fallback's client. *)
Lemma word_keeps f p l live m v : ha_inv f ((p, l) :: live) -> LINK_SIZE <= size l ->
  keeps live m (store64 m p v) /\ client_writes ((p, l) :: live) m (store64 m p v).
Proof.
  intros Hi Hs. assert (Hout : forall x, x < p \/ p + size l <= x -> store64 m p v x = m x).
  { intros x Hx. apply store64_outside. unfold LINK_SIZE in Hs. lia. }
  split; [by eapply block_write_keeps|]. eapply block_write_client; [left|done].
Qed.

Lemma fixed_alloc_mem_keeps s live l m : fixed_inv s live -> layout_ok l ->
  keeps (parked (match (i ← list_index l; list_heads s !! i) with
                 | Some (_ :: rest) => <[default 0%nat (list_index l) := rest]> (list_heads s) | _ => list_heads s end) ++ (charge <$> live))
        m (fixed_alloc_mem s l m).
Proof.
  intros [Hh Hl Hf] Hlo. unfold fixed_alloc_mem. destruct (granted_ok l Hlo) as (Hg & _).
  destruct (list_index l) as [i|] eqn:El; cbn [mbind option_bind]; [|by apply hm_alloc_keeps].
  destruct (list_heads s !! i) as [[|node rest]|] eqn:Ei; [by apply hm_alloc_keeps| |by apply hm_alloc_keeps]. cbn [default].
  rewrite (parked_pop _ _ _ _ Ei) in Hf. eapply word_keeps; [exact Hf|]. apply class_size. rewrite <- Hh. by eapply lookup_lt_Some.
Qed.

(** From a free list. *)
Lemma m_fixed_alloc_pop a m s live l p i rest : fixed_inv s live -> block_rep a m s -> layout_ok l ->
  list_index l = Some i -> list_heads s !! i = Some (p :: rest) ->
  exists a', block_rep a' (fixed_alloc_mem s l m) (mk_fixed (<[i := rest]> (list_heads s)) (fallback_allocator s)) /\
    forall fuel, m_fixed_alloc fuel a l m = Some (Ok (p, a', fixed_alloc_mem s l m)).
Proof.
  intros Hi [Hch Hrep] Hl El Ei. pose proof (fixed_alloc_mem_keeps s live l m Hi Hl) as Hk. destruct Hi as [Hh _ Hf].
  unfold fixed_alloc_mem, m_fixed_alloc in *. rewrite El in Hk |- *. cbn [mbind option_bind default] in Hk |- *. rewrite Ei in Hk |- *.
  destruct (Forall2_lookup_r _ _ _ i (p :: rest) Hch Ei) as (node & En & -> & Hc).
  pose proof (parked_pop _ _ _ _ Ei) as Hp. rewrite Hp in Hf. pose proof (lookup_lt_Some _ _ _ En) as Hlt.
  assert (H0 : p <> 0) by (apply ha_blocks in Hf as [Hf _]; apply Forall_cons in Hf as [[H0 _] _]; cbn in H0; lia).
  assert (Hcl : LINK_SIZE <= size (class_layout i)) by (apply class_size; rewrite <- Hh; by eapply lookup_lt_Some).
  exists (mk_heads (<[i := load64 m p]> (bm_heads a)) (bm_fallback a)). split; [split|].
  - cbn [bm_heads list_heads]. eapply chains_keep; [rewrite length_insert; lia|eapply keeps_incl; [|exact Hk]; intros b Hb; apply elem_of_app; by left|].
    by apply Forall2_insert.
  - eapply ma_rep_client; [exact Hf|exact Hrep|]. by eapply word_keeps.
  - intros fuel. unfold index. rewrite En, (proj2 (Z.eqb_neq _ _) H0). unfold index_set. rewrite decide_True by done.
    cbn [mbind outcome_bind]. rewrite decide_True by by rewrite length_insert. cbn [mbind outcome_bind]. by rewrite list_insert_insert_eq.
Qed.

Lemma class_from_size_align i bs : BLOCK_SIZES !! i = Some bs -> from_size_align bs bs = Some (class_layout i).
Proof.
  intros Hb. destruct (class_ok i bs Hb) as (k & Hk & -> & ->). unfold from_size_align. rewrite pow2_ok by lia.
  assert (2 ^ k <= 2 ^ 11) by (apply Z.pow_le_mono_r; lia). change (2 ^ 11) with 2048 in *.
  by rewrite (proj2 (Z.leb_le _ _)) by (unfold ISIZE_MAX; change (2 ^ 63) with 9223372036854775808; lia).
Qed.

(** By the fallback. *)
Lemma m_fixed_alloc_fallback a m s live l p f : fixed_inv s live -> block_rep a m s -> layout_ok l ->
  (match (i ← list_index l; list_heads s !! i) with Some (_ :: _) => False | _ => True end) ->
  ha_alloc (fallback_allocator s) (granted l) = Ok (p, f) ->
  exists a', block_rep a' (fixed_alloc_mem s l m) (mk_fixed (list_heads s) f) /\
    forall fuel, (ma_fuel (fallback_allocator s) <= fuel)%nat -> m_fixed_alloc fuel a l m = Some (Ok (p, a', fixed_alloc_mem s l m)).
Proof.
  intros [Hh Hlive Hf] [Hch Hrep] Hl Hnone Ef.
  destruct (granted_ok l Hl) as (Hg & _). destruct (ma_alloc_ok _ m _ _ _ p f Hf Hrep Hg Ef) as (a1 & Hrep' & Ea).
  exists (mk_heads (bm_heads a) a1).
  assert (Hmem : fixed_alloc_mem s l m = hm_alloc (fallback_allocator s) (granted l) m).
  { unfold fixed_alloc_mem. by destruct (_ ≫= _) as [[|]|]. }
  assert (Hk' : keeps (parked (list_heads s)) m (fixed_alloc_mem s l m)).
  { rewrite Hmem. eapply keeps_incl; [|by apply hm_alloc_keeps]. intros b Hb. apply elem_of_app. by left. }
  split; [split; [cbn [list_heads bm_heads]; eapply chains_keep; [by rewrite Hh|exact Hk'|exact Hch]|by rewrite Hmem]|].
  intros fuel Hfuel. specialize (Ea fuel Hfuel). rewrite Hmem. unfold m_fixed_alloc, m_fallback_alloc. unfold granted in Ea |- *.
  destruct (list_index l) as [i|] eqn:El; [|by rewrite Ea]. cbn [mbind option_bind] in Hnone.
  destruct (list_index_some l i El) as (bs & Hbs & _).
  destruct (lookup_lt_is_Some_2 (list_heads s) i) as [free Hfree]; [rewrite Hh; by eapply lookup_lt_Some|].
  rewrite Hfree in Hnone. destruct free as [|]; [|done]. destruct (Forall2_lookup_r _ _ _ i [] Hch Hfree) as (node & En & ->).
  unfold index. rewrite En, Hbs. cbn [Z.eqb mbind outcome_bind]. rewrite (class_from_size_align i bs Hbs). cbn [expect]. by rewrite Ea.
Qed.

Lemma address_u64 {T} `{!HeapAllocator T} (s : T) live b : ha_inv s live -> b ∈ live -> 0 <= size (snd b) -> is_u64 (fst b).
Proof.
  intros Hi Hb Hs. pose proof (ha_addresses s live Hi) as Ha. destruct (ha_blocks s live Hi) as [Hok _]. rewrite Forall_forall in Hok.
  destruct (Hok b Hb) as (H0 & _ & Hin). unfold inside, range_of in Hin. cbn in Hin. unfold is_u64. lia.
Qed.

Lemma fixed_dealloc_mem_keeps s live p l m : fixed_inv s ((p, l) :: live) ->
  keeps (parked (list_heads s) ++ (charge <$> live)) m (fixed_dealloc_mem s p l m).
Proof.
  intros [Hh _ Hf]. cbn [fmap list_fmap] in Hf. rewrite <- Permutation_middle in Hf. unfold charge in Hf at 1. cbn [fst snd] in Hf.
  unfold granted in Hf at 1. unfold fixed_dealloc_mem.
  destruct (list_index l) as [i|] eqn:El; cbn [mbind option_bind]; [|by apply hm_dealloc_keeps].
  destruct (list_index_some l i El) as (bs & Hbs & _).
  destruct (lookup_lt_is_Some_2 (list_heads s) i) as [free ->]; [rewrite Hh; by eapply lookup_lt_Some|].
  eapply word_keeps; [exact Hf|]. apply class_size. by eapply lookup_lt_Some.
Qed.

(** Freeing: into a free list, or to the fallback. *)
Lemma m_fixed_dealloc_ok a m s live p l s' : fixed_inv s ((p, l) :: live) -> block_rep a m s -> layout_ok l -> fixed_dealloc s p l = Ok s' ->
  exists a', m_fixed_dealloc a p l m = Ok (a', fixed_dealloc_mem s p l m) /\ block_rep a' (fixed_dealloc_mem s p l m) s'.
Proof.
  intros Hi [Hch Hrep] Hl. assert (Hk : keeps (parked (list_heads s)) m (fixed_dealloc_mem s p l m)).
  { eapply keeps_incl; [|by eapply fixed_dealloc_mem_keeps]. intros b Hb. apply elem_of_app. by left. }
  destruct Hi as [Hh _ Hf]. revert Hk. cbn [fmap list_fmap] in Hf.
  rewrite <- Permutation_middle in Hf. unfold charge in Hf at 1. cbn [fst snd] in Hf. unfold granted in Hf at 1.
  unfold fixed_dealloc, m_fixed_dealloc, fixed_dealloc_mem. destruct (list_index l) as [i|] eqn:El; cbn [mbind option_bind]; intros Hk.
  - destruct (list_index_some l i El) as (bs & Hbs & _). unfold index. rewrite Hbs. cbn [mbind outcome_bind].
    destruct (LINK_SIZE <=? bs); [|done]. destruct (LINK_ALIGN <=? bs); [|done]. cbn [assert_ mbind outcome_bind].
    destruct (lookup_lt_is_Some_2 (list_heads s) i) as [free Hfree]; [rewrite Hh; by eapply lookup_lt_Some|].
    destruct (Forall2_lookup_r _ _ _ i free Hch Hfree) as (node & En & Hc). rewrite Hfree in Hk |- *. rewrite En. cbn [mbind outcome_bind].
    pose proof (lookup_lt_Some _ _ _ En) as Hlt. pose proof (lookup_lt_Some _ _ _ Hfree) as Hlt'.
    unfold index_set. rewrite !decide_True by done. cbn [mbind outcome_bind]. rewrite decide_True by by rewrite length_insert.
    cbn [mbind outcome_bind]. intros [= <-]. rewrite list_insert_insert_eq. rewrite <- (block_chain_head _ _ _ Hc) in Hk |- *. set (m' := store64 m p node).
    assert (Hcl : LINK_SIZE <= size (class_layout i)) by (apply class_size; lia).
    destruct (word_keeps _ p (class_layout i) _ m node Hf Hcl) as [_ Hw].
    eexists. split; [done|]. split; cbn [bm_heads list_heads bm_fallback fallback_allocator]; [|by eapply ma_rep_client].
    assert (Hch' : Forall2 (block_chain m') (bm_heads a) (list_heads s)) by (eapply chains_keep; [lia|done|done]).
    assert (Hu : is_u64 node).
    { rewrite (block_chain_head _ _ _ Hc). destruct free as [|q free]; [unfold is_u64, u64_max; cbn; lia|].
      eapply (address_u64 _ _ (q, class_layout i) Hf); [|unfold LINK_SIZE in Hcl; cbn [snd]; lia].
      right. apply elem_of_app. left. eapply elem_of_parked; [exact Hfree|left]. }
    apply Forall2_insert; [done|]. split; [done|]. unfold m' at 2. rewrite load64_store64_eq, wrap64_small by done.
    by eapply (Forall2_lookup_lr _ _ _ i).
  - assert (Hp : p <> 0).
    { apply ha_blocks in Hf as [Hb _]. apply Forall_cons in Hb as [[H0 _] _]. cbn in H0. lia. }
    rewrite (proj2 (Z.eqb_neq _ _) Hp). cbn [expect mbind outcome_bind]. intros E.
    destruct (ha_dealloc (fallback_allocator s) p l) as [f|] eqn:Ef; [|done]. injection E as <-.
    destruct (ma_dealloc_ok _ m _ _ p l f Hf Hrep Hl Ef) as (a1 & -> & Hrep'). cbn [mbind outcome_bind].
    eexists. split; [done|]. split; [|done]. cbn [bm_heads list_heads]. eapply chains_keep; [by rewrite Hh|exact Hk|exact Hch].
Qed.

(** A client's write reaches neither the chains nor the fallback's lists. *)
Lemma block_rep_client a m s live m' : fixed_inv s live -> block_rep a m s -> client_writes live m m' -> block_rep a m' s.
Proof.
  intros [Hh Hl Hf] [Hch Hrep] Hw.
  assert (Hw' : client_writes (parked (list_heads s) ++ (charge <$> live)) m m').
  { intros x Hx. apply Hw. intros Hin. apply Hx. destruct (in_blocks_charge _ _ Hl Hin) as (b & Hb & ?).
    exists b. split; [|done]. apply elem_of_app. by right. }
  split; [|by eapply ma_rep_client]. eapply chains_keep; [by rewrite Hh| |exact Hch]. intros b x Hb Hx. apply Hw.
  intros Hin. destruct (in_blocks_charge _ _ Hl Hin) as (c & Hc & Hxc).
  apply ha_blocks in Hf as [_ Hd]. rewrite fmap_app in Hd. apply pairwise_app in Hd as (_ & _ & Hd).
  rewrite Forall_fmap, Forall_forall in Hd. specialize (Hd b Hb). cbn in Hd. rewrite Forall_fmap, Forall_forall in Hd.
  specialize (Hd c Hc). unfold compose, apart_r, apart, range_of in Hd. cbn [fst snd] in Hd. lia.
Qed.

#[global, refine] Instance fixed_memory : HeapMemory fixed := {
  hm_alloc := fixed_alloc_mem;
  hm_dealloc := fixed_dealloc_mem;
}.
Proof.
  - intros s live l m Hi Hl. apply keeps_charge; [by eapply fi_live|].
    eapply keeps_incl; [|by apply (fixed_alloc_mem_keeps s live)]. intros b Hb. apply elem_of_app. by right.
  - intros s live p l m Hi. pose proof (fi_live _ _ Hi) as [_ Hl]%Forall_cons. apply keeps_charge; [done|].
    eapply keeps_incl; [|by eapply fixed_dealloc_mem_keeps]. intros b Hb. apply elem_of_app. by right.
Defined.

#[global, refine] Instance fixed_mem_allocator : MemAllocator block_heads fixed := {
  ma_alloc := m_fixed_alloc;
  ma_dealloc := m_fixed_dealloc;
  ma_rep := block_rep;
  ma_fuel s := ma_fuel (fallback_allocator s);
}.
Proof.
  - intros a m s live m'. apply block_rep_client.
  - intros a m s live l p s' Hi Hr Hl E. destruct (fixed_alloc_cases s live l p s' Hi Hl E) as [(i & rest & El & Ei & ->)|(Hn & f & Ef & ->)].
    + destruct (m_fixed_alloc_pop a m s live l p i rest Hi Hr Hl El Ei) as (a' & ? & ?). exists a'. auto.
    + by eapply m_fixed_alloc_fallback.
  - intros a m s live p l s'. apply m_fixed_dealloc_ok.
Defined.

(** [FixedSizeBlockAllocator::new] over a fallback that has been set up. *)
Definition m_fixed_new (f : A) : block_heads := mk_heads (replicate (length BLOCK_SIZES) 0) f.

Lemma m_fixed_new_rep f m s : ma_rep f m s -> block_rep (m_fixed_new f) m (fixed_new s).
Proof. intros H. split; [by repeat constructor|done]. Qed.

Lemma fixed_new_inv s : ha_inv s [] -> fixed_inv (fixed_new s) [].
Proof. intros H. by split. Qed.

(** C16. The kernel heap gives its clients independent arrays of bytes.  Take the global
    allocator as [init] leaves it, with all its lists in the very memory it hands out,
    over any fallback heap in memory that keeps its promises.  Whatever a client
    allocates, frees, resizes and writes to its blocks: with enough fuel for the walks
    through lists every operation returns; the client's blocks are aligned, disjoint and
    inside of the heap; and their contents are those of a machine in which each block is
    an array of its own, which only writes to it change, and which keeps its bytes when
    it is resized. *)
Theorem kernel_heap_arrays f m s ops : ha_inv s [] -> ma_rep f m s -> Forall mem_op_ok ops ->
  exists F c, (forall fuel, (F <= fuel)%nat -> client_run fuel ops (mk_client (m_fixed_new f) m []) = Some (Ok c)) /\
    arr_run ops [] (view (cl_mem c) (cl_blocks c)) /\
    Forall (block_ok (ha_heap s)) (cl_blocks c) /\ pairwise (range_of <$> cl_blocks c).
Proof.
  intros Hi Hr Ho. assert (Hc : client_inv (ha_heap s) (mk_client (m_fixed_new f) m []) (fixed_new s)).
  { split; [done|by apply fixed_new_inv|by apply m_fixed_new_rep|constructor]. }
  destruct (client_run_arrays (ha_heap s) ops _ _ Hc Ho) as (F & c & s' & Hc' & Hrun & E). exists F, c. split; [exact E|].
  split; [exact Hrun|]. destruct (ha_blocks _ _ (ci_inv _ _ _ Hc')) as [Hb Hd]. by rewrite (ci_range _ _ _ Hc') in Hb.
Qed.

End BlockMem.

(** ** Over the free-list allocator *)

Module BlockMemDemo.

#[local] Instance size_first : NodeLayout := { size_at := 0; next_at := 8; node_fields := or_introl (conj eq_refl eq_refl) }.

Definition L (sz : Z) : Layout := mk_layout sz 8.

(** Two small blocks and a large one; the first is freed, and the large one grows. *)
Definition ops : list mem_op :=
  [OAlloc (L 24); OAlloc (L 24); OAlloc (L 3000); OWrite 1 3 7; OWrite 0 2999 9; OFree 2; ORealloc 0 5000; OAlloc (L 32)].

Definition start : outcome (Z * memory) := m_list_init 0 (fun _ => 0xcc) 0x10000 0x10000.

(** The blocks after the run, with the bytes written. *)
Definition after (c : client (block_heads (A := Z))) : list (Z * Z * Z) :=
  (fun b => (fst b, size (snd b), cl_mem c (fst b + (if size (snd b) =? 24 then 3 else 2999)))) <$> cl_blocks c.

Lemma run : match start with
  | Ok (f, m) => match client_run 10 ops (mk_client (m_fixed_new f) m []) with Some (Ok c) => after c | _ => [] end
  | Panic _ => []
  end = [(65536, 32, 0xcc); (68600, 5000, 9); (65568, 24, 7)].
Proof. vm_compute. reflexivity. Qed.

End BlockMemDemo.

#[local] Existing Instance BlockMemDemo.size_first.

Lemma kernel_heap_arrays_witness : exists f m F c, BlockMemDemo.start = Ok (f, m) /\
  client_run F BlockMemDemo.ops (mk_client (m_fixed_new f) m []) = Some (Ok c) /\
  arr_run BlockMemDemo.ops [] (view (cl_mem c) (cl_blocks c)) /\ pairwise (range_of <$> cl_blocks c).
Proof.
  destruct (@list_init_rep BlockMemDemo.size_first 0x10000 0x10000 (fun _ => 0xcc)) as (f & m & s & E & Hi & Hr & _);
    [lia|reflexivity|vm_compute; congruence..|].
  destruct (@kernel_heap_arrays Z list_heap list_allocator (@list_memory BlockMemDemo.size_first)
    (@list_mem_allocator BlockMemDemo.size_first) f m s BlockMemDemo.ops Hi Hr) as (F & c & Er & Ha & _ & Hd).
  - repeat constructor; cbn; try lia; exists 3; (split; [lia|reflexivity]).
  - exists f, m, F, c. split; [exact E|]. split; [exact (Er F (le_n F))|]. split; [exact Ha|exact Hd].
Defined.
