(* ===== verification/Fs.v ===== *)
(** * The CXFS archive (src/fs.rs, tools/mkcxfs.py)

    [cxfs_open] is [fs::open] on the loaded archive; [build] is the host tool that
    writes archives.  Bytes are integers from 0 to 255. *)

From S2P Require Import Prelude.

Definition bytes := list Z.

Definition MAGIC : bytes := [67; 88; 70; 83].  (* "CXFS" *)
Definition ENTRY_SIZE : Z := 40.
Definition NAME_LEN : Z := 32.

(** [slice.iter().position(|&b| b == 0)] *)
Definition position0 (l : bytes) : option nat := fst <$> list_find (fun b => b = 0) l.

(** [core::str::from_utf8]: well-formed UTF-8, without overlong forms, surrogates or
    values above U+10FFFF. *)
Definition cont (b : Z) : bool := (0x80 <=? b) && (b <=? 0xBF).
Fixpoint utf8_valid (l : bytes) : bool :=
  match l with
  | [] => true
  | b0 :: l1 =>
      if b0 <? 0x80 then utf8_valid l1 else
      if (0xC2 <=? b0) && (b0 <=? 0xDF) then
        match l1 with b1 :: l2 => cont b1 && utf8_valid l2 | _ => false end
      else if (0xE0 <=? b0) && (b0 <=? 0xEF) then
        match l1 with
        | b1 :: b2 :: l3 =>
            (if b0 =? 0xE0 then 0xA0 <=? b1 else 0x80 <=? b1) &&
            (if b0 =? 0xED then b1 <=? 0x9F else b1 <=? 0xBF) && cont b2 && utf8_valid l3
        | _ => false
        end
      else if (0xF0 <=? b0) && (b0 <=? 0xF4) then
        match l1 with
        | b1 :: b2 :: b3 :: l4 =>
            (if b0 =? 0xF0 then 0x90 <=? b1 else 0x80 <=? b1) &&
            (if b0 =? 0xF4 then b1 <=? 0x8F else b1 <=? 0xBF) && cont b2 && cont b3 && utf8_valid l4
        | _ => false
        end
      else false
  end.

(** [str::eq_ignore_ascii_case] *)
Definition ascii_lower (b : Z) : Z := if (65 <=? b) && (b <=? 90) then b + 32 else b.
Definition eq_ignore_ascii_case (a b : bytes) : bool :=
  bool_decide (ascii_lower <$> a = ascii_lower <$> b).

(** The loop of [open] from entry [i] on, [n] entries left. *)
Fixpoint open_from (data name : bytes) (i : Z) (n : nat) : outcome (option (Z * bytes)) :=
  match n with
  | O => Ok None
  | S n =>
      tail ← slice data (8 + i * ENTRY_SIZE) (Z.of_nat (length data));
      entry ← slice tail 0 ENTRY_SIZE;
      raw_name ← slice entry 0 NAME_LEN;
      let nul := default (Z.to_nat NAME_LEN) (position0 raw_name) in
      entry_name ← slice raw_name 0 (Z.of_nat nul);
      if negb (utf8_valid entry_name) then Ok None else
      if eq_ignore_ascii_case entry_name name then
        ob ← slice entry 32 36;
        sb ← slice entry 36 40;
        let offset := from_le ob in
        let sz := from_le sb in
        d ← slice data offset (offset + sz);
        Ok (Some (offset, d))
      else open_from data name (i + 1) n
  end.

(** [open], on the contents of [ARCHIVE]: a slice of the archive, as its offset there and its
    bytes; [cxfs_open] for the callers that only look at the bytes. *)
Definition cxfs_slice (archive : option bytes) (name : bytes) : outcome (option (Z * bytes)) :=
  match archive with
  | None => Ok None
  | Some data =>
      cb ← slice data 4 8;
      open_from data name 0 (Z.to_nat (from_le cb))
  end.

Definition cxfs_open (archive : option bytes) (name : bytes) : outcome (option bytes) :=
  r ← cxfs_slice archive name;
  Ok (option_map snd r).

(** ** The archive builder *)

Definition SECTOR : Z := 512.

(** [struct.pack("<I", v)]: raises out of range. *)
Definition pack_u32 (v : Z) : option bytes :=
  if (0 <=? v) && (v <? 2 ^ 32) then Some (to_le 4 v) else None.

(** [pack_name]: exits on a non-ASCII or too long name. *)
Definition pack_name (name : bytes) : option bytes :=
  if forallb (fun b => (0 <=? b) && (b <? 128)) name && (Z.of_nat (length name) <? NAME_LEN)
  then Some (name ++ replicate (Z.to_nat NAME_LEN - length name) 0) else None.

(** The first loop of [build]: (name, offset, size) with a running cursor. *)
Fixpoint entries_from (cursor : Z) (files : list (bytes * bytes)) : list (bytes * Z * Z) :=
  match files with
  | [] => []
  | (name, data) :: files =>
      let len := Z.of_nat (length data) in
      (name, cursor, len) :: entries_from (cursor + len) files
  end.

Definition entry_bytes (e : bytes * Z * Z) : option bytes :=
  let '(name, offset, sz) := e in
  n ← pack_name name;
  o ← pack_u32 offset;
  s ← pack_u32 sz;
  Some (n ++ o ++ s).

Fixpoint concat_entries (es : list (bytes * Z * Z)) : option bytes :=
  match es with
  | [] => Some []
  | e :: es => b ← entry_bytes e; bs ← concat_entries es; Some (b ++ bs)
  end.

(** [build]: header, entries, file data, zero padding to a sector. *)
Definition build (files : list (bytes * bytes)) : option bytes :=
  let header_size := 8 + Z.of_nat (length files) * ENTRY_SIZE in
  n ← pack_u32 (Z.of_nat (length files));
  es ← concat_entries (entries_from header_size files);
  let out := MAGIC ++ n ++ es ++ concat (snd <$> files) in
  let remainder := Z.of_nat (length out) mod SECTOR in
  Some (out ++ (if remainder =? 0 then [] else replicate (Z.to_nat (SECTOR - remainder)) 0)).

(** ** Opening what was built *)

Lemma utf8_ascii l : forallb (fun b => (0 <=? b) && (b <? 128)) l = true -> utf8_valid l = true.
Proof.
  induction l as [|b l IH]; [done|]. cbn. rewrite andb_true_iff. intros [Hb Hl].
  destruct (Z.ltb_spec b 0x80); [by apply IH|lia].
Qed.

Lemma position0_padded name k : 0 ∉ name -> position0 (name ++ replicate (S k) 0) = Some (length name).
Proof.
  intros Hn. unfold position0.
  assert (E : list_find (fun b => b = 0) (name ++ replicate (S k) 0) = Some (length name, 0)); [|by rewrite E].
  apply list_find_Some. split_and!; [|done|].
  - by rewrite lookup_app_r, Nat.sub_diag by lia.
  - intros j y Hj Hlt ->. rewrite lookup_app_l in Hj by done. by apply Hn, list_elem_of_lookup_2 with j.
Qed.

Lemma pack_u32_ok v b : pack_u32 v = Some b -> length b = 4%nat /\ from_le b = v.
Proof.
  unfold pack_u32. intros H. destruct ((0 <=? v) && (v <? 2 ^ 32)) eqn:E; [|done].
  apply Some_inj in H as <-. apply andb_prop in E as [E1 E2]. split; [apply length_to_le|].
  apply from_to_le. change (256 ^ Z.of_nat 4) with 4294967296. change (2 ^ 32) with 4294967296 in E2. lia.
Qed.

Lemma pack_name_ok name b : pack_name name = Some b -> 0 ∉ name ->
  length b = 32%nat /\ position0 b = Some (length name) /\ slice b 0 (Z.of_nat (length name)) = Ok name /\
  utf8_valid name = true.
Proof.
  unfold pack_name, NAME_LEN. intros H Hn. destruct (forallb _ _ && _) eqn:E; [|done]. apply Some_inj in H as <-.
  apply andb_prop in E as [E1 E2]. assert (Hl : (length name < 32)%nat) by lia.
  change (Z.to_nat 32) with 32%nat. split_and!.
  - rewrite length_app, length_replicate. lia.
  - replace (32 - length name)%nat with (S (31 - length name)) by lia. by apply position0_padded.
  - by apply (slice_app' _ [] name (replicate (32 - length name) 0)).
  - by apply utf8_ascii.
Qed.

(** Reading back one directory entry. *)
Lemma entry_ok name off sz eb : entry_bytes (name, off, sz) = Some eb -> 0 ∉ name ->
  length eb = 40%nat /\
  (exists raw, slice eb 0 NAME_LEN = Ok raw /\ position0 raw = Some (length name) /\
     slice raw 0 (Z.of_nat (length name)) = Ok name) /\ utf8_valid name = true /\
  (exists ob, slice eb 32 36 = Ok ob /\ from_le ob = off) /\
  (exists sb, slice eb 36 40 = Ok sb /\ from_le sb = sz).
Proof.
  unfold entry_bytes. intros H Hn.
  destruct (pack_name name) as [n|] eqn:En; [|done]. cbn in H.
  destruct (pack_u32 off) as [o|] eqn:Eo; [|done]. cbn in H.
  destruct (pack_u32 sz) as [s|] eqn:Es; [|done]. cbn in H. injection H as <-.
  destruct (pack_name_ok _ _ En Hn) as (Hln & Hp & Hsl & Hu).
  destruct (pack_u32_ok _ _ Eo) as [Hlo Ho]. destruct (pack_u32_ok _ _ Es) as [Hls Hs].
  split_and!; try done.
  - rewrite !length_app. lia.
  - exists n. split_and!; try done. apply (slice_app' _ [] n (o ++ s)); [done|done|]. unfold NAME_LEN. lia.
  - exists o. split; [|done]. apply (slice_app' _ n o s); [done|lia|lia].
  - exists s. split; [|done]. apply (slice_app' _ (n ++ o) s []); [by rewrite app_nil_r, <- app_assoc|rewrite length_app; lia|lia].
Qed.

(** The first file whose name matches. *)
Definition find_file (files : list (bytes * bytes)) (name : bytes) : option bytes :=
  snd ∘ snd <$> list_find (fun f => eq_ignore_ascii_case (fst f) name = true) files.

Lemma open_from_built name files : Forall (fun f => 0 ∉ fst f) files ->
  forall data hdr ed er bd pad cursor i, 
    data = hdr ++ ed ++ er ++ bd ++ concat (snd <$> files) ++ pad ->
    length hdr = 8%nat -> Z.of_nat (length ed) = 40 * i ->
    concat_entries (entries_from cursor files) = Some er ->
    cursor = Z.of_nat (length (hdr ++ ed ++ er ++ bd)) ->
    exists r, open_from data name i (length files) = Ok r /\ snd <$> r = find_file files name.
Proof.
  induction 1 as [|[fname fdata] files Hf _ IH]; intros data hdr ed er bd pad cursor i Hd Hh He Hc Hcur; [by exists None|].
  cbn [entries_from concat_entries] in Hc.
  destruct (entry_bytes (fname, cursor, _)) as [eb|] eqn:Eb; [|done]. cbn [mbind option_bind] in Hc.
  destruct (concat_entries _) as [er'|] eqn:Er; [|done]. cbn [mbind option_bind] in Hc. injection Hc as <-.
  destruct (entry_ok _ _ _ _ Eb Hf) as (Hle & (raw & Hraw & Hpos & Hname) & Hu & (ob & Hob & Ho) & (sb & Hsb & Hs)).
  cbn [open_from length].
  assert (Hd1 : data = (hdr ++ ed) ++ (eb ++ er' ++ bd ++ concat (snd <$> (fname, fdata) :: files) ++ pad) ++ []).
  { rewrite Hd, app_nil_r. by rewrite <- !app_assoc. }
  rewrite (slice_app' data _ _ _ _ _ Hd1); [|rewrite length_app; unfold ENTRY_SIZE; lia
    |rewrite Hd1, !length_app; cbn [length]; unfold ENTRY_SIZE; lia].
  cbn [mbind outcome_bind]. rewrite slice_prefix by (unfold ENTRY_SIZE; lia).
  cbn [mbind outcome_bind]. rewrite Hraw. cbn [mbind outcome_bind]. rewrite Hpos.
  change (default (Z.to_nat NAME_LEN) (Some (length fname))) with (length fname). rewrite Hname. cbn [mbind outcome_bind]. rewrite Hu. cbn [negb].
  unfold find_file. cbn [list_find fst]. destruct (eq_ignore_ascii_case fname name) eqn:Eq.
  - rewrite decide_True by done. rewrite Hob. cbn [mbind outcome_bind]. rewrite Hsb. cbn [mbind outcome_bind].
    rewrite Ho, Hs. rewrite (slice_app' data (hdr ++ ed ++ (eb ++ er') ++ bd) fdata (concat (snd <$> files) ++ pad));
      [by eexists| |done|done]. rewrite Hd. cbn. by rewrite <- !app_assoc.
  - rewrite decide_False by congruence.
    destruct (IH data hdr (ed ++ eb) er' (bd ++ fdata) pad (cursor + Z.of_nat (length fdata)) (i + 1)) as (r & -> & Hr); try done.
    4: { exists r. split; [done|]. rewrite Hr. unfold find_file. by destruct (list_find _ files) as [[j [a b]]|]. }
    + rewrite Hd. cbn. by rewrite <- !app_assoc.
    + rewrite length_app. lia.
    + rewrite Hcur, !length_app. lia.
Qed.

Lemma open_built files data name :
  Forall (fun f => 0 ∉ fst f) files -> build files = Some data ->
  cxfs_open (Some data) name = Ok (find_file files name).
Proof.
  intros Hf H. unfold build in H.
  destruct (pack_u32 (Z.of_nat (length files))) as [n|] eqn:En; [|done]. cbn [mbind option_bind] in H.
  destruct (concat_entries _) as [es|] eqn:Ee; [|done]. cbn [mbind option_bind] in H.
  set (pad := if _ =? 0 then _ else _) in H. apply Some_inj in H as <-.
  destruct (pack_u32_ok _ _ En) as [Hl Hn]. unfold cxfs_open, cxfs_slice.
  rewrite (slice_app' _ MAGIC n (es ++ concat (snd <$> files) ++ pad)); [|by rewrite <- !app_assoc|done|lia].
  cbn [mbind outcome_bind]. rewrite Hn, Nat2Z.id.
  assert (Hlen : Z.of_nat (length es) = Z.of_nat (length files) * 40).
  { clear -Ee Hf. revert Ee. generalize (8 + Z.of_nat (length files) * ENTRY_SIZE). revert es.
    induction Hf as [|[a b] files Hn _ IH]; intros es cur E; cbn [entries_from concat_entries] in E; [by injection E as <-|].
    destruct (entry_bytes (a, cur, _)) as [eb|] eqn:Eb; [|done]. cbn [mbind option_bind] in E.
    destruct (concat_entries _) as [er|] eqn:Er; [|done]. cbn [mbind option_bind] in E. injection E as <-.
    destruct (entry_ok _ _ _ _ Eb Hn) as (Hle & _). apply IH in Er. rewrite length_app. cbn [length]. lia. }
  match goal with |- context [open_from ?d _ _ _] =>
    destruct (open_from_built name files Hf d (MAGIC ++ n) [] es [] pad
      (8 + Z.of_nat (length files) * ENTRY_SIZE) 0) as (r & -> & Hr) end; try done.
  - by rewrite <- !app_assoc.
  - rewrite length_app. cbn. lia.
  - rewrite !length_app. cbn [length MAGIC]. unfold ENTRY_SIZE. lia.
  - cbn [mbind outcome_bind]. f_equal. exact Hr.
Qed.

(** What [open] answers is a slice of the archive. *)
Lemma open_from_slice data name n i off d : open_from data name i n = Ok (Some (off, d)) ->
  0 <= off /\ slice data off (off + Z.of_nat (length d)) = Ok d.
Proof.
  revert i. induction n as [|n IH]; intros i; cbn [open_from]; [discriminate|].
  destruct (slice data (8 + _) _) as [tail|] eqn:E1; [|discriminate]. cbn [mbind outcome_bind].
  destruct (slice tail 0 _) as [entry|] eqn:E2; [|discriminate]. cbn [mbind outcome_bind].
  destruct (slice entry 0 _) as [raw|] eqn:E3; [|discriminate]. cbn [mbind outcome_bind].
  destruct (slice raw _ _) as [nm|] eqn:E4; [|discriminate]. cbn [mbind outcome_bind].
  destruct (negb _); [discriminate|]. destruct (eq_ignore_ascii_case _ _); [|apply IH].
  destruct (slice entry 32 36) as [ob|] eqn:E5; [|discriminate]. cbn [mbind outcome_bind].
  destruct (slice entry 36 40) as [sb|] eqn:E6; [|discriminate]. cbn [mbind outcome_bind].
  destruct (slice data (from_le ob) _) as [d'|] eqn:E7; [|discriminate]. cbn [mbind outcome_bind]. intros [= <- <-].
  revert E7. unfold slice at 1. destruct (_ && _) eqn:Eb; [|discriminate]. apply andb_prop in Eb as [Eb Hlen].
  apply andb_prop in Eb as [H0 Hle]. intros [= <-]. split; [lia|].
  rewrite length_take, length_drop. unfold slice.
  rewrite (proj2 (Z.leb_le _ _)), (proj2 (Z.leb_le _ _)), (proj2 (Z.leb_le _ _)) by lia. cbn [andb]. do 2 f_equal. lia.
Qed.

Lemma cxfs_slice_inside data name off d : cxfs_slice (Some data) name = Ok (Some (off, d)) ->
  0 <= off /\ off + Z.of_nat (length d) <= Z.of_nat (length data) /\ d = take (length d) (drop (Z.to_nat off) data).
Proof.
  unfold cxfs_slice. destruct (slice data 4 8); [|done]. cbn [mbind outcome_bind]. intros [H0 H]%open_from_slice.
  revert H. unfold slice. destruct (_ && _) eqn:Eb; [|done]. apply andb_prop in Eb as [_ Hlen]. intros [= <-].
  rewrite !length_take, length_drop. split_and!; [lia..|]. f_equal; lia.
Qed.

(** ** Archives that are cut off *)

Lemma slice_ok (l : bytes) a b r : slice l a b = Ok r -> 0 <= a <= b /\ b <= Z.of_nat (length l) /\ r = take (Z.to_nat (b - a)) (drop (Z.to_nat a) l).
Proof. unfold slice. destruct (_ && _) eqn:E; [|discriminate]. intros [= <-]. split_and!; (done || lia). Qed.

Lemma slice_make (l : bytes) a b : 0 <= a <= b -> b <= Z.of_nat (length l) -> slice l a b = Ok (take (Z.to_nat (b - a)) (drop (Z.to_nat a) l)).
Proof. intros. unfold slice. by rewrite !(proj2 (Z.leb_le _ _)) by lia. Qed.

(** An entry before the cut is read as in the whole archive. *)
Lemma entry_cut (data : bytes) cut a : 0 <= a -> a + ENTRY_SIZE <= Z.of_nat cut -> (cut <= length data)%nat ->
  (tail ← slice (take cut data) a (Z.of_nat (length (take cut data))); slice tail 0 ENTRY_SIZE) =
  (tail ← slice data a (Z.of_nat (length data)); slice tail 0 ENTRY_SIZE).
Proof.
  unfold ENTRY_SIZE. intros Ha Hc Hl. assert (length (take cut data) = cut) by (rewrite length_take; lia).
  rewrite !slice_make by lia. cbn [mbind outcome_bind]. rewrite !slice_make by (rewrite ?length_take, ?length_drop; lia).
  f_equal. change (Z.to_nat 0) with O. rewrite !drop_0, !take_take, skipn_firstn_comm, take_take. f_equal. lia.
Qed.

Lemma open_from_cut data cut name n i off d : (cut <= length data)%nat -> 0 <= i ->
  8 + (i + Z.of_nat n) * ENTRY_SIZE <= Z.of_nat cut -> Z.of_nat cut < off + Z.of_nat (length d) ->
  open_from data name i n = Ok (Some (off, d)) -> open_from (take cut data) name i n = Panic IndexOutOfRange.
Proof.
  intros Hl. revert i. induction n as [|n IH]; intros i Hi Hc Hoff; [discriminate|]. unfold ENTRY_SIZE in Hc.
  assert (Hassoc : forall l : bytes, open_from l name i (S n) =
    (entry ← (tail ← slice l (8 + i * ENTRY_SIZE) (Z.of_nat (length l)); slice tail 0 ENTRY_SIZE);
     raw_name ← slice entry 0 NAME_LEN;
     let nul := default (Z.to_nat NAME_LEN) (position0 raw_name) in
     entry_name ← slice raw_name 0 (Z.of_nat nul);
     if negb (utf8_valid entry_name) then Ok None else
     if eq_ignore_ascii_case entry_name name then
       ob ← slice entry 32 36; sb ← slice entry 36 40;
       d ← slice l (from_le ob) (from_le ob + from_le sb); Ok (Some (from_le ob, d))
     else open_from l name (i + 1) n)).
  { intros l. cbn [open_from]. by destruct (slice l _ _). }
  rewrite !Hassoc, entry_cut by (unfold ENTRY_SIZE; lia). clear Hassoc.
  generalize (tail ← slice data (8 + i * ENTRY_SIZE) (Z.of_nat (length data)); slice tail 0 ENTRY_SIZE).
  intros [entry|]; [|discriminate]. cbn [mbind outcome_bind].
  destruct (slice entry 0 _) as [raw|]; [|discriminate]. cbn [mbind outcome_bind].
  destruct (slice raw _ _) as [nm|]; [|discriminate]. cbn [mbind outcome_bind].
  destruct (negb _); [discriminate|]. destruct (eq_ignore_ascii_case _ _).
  2: { apply IH; [lia|unfold ENTRY_SIZE; lia|done]. }
  destruct (slice entry 32 36) as [ob|]; [|discriminate]. cbn [mbind outcome_bind].
  destruct (slice entry 36 40) as [sb|]; [|discriminate]. cbn [mbind outcome_bind].
  destruct (slice data _ _) as [d'|] eqn:Ed; [|discriminate]. cbn [mbind outcome_bind]. intros [= <- <-].
  apply slice_ok in Ed as (? & ? & ->). rewrite length_take, length_drop in Hoff.
  unfold slice. rewrite (proj2 (Z.leb_gt _ (Z.of_nat (length (take cut data))))) by (rewrite length_take; lia).
  by rewrite andb_false_r.
Qed.

(** Of an archive that is cut off behind its table, [open] panics on the files that reach
    behind the cut. *)
Lemma cxfs_open_cut data cut name off d count : (cut <= length data)%nat ->
  slice data 4 8 = Ok count -> 8 + from_le count * ENTRY_SIZE <= Z.of_nat cut -> 0 <= from_le count ->
  cxfs_slice (Some data) name = Ok (Some (off, d)) -> Z.of_nat cut < off + Z.of_nat (length d) ->
  cxfs_open (Some (take cut data)) name = Panic IndexOutOfRange.
Proof.
  intros Hl Hs Hc H0 Ho Hcut. unfold cxfs_open, cxfs_slice in *. rewrite Hs in Ho. cbn [mbind outcome_bind] in Ho.
  assert (slice (take cut data) 4 8 = Ok count) as ->.
  { apply slice_ok in Hs as (_ & Hs & ->). unfold ENTRY_SIZE in Hc. rewrite slice_make by (rewrite ?length_take; lia). f_equal.
    rewrite skipn_firstn_comm, take_take. f_equal. lia. }
  cbn [mbind outcome_bind]. by rewrite (open_from_cut data cut name _ 0 off d) by (done || (unfold ENTRY_SIZE in *; lia)).
Qed.

(** The names in an archive are ASCII, so a file is only found under an ASCII name. *)
Lemma built_names files data : build files = Some data ->
  Forall (fun f => forallb (fun b => (0 <=? b) && (b <? 128)) (fst f) = true) files.
Proof.
  unfold build. destruct (pack_u32 _) as [n|]; [|done]. cbn [mbind option_bind].
  generalize (8 + Z.of_nat (length files) * ENTRY_SIZE). intros cur.
  destruct (concat_entries _) as [es|] eqn:Ee; [|done]. intros _. revert cur es Ee.
  induction files as [|[name d] files IH]; intros cur es Ee; [done|].
  cbn [entries_from concat_entries] in Ee. destruct (entry_bytes _) as [eb|] eqn:Eb; [|done]. cbn [mbind option_bind] in Ee.
  destruct (concat_entries _) as [es'|] eqn:Ee'; [|done]. constructor; [|by eapply IH].
  cbn [entry_bytes] in Eb. destruct (pack_name name) as [nb|] eqn:En; [|done]. unfold pack_name in En. cbn [fst].
  by destruct (forallb _ name).
Qed.

Lemma ascii_same_case a b : forallb (fun b => (0 <=? b) && (b <? 128)) a = true -> eq_ignore_ascii_case a b = true ->
  forallb (fun b => (0 <=? b) && (b <? 128)) b = true.
Proof.
  unfold eq_ignore_ascii_case. rewrite bool_decide_eq_true. revert b.
  induction a as [|x a IH]; intros [|y b]; cbn [fmap list_fmap forallb]; [done..|].
  rewrite !andb_true_iff. intros [[Hx1 Hx2] Ha] [= Hxy Hab]. split; [|by apply IH].
  unfold ascii_lower in Hxy. repeat case_match; lia.
Qed.

Lemma find_file_utf8 files data name d : build files = Some data -> find_file files name = Some d -> utf8_valid name = true.
Proof.
  intros Hb Hf. unfold find_file in Hf. destruct (list_find _ files) as [[i f]|] eqn:E; [|done].
  apply list_find_Some in E as (Hi & Heq & _). apply utf8_ascii. eapply ascii_same_case; [|exact Heq].
  exact (proj1 (Forall_lookup _ _) (built_names _ _ Hb) _ _ Hi).
Qed.

(** CXFS round trip: in an archive that [mkcxfs] built from files without NUL bytes in
    their names, [open] never reads out of range, and answers for every name the
    contents of the first file whose name equals it up to ASCII case, or nothing if
    there is no such file. *)
Theorem cxfs_open_build files data name :
  Forall (fun f => 0 ∉ fst f) files -> build files = Some data ->
  cxfs_open (Some data) name = Ok (find_file files name).
Proof. apply open_built. Qed.

Lemma cxfs_open_build_witness : exists data,
  build [([97; 46; 116], [1; 2; 3]); ([66], [9])] = Some data /\
  cxfs_open (Some data) [98] = Ok (Some [9]).
Proof.
  eexists. split; [vm_compute; reflexivity|].
  etrans; [apply (cxfs_open_build [([97; 46; 116], [1; 2; 3]); ([66], [9])]); [|vm_compute; reflexivity]|vm_compute; reflexivity].
  repeat constructor; cbn; rewrite !elem_of_cons, elem_of_nil; lia.
Defined.
