(* ===== verification/MkCxfs.v ===== *)
(** * The archive tool on the host (tools/mkcxfs.py)

    [Fs.build] is the archive a list of named contents makes.  Here is the tool around it:
    it reads its inputs from the host's files, writes the output piece by piece and reports.
    The pieces written before an error stay in the output file, which Python closes on its
    way out. *)

From stdpp Require Import gmap.
From S2P Require Import Prelude Fmt Fs.

(** Paths and names are strings of characters; a host has files and refuses to write some. *)
Abbreviation path := bytes.
Record host := mk_host { h_files : gmap path bytes; h_writable : path -> bool }.

Inductive tool_exit :=
  | Finished (report : list (list Z))
  | FileNotFound (p : path)
  | CannotWrite
  | NotAscii
  | NameTooLong (name : path)
  | StructError.

(** [os.path.basename]: what follows the last slash. *)
Definition basename (p : path) : path := foldl (fun acc c => if c =? 47 then [] else acc ++ [c]) [] p.

(** The first loop of [build]: names and contents, read before the output is opened. *)
Fixpoint read_inputs (h : host) (paths : list path) : list (path * bytes) + tool_exit :=
  match paths with
  | [] => inl []
  | p :: paths =>
      match h_files h !! p with
      | None => inr (FileNotFound p)
      | Some data =>
          match read_inputs h paths with
          | inr e => inr e
          | inl files => inl ((basename p, data) :: files)
          end
      end
  end.

(** [pack_name] with its two ways to fail. *)
Definition pack_name_or_exit (name : path) : bytes + tool_exit :=
  if negb (forallb (fun b => (0 <=? b) && (b <? 128)) name) then inr NotAscii else
  if NAME_LEN <=? Z.of_nat (length name) then inr (NameTooLong name) else
  inl (name ++ replicate (Z.to_nat NAME_LEN - length name) 0).

(** The loop over the entries, appending to what is written: a name goes out before its
    numbers are packed. *)
Fixpoint write_entries (out : bytes) (es : list (path * Z * Z)) : bytes * option tool_exit :=
  match es with
  | [] => (out, None)
  | (name, offset, sz) :: es =>
      match pack_name_or_exit name with
      | inr e => (out, Some e)
      | inl n =>
          let out := out ++ n in
          match pack_u32 offset, pack_u32 sz with
          | Some o, Some s => write_entries (out ++ o ++ s) es
          | _, _ => (out, Some StructError)
          end
      end
  end.

(** What [build] writes into the opened output. *)
Definition write_archive (files : list (path * bytes)) (es : list (path * Z * Z)) : bytes * option tool_exit :=
  match pack_u32 (Z.of_nat (length files)) with
  | None => (MAGIC, Some StructError)
  | Some n =>
      match write_entries (MAGIC ++ n) es with
      | (out, Some e) => (out, Some e)
      | (out, None) =>
          let out := out ++ concat (snd <$> files) in
          let remainder := Z.of_nat (length out) mod SECTOR in
          (out ++ (if remainder =? 0 then [] else replicate (Z.to_nat (SECTOR - remainder)) 0), None)
      end
  end.

(** The lines printed at the end: [{name:30s}] pads to the right, [{offset:#010x}] is 0x and
    eight digits or more. *)
Definition pad_right (width : nat) (s : list Z) : list Z := s ++ replicate (width - length s) 32.
Definition entry_line (e : path * Z * Z) : list Z :=
  let '(name, offset, sz) := e in
  str "  " ++ pad_right 30 name ++ str "  offset=0x" ++ pad_left 48 8 (fmt_hex offset) ++
  str "  size=" ++ fmt_dec sz ++ str " bytes".
Definition report (output : path) (n total : Z) (es : list (path * Z * Z)) : list (list Z) :=
  (str "wrote " ++ output ++ str ": " ++ fmt_dec n ++ str " file(s), " ++ fmt_dec total ++ str " bytes (" ++
   fmt_dec (total / SECTOR) ++ str " sectors)") :: (entry_line <$> es).

Definition build_file (h : host) (paths : list path) (output : path) : tool_exit * host :=
  match read_inputs h paths with
  | inr e => (e, h)
  | inl files =>
      let es := entries_from (8 + Z.of_nat (length paths) * ENTRY_SIZE) files in
      if negb (h_writable h output) then (CannotWrite, h) else
      let '(out, e) := write_archive files es in
      let h := mk_host (<[output := out]> (h_files h)) (h_writable h) in
      match e with
      | Some e => (e, h)
      | None => (Finished (report output (Z.of_nat (length paths)) (Z.of_nat (length out)) es), h)
      end
  end.

(** ** What the tool leaves behind *)

Lemma basename_sub p c : c ∈ basename p -> c ∈ p.
Proof.
  unfold basename. assert (H : forall acc, c ∈ foldl (fun acc c => if c =? 47 then [] else acc ++ [c]) acc p -> c ∈ acc \/ c ∈ p).
  { induction p as [|x p IH]; intros acc; cbn [foldl]; [by left|]. intros [Ha|Hp]%IH; [|right; by constructor].
    destruct (x =? 47); [by apply elem_of_nil in Ha|]. apply elem_of_app in Ha as [Ha|Ha%list_elem_of_singleton]; [by left|].
    right. subst. constructor. }
  intros [Hn|Hp]%H; [by apply elem_of_nil in Hn|done].
Qed.

(** The inputs are the named files, in order, under their base names. *)
Lemma read_inputs_spec h paths files : read_inputs h paths = inl files <->
  Forall2 (fun p f => h_files h !! p = Some (snd f) /\ fst f = basename p) paths files.
Proof.
  revert files. induction paths as [|p paths IH]; intros files; cbn [read_inputs].
  - split; [by intros [= <-]|by intros ->%Forall2_nil_inv_l].
  - split.
    + destruct (h_files h !! p) as [data|] eqn:E; [|done]. destruct (read_inputs h paths) as [fs|] eqn:Er; [|done].
      intros [= <-]. constructor; [done|by apply IH].
    + intros (f & fs & [Hf Hn] & Hr%IH & ->)%Forall2_cons_inv_l. rewrite Hf, Hr. destruct f as [n data]. cbn in Hn |- *. by subst.
Qed.

Lemma pack_name_agrees name : pack_name name = match pack_name_or_exit name with inl b => Some b | inr _ => None end.
Proof.
  unfold pack_name, pack_name_or_exit. destruct (forallb _ name); [|done]. cbn [negb andb].
  by destruct (Z.ltb_spec (Z.of_nat (length name)) NAME_LEN), (Z.leb_spec NAME_LEN (Z.of_nat (length name))); try lia.
Qed.

Lemma pack_name_length name b : pack_name_or_exit name = inl b -> length b = Z.to_nat NAME_LEN.
Proof.
  unfold pack_name_or_exit. destruct (negb _); [done|]. destruct (Z.leb_spec NAME_LEN (Z.of_nat (length name))); [done|].
  intros [= <-]. rewrite length_app, length_replicate. unfold NAME_LEN in *. lia.
Qed.

Definition failed (e : tool_exit) : Prop := match e with Finished _ => False | _ => True end.

(** Either all the entries are written, or a part shorter than the whole table. *)
Lemma write_entries_spec es out :
  match concat_entries es with
  | Some b => write_entries out es = (out ++ b, None)
  | None => exists b e, write_entries out es = (out ++ b, Some e) /\ failed e /\ (length b < 40 * length es)%nat
  end.
Proof.
  revert out. induction es as [|[[name off] sz] es IH]; intros out; cbn [concat_entries write_entries]; [by rewrite app_nil_r|].
  unfold entry_bytes. rewrite pack_name_agrees. destruct (pack_name_or_exit name) as [n|e] eqn:En.
  2: { exists [], e. rewrite app_nil_r. split; [done|]. split; [|cbn; lia]. unfold pack_name_or_exit in En.
       destruct (negb _); [by injection En as <-|]. by destruct (_ <=? _); [injection En as <-|]. }
  apply pack_name_length in En as Hn. change (Z.to_nat NAME_LEN) with 32%nat in Hn. cbn [mbind option_bind].
  destruct (pack_u32 off) as [o|] eqn:Eo; cbn [mbind option_bind]; [|exists n, StructError; split; [done|]; split; [done|cbn; lia]].
  destruct (pack_u32 sz) as [s|] eqn:Es; cbn [mbind option_bind]; [|exists n, StructError; split; [done|]; split; [done|cbn; lia]].
  apply pack_u32_ok in Eo as [Ho _]. apply pack_u32_ok in Es as [Hs _].
  specialize (IH ((out ++ n) ++ o ++ s)). destruct (concat_entries es) as [bs|]; cbn [mbind option_bind].
  - by rewrite IH, <- !app_assoc.
  - destruct IH as (b & e & -> & He & Hb). exists (n ++ o ++ s ++ b), e. rewrite <- !app_assoc.
    split; [done|]. split; [done|]. rewrite !length_app. cbn [length]. lia.
Qed.

Lemma entries_from_length c files : length (entries_from c files) = length files.
Proof. revert c. induction files as [|[n d] files IH]; intros c; cbn; [done|by rewrite IH]. Qed.

(** On readable inputs, the tool writes the archive of [build] and reports it; where there is
    none, it has already overwritten the output, with less than a header. *)
Lemma build_file_spec h paths output files : read_inputs h paths = inl files -> h_writable h output = true ->
  exists out, snd (build_file h paths output) = mk_host (<[output := out]> (h_files h)) (h_writable h) /\
  match build files with
  | Some img => out = img /\ fst (build_file h paths output) =
      Finished (report output (Z.of_nat (length files)) (Z.of_nat (length img))
        (entries_from (8 + Z.of_nat (length files) * ENTRY_SIZE) files))
  | None => failed (fst (build_file h paths output)) /\ Z.of_nat (length out) < 8 + Z.of_nat (length files) * ENTRY_SIZE
  end.
Proof.
  intros Hr Hw. assert (Hl : length paths = length files) by (by apply read_inputs_spec, Forall2_length in Hr).
  unfold build_file, write_archive, build. rewrite Hr, Hw, Hl. cbn [negb].
  destruct (pack_u32 (Z.of_nat (length files))) as [n|] eqn:En; cbn [mbind option_bind].
  2: { exists MAGIC. split; [done|]. split; [done|]. unfold pack_u32 in En. cbn [length MAGIC]. unfold ENTRY_SIZE. lia. }
  apply pack_u32_ok in En as [Hn _].
  set (es := entries_from _ files). assert (Hes : length es = length files) by apply entries_from_length.
  pose proof (write_entries_spec es (MAGIC ++ n)) as Hs. destruct (concat_entries es) as [b|]; cbn [mbind option_bind].
  - rewrite Hs, <- !app_assoc. eexists. split; [reflexivity|]. split; reflexivity.
  - destruct Hs as (b & e & -> & He & Hb). eexists. split; [done|]. split; [done|].
    rewrite !length_app. cbn [length MAGIC]. unfold ENTRY_SIZE. lia.
Qed.

Lemma read_inputs_length h paths files : read_inputs h paths = inl files -> length paths = length files.
Proof. by intros H%read_inputs_spec%Forall2_length. Qed.

Lemma read_inputs_no_nul h paths files : read_inputs h paths = inl files -> Forall (fun p => 0 ∉ p) paths ->
  Forall (fun f => 0 ∉ fst f) files.
Proof.
  intros H%read_inputs_spec Hp. induction H as [|p f paths files [_ Hf] _ IH]; constructor; inversion_clear Hp; [|by apply IH].
  rewrite Hf. by intros Hin%basename_sub.
Qed.

(** The first input with a base name, up to ASCII case. *)
Definition find_input (h : host) (paths : list path) (name : path) : option bytes :=
  f ← list_find (fun p => eq_ignore_ascii_case (basename p) name = true) paths;
  h_files h !! snd f.

Lemma find_input_file h paths files name : read_inputs h paths = inl files -> find_file files name = find_input h paths name.
Proof.
  intros H%read_inputs_spec. unfold find_file, find_input. induction H as [|p f paths files [Hf Hn] _ IH]; [done|].
  cbn [list_find]. rewrite Hn. case_decide; [by cbn; rewrite Hf|].
  destruct (list_find _ files) as [[i x]|], (list_find _ paths) as [[j y]|]; cbn in IH |- *; done.
Qed.

(** A run that finished has read its inputs and written their archive, and nothing else. *)
Lemma build_file_finished h paths output rep h' : build_file h paths output = (Finished rep, h') ->
  exists files img, read_inputs h paths = inl files /\ build files = Some img /\
    h_files h' = <[output := img]> (h_files h).
Proof.
  intros Hb. destruct (read_inputs h paths) as [files|e] eqn:Hr.
  2: { unfold build_file in Hb. rewrite Hr in Hb. injection Hb as -> _. exfalso. revert Hr.
       clear. induction paths as [|p paths IH]; cbn [read_inputs]; [done|].
       destruct (_ !! p); [|done]. by destruct (read_inputs h paths) as [|e]; [|intros [= ->]]. }
  destruct (h_writable h output) eqn:Hw; [|by unfold build_file in Hb; rewrite Hr, Hw in Hb].
  destruct (build_file_spec h paths output files Hr Hw) as (out & Hs & Hm). rewrite Hb in Hs, Hm. cbn [fst snd] in *.
  destruct (build files) as [img|] eqn:Hbuild; [|by destruct Hm]. destruct Hm as [-> _]. exists files, img. by rewrite Hs.
Qed.
