(* ===== verification/Ata.v ===== *)
(** * The ATA driver and mounting the archive (src/ata.rs, src/fs.rs [init])

    The driver talks to the disk through I/O ports; the device behind them is a
    parameter with a state of its own. *)

From S2P Require Import Prelude Fs.

Class Ports (D : Type) := {
  inb : D -> Z -> Z * D;
  inw : D -> Z -> Z * D;
  outb : D -> Z -> Z -> D;
}.

Definition BASE : Z := 0x1F0.
Definition CTRL : Z := 0x3F6.
Definition DATA : Z := BASE + 0.
Definition SECCNT : Z := BASE + 2.
Definition LBA0 : Z := BASE + 3.
Definition LBA1 : Z := BASE + 4.
Definition LBA2 : Z := BASE + 5.
Definition DRVSEL : Z := BASE + 6.
Definition STATUS : Z := BASE + 7.
Definition CMD : Z := BASE + 7.
Definition CMD_READ : Z := 0x20.
Definition BSY : Z := 0x80.
Definition DRQ : Z := 0x08.
Definition ERR_BIT : Z := 0x01.

Inductive Drive := Master | Slave.
Inductive AtaError := NoDrive | DiskError | AtaOverflow.
Inductive FsError := FsNoDrive | FsDiskError | BadMagic.

Section Driver.
Context {D : Type} `{!Ports D}.

Definition delay400ns (d : D) : D :=
  let d := snd (inb d CTRL) in
  let d := snd (inb d CTRL) in
  let d := snd (inb d CTRL) in
  snd (inb d CTRL).

(** The polling loop: [spins] counts busy reads, and the one after the millionth gives up. *)
Fixpoint wait_ready_from (reads_left : nat) (d : D) : (unit + AtaError) * D :=
  match reads_left with
  | O => (inr NoDrive, d)
  | S n =>
      let '(s, d) := inb d STATUS in
      if s =? 0xFF then (inr NoDrive, d) else
      if negb (Z.land s ERR_BIT =? 0) then (inr DiskError, d) else
      if (Z.land s BSY =? 0) && negb (Z.land s DRQ =? 0) then (inl tt, d) else
      if Z.land s BSY =? 0 then (inr NoDrive, d) else
      wait_ready_from n d
  end.

Definition MAX_READS : nat := Z.to_nat 1000001.
Definition wait_ready (d : D) : (unit + AtaError) * D := wait_ready_from MAX_READS d.

(** [n] data words, low byte first. *)
Fixpoint read_words (n : nat) (d : D) : bytes * D :=
  match n with
  | O => ([], d)
  | S n =>
      let '(v, d) := inw d DATA in
      let '(l, d) := read_words n d in
      (as_u8 v :: as_u8 (Z.shiftr v 8) :: l, d)
  end.

Fixpoint read_sectors (n : nat) (d : D) : (bytes + AtaError) * D :=
  match n with
  | O => (inl [], d)
  | S n =>
      match wait_ready d with
      | (inr e, d) => (inr e, d)
      | (inl _, d) =>
          let '(chunk, d) := read_words 256 d in
          match read_sectors n d with
          | (inr e, d) => (inr e, d)
          | (inl rest, d) => (inl (chunk ++ rest), d)
          end
      end
  end.

Definition drv_bit (drive : Drive) : Z := match drive with Master => 0 | Slave => 1 end.

(** [read] into a buffer of [len] bytes; the answer is what the buffer then holds. *)
Definition ata_read (d : D) (drive : Drive) (lba len : Z) : outcome ((bytes + AtaError) * D) :=
  _ ← assert_ (len mod 512 =? 0);
  let sectors := as_u32 (len / 512) in
  if sectors =? 0 then Ok (inl [], d) else
  if 0x100 <? sectors then Ok (inr AtaOverflow, d) else
  let d := outb d DRVSEL (Z.lor (Z.lor 0xE0 (Z.shiftl (drv_bit drive) 4))
                                (Z.land (as_u8 (Z.shiftr lba 24)) 0x0F)) in
  let d := delay400ns d in
  let d := outb d SECCNT (if sectors =? 256 then 0 else as_u8 sectors) in
  let d := outb d LBA0 (as_u8 lba) in
  let d := outb d LBA1 (as_u8 (Z.shiftr lba 8)) in
  let d := outb d LBA2 (as_u8 (Z.shiftr lba 16)) in
  let d := outb d CMD CMD_READ in
  Ok (read_sectors (Z.to_nat sectors) d).

(** The sector-by-sector retry after a failed bulk read: stops at the first failure. *)
Fixpoint read_singles (d : D) (drive : Drive) (lba : Z) (n : nat) : outcome (bytes * D) :=
  match n with
  | O => Ok ([], d)
  | S n =>
      '(r, d) ← ata_read d drive (as_u32 lba) 512;
      match r with
      | inr _ => Ok ([], d)
      | inl b => '(l, d) ← read_singles d drive (lba + 1) n; Ok (b ++ l, d)
      end
  end.

(** The bulk loop of [read_all] from sector [i] on.  [acc] is [buf[..end]]: up to here every
    read succeeded, so [end = i * 512]; what failed reads left behind it is truncated. *)
Fixpoint read_all_from (fuel : nat) (d : D) (drive : Drive) (max_sectors i : Z) (acc : bytes)
    : outcome ((bytes + AtaError) * D) :=
  match fuel with
  | O => Ok (inl acc, d)
  | S fuel =>
      if i <? max_sectors then
        let count := Z.min (max_sectors - i) 128 in
        '(r, d) ← ata_read d drive (as_u32 i) (count * 512);
        match r with
        | inl b => read_all_from fuel d drive max_sectors (i + 128) (acc ++ b)
        | inr NoDrive => Ok (inl acc, d)
        | inr _ =>
            if (length acc =? 0)%nat then Ok (inr DiskError, d) else
            '(l, d) ← read_singles d drive i (Z.to_nat count);
            Ok (inl (acc ++ l), d)
        end
      else Ok (inl acc, d)
  end.

Definition read_all (d : D) (drive : Drive) (max_bytes : Z) : outcome ((bytes + AtaError) * D) :=
  a ← max_bytes +! 511;
  let max_sectors := a / 512 in
  read_all_from (Z.to_nat ((max_sectors + 127) / 128)) d drive max_sectors 0 [].

(** [fs::init]: answers the file count and fills [ARCHIVE] unless it already is. *)
Definition fs_init (d : D) (archive : option bytes)
    : outcome ((Z + FsError) * option bytes * D) :=
  '(r, d) ← read_all d Slave (6 * 1024 * 1024);
  match r with
  | inr NoDrive => Ok (inr FsNoDrive, archive, d)
  | inr _ => Ok (inr FsDiskError, archive, d)
  | inl data =>
      if (Z.of_nat (length data) <? 8) then Ok (inr BadMagic, archive, d) else
      magic ← slice data 0 4;
      if negb (bool_decide (magic = MAGIC)) then Ok (inr BadMagic, archive, d) else
      cb ← slice data 4 8;
      Ok (inl (from_le cb), Some (default data archive), d)
  end.

(** ** Errors of the bulk load *)

Lemma read_all_errors fuel d drive ms i acc e d' :
  read_all_from fuel d drive ms i acc = Ok (inr e, d') -> e = DiskError.
Proof.
  revert d i acc. induction fuel as [|fuel IH]; intros d i acc H; cbn [read_all_from] in H; [done|].
  destruct (i <? ms); [|done]. apply bind_ok in H as ([r d1] & _ & H).
  destruct r as [b|[]]; [by eapply IH|done|..]; destruct (length acc =? 0)%nat;
    try (by injection H as <- <-); apply bind_ok in H as ([l d2] & _ & H); done.
Qed.

(** A missing disk is not reported as such: whatever the device answers, [fs::init]
    never returns [FsError::NoDrive] ([read_all] turns it into an empty image). *)
Theorem fs_init_never_no_drive d archive archive' d' :
  fs_init d archive <> Ok (inr FsNoDrive, archive', d').
Proof.
  intros H. unfold fs_init in H. apply bind_ok in H as ([r d1] & E & H).
  destruct r as [data|e].
  - destruct (_ <? 8); [done|]. apply bind_ok in H as (m & _ & H). destruct (negb _); [done|].
    by apply bind_ok in H as (cb & _ & H).
  - unfold read_all in E. apply bind_ok in E as (a & _ & E). apply read_all_errors in E as ->. done.
Qed.

End Driver.

(** ** The command block *)

(** A device with a log of the port writes. *)
#[global] Instance logged {D} `{!Ports D} : Ports (D * list (Z * Z)) := {
  inb d p := let '(v, x) := inb (fst d) p in (v, (x, snd d));
  inw d p := let '(v, x) := inw (fst d) p in (v, (x, snd d));
  outb d p v := (outb (fst d) p v, snd d ++ [(p, v)]);
}.

Section Log.
Context {D : Type} `{!Ports D}.

Lemma inb_log (d : D * list (Z * Z)) p : snd (snd (inb d p)) = snd d.
Proof. cbn. by destruct (inb (fst d) p). Qed.

Lemma delay_log (d : D * list (Z * Z)) : snd (delay400ns d) = snd d.
Proof. unfold delay400ns. by rewrite !inb_log. Qed.

Lemma wait_log n (d : D * list (Z * Z)) : snd (snd (wait_ready_from n d)) = snd d.
Proof.
  revert d. induction n as [|n IH]; intros d; [done|]. cbn [wait_ready_from].
  pose proof (inb_log d STATUS) as Hl. destruct (inb d STATUS) as [s d1]. cbn [snd] in Hl.
  repeat case_match; cbn [snd]; rewrite ?IH; done.
Qed.

Lemma words_log n (d : D * list (Z * Z)) : snd (snd (read_words n d)) = snd d.
Proof.
  revert d. induction n as [|n IH]; intros d; [done|]. cbn [read_words].
  destruct (inw d DATA) as [v d1] eqn:E. cbn in E. destruct (inw (fst d) DATA) as [v' x]. injection E as <- <-.
  specialize (IH (x, snd d)). destruct (read_words n (x, snd d)) as [l d2]. exact IH.
Qed.

Lemma sectors_log n (d : D * list (Z * Z)) : snd (snd (read_sectors n d)) = snd d.
Proof.
  revert d. induction n as [|n IH]; intros d; [done|]. cbn [read_sectors].
  pose proof (wait_log MAX_READS d) as Hw. fold (wait_ready d) in Hw.
  destruct (wait_ready d) as [[[]|e] d1]; [|exact Hw]. cbn [snd] in Hw.
  pose proof (words_log 256 d1) as Hr. destruct (read_words 256 d1) as [c d2]. cbn [snd] in Hr.
  specialize (IH d2). destruct (read_sectors n d2) as [[]]; cbn [snd] in *; congruence.
Qed.

Lemma drvsel_value drive h : 0 <= h < 16 ->
  Z.lor (Z.lor 0xE0 (Z.shiftl (drv_bit drive) 4)) (Z.land (as_u8 h) 0x0F) = 16 * (14 + drv_bit drive) + h.
Proof.
  intros Hh. assert (Hcase : h ∈ seqZ 0 16) by (apply elem_of_seqZ; lia). clear Hh. revert Hcase.
  change (seqZ 0 16) with [0; 1; 2; 3; 4; 5; 6; 7; 8; 9; 10; 11; 12; 13; 14; 15].
  rewrite !elem_of_cons, elem_of_nil. intros Hcase. destruct drive; destruct_or! Hcase; subst; done.
Qed.

(** The command block: reading 1 to 256 sectors at a 28-bit address programs exactly
    the six task-file registers, in order: the drive-select byte has the LBA and drive
    bits, the four address parts reassemble to the address, and the count register
    holds the number of sectors modulo 256. *)
Theorem ata_read_command (d : D) drive lba n :
  0 <= lba < 2 ^ 28 -> 1 <= n <= 256 ->
  exists r x sel b0 b1 b2,
    ata_read (d, []) drive lba (n * 512) =
      Ok (r, (x, [(DRVSEL, sel); (SECCNT, n mod 256); (LBA0, b0); (LBA1, b1); (LBA2, b2); (CMD, CMD_READ)])) /\
    b0 + 2 ^ 8 * b1 + 2 ^ 16 * b2 + 2 ^ 24 * (sel mod 16) = lba /\
    sel / 16 = 14 + drv_bit drive /\ Forall (fun b => 0 <= b < 256) [sel; b0; b1; b2].
Proof.
  intros Hl Hn. unfold ata_read. rewrite Z_mod_mult. cbn [Z.eqb assert_ mbind outcome_bind].
  rewrite Z.div_mul by lia. unfold as_u32. rewrite Z.mod_small by lia.
  destruct (Z.eqb_spec n 0); [lia|]. destruct (Z.ltb_spec 0x100 n); [lia|].
  set (sel := Z.lor _ _). set (d6 := outb _ CMD CMD_READ).
  assert (Hlog : snd d6 = [(DRVSEL, sel); (SECCNT, if n =? 256 then 0 else as_u8 n); (LBA0, as_u8 lba);
    (LBA1, as_u8 (Z.shiftr lba 8)); (LBA2, as_u8 (Z.shiftr lba 16)); (CMD, CMD_READ)]).
  { unfold d6. cbn [outb logged snd]. rewrite delay_log. reflexivity. }
  assert (Hc : (if n =? 256 then 0 else as_u8 n) = n mod 256) by (destruct (Z.eqb_spec n 256) as [->|]; done).
  pose proof (sectors_log (Z.to_nat n) d6) as Hs. destruct (read_sectors (Z.to_nat n) d6) as [r [x lg]].
  cbn [snd] in Hs. exists r, x, sel, (as_u8 lba), (as_u8 (Z.shiftr lba 8)), (as_u8 (Z.shiftr lba 16)).
  split; [by rewrite Hs, Hlog, Hc|].
  assert (Hhi : 0 <= Z.shiftr lba 24 < 16).
  { rewrite Z.shiftr_div_pow2 by lia. split; [apply Z.div_pos; lia|apply Z.div_lt_upper_bound; lia]. }
  assert (Hsel : sel = 16 * (14 + drv_bit drive) + Z.shiftr lba 24).
  { by apply drvsel_value. }
  clearbody sel. subst sel. unfold as_u8. rewrite !Z.shiftr_div_pow2 in * by lia.
  change (2 ^ 8) with 256 in *. change (2 ^ 16) with 65536 in *. change (2 ^ 24) with 16777216 in *.
  change (2 ^ 28) with 268435456 in *.
  assert (0 <= drv_bit drive <= 1) by (destruct drive; cbn; lia).
  split_and!; [Z.div_mod_to_equations; lia|Z.div_mod_to_equations; lia|].
  repeat constructor; Z.div_mod_to_equations; lia.
Qed.

End Log.

(** A device that is never ready and answers zero words. *)
#[global] Instance idle_ports : Ports unit := {
  inb d _ := (0, d);
  inw d _ := (0, d);
  outb d _ _ := d;
}.

Lemma ata_read_command_witness : exists r x sel b0 b1 b2,
  ata_read (tt, []) Slave 0x1234567 (256 * 512) =
    Ok (r, (x, [(DRVSEL, sel); (SECCNT, 0); (LBA0, b0); (LBA1, b1); (LBA2, b2); (CMD, CMD_READ)])) /\
  b0 + 2 ^ 8 * b1 + 2 ^ 16 * b2 + 2 ^ 24 * (sel mod 16) = 0x1234567.
Proof.
  destruct (ata_read_command tt Slave 0x1234567 256) as (r & x & sel & b0 & b1 & b2 & E & H & _); [lia|lia|].
  exists r, x, sel, b0, b1, b2. split; [exact E|exact H].
Defined.
