(* ===== verification/Disk.v ===== *)
(** * From the disk to an open file (src/ata.rs on an ATA disk, src/fs.rs)

    The disk behind the ports is hardware.  [AtaDisk] says what the driver relies on, after
    the PIO data-in protocol of the ATA standard: a device takes a command when it is ready,
    is busy for a while, and then offers one sector after the other, word by word, or
    reports an error at an address it does not have; a drive that is not there answers
    neither.  Against this interface, the driver reads what is on the disk, and mounting
    finds what the host tool packed. *)

From stdpp Require Import gmap.
From S2P Require Import Prelude Fmt Fs MkCxfs Ata.

(** ** The protocol *)

Record ata_regs := mk_regs { r_sel : Z; r_cnt : Z; r_lba0 : Z; r_lba1 : Z; r_lba2 : Z }.

Definition regs_drive (r : ata_regs) : Drive := if Z.testbit (r_sel r) 4 then Slave else Master.
Definition regs_lba (r : ata_regs) : Z :=
  r_lba0 r + 2 ^ 8 * r_lba1 r + 2 ^ 16 * r_lba2 r + 2 ^ 24 * (r_sel r mod 16).
Definition regs_count (r : ata_regs) : Z := if r_cnt r =? 0 then 256 else r_cnt r.

(** What the device does: it is ready; or it fetches the sector [lba], the first of [n] to go,
    and is busy for [k] more reads of the status; or it has bytes of that sector to deliver. *)
Inductive ata_phase :=
  | Ready (r : ata_regs)
  | Fetch (drive : Drive) (lba n : Z) (k : nat)
  | Transfer (l : bytes) (drive : Drive) (lba n : Z).

Definition sectors_of (img : bytes) : Z := Z.of_nat (length img) / 512.
Definition sectors_from (img : bytes) (lba n : Z) : bytes :=
  take (Z.to_nat (512 * n)) (drop (Z.to_nat (512 * lba)) img).

(** The status while busy, with data, after an error, and of a drive that is not there. *)
Definition st_busy (s : Z) : Prop := Z.land s BSY <> 0 /\ Z.land s ERR_BIT = 0 /\ s <> 0xFF.
Definition st_data (s : Z) : Prop := Z.land s BSY = 0 /\ Z.land s DRQ <> 0 /\ Z.land s ERR_BIT = 0.
Definition st_error (s : Z) : Prop := Z.land s ERR_BIT <> 0 /\ s <> 0xFF.
Definition st_absent (s : Z) : Prop :=
  s = 0xFF \/ Z.land s BSY = 0 /\ Z.land s DRQ = 0 /\ Z.land s ERR_BIT = 0.

(** The most reads of the status that find the device busy. *)
Definition PATIENCE : Z := 1000000.

Class AtaDisk (D : Type) `{!Ports D} (disks : Drive -> option bytes) := {
  ad_rep : D -> ata_phase -> Prop;
  ad_settle d r : ad_rep d (Ready r) -> ad_rep (snd (inb d CTRL)) (Ready r);
  ad_sel d r v : ad_rep d (Ready r) -> 0 <= v < 256 ->
    ad_rep (outb d DRVSEL v) (Ready (mk_regs v (r_cnt r) (r_lba0 r) (r_lba1 r) (r_lba2 r)));
  ad_cnt d r v : ad_rep d (Ready r) -> 0 <= v < 256 ->
    ad_rep (outb d SECCNT v) (Ready (mk_regs (r_sel r) v (r_lba0 r) (r_lba1 r) (r_lba2 r)));
  ad_lba0 d r v : ad_rep d (Ready r) -> 0 <= v < 256 ->
    ad_rep (outb d LBA0 v) (Ready (mk_regs (r_sel r) (r_cnt r) v (r_lba1 r) (r_lba2 r)));
  ad_lba1 d r v : ad_rep d (Ready r) -> 0 <= v < 256 ->
    ad_rep (outb d LBA1 v) (Ready (mk_regs (r_sel r) (r_cnt r) (r_lba0 r) v (r_lba2 r)));
  ad_lba2 d r v : ad_rep d (Ready r) -> 0 <= v < 256 ->
    ad_rep (outb d LBA2 v) (Ready (mk_regs (r_sel r) (r_cnt r) (r_lba0 r) (r_lba1 r) v));
  (** bit 6 of the drive register selects addressing by sector number *)
  ad_command d r : ad_rep d (Ready r) -> Z.testbit (r_sel r) 6 = true ->
    exists k, Z.of_nat k <= PATIENCE /\
      ad_rep (outb d CMD CMD_READ) (Fetch (regs_drive r) (regs_lba r) (regs_count r) k);
  ad_busy d drive lba n k : ad_rep d (Fetch drive lba n (S k)) ->
    let '(s, d) := inb d STATUS in st_busy s /\ ad_rep d (Fetch drive lba n k);
  ad_fetched d drive lba n : ad_rep d (Fetch drive lba n 0) ->
    let '(s, d) := inb d STATUS in
    match disks drive with
    | None => st_absent s /\ exists r, ad_rep d (Ready r)
    | Some img =>
        if lba <? sectors_of img then st_data s /\ ad_rep d (Transfer (sectors_from img lba 1) drive lba n)
        else st_error s /\ exists r, ad_rep d (Ready r)
    end;
  ad_word d b0 b1 l drive lba n : ad_rep d (Transfer (b0 :: b1 :: l) drive lba n) ->
    let '(v, d) := inw d DATA in
    v = b0 + 256 * b1 /\
    if (length l =? 0)%nat then
      if n =? 1 then exists r, ad_rep d (Ready r)
      else exists k, Z.of_nat k <= PATIENCE /\ ad_rep d (Fetch drive (lba + 1) (n - 1) k)
    else ad_rep d (Transfer l drive lba n);
}.
#[export] Hint Mode AtaDisk ! - - : typeclass_instances.

(** ** Slices of an image *)

Definition image_ok (img : bytes) : Prop :=
  Forall (fun b => 0 <= b < 256) img /\ Z.of_nat (length img) mod 512 = 0.

Lemma image_length img : image_ok img -> Z.of_nat (length img) = 512 * sectors_of img.
Proof. intros [_ H]. unfold sectors_of. Z.div_mod_to_equations. lia. Qed.

Lemma sectors_from_app img lba n k : 0 <= lba -> 0 <= n -> 0 <= k ->
  sectors_from img lba n ++ sectors_from img (lba + n) k = sectors_from img lba (n + k).
Proof.
  intros. unfold sectors_from.
  replace (Z.to_nat (512 * (lba + n))) with (Z.to_nat (512 * lba) + Z.to_nat (512 * n))%nat by lia.
  replace (Z.to_nat (512 * (n + k))) with (Z.to_nat (512 * n) + Z.to_nat (512 * k))%nat by lia.
  rewrite <- drop_drop, <- (take_drop (Z.to_nat (512 * n)) (take (_ + _) _)).
  by rewrite take_take, skipn_firstn_comm, Nat.min_l, Nat.add_comm, Nat.add_sub by lia.
Qed.

Lemma sectors_from_start img n k : 0 <= n -> 0 <= k ->
  sectors_from img 0 n ++ sectors_from img n k = sectors_from img 0 (n + k).
Proof. intros. by apply (sectors_from_app img 0 n k). Qed.

Lemma sectors_from_length img lba n : image_ok img -> 0 <= lba -> 0 <= n -> lba + n <= sectors_of img ->
  length (sectors_from img lba n) = Z.to_nat (512 * n).
Proof.
  intros Hi%image_length ???. unfold sectors_from. rewrite length_take, length_drop. lia.
Qed.

(** ** Archives of the host tool *)

Lemma to_le_range n v : Forall (fun b => 0 <= b < 256) (to_le n v).
Proof. revert v. induction n as [|n IH]; intros v; cbn [to_le]; constructor; [apply Z.mod_pos_bound; lia|apply IH]. Qed.

Lemma concat_entries_range es b : concat_entries es = Some b -> Forall (fun b => 0 <= b < 256) b.
Proof.
  revert b. induction es as [|[[name off] sz] es IH]; intros b; cbn [concat_entries]; [intros [= <-]; constructor|].
  unfold entry_bytes, pack_name, pack_u32. destruct (forallb _ name && _) eqn:En; [|done]. cbn [mbind option_bind].
  destruct ((0 <=? off) && _); [|done]. cbn [mbind option_bind]. destruct ((0 <=? sz) && _); [|done]. cbn [mbind option_bind].
  destruct (concat_entries es) as [r|]; [|done]. cbn [mbind option_bind]. intros <-%Some_inj.
  apply andb_prop in En as [En _]. rewrite forallb_forall in En.
  rewrite !Forall_app. split_and!; try apply to_le_range; [| |by apply IH].
  - apply Forall_forall. intros x Hx%list_elem_of_In%En. lia.
  - apply Forall_replicate. lia.
Qed.

(** The shape of an archive. *)
Lemma build_shape files img : build files = Some img ->
  exists n es pad, pack_u32 (Z.of_nat (length files)) = Some n /\ Forall (fun b => 0 <= b < 256) es /\
    img = MAGIC ++ n ++ es ++ concat (snd <$> files) ++ replicate pad 0 /\ Z.of_nat (length img) mod 512 = 0.
Proof.
  unfold build. destruct (pack_u32 _) as [n|]; [|done]. cbn [mbind option_bind].
  destruct (concat_entries _) as [es|] eqn:Ee; [|done]. cbn [mbind option_bind]. apply concat_entries_range in Ee.
  set (out := MAGIC ++ n ++ es ++ concat (snd <$> files)). unfold SECTOR. set (rem := Z.of_nat (length out) mod 512).
  intros <-%Some_inj. exists n, es, (if rem =? 0 then O else Z.to_nat (512 - rem)). split_and!; [done..| |].
  - unfold out. rewrite <- !app_assoc. by destruct (rem =? 0).
  - rewrite length_app. unfold rem. destruct (Z.eqb_spec (Z.of_nat (length out) mod 512) 0); cbn [length]; rewrite ?length_replicate;
      Z.div_mod_to_equations; lia.
Qed.

(** An archive is whole sectors of bytes. *)
Lemma build_image_ok files img : build files = Some img -> Forall (fun f => Forall (fun b => 0 <= b < 256) (snd f)) files ->
  image_ok img.
Proof.
  intros (n & es & pad & Hn & He & Himg & Hlen)%build_shape Hf. split; [|done]. rewrite Himg.
  unfold pack_u32 in Hn. destruct (_ && _); [|done]. apply Some_inj in Hn as <-.
  rewrite !Forall_app. split_and!; [|apply (to_le_range 4)|done| |apply Forall_replicate; lia].
  - repeat constructor; lia.
  - apply Forall_concat, Forall_fmap. exact Hf.
Qed.

(** What [fs::init] looks at. *)
Lemma build_header files img : build files = Some img ->
  take 4 img = MAGIC /\ from_le (take 4 (drop 4 img)) = Z.of_nat (length files).
Proof.
  intros (n & es & pad & Hn & _ & -> & _)%build_shape. destruct (pack_u32_ok _ _ Hn) as [Hl Hv].
  split; [done|]. change (drop 4 (MAGIC ++ ?x)) with x. rewrite take_app_le by lia. by rewrite take_ge by lia.
Qed.

(** ** The driver on a disk *)

(** The byte of the drive register: sector addressing, the drive, four bits of address. *)
Lemma sel_bits drive h : 0 <= h < 16 -> let sel := 16 * (14 + drv_bit drive) + h in
  Z.testbit sel 6 = true /\ (if Z.testbit sel 4 then Slave else Master) = drive /\ sel mod 16 = h.
Proof.
  intros Hh. assert (Hcase : h ∈ seqZ 0 16) by (apply elem_of_seqZ; lia). clear Hh. revert Hcase.
  change (seqZ 0 16) with [0; 1; 2; 3; 4; 5; 6; 7; 8; 9; 10; 11; 12; 13; 14; 15].
  rewrite !elem_of_cons, elem_of_nil. intros Hcase. destruct drive; destruct_or! Hcase; subst; done.
Qed.

Section Driver.
Context {D : Type} `{!Ports D} (disks : Drive -> option bytes) `{HD : !AtaDisk D disks}.
Hypothesis disks_ok : forall drive img, disks drive = Some img -> image_ok img.

Definition disk_ready (d : D) : Prop := exists r, ad_rep d (Ready r).

Lemma delay_ready d r : ad_rep d (Ready r) -> ad_rep (delay400ns d) (Ready r).
Proof. intros H. unfold delay400ns. by do 4 apply ad_settle. Qed.

Lemma wait_busy drive lba n k d fuel : ad_rep d (Fetch drive lba n k) -> (k < fuel)%nat ->
  exists d', wait_ready_from fuel d = wait_ready_from (fuel - k) d' /\ ad_rep d' (Fetch drive lba n 0).
Proof.
  revert d fuel. induction k as [|k IH]; intros d fuel Hr Hf.
  - exists d. by rewrite Nat.sub_0_r.
  - destruct fuel as [|fuel]; [lia|]. cbn [wait_ready_from]. pose proof (ad_busy d drive lba n k Hr) as Hb.
    destruct (inb d STATUS) as [s d1]. destruct Hb as [(Hb & He & Hff) Hr1].
    rewrite (proj2 (Z.eqb_neq s 255) Hff), He. cbn [Z.eqb negb]. rewrite (proj2 (Z.eqb_neq _ 0) Hb). cbn [andb].
    apply IH; [done|lia].
Qed.

(** What the wait for a sector comes to. *)
Lemma wait_fetch drive lba n k d : ad_rep d (Fetch drive lba n k) -> Z.of_nat k <= PATIENCE ->
  exists d', match disks drive with
    | None => wait_ready d = (inr NoDrive, d') /\ disk_ready d'
    | Some img =>
        if lba <? sectors_of img
        then wait_ready d = (inl tt, d') /\ ad_rep d' (Transfer (sectors_from img lba 1) drive lba n)
        else wait_ready d = (inr DiskError, d') /\ disk_ready d'
    end.
Proof.
  intros Hr Hk. unfold PATIENCE in Hk. assert (Hm : Z.of_nat MAX_READS = 1000001) by (unfold MAX_READS; lia).
  destruct (wait_busy drive lba n k d MAX_READS Hr) as (d1 & E & Hr1); [lia|]. unfold wait_ready. rewrite E.
  assert (exists f, (MAX_READS - k = S f)%nat) as [f ->] by (exists (MAX_READS - k - 1)%nat; lia).
  pose proof (ad_fetched d1 drive lba n Hr1) as Hf. cbn [wait_ready_from]. destruct (inb d1 STATUS) as [s d2]. exists d2.
  destruct (disks drive) as [img|]; [destruct (lba <? sectors_of img)|].
  - destruct Hf as [(H1 & H2 & H3) Hf]. split; [|done]. rewrite H1, H3, (proj2 (Z.eqb_neq _ 0) H2).
    by destruct (Z.eqb_spec s 255) as [->|]; [cbn in H1|].
  - destruct Hf as [(H1 & H2) Hf]. split; [|done]. by rewrite (proj2 (Z.eqb_neq s 255) H2), (proj2 (Z.eqb_neq _ 0) H1).
  - destruct Hf as [[->|(H1 & H2 & H3)] Hf]; (split; [|done]); [done|]. rewrite H1, H2, H3. cbn. by destruct (s =? 255).
Qed.

(** Where the device is once the words of a sector are read. *)
Definition after_sector (drive : Drive) (lba n : Z) (d : D) : Prop :=
  if n =? 1 then disk_ready d else exists k, Z.of_nat k <= PATIENCE /\ ad_rep d (Fetch drive (lba + 1) (n - 1) k).

Lemma read_words_sector w l drive lba n d : ad_rep d (Transfer l drive lba n) ->
  length l = (2 * S w)%nat -> Forall (fun b => 0 <= b < 256) l ->
  exists d', read_words (S w) d = (l, d') /\ after_sector drive lba n d'.
Proof.
  revert l d. induction w as [|w IH]; intros l d Hr Hl Hb; destruct l as [|b0 [|b1 l]]; try done;
    apply Forall_cons_1 in Hb as [H0 [H1 Hb]%Forall_cons_1]; pose proof (ad_word d b0 b1 l drive lba n Hr) as Hw;
    cbn [read_words]; destruct (inw d DATA) as [v d1]; destruct Hw as [-> Hw];
    assert (as_u8 (b0 + 256 * b1) = b0) as -> by (unfold as_u8; Z.div_mod_to_equations; lia);
    assert (as_u8 (Z.shiftr (b0 + 256 * b1) 8) = b1) as ->
      by (unfold as_u8; rewrite Z.shiftr_div_pow2 by lia; change (2 ^ 8) with 256; Z.div_mod_to_equations; lia).
  - destruct l; [|done]. by exists d1.
  - destruct l as [|b2 l]; [cbn in Hl; lia|].
    destruct (IH (b2 :: l) d1) as (d' & E & Ha); [done|cbn in Hl |- *; lia|done|].
    exists d'. split; [|done]. cbn [read_words] in E. cbn [read_words]. by rewrite E.
Qed.

(** The first sector of a command, and what is left to do. *)
Lemma read_sectors_first n img drive lba c k d : disks drive = Some img -> 0 <= lba ->
  ad_rep d (Fetch drive lba c k) -> Z.of_nat k <= PATIENCE ->
  exists d1, if lba <? sectors_of img
    then after_sector drive lba c d1 /\ read_sectors (S n) d =
      match read_sectors n d1 with
      | (inr e, d) => (inr e, d)
      | (inl rest, d) => (inl (sectors_from img lba 1 ++ rest), d)
      end
    else disk_ready d1 /\ read_sectors (S n) d = (inr DiskError, d1).
Proof.
  intros Hi Hlba Hr Hk. pose proof (disks_ok _ _ Hi) as Hok.
  destruct (wait_fetch _ _ _ _ _ Hr Hk) as (d1 & Hw). rewrite Hi in Hw. cbn [read_sectors].
  destruct (Z.ltb_spec lba (sectors_of img)); destruct Hw as [-> Hd1]; [|by exists d1].
  destruct (read_words_sector 255 (sectors_from img lba 1) drive lba c d1 Hd1) as (d2 & Ew & Ha).
  - rewrite sectors_from_length by (done || lia). lia.
  - apply Forall_take, Forall_drop, Hok.
  - change (S 255) with 256%nat in Ew. rewrite Ew. by exists d2.
Qed.

(** [n] sectors from the one the device is fetching on. *)
Lemma read_sectors_disk n img drive lba k d : disks drive = Some img -> 0 <= lba ->
  ad_rep d (Fetch drive lba (Z.of_nat (S n)) k) -> Z.of_nat k <= PATIENCE ->
  exists d', disk_ready d' /\ read_sectors (S n) d =
    (if lba + Z.of_nat (S n) <=? sectors_of img then inl (sectors_from img lba (Z.of_nat (S n))) else inr DiskError, d').
Proof.
  intros Hi. revert lba k d. induction n as [|n IH]; intros lba k d Hlba Hr Hk.
  - destruct (read_sectors_first 0 _ _ _ _ _ _ Hi Hlba Hr Hk) as (d1 & Hd1). exists d1. revert Hd1.
    destruct (Z.ltb_spec lba (sectors_of img)); intros [Ha ->]; (split; [done|]);
      destruct (Z.leb_spec (lba + Z.of_nat 1) (sectors_of img)); try lia; cbn [read_sectors]; by rewrite ?app_nil_r.
  - destruct (read_sectors_first (S n) _ _ _ _ _ _ Hi Hlba Hr Hk) as (d1 & Hd1). revert Hd1.
    destruct (Z.ltb_spec lba (sectors_of img)); intros [Ha ->].
    2: { exists d1. split; [done|]. by destruct (Z.leb_spec (lba + Z.of_nat (S (S n))) (sectors_of img)); [lia|]. }
    unfold after_sector in Ha. destruct (Z.eqb_spec (Z.of_nat (S (S n))) 1); [lia|]. destruct Ha as (k' & Hk' & Hr').
    replace (Z.of_nat (S (S n)) - 1) with (Z.of_nat (S n)) in Hr' by lia.
    destruct (IH (lba + 1) k' d1) as (d' & Hd' & ->); [lia|done|done|]. exists d'. split; [done|].
    replace (lba + 1 + Z.of_nat (S n)) with (lba + Z.of_nat (S (S n))) by lia.
    destruct (_ <=? _); [|done]. rewrite sectors_from_app by lia. do 3 f_equal. lia.
Qed.

(** The registers [read] programs make the device fetch what was asked for. *)
Lemma ata_read_fetches d drive lba n : disk_ready d -> 0 <= lba < 2 ^ 28 -> 1 <= n <= 256 ->
  exists k d', Z.of_nat k <= PATIENCE /\ ad_rep d' (Fetch drive lba n k) /\
    ata_read d drive lba (n * 512) = Ok (read_sectors (Z.to_nat n) d').
Proof.
  intros [r Hr] Hl Hn. unfold ata_read. rewrite Z_mod_mult, Z.div_mul by lia. cbn [Z.eqb assert_ mbind outcome_bind].
  unfold as_u32 at 1 2 3 4 5. rewrite Z.mod_small by lia.
  destruct (Z.eqb_spec n 0); [lia|]. destruct (Z.ltb_spec 0x100 n); [lia|].
  assert (Hhi : 0 <= Z.shiftr lba 24 < 16).
  { rewrite Z.shiftr_div_pow2 by lia. split; [apply Z.div_pos; lia|apply Z.div_lt_upper_bound; lia]. }
  rewrite drvsel_value by done. set (sel := 16 * (14 + drv_bit drive) + Z.shiftr lba 24).
  set (cnt := if n =? 256 then 0 else as_u8 n).
  assert (Hsel : 0 <= sel < 256) by (unfold sel; destruct drive; cbn; lia).
  assert (Hcnt : 0 <= cnt < 256) by (unfold cnt, as_u8; destruct (n =? 256); [|apply Z.mod_pos_bound]; lia).
  assert (Hb : forall z, 0 <= as_u8 z < 256) by (intros z; apply Z.mod_pos_bound; lia).
  pose proof (ad_lba2 _ _ _ (ad_lba1 _ _ _ (ad_lba0 _ _ _ (ad_cnt _ _ _ (delay_ready _ _ (ad_sel _ _ _ Hr Hsel))
    Hcnt) (Hb lba)) (Hb (Z.shiftr lba 8))) (Hb (Z.shiftr lba 16))) as Hp.
  apply ad_command in Hp; [|cbn [r_sel]; by apply sel_bits].
  destruct Hp as (k & Hk & Hp). exists k. eexists. split; [exact Hk|]. split; [|done].
  revert Hp. unfold regs_drive, regs_lba, regs_count. cbn [r_sel r_cnt r_lba0 r_lba1 r_lba2].
  destruct (sel_bits drive (Z.shiftr lba 24) Hhi) as (_ & Hd & Hm). fold sel in Hd, Hm. rewrite Hd, Hm.
  assert ((if cnt =? 0 then 256 else cnt) = n) as ->.
  { unfold cnt. destruct (Z.eqb_spec n 256); [done|]. unfold as_u8. rewrite Z.mod_small by lia. by destruct (Z.eqb_spec n 0). }
  intros Hp. eapply eq_ind; [exact Hp|]. f_equal. unfold as_u8. rewrite !Z.shiftr_div_pow2 by lia.
  change (2 ^ 8) with 256. change (2 ^ 16) with 65536. change (2 ^ 24) with 16777216. change (2 ^ 28) with 268435456 in Hl.
  Z.div_mod_to_equations. lia.
Qed.

(** A read of up to 256 sectors answers what is on the disk, if it has them all, and an
    error otherwise; without a disk there is no answer. *)
Lemma ata_read_disk d drive lba n : disk_ready d -> 0 <= lba < 2 ^ 28 -> 1 <= n <= 256 ->
  exists d', disk_ready d' /\ ata_read d drive lba (n * 512) = Ok
    (match disks drive with
     | None => inr NoDrive
     | Some img => if lba + n <=? sectors_of img then inl (sectors_from img lba n) else inr DiskError
     end, d').
Proof.
  intros Hd Hl Hn. destruct (ata_read_fetches d drive lba n Hd Hl Hn) as (k & d1 & Hk & Hr & ->).
  assert (exists w, Z.to_nat n = S w) as [w Hw] by (exists (Z.to_nat n - 1)%nat; lia). rewrite Hw.
  destruct (disks drive) as [img|] eqn:Hi.
  - replace n with (Z.of_nat (S w)) in Hr |- * by lia.
    destruct (read_sectors_disk w img drive lba k d1 Hi ltac:(lia) Hr Hk) as (d' & Hd' & ->). by exists d'.
  - destruct (wait_fetch _ _ _ _ _ Hr Hk) as (d' & Hw'). rewrite Hi in Hw'. destruct Hw' as [E Hd'].
    exists d'. split; [done|]. cbn [read_sectors]. by rewrite E.
Qed.

(** Single sectors, as far as the disk goes. *)
Lemma read_singles_disk img drive n d lba : disks drive = Some img -> disk_ready d ->
  0 <= lba <= sectors_of img -> lba + Z.of_nat n < 2 ^ 28 -> sectors_of img < lba + Z.of_nat n ->
  exists d', disk_ready d' /\ read_singles d drive lba n = Ok (sectors_from img lba (sectors_of img - lba), d').
Proof.
  intros Hi. revert d lba. induction n as [|n IH]; intros d lba Hd Hl Hmax Hs; [lia|]. cbn [read_singles].
  unfold as_u32. rewrite Z.mod_small by lia.
  destruct (ata_read_disk d drive lba 1 Hd ltac:(lia) ltac:(lia)) as (d1 & Hd1 & E). rewrite Hi in E.
  change (1 * 512) with 512 in E. rewrite E. cbn [mbind outcome_bind].
  destruct (Z.leb_spec (lba + 1) (sectors_of img)).
  - destruct (IH d1 (lba + 1)) as (d2 & Hd2 & ->); [done|lia..|]. exists d2. split; [done|]. cbn [mbind outcome_bind].
    rewrite sectors_from_app by lia. do 3 f_equal. lia.
  - exists d1. split; [done|]. do 2 f_equal. by replace (sectors_of img - lba) with 0 by lia.
Qed.

(** [read_all] takes the disk up to its end or the given size; but a disk that ends within
    the first 128 sectors is an error, the bulk read of them failing before anything else
    was read. *)
Definition loaded (img : bytes) (max_sectors : Z) : bytes + AtaError :=
  if sectors_of img <? Z.min 128 max_sectors then inr DiskError
  else inl (sectors_from img 0 (Z.min (sectors_of img) max_sectors)).

Lemma read_all_from_disk img drive ms fuel d i : disks drive = Some img -> disk_ready d ->
  0 <= i -> ms < 2 ^ 28 -> ms - i <= 128 * Z.of_nat fuel -> Z.min i ms <= sectors_of img -> 0 <= ms ->
  i = 0 \/ Z.min 128 ms <= sectors_of img ->
  exists d', disk_ready d' /\ read_all_from fuel d drive ms i (sectors_from img 0 (Z.min i ms)) = Ok (loaded img ms, d').
Proof.
  intros Hi. pose proof (disks_ok _ _ Hi) as Hok. revert d i. induction fuel as [|fuel IH]; intros d i Hd H0 Hms Hf Hin Hms0 Hfirst.
  { exists d. split; [done|]. cbn [read_all_from]. unfold loaded. destruct (Z.ltb_spec (sectors_of img) (Z.min 128 ms)); [lia|].
    by replace (Z.min (sectors_of img) ms) with (Z.min i ms) by lia. }
  cbn [read_all_from]. destruct (Z.ltb_spec i ms).
  2: { exists d. split; [done|]. unfold loaded. destruct (Z.ltb_spec (sectors_of img) (Z.min 128 ms)); [lia|].
       by replace (Z.min (sectors_of img) ms) with (Z.min i ms) by lia. }
  rewrite (Z.min_l i ms) in * by lia. set (count := Z.min (ms - i) 128). unfold as_u32. rewrite (Z.mod_small i) by lia.
  destruct (ata_read_disk d drive i count Hd ltac:(lia) ltac:(lia)) as (d1 & Hd1 & E). rewrite Hi in E. rewrite E.
  cbn [mbind outcome_bind]. destruct (Z.leb_spec (i + count) (sectors_of img)).
  - rewrite sectors_from_start by lia. replace (i + count) with (Z.min (i + 128) ms) by lia.
    apply IH; try lia; done.
  - assert (Hlen : length (sectors_from img 0 i) = Z.to_nat (512 * i)) by (apply sectors_from_length; (done || lia)).
    rewrite Hlen. unfold loaded. destruct (Nat.eqb_spec (Z.to_nat (512 * i)) 0).
    { exists d1. split; [done|]. by destruct (Z.ltb_spec (sectors_of img) (Z.min 128 ms)); [|lia]. }
    destruct (read_singles_disk img drive (Z.to_nat count) d1 i Hi Hd1) as (d2 & Hd2 & ->); [lia..|].
    exists d2. split; [done|]. cbn [mbind outcome_bind]. destruct (Z.ltb_spec (sectors_of img) (Z.min 128 ms)); [lia|].
    rewrite sectors_from_start by lia. do 4 f_equal. lia.
Qed.

Lemma read_all_disk d drive max_bytes : disk_ready d -> 0 < max_bytes <= 2 ^ 36 ->
  exists d', disk_ready d' /\ read_all d drive max_bytes = Ok
    (match disks drive with None => inl [] | Some img => loaded img ((max_bytes + 511) / 512) end, d').
Proof.
  intros Hd Hm. unfold read_all. rewrite u64_add_returns by (unfold u64_max; lia). cbn [mbind outcome_bind].
  set (ms := (max_bytes + 511) / 512). assert (1 <= ms < 2 ^ 28) by (unfold ms; Z.div_mod_to_equations; lia).
  assert (Hf : ms <= 128 * Z.of_nat (Z.to_nat ((ms + 127) / 128))) by (Z.div_mod_to_equations; lia).
  destruct (disks drive) as [img|] eqn:Hi.
  - assert (0 <= sectors_of img) by (unfold sectors_of; apply Z.div_pos; lia).
    destruct (read_all_from_disk img drive ms (Z.to_nat ((ms + 127) / 128)) d 0) as (d' & Hd' & E); try (done || lia || by left).
    exists d'. split; [done|]. rewrite <- E. by rewrite Z.min_l by lia.
  - destruct (Z.to_nat ((ms + 127) / 128)) as [|fuel]; [lia|]. cbn [read_all_from].
    destruct (Z.ltb_spec 0 ms); [|lia].
    destruct (ata_read_disk d drive 0 (Z.min (ms - 0) 128) Hd ltac:(lia) ltac:(lia)) as (d' & Hd' & E). rewrite Hi in E.
    unfold as_u32. rewrite Z.mod_0_l by lia. rewrite E. cbn [mbind outcome_bind]. by exists d'.
Qed.

(** [fs::init] on any disk: it mounts the first 6 MiB of a disk that starts with the magic. *)
Lemma fs_init_disk d archive : disk_ready d ->
  exists d', disk_ready d' /\ fs_init d archive = Ok
    match disks Slave with
    | None => (inr BadMagic, archive, d')
    | Some img =>
        let data := take (Z.to_nat (6 * 1024 * 1024)) img in
        if Z.of_nat (length img) <? 128 * 512 then (inr FsDiskError, archive, d') else
        if bool_decide (take 4 data = MAGIC)
        then (inl (from_le (take 4 (drop 4 data))), Some (default data archive), d')
        else (inr BadMagic, archive, d')
    end.
Proof.
  intros Hd. destruct (read_all_disk d Slave (6 * 1024 * 1024) Hd) as (d' & Hd' & E); [lia|].
  exists d'. split; [done|]. unfold fs_init. rewrite E. cbn [mbind outcome_bind].
  destruct (disks Slave) as [img|] eqn:Hi; [|done]. pose proof (image_length _ (disks_ok _ _ Hi)) as Hlen.
  unfold loaded. change ((6 * 1024 * 1024 + 511) / 512) with 12288. change (Z.min 128 12288) with 128.
  destruct (Z.ltb_spec (sectors_of img) 128); destruct (Z.ltb_spec (Z.of_nat (length img)) (128 * 512)); try lia; [done|].
  assert (Hdata : sectors_from img 0 (Z.min (sectors_of img) 12288) = take (Z.to_nat (6 * 1024 * 1024)) img).
  { unfold sectors_from. rewrite Z.mul_0_r. change (drop (Z.to_nat 0) img) with img.
    destruct (Z.min_spec (sectors_of img) 12288) as [[? ->]|[? ->]]; [|done]. rewrite !take_ge by lia. done. }
  rewrite Hdata. set (data := take (Z.to_nat (6 * 1024 * 1024)) img).
  assert (8 <= Z.of_nat (length data)) by (unfold data; rewrite length_take; lia).
  destruct (Z.ltb_spec (Z.of_nat (length data)) 8); [lia|].
  unfold slice. rewrite !(proj2 (Z.leb_le _ _)) by lia. cbn [andb mbind outcome_bind].
  change (drop (Z.to_nat 0) data) with data. clearbody data. change (Z.to_nat (4 - 0)) with 4%nat.
  by destruct (decide (take 4 data = MAGIC)) as [Hm|Hm];
    [rewrite !(bool_decide_eq_true_2 _ Hm)|rewrite !(bool_decide_eq_false_2 _ Hm)].
Qed.

(** C38. [fs::init] on any disk: without a disk it answers that the magic is bad; on a disk
    of less than 128 sectors it fails, whatever is there; else it mounts the first 6 MiB if
    they start with the magic, and answers the file count, unless an archive is mounted
    already, which stays. *)
Theorem fs_init_on_disk d archive : disk_ready d ->
  exists d', disk_ready d' /\ fs_init d archive = Ok
    match disks Slave with
    | None => (inr BadMagic, archive, d')
    | Some img =>
        let data := take (Z.to_nat (6 * 1024 * 1024)) img in
        if Z.of_nat (length img) <? 128 * 512 then (inr FsDiskError, archive, d') else
        if bool_decide (take 4 data = MAGIC)
        then (inl (from_le (take 4 (drop 4 data))), Some (default data archive), d')
        else (inr BadMagic, archive, d')
    end.
Proof. apply fs_init_disk. Qed.

(** C28. From the host's files to the kernel's: when mkcxfs finished on some files, and the
    slave disk has its output, of 64 KiB to 6 MiB, then [fs::init] mounts that and answers the
    number of files, and [fs::open] answers for every name the contents of the first of these
    files whose base name is that name up to ASCII case, or nothing if there is none; it
    never reads out of range.  An output below 64 KiB is not mounted. *)
Theorem files_reach_kernel h paths output rep h' d :
  build_file h paths output = (Finished rep, h') -> Forall (fun p => 0 ∉ p) paths ->
  disks Slave = h_files h' !! output -> disk_ready d ->
  exists img d', disk_ready d' /\ h_files h' = <[output := img]> (h_files h) /\
    (Z.of_nat (length img) < 64 * 1024 -> fs_init d None = Ok (inr FsDiskError, None, d')) /\
    (64 * 1024 <= Z.of_nat (length img) <= 6 * 1024 * 1024 ->
      fs_init d None = Ok (inl (Z.of_nat (length paths)), Some img, d') /\
      forall name, cxfs_open (Some img) name = Ok (find_input h paths name)).
Proof.
  intros Hb Hn Hd Hr. destruct (build_file_finished _ _ _ _ _ Hb) as (files & img & Hin & Hbuild & Hh).
  destruct (fs_init_disk d None Hr) as (d' & Hr' & E). exists img, d'. split; [done|]. split; [done|].
  rewrite Hh, lookup_insert_eq in Hd. rewrite Hd in E. cbv zeta in E. rewrite E.
  destruct (Z.ltb_spec (Z.of_nat (length img)) (128 * 512)); (split; intros; [done || lia|]); [lia|].
  rewrite (take_ge img) by lia. destruct (build_header _ _ Hbuild) as [Hm Hc]. rewrite (bool_decide_eq_true_2 _ Hm), Hc.
  split; [by rewrite (read_inputs_length _ _ _ Hin)|]. intros name. rewrite <- (find_input_file _ _ _ name Hin).
  apply open_built; [by eapply read_inputs_no_nul|done].
Qed.

End Driver.

(** ** A disk *)

(** The protocol as a device of its own, busy for three reads of the status per sector. *)
Module DiskDemo.

Definition regs0 : ata_regs := mk_regs 0 0 0 0 0.

Definition device (disks : Drive -> option bytes) : Ports ata_phase := {|
  inb d p :=
    if p =? STATUS then
      match d with
      | Fetch drive lba n (S k) => (0x80, Fetch drive lba n k)
      | Fetch drive lba n O =>
          match disks drive with
          | None => (0, Ready regs0)
          | Some img =>
              if lba <? sectors_of img then (0x58, Transfer (sectors_from img lba 1) drive lba n) else (0x51, Ready regs0)
          end
      | _ => (0x50, d)
      end
    else (0x50, d);
  inw d _ :=
    match d with
    | Transfer (b0 :: b1 :: l) drive lba n =>
        (b0 + 256 * b1,
         if (length l =? 0)%nat then if n =? 1 then Ready regs0 else Fetch drive (lba + 1) (n - 1) 3
         else Transfer l drive lba n)
    | _ => (0xFFFF, d)
    end;
  outb d p v :=
    match d with
    | Ready r =>
        if p =? DRVSEL then Ready (mk_regs v (r_cnt r) (r_lba0 r) (r_lba1 r) (r_lba2 r))
        else if p =? SECCNT then Ready (mk_regs (r_sel r) v (r_lba0 r) (r_lba1 r) (r_lba2 r))
        else if p =? LBA0 then Ready (mk_regs (r_sel r) (r_cnt r) v (r_lba1 r) (r_lba2 r))
        else if p =? LBA1 then Ready (mk_regs (r_sel r) (r_cnt r) (r_lba0 r) v (r_lba2 r))
        else if p =? LBA2 then Ready (mk_regs (r_sel r) (r_cnt r) (r_lba0 r) (r_lba1 r) v)
        else if (p =? CMD) && (v =? CMD_READ) then Fetch (regs_drive r) (regs_lba r) (regs_count r) 3
        else d
    | _ => d
    end;
|}.

#[refine] Definition device_disk disks : @AtaDisk ata_phase (device disks) disks := {| ad_rep d p := d = p |}.
Proof.
  all: intros; subst; cbn; try done.
  - exists 3%nat. unfold PATIENCE. split; [lia|done].
  - destruct (disks drive) as [img|]; [destruct (lba <? sectors_of img)|]; (split; [|eauto]); unfold st_data, st_error, st_absent; cbn; auto.
  - split; [done|]. destruct (length l =? 0)%nat; [|done]. destruct (n =? 1); [eauto|]. exists 3%nat. unfold PATIENCE. split; [lia|done].
Defined.

(** A host with one file of 64 KiB, and the disk with its archive. *)
Definition wad : path := str "wads/doom1.wad".
Definition disk_cxfs : path := str "disk.cxfs".
Definition contents : bytes := replicate (Z.to_nat 65536) 7.
Definition host0 : host := mk_host {[ wad := contents ]} (fun _ => true).
Definition run : tool_exit * host := build_file host0 [wad] disk_cxfs.
Definition disks (drive : Drive) : option bytes :=
  match drive with Master => None | Slave => h_files (snd run) !! disk_cxfs end.

Lemma run_finished : match fst run with Finished _ => true | _ => false end = true.
Proof. vm_compute. reflexivity. Qed.

Lemma disks_ok drive img : disks drive = Some img -> image_ok img.
Proof.
  destruct drive; [discriminate|]. unfold disks. pose proof run_finished as Hf.
  destruct run as [e h'] eqn:E. destruct e; try discriminate Hf.
  destruct (build_file_finished _ _ _ _ _ E) as (files & img' & Hin & Hb & Hh). cbn [snd]. rewrite Hh, lookup_insert_eq.
  intros <-%Some_inj. apply (build_image_ok _ _ Hb). apply read_inputs_spec in Hin.
  apply Forall2_cons_inv_l in Hin as (f & ? & [Hf' _] & ->%Forall2_nil_inv_l & ->). constructor; [|constructor].
  unfold host0, h_files in Hf'. rewrite lookup_singleton_eq in Hf'. destruct f as [n c]. cbn [snd] in *.
  apply Some_inj in Hf' as <-. apply Forall_replicate. lia.
Qed.

End DiskDemo.

Lemma fs_init_on_disk_witness : exists d',
  fs_init (Ports0 := DiskDemo.device (fun _ => None)) (Ready DiskDemo.regs0) None = Ok (inr BadMagic, None, d').
Proof.
  destruct (@fs_init_on_disk _ _ (fun _ => None) (DiskDemo.device_disk (fun _ => None)) ltac:(done) (Ready DiskDemo.regs0) None)
    as (d' & _ & E); [by exists DiskDemo.regs0|]. exists d'. exact E.
Defined.

Lemma files_reach_kernel_witness : exists img d',
  fs_init (Ports0 := DiskDemo.device DiskDemo.disks) (Ready DiskDemo.regs0) None = Ok (inl 1, Some img, d') /\
  cxfs_open (Some img) (str "DOOM1.WAD") = Ok (Some DiskDemo.contents).
Proof.
  pose proof DiskDemo.run_finished as Hf. destruct DiskDemo.run as [e h'] eqn:E. destruct e as [rep| | | | |]; try discriminate Hf.
  destruct (@files_reach_kernel _ _ DiskDemo.disks (DiskDemo.device_disk DiskDemo.disks) DiskDemo.disks_ok
    DiskDemo.host0 [DiskDemo.wad] DiskDemo.disk_cxfs rep h' (Ready DiskDemo.regs0) E) as (img & d' & _ & Hh & _ & H).
  - constructor; [vm_compute; intros Hin; repeat (apply elem_of_cons in Hin as [Hin|Hin]; [discriminate Hin|]); by apply elem_of_nil in Hin|constructor].
  - unfold DiskDemo.disks. rewrite E. reflexivity.
  - by exists DiskDemo.regs0.
  - assert (Hl : Z.of_nat (length img) = 66048).
    { assert (Hi : h_files (snd DiskDemo.run) !! DiskDemo.disk_cxfs = Some img) by (rewrite E; cbn [snd]; rewrite Hh; apply lookup_insert_eq).
      assert (Hc : Z.of_nat (length (default [] (h_files (snd DiskDemo.run) !! DiskDemo.disk_cxfs))) = 66048) by (vm_compute; reflexivity).
      rewrite Hi in Hc. exact Hc. }
    destruct H as [Hi Ho]; [lia|]. exists img, d'. split; [exact Hi|]. rewrite Ho. unfold find_input.
    replace (list_find _ _) with (Some (O, DiskDemo.wad)) by (vm_compute; reflexivity). cbn [mbind option_bind snd].
    unfold DiskDemo.host0, h_files. by rewrite lookup_singleton_eq.
Defined.
