(* ===== verification/Memory.v ===== *)
(** * Physical frames, page mapping and translation
    (src/memory.rs, src/allocator.rs [init_heap], src/vga_mode13.rs [map_framebuffer])

    The page mapper is the [x86_64] crate's; it appears as the interface [Mapper].
    Addresses are integers; a 4 KiB frame or page is its start address. *)

From S2P Require Import Prelude Machine Alloc.

Definition PAGE : Z := 4096.

(** [containing_address(..).start_address()] of a page or frame. *)
Definition containing (addr : Z) : Z := addr - addr mod PAGE.

(** ** The frame allocator *)

Inductive MemoryRegionType := Usable | Reserved | OtherRegion.

Record MemoryRegion := mk_region {
  region_start : Z;
  region_end : Z;
  region_type : MemoryRegionType;
}.

#[global] Instance region_type_eq_dec : EqDecision MemoryRegionType.
Proof. solve_decision. Defined.

(** [(start..end).step_by(4096)] *)
Definition step_by (start end_ : Z) : list Z :=
  (fun i => start + PAGE * i) <$> seqZ 0 ((end_ - start + PAGE - 1) / PAGE).

Record BootInfoFrameAllocator := mk_frames {
  memory_map : list MemoryRegion;
  next_frame : nat;
}.

Definition frames_init (map : list MemoryRegion) : BootInfoFrameAllocator := mk_frames map 0.

Definition usable_frames (a : BootInfoFrameAllocator) : list Z :=
  containing <$> (filter (fun r => region_type r = Usable) (memory_map a) ≫=
                  fun r => step_by (region_start r) (region_end r)).

Definition allocate_frame (a : BootInfoFrameAllocator) : option Z * BootInfoFrameAllocator :=
  (usable_frames a !! next_frame a, mk_frames (memory_map a) (S (next_frame a))).

(** [EmptyFrameAllocator] *)
Definition empty_allocate_frame : option Z := None.

(** A firmware memory map: page-aligned, nonempty regions, the usable ones disjoint. *)
Definition map_ok (m : list MemoryRegion) : Prop :=
  Forall (fun r => region_start r mod PAGE = 0 /\ region_end r mod PAGE = 0 /\
                   0 <= region_start r < region_end r) m /\
  pairwise ((fun r => (region_start r, region_end r - region_start r)) <$>
            filter (fun r => region_type r = Usable) m).

Definition in_usable (m : list MemoryRegion) (f : Z) : Prop :=
  exists r, r ∈ m /\ region_type r = Usable /\ region_start r <= f /\ f + PAGE <= region_end r.

Lemma elem_of_step_by s e f : f ∈ step_by s e <-> exists i, 0 <= i /\ f = s + PAGE * i /\ f < e.
Proof.
  unfold step_by, PAGE. rewrite list_elem_of_fmap. split.
  - intros (i & -> & Hi). apply elem_of_seqZ in Hi. exists i. split_and!; [lia|done|].
    Z.div_mod_to_equations. lia.
  - intros (i & H0 & -> & Hlt). exists i. split; [done|]. apply elem_of_seqZ. Z.div_mod_to_equations. lia.
Qed.

Lemma step_by_nodup s e : NoDup (step_by s e).
Proof. unfold step_by, PAGE. apply NoDup_fmap; [|apply NoDup_seqZ]. intros i j H. lia. Qed.

Lemma containing_aligned a : a mod PAGE = 0 -> containing a = a.
Proof. unfold containing. lia. Qed.

(** All addresses stepped through are frame starts inside of their region. *)
Lemma step_by_frame r f : region_start r mod PAGE = 0 -> region_end r mod PAGE = 0 ->
  f ∈ step_by (region_start r) (region_end r) ->
  f mod PAGE = 0 /\ region_start r <= f /\ f + PAGE <= region_end r.
Proof.
  intros Hs He (i & Hi & -> & Hlt)%elem_of_step_by. unfold PAGE in *. Z.div_mod_to_equations. lia.
Qed.

Lemma usable_frames_spec a : map_ok (memory_map a) ->
  NoDup (usable_frames a) /\ Forall (fun f => f mod PAGE = 0 /\ in_usable (memory_map a) f) (usable_frames a).
Proof.
  intros [Hr Hd]. unfold usable_frames. set (us := filter _ _) in *.
  assert (Hus : Forall (fun r => r ∈ memory_map a /\ region_type r = Usable /\
    region_start r mod PAGE = 0 /\ region_end r mod PAGE = 0) us).
  { apply Forall_forall. intros r Hin. apply list_elem_of_filter in Hin as [Hu Hin].
    pose proof (proj1 (Forall_forall _ _) Hr r Hin) as (? & ? & _). done. }
  assert (Hf : forall f, f ∈ us ≫= (fun r => step_by (region_start r) (region_end r)) ->
    f mod PAGE = 0 /\ exists r, r ∈ us /\ region_start r <= f /\ f + PAGE <= region_end r).
  { intros f (r & Hin & Hrin)%list_elem_of_bind. pose proof (proj1 (Forall_forall _ _) Hus r Hrin) as (_ & _ & Hs & He).
    destruct (step_by_frame r f Hs He Hin) as (? & ? & ?). eauto. }
  assert (Hid : containing <$> (us ≫= (fun r => step_by (region_start r) (region_end r)))
    = us ≫= (fun r => step_by (region_start r) (region_end r))).
  { rewrite <- (list_fmap_id (us ≫= _)) at 2. apply list_fmap_ext. intros i f Hi.
    apply containing_aligned, Hf. by eapply list_elem_of_lookup_2. }
  rewrite Hid. split.
  - clear Hid Hf Hr. induction Hus as [|r us' (_ & _ & Hs & He) Hus IH]; [constructor|].
    cbn in Hd. destruct Hd as [Hd1 Hd]. cbn [mbind list_bind]. apply NoDup_app. split_and!; [apply step_by_nodup| |by apply IH].
    intros f Hin (r' & Hin' & Hr')%list_elem_of_bind.
    rewrite Forall_fmap, Forall_forall in Hd1. specialize (Hd1 r' Hr').
    pose proof (proj1 (Forall_forall _ _) Hus r' Hr') as (_ & _ & Hs' & He').
    destruct (step_by_frame r f Hs He Hin) as (_ & ? & ?). destruct (step_by_frame r' f Hs' He' Hin') as (_ & ? & ?).
    unfold apart_r, apart, PAGE in *. cbn in *. lia.
  - apply Forall_forall. intros f Hin. destruct (Hf f Hin) as (H0 & r & Hr' & ? & ?). split; [done|].
    pose proof (proj1 (Forall_forall _ _) Hus r Hr') as (? & ? & _). exists r. done.
Qed.

(** [n] calls of [allocate_frame]. *)
Fixpoint allocate_frames (n : nat) (a : BootInfoFrameAllocator) : list (option Z) * BootInfoFrameAllocator :=
  match n with
  | O => ([], a)
  | S n => let '(f, a) := allocate_frame a in let '(l, a) := allocate_frames n a in (f :: l, a)
  end.

Lemma allocate_frames_spec n a :
  fst (allocate_frames n a) = (fun i => usable_frames a !! i) <$> seq (next_frame a) n.
Proof.
  revert a. induction n as [|n IH]; intros a; [done|]. cbn [allocate_frames allocate_frame seq fmap list_fmap].
  specialize (IH (mk_frames (memory_map a) (S (next_frame a)))).
  destruct (allocate_frames n _) as [l a']. cbn in *. by rewrite IH.
Qed.

(** Frames are handed out once: on a firmware map with disjoint usable regions, any
    number of [allocate_frame] calls from boot answers pairwise different, page-aligned
    frames that lie in usable memory, in order of the map, and nothing once they are
    used up. *)
Theorem frames_distinct map n : map_ok map ->
  let answers := fst (allocate_frames n (frames_init map)) in
  NoDup (omap id answers) /\
  Forall (fun f => f mod PAGE = 0 /\ in_usable map f) (omap id answers) /\
  answers = (Some <$> take n (usable_frames (frames_init map)))
            ++ replicate (n - length (usable_frames (frames_init map))) None.
Proof.
  intros Hm answers. destruct (usable_frames_spec (frames_init map) Hm) as [Hnd Hf].
  set (us := usable_frames (frames_init map)) in *.
  assert (Ha : answers = (Some <$> take n us) ++ replicate (n - length us) None).
  { unfold answers. rewrite allocate_frames_spec. fold us. clearbody us. cbn [next_frame frames_init].
    apply list_eq. intros i. rewrite list_lookup_fmap.
    destruct (decide (i < n)%nat) as [Hi|Hi].
    - rewrite lookup_seq_lt by done. cbn. destruct (decide (i < length us)%nat) as [Hl|Hl].
      + rewrite lookup_app_l by (rewrite length_fmap, length_take; lia).
        rewrite list_lookup_fmap, lookup_take_lt by done. destruct (lookup_lt_is_Some_2 us i Hl) as [x ->]. done.
      + rewrite (lookup_ge_None_2 us i) by lia. rewrite lookup_app_r by (rewrite length_fmap, length_take; lia).
        rewrite lookup_replicate_2; [done|]. rewrite length_fmap, length_take. lia.
    - rewrite lookup_seq_ge by lia. cbn. symmetry. apply lookup_ge_None_2.
      rewrite length_app, length_fmap, length_take, length_replicate. lia. }
  assert (Ho : omap id answers = take n us).
  { rewrite Ha, omap_app. replace (omap id (replicate _ None)) with (@nil Z).
    - rewrite app_nil_r. generalize (take n us). intros l. induction l; cbn; congruence.
    - symmetry. generalize (n - length us)%nat. intros k. induction k; done. }
  split_and!; [rewrite Ho|rewrite Ho|done].
  - eapply sublist_NoDup; [exact Hnd|]. apply sublist_take.
  - by apply Forall_take.
Qed.

Lemma frames_distinct_witness :
  NoDup (omap id (fst (allocate_frames 5 (frames_init
    [mk_region 0x1000 0x3000 Usable; mk_region 0x3000 0x5000 Reserved; mk_region 0x5000 0x7000 Usable])))).
Proof.
  refine (proj1 (frames_distinct
    [mk_region 0x1000 0x3000 Usable; mk_region 0x3000 0x5000 Reserved; mk_region 0x5000 0x7000 Usable] 5 _)).
  split; [repeat constructor; vm_compute; congruence|]. cbn.
  repeat constructor; unfold apart_r, apart; cbn; lia.
Defined.

(** ** Mapping pages *)

Definition PRESENT : Z := 1.
Definition WRITABLE : Z := 2.

Inductive MapToError := FrameAllocationFailed | ParentEntryHugePage | PageAlreadyMapped.

#[global] Instance map_error_eq_dec : EqDecision MapToError.
Proof. solve_decision. Defined.

(** The [x86_64] crate's mapper.  [map_to] may take frames for page tables from the frame
    allocator; when it succeeds the page was free, it is mapped as asked, and nothing
    else changed. *)
Class Mapper (M : Type) := {
  mp_lookup : M -> Z -> option (Z * Z);
  mp_map_to : M -> BootInfoFrameAllocator -> Z -> Z -> Z ->
              (M + MapToError) * BootInfoFrameAllocator;
  mp_map_to_ok m a page frame flags m' a' :
    mp_map_to m a page frame flags = (inl m', a') ->
    mp_lookup m page = None /\
    forall p, mp_lookup m' p = if p =? page then Some (frame, flags) else mp_lookup m p;
  mp_map_to_frames m a page frame flags :
    let a' := snd (mp_map_to m a page frame flags) in
    memory_map a' = memory_map a /\ (next_frame a <= next_frame a')%nat;
}.

Section Mapping.
Context {M : Type} `{!Mapper M}.

(** [map_vga_buffer]: identity-maps the text buffer; already mapped is fine. *)
Definition map_vga_buffer (m : M) (a : BootInfoFrameAllocator) : outcome (M * BootInfoFrameAllocator) :=
  let page := containing 0xb8000 in
  let frame := containing 0xb8000 in
  match mp_map_to m a page frame (Z.lor PRESENT WRITABLE) with
  | (inl m, a) => Ok (m, a)
  | (inr PageAlreadyMapped, a) => Ok (m, a)
  | (inr _, _) => Panic ExplicitPanic
  end.

Definition FB_ADDR : Z := 0xA0000.

(** [map_framebuffer]: the same for the 16 pages of the mode-13h window, from page [i]. *)
Fixpoint map_framebuffer_from (i : Z) (n : nat) (m : M) (a : BootInfoFrameAllocator)
    : outcome (M * BootInfoFrameAllocator) :=
  match n with
  | O => Ok (m, a)
  | S n =>
      let phys := FB_ADDR + i * 4096 in
      match mp_map_to m a (containing phys) (containing phys) (Z.lor PRESENT WRITABLE) with
      | (inl m, a) => map_framebuffer_from (i + 1) n m a
      | (inr PageAlreadyMapped, a) => map_framebuffer_from (i + 1) n m a
      | (inr _, _) => Panic ExplicitPanic
      end
  end.
Definition map_framebuffer := map_framebuffer_from 0 16.

(** The loop of [init_heap] over [n] pages from [page] on. *)
Fixpoint map_pages (n : nat) (page : Z) (m : M) (a : BootInfoFrameAllocator)
    : (M + MapToError) * BootInfoFrameAllocator :=
  match n with
  | O => (inl m, a)
  | S n =>
      match allocate_frame a with
      | (None, a) => (inr FrameAllocationFailed, a)
      | (Some frame, a) =>
          match mp_map_to m a page frame (Z.lor PRESENT WRITABLE) with
          | (inl m, a) => map_pages n (page + PAGE) m a
          | (inr e, a) => (inr e, a)
          end
      end
  end.

(** [Page::range_inclusive] from the page of the first to that of the last heap byte. *)
Definition heap_pages : nat :=
  Z.to_nat ((containing (HEAP_START + HEAP_SIZE - 1) - containing HEAP_START) / PAGE + 1).

(** [init_heap], with the allocator's [init] applied when every page is mapped. *)
Definition init_heap {H} (heap_init : H -> Z -> Z -> outcome H) (h : H) (m : M) (a : BootInfoFrameAllocator)
    : outcome ((H * M + MapToError) * BootInfoFrameAllocator) :=
  match map_pages heap_pages (containing HEAP_START) m a with
  | (inr e, a) => Ok (inr e, a)
  | (inl m, a) => h ← heap_init h HEAP_START HEAP_SIZE; Ok (inl (h, m), a)
  end.

(** What [map_pages] leaves: each page on a usable frame of its own, the frames taken in
    increasing allocation order from [a] on. *)
Lemma map_pages_ok n page m a m' a' : map_pages n page m a = (inl m', a') ->
  memory_map a' = memory_map a /\ (next_frame a <= next_frame a')%nat /\
  (forall p, mp_lookup m' p <> mp_lookup m p -> exists i, (i < n)%nat /\ p = page + PAGE * Z.of_nat i) /\
  exists idx : nat -> nat, (forall i j, (i < j < n)%nat -> (idx i < idx j)%nat) /\
    (forall i, (i < n)%nat -> (next_frame a <= idx i < next_frame a')%nat) /\
    forall i, (i < n)%nat -> exists f, usable_frames a !! idx i = Some f /\
      mp_lookup m' (page + PAGE * Z.of_nat i) = Some (f, 3).
Proof.
  revert page m a. induction n as [|n IH]; intros page m a H; cbn [map_pages] in H.
  { injection H as <- <-. split_and!; [done..| |exists (fun _ => 0%nat); split_and!; lia]. by intros p. }
  unfold allocate_frame in H. destruct (usable_frames a !! next_frame a) as [f|] eqn:Ef; [|done].
  pose proof (mp_map_to_frames m (mk_frames (memory_map a) (S (next_frame a))) page f (Z.lor PRESENT WRITABLE)) as Hfr.
  destruct (mp_map_to _ _ page f _) as [[m1|e] a1] eqn:Em; [|done]. cbv zeta in Hfr. cbn in Hfr.
  destruct Hfr as [Hmap Hnext]. apply mp_map_to_ok in Em as [_ Hlk].
  apply IH in H as (Hmm & Hnx & Hother & idx & Hinc & Hge & Hpg). rewrite Hmap in Hmm. split; [done|]. split; [lia|].
  assert (Hpage : forall k : nat, page + PAGE + PAGE * Z.of_nat k = page + PAGE * Z.of_nat (S k)) by (unfold PAGE; lia).
  split.
  { intros p Hp. destruct (decide (mp_lookup m' p = mp_lookup m1 p)) as [E|E].
    - rewrite E, Hlk in Hp. destruct (Z.eqb_spec p page) as [Heq|]; [|done]. exists 0%nat. split; [lia|]. cbn. lia.
    - destruct (Hother p E) as (i & Hi & ->). exists (S i). split; [lia|]. apply Hpage. }
  exists (fun i => match i with O => next_frame a | S i => idx i end). split_and!.
  - intros [|i] [|j] Hij; try lia; [specialize (Hge j); lia|apply Hinc; lia].
  - intros [|i] Hi; [lia|]. specialize (Hge i). lia.
  - intros [|i] Hi.
    + exists f. split; [done|]. cbn. rewrite Z.mul_0_r, Z.add_0_r.
      destruct (decide (mp_lookup m' page = mp_lookup m1 page)) as [E|E].
      * by rewrite E, Hlk, Z.eqb_refl.
      * destruct (Hother page E) as (k & _ & Hk). unfold PAGE in Hk. lia.
    + destruct (Hpg i) as (f' & Hu & Hl); [lia|]. exists f'. rewrite Hpage in Hl. split; [|done].
      unfold usable_frames in *. by rewrite Hmap in Hu.
Qed.

(** C29. The heap is backed.  When [init_heap] succeeds on a firmware map with disjoint
    usable regions, every byte of the heap lies on a page mapped present and writable to
    a usable frame; different heap pages have different frames; no frame handed out later
    is one of them; and no page outside of the heap was touched. *)
Theorem init_heap_backed {H} (heap_init : H -> Z -> Z -> outcome H) h m a h' m' a' :
  map_ok (memory_map a) ->
  init_heap heap_init h m a = Ok (inl (h', m'), a') ->
  heap_init h HEAP_START HEAP_SIZE = Ok h' /\
  exists frame : Z -> Z,
    (forall addr, HEAP_START <= addr < HEAP_START + HEAP_SIZE ->
       mp_lookup m' (containing addr) = Some (frame (containing addr), Z.lor PRESENT WRITABLE) /\
       frame (containing addr) mod PAGE = 0 /\ in_usable (memory_map a) (frame (containing addr)) /\
       forall k f, (next_frame a' <= k)%nat -> usable_frames a' !! k = Some f -> f <> frame (containing addr)) /\
    (forall x y, HEAP_START <= x < HEAP_START + HEAP_SIZE -> HEAP_START <= y < HEAP_START + HEAP_SIZE ->
       containing x <> containing y -> frame (containing x) <> frame (containing y)) /\
    (forall p, mp_lookup m' p <> mp_lookup m p -> HEAP_START <= p < HEAP_START + HEAP_SIZE).
Proof.
  intros Hok Hrun. unfold init_heap in Hrun.
  destruct (map_pages heap_pages (containing HEAP_START) m a) as [[m1|e] a1] eqn:Ep; [|done].
  destruct (heap_init h HEAP_START HEAP_SIZE) as [h1|] eqn:Eh; [|done]. cbn in Hrun. injection Hrun as <- <- <-.
  split; [done|]. apply map_pages_ok in Ep as (Hmap & _ & Hother & idx & Hinc & Hge & Hpg).
  destruct (usable_frames_spec a Hok) as [Hnd Hus].
  set (no := fun p => Z.to_nat ((p - HEAP_START) / PAGE)).
  assert (Hno : forall x, HEAP_START <= x < HEAP_START + HEAP_SIZE ->
    (no (containing x) < heap_pages)%nat /\
    containing x = containing HEAP_START + PAGE * Z.of_nat (no (containing x))).
  { intros x Hx. unfold no, heap_pages, containing, PAGE, HEAP_START, HEAP_SIZE in *. Z.div_mod_to_equations. lia. }
  exists (fun p => default 0 (usable_frames a !! idx (no p))).
  assert (Hua : forall k, usable_frames a1 !! k = usable_frames a !! k) by (intros k; unfold usable_frames; by rewrite Hmap).
  split_and!.
  - intros x Hx. destruct (Hno x Hx) as [Hlt Hx']. destruct (Hpg _ Hlt) as (f & Hf & Hl). rewrite <- Hx' in Hl.
    rewrite Hf. cbn [from_option id]. rewrite Forall_lookup in Hus. destruct (Hus _ _ Hf) as [H0 Hin].
    split_and!; [done..|]. intros k f' Hk Hf' ->. rewrite Hua in Hf'.
    pose proof (NoDup_lookup _ _ _ _ Hnd Hf Hf'). specialize (Hge _ Hlt). lia.
  - intros x y Hx Hy Hne. destruct (Hno x Hx) as [Hxl Hx']. destruct (Hno y Hy) as [Hyl Hy'].
    destruct (Hpg _ Hxl) as (f & Hf & _). destruct (Hpg _ Hyl) as (g & Hg & _). rewrite Hf, Hg. cbn [from_option id]. intros ->.
    pose proof (NoDup_lookup _ _ _ _ Hnd Hf Hg) as Hi.
    destruct (Nat.lt_total (no (containing x)) (no (containing y))) as [Hlt|[Heq|Hlt]].
    + specialize (Hinc _ _ (conj Hlt Hyl)). lia.
    + rewrite Heq in Hx'. congruence.
    + specialize (Hinc _ _ (conj Hlt Hxl)). lia.
  - intros p (i & Hi & ->)%Hother. revert Hi. unfold heap_pages, containing, PAGE, HEAP_START, HEAP_SIZE.
    Z.div_mod_to_equations. lia.
Qed.

End Mapping.

(** A mapper kept as a function from page to mapping, that needs no frames of its own. *)
Module FlatMapper.

Definition tables := Z -> option (Z * Z).

Definition map_to (m : tables) (a : BootInfoFrameAllocator) (page frame flags : Z)
    : (tables + MapToError) * BootInfoFrameAllocator :=
  match m page with
  | Some _ => (inr PageAlreadyMapped, a)
  | None => (inl (fun p => if p =? page then Some (frame, flags) else m p), a)
  end.

#[refine, global] Instance flat_mapper : Mapper tables := {
  mp_lookup m p := m p;
  mp_map_to := map_to;
}.
Proof.
  - unfold map_to. intros m a page frame flags m' a' H. destruct (m page); [done|]. by injection H as <- <-.
  - unfold map_to. intros m a page frame flags. by destruct (m page).
Defined.

Lemma flat_map_pages n page (m : tables) a :
  (next_frame a + n <= length (usable_frames a))%nat ->
  (forall p, page <= p -> m p = None) ->
  exists m', map_pages n page m a = (inl m', mk_frames (memory_map a) (next_frame a + n)).
Proof.
  revert page m a. induction n as [|n IH]; intros page m a Hlen Hfree; cbn [map_pages].
  { exists m. rewrite Nat.add_0_r. by destruct a. }
  unfold allocate_frame. destruct (lookup_lt_is_Some_2 (usable_frames a) (next_frame a)) as [f Hf]; [lia|]. rewrite Hf.
  cbn [mp_map_to flat_mapper]. unfold map_to at 1. rewrite Hfree by lia.
  replace (next_frame a + S n)%nat with (S (next_frame a) + n)%nat by lia.
  apply (IH _ _ (mk_frames (memory_map a) (S (next_frame a)))).
  - unfold usable_frames in *. cbn in *. lia.
  - intros p Hp. unfold PAGE in Hp. destruct (Z.eqb_spec p page); [lia|]. apply Hfree. lia.
Qed.

Lemma flat_map_device (m : tables) a : exists m' a', map_vga_buffer m a = Ok (m', a').
Proof. unfold map_vga_buffer. cbn [mp_map_to flat_mapper]. unfold map_to. destruct (m _); eauto. Qed.

Lemma flat_map_framebuffer i n (m : tables) a : exists m' a', map_framebuffer_from i n m a = Ok (m', a').
Proof.
  revert i m a. induction n as [|n IH]; intros i m a; [by eexists _, _|]. cbn [map_framebuffer_from mp_map_to flat_mapper].
  unfold map_to. destruct (m _); apply IH.
Qed.

End FlatMapper.

Definition demo_map : list MemoryRegion := [mk_region 0x1000 (0x1000 + HEAP_SIZE) Usable].

Lemma demo_map_ok : map_ok demo_map.
Proof. split; [repeat constructor; vm_compute; congruence|]. cbn. repeat constructor. Qed.

Lemma demo_frames : length (usable_frames (frames_init demo_map)) = heap_pages.
Proof.
  unfold usable_frames. rewrite length_fmap.
  change (filter _ (memory_map (frames_init demo_map))) with demo_map.
  unfold demo_map. cbn [mbind list_bind region_start region_end]. rewrite app_nil_r. unfold step_by.
  rewrite length_fmap, length_seqZ. unfold heap_pages. f_equal.
Qed.

Lemma init_heap_backed_witness : exists m' a',
  init_heap (fun (h : nat) _ _ => Ok (S h)) 0%nat ((fun _ => None) : FlatMapper.tables) (frames_init demo_map)
    = Ok (inl (1%nat, m'), a') /\
  exists f, m' (containing (HEAP_START + 5)) = Some (f, 3).
Proof.
  destruct (FlatMapper.flat_map_pages heap_pages (containing HEAP_START) (fun _ => None) (frames_init demo_map))
    as [m' Hm']; [rewrite demo_frames; cbn [next_frame frames_init]; lia|done|].
  assert (Hrun : init_heap (fun (h : nat) _ _ => Ok (S h)) 0%nat ((fun _ => None) : FlatMapper.tables) (frames_init demo_map)
    = Ok (inl (1%nat, m'), mk_frames (memory_map (frames_init demo_map)) (next_frame (frames_init demo_map) + heap_pages)%nat)).
  { unfold init_heap. rewrite Hm'. done. }
  eexists m', _. split; [exact Hrun|].
  destruct (init_heap_backed (M := FlatMapper.tables) (fun (h : nat) _ _ => Ok (S h)) 0%nat _ (frames_init demo_map) 1%nat m' _ demo_map_ok Hrun)
    as (_ & frame & Hfr & _).
  exists (frame (containing (HEAP_START + 5))). apply (Hfr (HEAP_START + 5)). unfold HEAP_START, HEAP_SIZE. lia.
Defined.

(** ** Address translation *)

Inductive FrameError := FrameNotPresent | HugeFrame.

Section Translation.

(** The [x86_64] crate's part: the four table indices and the page offset of an address,
    the addition of an offset to a virtual address (which panics on a non-canonical
    result), and [table[index].frame()] for the table at a virtual address. *)
Variables p4_index p3_index p2_index p1_index page_offset : Z -> Z.
Variable virt_add : Z -> Z -> outcome Z.
Variable entry_frame : Z -> Z -> Z + FrameError.

(** Documented: an index is a field of bits 12 and up, the page offset is bits 0-11. *)
Hypothesis indices_of_page : forall a b, a / PAGE = b / PAGE ->
  p4_index a = p4_index b /\ p3_index a = p3_index b /\ p2_index a = p2_index b /\ p1_index a = p1_index b.
Hypothesis page_offset_low : forall a, page_offset a = a mod PAGE.

(** The loop of [translate_addr] over the remaining indices. *)
Fixpoint walk_tables (physical_memory_offset frame : Z) (table_indexes : list Z) : outcome (option Z) :=
  match table_indexes with
  | [] => Ok (Some frame)
  | index :: rest =>
      virt ← virt_add physical_memory_offset frame;
      match entry_frame virt index with
      | inl frame => walk_tables physical_memory_offset frame rest
      | inr FrameNotPresent => Ok None
      | inr HugeFrame => Panic ExplicitPanic
      end
  end.

Definition translate_addr (cr3 addr physical_memory_offset : Z) : outcome (option Z) :=
  r ← walk_tables physical_memory_offset cr3 [p4_index addr; p3_index addr; p2_index addr; p1_index addr];
  match r with
  | None => Ok None
  | Some frame => Ok (Some (frame + page_offset addr))
  end.

(** Translation is by page: two addresses of one page both panic, are both unmapped, or
    are mapped with their distance kept. *)
Theorem translate_addr_page cr3 pmo a b : a / PAGE = b / PAGE ->
  translate_addr cr3 b pmo =
    match translate_addr cr3 a pmo with
    | Ok (Some p) => Ok (Some (p + (b - a)))
    | r => r
    end.
Proof.
  intros Hp. unfold translate_addr. destruct (indices_of_page a b Hp) as (-> & -> & -> & ->).
  destruct (walk_tables _ _ _) as [[f|]|]; cbn; [|done..]. rewrite !page_offset_low.
  do 2 f_equal. unfold PAGE in *. Z.div_mod_to_equations. lia.
Qed.

End Translation.

Lemma translate_addr_page_witness :
  let index n a := Z.land (Z.shiftr a n) 511 in
  let entry virt i := if (virt =? 0x100000) && (i =? 1) then inl 0x101000
                      else if i =? 0 then inl virt else inr FrameNotPresent in
  let tr a := translate_addr (index 39) (index 30) (index 21) (index 12) (fun a => a mod PAGE)
                (fun a b => Ok (a + b)) entry 0x100000 a 0 in
  tr 0x1008 = Ok (Some 0x101008) /\ tr 0x1ff8 = Ok (Some 0x101ff8).
Proof.
  intros index entry tr. split; [by vm_compute|]. unfold tr.
  rewrite (translate_addr_page (index 39) (index 30) (index 21) (index 12) (fun a => a mod PAGE)
    (fun a b => Ok (a + b)) entry) with (a := 0x1008); [by vm_compute| |done|by vm_compute].
  intros a b Hab. unfold index. rewrite !Z.shiftr_div_pow2 by lia.
  assert (Hdiv : forall n, 12 <= n -> a / 2 ^ n = b / 2 ^ n).
  { intros n Hn. replace n with (12 + (n - 12)) by lia. rewrite Z.pow_add_r by lia.
    rewrite <- !Z.div_div by lia. unfold PAGE in Hab. change (2 ^ 12) with 4096. by rewrite Hab. }
  rewrite (Hdiv 39), (Hdiv 30), (Hdiv 21), (Hdiv 12) by lia. done.
Defined.
