(* ===== verification/Vga.v ===== *)
(** * The text console (src/vga_buffer.rs)

    The 80x25 text buffer is a list of rows of cells; every access goes through the
    array bounds check, so that an out-of-range write would be a panic of the model.
    The refinement is to a terminal with unbounded history. *)

From S2P Require Import Prelude.

Definition BUFFER_HEIGHT : nat := 25.
Definition BUFFER_WIDTH : nat := 80.

Inductive Color :=
  | Black | Blue | Green | Cyan | Red | Magenta | Brown | LightGray
  | DarkGray | LightBlue | LightGreen | LightCyan | LightRed | Pink | Yellow | White.

Definition color_as_u8 (c : Color) : Z :=
  match c with
  | Black => 0 | Blue => 1 | Green => 2 | Cyan => 3
  | Red => 4 | Magenta => 5 | Brown => 6 | LightGray => 7
  | DarkGray => 8 | LightBlue => 9 | LightGreen => 10 | LightCyan => 11
  | LightRed => 12 | Pink => 13 | Yellow => 14 | White => 15
  end.

(** [ColorCode::new] *)
Definition color_code_new (fg bg : Color) : Z :=
  Z.lor (as_u8 (Z.shiftl (color_as_u8 bg) 4)) (color_as_u8 fg).

Record ScreenChar := mk_char {
  ascii_character : Z;
  char_color : Z;
}.

Abbreviation Buffer := (list (list ScreenChar)).

Record Writer := mk_writer {
  column_position : nat;
  color_code : Z;
  chars : Buffer;
}.

(** [chars[row][col].read()] and [chars[row][col].write(ch)] *)
Definition cell_read (b : Buffer) (row col : nat) : outcome ScreenChar :=
  r ← index b row; index r col.
Definition cell_write (b : Buffer) (row col : nat) (ch : ScreenChar) : outcome Buffer :=
  r ← index b row;
  r ← index_set r col ch;
  index_set b row r.

(** [for i in l { .. }] *)
Fixpoint for_each {A} (l : list nat) (body : nat -> A -> outcome A) (a : A) : outcome A :=
  match l with
  | [] => Ok a
  | i :: l => a ← body i a; for_each l body a
  end.

Definition blank (w : Writer) : ScreenChar := mk_char 32 (color_code w).

Definition clear_row (w : Writer) (row : nat) : outcome Writer :=
  b ← for_each (seq 0 BUFFER_WIDTH) (fun col b => cell_write b row col (blank w)) (chars w);
  Ok (mk_writer (column_position w) (color_code w) b).

Definition new_line (w : Writer) : outcome Writer :=
  b ← for_each (seq 1 (BUFFER_HEIGHT - 1)) (fun row b =>
        for_each (seq 0 BUFFER_WIDTH) (fun col b =>
          ch ← cell_read b row col;
          cell_write b (row - 1) col ch) b) (chars w);
  w ← clear_row (mk_writer (column_position w) (color_code w) b) (BUFFER_HEIGHT - 1);
  Ok (mk_writer 0 (color_code w) (chars w)).

(** [Writer::clear_screen] *)
Definition clear_screen (w : Writer) : outcome Writer :=
  w ← for_each (seq 0 BUFFER_HEIGHT) (fun row w => clear_row w row) w;
  Ok (mk_writer 0 (color_code w) (chars w)).

Definition backspace (w : Writer) : outcome Writer :=
  if decide (0 < column_position w)%nat then
    let col := (column_position w - 1)%nat in
    b ← cell_write (chars w) (BUFFER_HEIGHT - 1) col (blank w);
    Ok (mk_writer col (color_code w) b)
  else Ok w.

Definition write_byte (w : Writer) (byte : Z) : outcome Writer :=
  if byte =? 10 then new_line w
  else if byte =? 8 then backspace w
  else
    w ← (if decide (BUFFER_WIDTH <= column_position w)%nat then new_line w else Ok w);
    b ← cell_write (chars w) (BUFFER_HEIGHT - 1) (column_position w) (mk_char byte (color_code w));
    Ok (mk_writer (column_position w + 1) (color_code w) b).

(** The byte [write_string] sends for a byte of the string. *)
Definition printable (byte : Z) : Z :=
  if ((0x20 <=? byte) && (byte <=? 0x7e)) || (byte =? 10) || (byte =? 8) then byte else 0xfe.

Fixpoint write_string (w : Writer) (s : list Z) : outcome Writer :=
  match s with
  | [] => Ok w
  | byte :: s => w ← write_byte w (printable byte); write_string w s
  end.

(** [fmt::Write::write_str]: it never answers an error. *)
Definition write_str (w : Writer) (s : list Z) : outcome (option unit * Writer) :=
  w ← write_string w s;
  Ok (Some tt, w).

(** The static [WRITER], over what the text buffer holds when it is first used. *)
Definition WRITER (buffer : Buffer) : Writer := mk_writer 0 (color_code_new Yellow Black) buffer.

(** ** The terminal it implements *)

(** Every row that was ever completed, oldest first, and the characters of the current
    line. *)
Record terminal := mk_terminal {
  history : list (list Z);
  line : list Z;
}.

Definition terminal_byte (t : terminal) (byte : Z) : terminal :=
  if byte =? 10 then mk_terminal (history t ++ [line t]) []
  else if byte =? 8 then mk_terminal (history t) (take (length (line t) - 1) (line t))
  else if decide (length (line t) = BUFFER_WIDTH)
       then mk_terminal (history t ++ [line t]) [byte]
       else mk_terminal (history t) (line t ++ [byte]).

(** A row of the screen: the characters, then blanks. *)
Definition shown (color : Z) (l : list Z) : list ScreenChar :=
  ((fun c => mk_char c color) <$> l) ++ replicate (BUFFER_WIDTH - length l) (mk_char 32 color).

(** What is on the screen: the last 24 rows of history above the current line; a screen
    that was just cleared has blank rows above. *)
Definition screen (color : Z) (t : terminal) : Buffer :=
  (shown color <$> drop (length (history t)) (replicate (BUFFER_HEIGHT - 1) [] ++ history t))
  ++ [shown color (line t)].

(** Any state the console can be in: a full buffer and a column of the row or one past. *)
Definition writer_ok (w : Writer) : Prop :=
  length (chars w) = BUFFER_HEIGHT /\ Forall (fun r => length r = BUFFER_WIDTH) (chars w) /\
  (column_position w <= BUFFER_WIDTH)%nat.

(** ** Loops and cells *)

Lemma for_each_inv {A} (P : nat -> A -> Prop) body n s a :
  P s a ->
  (forall i a, (s <= i < s + n)%nat -> P i a -> exists a', body i a = Ok a' /\ P (S i) a') ->
  exists a', for_each (seq s n) body a = Ok a' /\ P (s + n)%nat a'.
Proof.
  revert s a. induction n as [|n IH]; intros s a Ha Hstep; cbn [seq for_each].
  - exists a. by rewrite Nat.add_0_r.
  - destruct (Hstep s a) as (a1 & -> & Ha1); [lia|done|]. cbn.
    destruct (IH (S s) a1 Ha1) as (a' & -> & Ha'); [intros; apply Hstep; [lia|done]|].
    exists a'. split; [done|]. by replace (s + S n)%nat with (S s + n)%nat by lia.
Qed.

Definition cell (b : Buffer) (r c : nat) : option ScreenChar := b !! r ≫= fun row => row !! c.

Definition shape (b : Buffer) : Prop :=
  length b = BUFFER_HEIGHT /\ Forall (fun r => length r = BUFFER_WIDTH) b.

Lemma shape_row b r : shape b -> (r < BUFFER_HEIGHT)%nat ->
  exists row, b !! r = Some row /\ length row = BUFFER_WIDTH.
Proof.
  intros [Hl Hf] Hr. destruct (lookup_lt_is_Some_2 b r) as [row Hrow]; [lia|].
  exists row. split; [done|]. rewrite Forall_lookup in Hf. exact (Hf _ _ Hrow).
Qed.

Lemma cell_read_ok b r c : shape b -> (r < BUFFER_HEIGHT)%nat -> (c < BUFFER_WIDTH)%nat ->
  exists ch, cell_read b r c = Ok ch /\ cell b r c = Some ch.
Proof.
  intros Hb Hr Hc. destruct (shape_row b r Hb Hr) as (row & Hrow & Hlen).
  destruct (lookup_lt_is_Some_2 row c) as [ch Hch]; [lia|]. exists ch.
  unfold cell_read, cell, index. rewrite Hrow. cbn. rewrite Hch. cbn. split; reflexivity.
Qed.

Lemma cell_write_ok b r c ch : shape b -> (r < BUFFER_HEIGHT)%nat -> (c < BUFFER_WIDTH)%nat ->
  exists b', cell_write b r c ch = Ok b' /\ shape b' /\
    forall r' c', cell b' r' c' = if decide (r' = r /\ c' = c) then Some ch else cell b r' c'.
Proof.
  intros Hb Hr Hc. destruct (shape_row b r Hb Hr) as (row & Hrow & Hlen). destruct Hb as [Hl Hf].
  exists (<[r := <[c := ch]> row]> b). split_and!.
  - unfold cell_write, index. rewrite Hrow. cbn. unfold index_set. rewrite decide_True by lia. cbn.
    by rewrite decide_True by lia.
  - split; [by rewrite length_insert|]. apply Forall_insert; [done|]. by rewrite length_insert.
  - intros r' c'. unfold cell. destruct (decide (r' = r)) as [->|Hne].
    + rewrite list_lookup_insert_eq by lia. cbn. rewrite Hrow. cbn. destruct (decide (c' = c)) as [->|Hc'].
      * rewrite list_lookup_insert_eq by lia. by rewrite decide_True.
      * rewrite list_lookup_insert_ne by done. by rewrite decide_False by tauto.
    + rewrite list_lookup_insert_ne by done. by rewrite decide_False by tauto.
Qed.

(** A buffer is determined by its cells. *)
Lemma cell_ext b b' : shape b -> shape b' ->
  (forall r c, (r < BUFFER_HEIGHT)%nat -> (c < BUFFER_WIDTH)%nat -> cell b r c = cell b' r c) -> b = b'.
Proof.
  intros Hb Hb' Heq. apply list_eq_same_length with BUFFER_HEIGHT; [apply Hb'|apply Hb|].
  intros r x y Hr Hx Hy. destruct (shape_row b r Hb Hr) as (row & Hrow & Hl).
  destruct (shape_row b' r Hb' Hr) as (row' & Hrow' & Hl'). rewrite Hx in Hrow. rewrite Hy in Hrow'. simplify_eq.
  apply list_eq_same_length with BUFFER_WIDTH; [done..|].
  intros c u v Hc Hu Hv. specialize (Heq r c Hr Hc). unfold cell in Heq. rewrite Hx, Hy in Heq. cbn in Heq. congruence.
Qed.

Lemma shape_replicate x : shape (replicate BUFFER_HEIGHT (replicate BUFFER_WIDTH x)).
Proof. split; [done|]. by apply Forall_replicate. Qed.

Lemma cell_replicate x r c : (r < BUFFER_HEIGHT)%nat -> (c < BUFFER_WIDTH)%nat ->
  cell (replicate BUFFER_HEIGHT (replicate BUFFER_WIDTH x)) r c = Some x.
Proof. intros Hr Hc. unfold cell. rewrite lookup_replicate_2 by done. cbn [mbind option_bind lookup list_lookup]. by rewrite lookup_replicate_2. Qed.

Lemma clear_row_ok w row : shape (chars w) -> (row < BUFFER_HEIGHT)%nat ->
  exists b', clear_row w row = Ok (mk_writer (column_position w) (color_code w) b') /\ shape b' /\
    forall r c, (c < BUFFER_WIDTH)%nat ->
      cell b' r c = if decide (r = row) then Some (blank w) else cell (chars w) r c.
Proof.
  intros Hb Hrow.
  destruct (for_each_inv (fun n b => shape b /\ forall r c, (c < BUFFER_WIDTH)%nat ->
      cell b r c = if decide (r = row /\ (c < n)%nat) then Some (blank w) else cell (chars w) r c)
    (fun col b => cell_write b row col (blank w)) BUFFER_WIDTH 0 (chars w)) as (b' & Hrun & Hb' & Hc).
  - split; [done|]. intros r c _. by rewrite decide_False by lia.
  - intros i b Hi [Hsh Hc]. destruct (cell_write_ok b row i (blank w) Hsh Hrow) as (b' & Hw & Hsh' & Hc'); [lia|].
    exists b'. split_and!; [done..|]. intros r c Hcw. rewrite Hc', Hc by done. repeat case_decide; done || lia.
  - exists b'. unfold clear_row. rewrite Hrun. split_and!; [done..|].
    intros r c Hcw. rewrite Hc by done. repeat case_decide; done || lia.
Qed.

(** The copying loops of [new_line], before the last row is cleared. *)
Lemma scroll_ok b0 : shape b0 ->
  exists b', for_each (seq 1 (BUFFER_HEIGHT - 1)) (fun row b =>
      for_each (seq 0 BUFFER_WIDTH) (fun col b =>
        ch ← cell_read b row col; cell_write b (row - 1) col ch) b) b0 = Ok b' /\ shape b' /\
    forall r c, (S r < BUFFER_HEIGHT)%nat -> (c < BUFFER_WIDTH)%nat -> cell b' r c = cell b0 (S r) c.
Proof.
  intros Hb0.
  set (Inv := fun (row col : nat) b => shape b /\ forall r c, (c < BUFFER_WIDTH)%nat ->
    cell b r c = if decide (S r < row \/ S r = row /\ c < col)%nat then cell b0 (S r) c else cell b0 r c).
  destruct (for_each_inv (fun row b => Inv row 0%nat b) (fun row b =>
      for_each (seq 0 BUFFER_WIDTH) (fun col b =>
        ch ← cell_read b row col; cell_write b (row - 1) col ch) b) (BUFFER_HEIGHT - 1) 1 b0)
    as (b' & Hrun & Hb' & Hc).
  - split; [done|]. intros r c _. by rewrite decide_False by lia.
  - intros row b Hrow HI. change (BUFFER_HEIGHT - 1)%nat with 24%nat in Hrow.
    destruct (for_each_inv (fun col b => Inv row col b)
      (fun col b => ch ← cell_read b row col; cell_write b (row - 1) col ch) BUFFER_WIDTH 0 b)
      as (b1 & Hrun & Hb1 & Hc); [done| |].
    + intros col b2 Hcol [Hsh Hc2].
      destruct (cell_read_ok b2 row col Hsh) as (ch & -> & Hch); [unfold BUFFER_HEIGHT; lia|lia|]. cbn.
      rewrite Hc2, decide_False in Hch by lia.
      destruct (cell_write_ok b2 (row - 1) col ch Hsh) as (b3 & Hw & Hsh3 & Hc3); [unfold BUFFER_HEIGHT; lia|lia|].
      exists b3. split; [done|]. split; [done|]. intros r c Hcw. rewrite Hc3, Hc2 by done.
      repeat case_decide; try done; try lia. destruct H as [-> ->].
      by replace (S (row - 1)) with row by lia.
    + exists b1. split; [done|]. split; [done|]. intros r c Hcw. rewrite Hc by done. repeat case_decide; done || lia.
  - exists b'. split_and!; [done..|]. intros r c Hr Hcw. rewrite Hc by done.
    change (1 + (BUFFER_HEIGHT - 1))%nat with BUFFER_HEIGHT. by rewrite decide_True by lia.
Qed.

(** [new_line] scrolls up by one row. *)
Lemma new_line_ok w : shape (chars w) ->
  new_line w = Ok (mk_writer 0 (color_code w) (drop 1 (chars w) ++ [replicate BUFFER_WIDTH (blank w)])).
Proof.
  intros Hb. unfold new_line. destruct (scroll_ok (chars w) Hb) as (b1 & -> & Hb1 & Hc1). cbn [mbind outcome_bind].
  destruct (clear_row_ok (mk_writer (column_position w) (color_code w) b1) (BUFFER_HEIGHT - 1) Hb1)
    as (b2 & -> & Hb2 & Hc2); [unfold BUFFER_HEIGHT; lia|]. cbn [mbind outcome_bind chars color_code].
  do 2 f_equal. destruct Hb as [Hl Hf].
  assert (Hld : length (drop 1 (chars w)) = (BUFFER_HEIGHT - 1)%nat) by (rewrite length_drop, Hl; done).
  apply cell_ext; [done| |].
  - split; [rewrite length_app, Hld; done|]. apply Forall_app. split; [by apply Forall_drop|]. by repeat constructor.
  - intros r c Hr Hc. rewrite Hc2 by done. unfold cell at 2. case_decide as E.
    + subst r. rewrite lookup_app_r by lia. rewrite Hld, Nat.sub_diag. cbn [mbind option_bind lookup list_lookup]. by rewrite lookup_replicate_2.
    + cbn [chars]. rewrite Hc1 by (unfold BUFFER_HEIGHT in *; lia). rewrite lookup_app_l by lia.
      rewrite lookup_drop. done.
Qed.

Lemma clear_screen_ok w : shape (chars w) ->
  clear_screen w = Ok (mk_writer 0 (color_code w) (replicate BUFFER_HEIGHT (replicate BUFFER_WIDTH (blank w)))).
Proof.
  intros Hb. unfold clear_screen.
  destruct (for_each_inv (fun n w' => shape (chars w') /\ color_code w' = color_code w /\
      forall r c, (r < n)%nat -> (c < BUFFER_WIDTH)%nat -> cell (chars w') r c = Some (blank w))
    (fun row w => clear_row w row) BUFFER_HEIGHT 0 w) as (w' & -> & Hb' & Hcol & Hc).
  - split_and!; [done..|]. lia.
  - intros i w' Hi (Hsh & Hcol & Hc). destruct (clear_row_ok w' i Hsh) as (b' & -> & Hb' & Hc'); [lia|].
    eexists. split_and!; [done..|]. intros r c Hr Hcw. cbn [chars]. rewrite Hc' by done. case_decide.
    + unfold blank. by rewrite Hcol.
    + apply Hc; [lia|done].
  - cbn [mbind outcome_bind]. rewrite Hcol. do 2 f_equal. apply cell_ext; [done|apply shape_replicate|].
    intros r c Hr Hcw. rewrite cell_replicate by done. by apply Hc.
Qed.

(** ** The refinement *)

Section Screen.
Context (color : Z).
Implicit Types (l : list Z) (t : terminal).

Lemma length_shown l : (length l <= BUFFER_WIDTH)%nat -> length (shown color l) = BUFFER_WIDTH.
Proof. intros H. unfold shown. rewrite length_app, length_fmap, length_replicate. lia. Qed.

Lemma shown_snoc l byte : (length l < BUFFER_WIDTH)%nat ->
  <[length l := mk_char byte color]> (shown color l) = shown color (l ++ [byte]).
Proof.
  intros H. unfold shown. rewrite insert_app_r_alt by (rewrite length_fmap; lia).
  rewrite length_fmap, Nat.sub_diag, fmap_app, length_app, <- app_assoc. cbn [length].
  replace (BUFFER_WIDTH - length l)%nat with (S (BUFFER_WIDTH - (length l + 1))) by lia. done.
Qed.

Lemma shown_erase l : (0 < length l <= BUFFER_WIDTH)%nat ->
  <[(length l - 1)%nat := mk_char 32 color]> (shown color l) = shown color (take (length l - 1) l).
Proof.
  intros H. destruct l as [|c l _] using rev_ind; [cbn in H; lia|]. rewrite length_app in *. cbn [length] in *.
  replace (length l + 1 - 1)%nat with (length l) by lia. rewrite take_app_length.
  rewrite <- shown_snoc by lia. rewrite list_insert_insert_eq.
  rewrite (shown_snoc l 32) by lia. unfold shown. rewrite fmap_app, length_app, <- app_assoc. cbn [length].
  replace (BUFFER_WIDTH - length l)%nat with (S (BUFFER_WIDTH - (length l + 1))) by lia. done.
Qed.

Lemma length_rows t :
  length (drop (length (history t)) (replicate (BUFFER_HEIGHT - 1) [] ++ history t)) = (BUFFER_HEIGHT - 1)%nat.
Proof. rewrite length_drop, length_app, length_replicate. lia. Qed.

Lemma screen_scroll t :
  screen color (mk_terminal (history t ++ [line t]) []) =
  drop 1 (screen color t) ++ [replicate BUFFER_WIDTH (mk_char 32 color)].
Proof.
  unfold screen at 1. cbn [history line]. f_equal.
  unfold screen. pose proof (length_rows t) as Hr. rewrite app_assoc, length_app. cbn [length].
  set (hs := replicate _ [] ++ history t) in *. clearbody hs. rewrite length_drop in Hr.
  unfold BUFFER_HEIGHT in Hr.
  rewrite (drop_app_le hs) by lia. rewrite (drop_app_le (_ <$> _)) by (rewrite length_fmap, length_drop; lia).
  by rewrite <- fmap_drop, drop_drop, fmap_app.
Qed.

(** Rows of history are at most a screen wide when lines are broken at the margin. *)
Definition narrow t : Prop :=
  Forall (fun l => (length l <= BUFFER_WIDTH)%nat) (history t) /\ (length (line t) <= BUFFER_WIDTH)%nat.

Lemma shape_screen t : narrow t -> shape (screen color t).
Proof.
  intros [Hh Hl]. unfold screen. split.
  - rewrite length_app, length_fmap, length_rows. done.
  - apply Forall_app. split; [|repeat constructor; by apply length_shown].
    rewrite Forall_fmap. apply Forall_drop, Forall_app. split.
    + apply Forall_replicate, length_shown. cbn. unfold BUFFER_WIDTH. lia.
    + eapply Forall_impl; [exact Hh|]. intros l. apply length_shown.
Qed.

Lemma terminal_byte_narrow t byte : narrow t -> narrow (terminal_byte t byte).
Proof.
  intros [Hh Hl]. unfold terminal_byte, narrow.
  repeat case_match; cbn [history line]; rewrite ?Forall_app, ?length_take, ?length_app; cbn [length];
    split_and!; auto; unfold BUFFER_WIDTH in *; lia.
Qed.

(** A write into the current line changes the last row only. *)
Lemma cell_write_line t c ch : (c < BUFFER_WIDTH)%nat -> narrow t ->
  cell_write (screen color t) (BUFFER_HEIGHT - 1) c ch =
  Ok ((shown color <$> drop (length (history t)) (replicate (BUFFER_HEIGHT - 1) [] ++ history t))
      ++ [<[c := ch]> (shown color (line t))]).
Proof.
  intros Hc [_ Hl]. unfold cell_write, screen. set (rows := shown color <$> _).
  assert (Hr : length rows = (BUFFER_HEIGHT - 1)%nat) by (unfold rows; by rewrite length_fmap, length_rows).
  unfold index. rewrite lookup_app_r by lia. rewrite Hr, Nat.sub_diag. cbn [lookup list_lookup mbind outcome_bind].
  unfold index_set. rewrite decide_True by (rewrite length_shown by done; done). cbn [mbind outcome_bind].
  rewrite decide_True by (rewrite length_app, Hr; cbn; unfold BUFFER_HEIGHT; lia).
  rewrite insert_app_r_alt by lia. by rewrite Hr, Nat.sub_diag.
Qed.

End Screen.

Definition console_at (color : Z) (t : terminal) : Writer :=
  mk_writer (length (line t)) color (screen color t).

Lemma new_line_at color t : narrow t ->
  new_line (console_at color t) = Ok (console_at color (mk_terminal (history t ++ [line t]) [])).
Proof.
  intros Hn. rewrite new_line_ok by (by apply shape_screen). unfold console_at. cbn [chars color_code line length].
  by rewrite screen_scroll.
Qed.

Lemma write_byte_at color t byte : narrow t ->
  write_byte (console_at color t) byte = Ok (console_at color (terminal_byte t byte)).
Proof.
  intros Hn. pose proof (proj2 Hn) as Hl. unfold write_byte, terminal_byte.
  destruct (byte =? 10); [by apply new_line_at|]. destruct (byte =? 8).
  - unfold backspace. cbn [console_at column_position chars]. case_decide as Hc.
    + unfold console_at at 1. cbn [chars]. rewrite cell_write_line by (done || lia). cbn [mbind outcome_bind].
      unfold blank. cbn [color_code console_at]. rewrite shown_erase by lia.
      unfold console_at, screen. cbn [history line]. rewrite length_take, Nat.min_l by lia. done.
    + destruct t as [h [|x l]]; [done|cbn in Hc; lia].
  - cbn [console_at column_position]. case_decide as Hc.
    + rewrite decide_True by lia. rewrite new_line_at by done. cbn [mbind outcome_bind].
      unfold console_at at 1. cbn [chars column_position line length color_code console_at].
      rewrite cell_write_line; [|unfold BUFFER_WIDTH; lia|].
      * cbn [mbind outcome_bind history line].
        pose proof (shown_snoc color [] byte) as Hs. cbn [length app] in Hs.
        rewrite Hs by (unfold BUFFER_WIDTH; lia). done.
      * split; [apply Forall_app; split; [apply Hn|by apply Forall_singleton]|cbn; unfold BUFFER_WIDTH; lia].
    + rewrite decide_False by lia. cbn [mbind outcome_bind].
      cbn [chars column_position color_code console_at]. rewrite cell_write_line by (done || lia).
      cbn [mbind outcome_bind]. rewrite shown_snoc by lia. unfold console_at, screen. cbn [history line].
      by rewrite length_app.
Qed.

Lemma write_string_at color t s : narrow t ->
  write_string (console_at color t) s = Ok (console_at color (foldl terminal_byte t (printable <$> s))).
Proof.
  revert t. induction s as [|byte s IH]; intros t Hn; [done|].
  cbn [write_string]. rewrite write_byte_at by done. cbn [mbind outcome_bind fmap list_fmap foldl].
  apply IH. by apply terminal_byte_narrow.
Qed.

(** C33. The console is a terminal.  [clear_screen] and then [write_string] of any string,
    from any state of the console, neither panics nor loses a character: lines break at
    the 80th column and at newlines, backspace erases within the line, bytes that are not
    printable show as 0xfe, and the screen is the current line below the last 24 rows of
    all that was written. *)
Theorem console_is_terminal w s : writer_ok w ->
  (w1 ← clear_screen w; write_string w1 s) =
    Ok (console_at (color_code w) (foldl terminal_byte (mk_terminal [] []) (printable <$> s))).
Proof.
  intros (Hl & Hf & _). rewrite clear_screen_ok by done. cbn [mbind outcome_bind].
  change (mk_writer 0 _ _) with (console_at (color_code w) (mk_terminal [] [])).
  apply write_string_at. split; [constructor|cbn; unfold BUFFER_WIDTH; lia].
Qed.

Lemma WRITER_ok b : shape b -> writer_ok (WRITER b).
Proof. intros [Hl Hw]. split_and!; [done|done|cbn; unfold BUFFER_WIDTH; lia]. Qed.

Definition boot_writer : Writer :=
  mk_writer 7 (color_code_new Yellow Black) (replicate BUFFER_HEIGHT (replicate BUFFER_WIDTH (mk_char 0x41 7))).

Lemma console_is_terminal_witness :
  (w1 ← clear_screen boot_writer; write_string w1 [0x48; 0x69; 8; 0x21; 10; 7]) =
    Ok (console_at 14 (mk_terminal [[0x48; 0x21]] [0xfe])).
Proof.
  rewrite (console_is_terminal boot_writer); [done|].
  split_and!; [done|by apply Forall_replicate|]. cbn. unfold BUFFER_WIDTH. lia.
Defined.
