(* ===== verification/Doom.v ===== *)
(** * Graphics mode and the Doom platform layer
    (src/vga_mode13.rs, src/ffi/mod.rs [load_playpal] and the [DG_*] and [rust_*] callbacks)

    The VGA registers are reached through the port interface of the disk driver; the
    framebuffer and Doom's screen buffer are in byte memory.  The key queue behind
    [DG_GetKey] is in KeyRing. *)

From S2P Require Import Prelude Machine Fs Ata Memory.

(** ** Mode 13h *)

Definition WIDTH : Z := 320.
Definition HEIGHT : Z := 200.

Definition MISC_WRITE : Z := 0x3C2.
Definition SEQ_INDEX : Z := 0x3C4.
Definition SEQ_DATA : Z := 0x3C5.
Definition CRTC_INDEX : Z := 0x3D4.
Definition CRTC_DATA : Z := 0x3D5.
Definition GC_INDEX : Z := 0x3CE.
Definition GC_DATA : Z := 0x3CF.
Definition AC_PORT : Z := 0x3C0.
Definition INPUT_STATUS1 : Z := 0x3DA.
Definition DAC_INDEX : Z := 0x3C8.
Definition DAC_DATA : Z := 0x3C9.

Section Vga13.
Context {D : Type} `{!Ports D}.

Fixpoint write_indexed (d : D) (index_port data_port : Z) (regs : list (Z * Z)) : D :=
  match regs with
  | [] => d
  | (i, v) :: regs => write_indexed (outb (outb d index_port i) data_port v) index_port data_port regs
  end.

Definition set_mode (d : D) : D :=
  let d := outb d MISC_WRITE 0x63 in
  let d := write_indexed d SEQ_INDEX SEQ_DATA
    [(0x00, 0x03); (0x01, 0x01); (0x02, 0x0F); (0x03, 0x00); (0x04, 0x0E)] in
  let d := outb d CRTC_INDEX 0x11 in
  let '(v, d) := inb d CRTC_DATA in
  let cr11 := Z.land v 0x7F in
  let d := outb d CRTC_DATA cr11 in
  let d := write_indexed d CRTC_INDEX CRTC_DATA
    [(0x00, 0x5F); (0x01, 0x4F); (0x02, 0x50); (0x03, 0x82);
     (0x04, 0x54); (0x05, 0x80); (0x06, 0xBF); (0x07, 0x1F);
     (0x08, 0x00); (0x09, 0x41); (0x0A, 0x00); (0x0B, 0x00);
     (0x0C, 0x00); (0x0D, 0x00); (0x0E, 0x00); (0x0F, 0x00);
     (0x10, 0x9C); (0x11, 0x0E); (0x12, 0x8F); (0x13, 0x28);
     (0x14, 0x40); (0x15, 0x96); (0x16, 0xB9); (0x17, 0xA3);
     (0x18, 0xFF)] in
  let d := write_indexed d GC_INDEX GC_DATA
    [(0x00, 0x00); (0x01, 0x00); (0x02, 0x00); (0x03, 0x00);
     (0x04, 0x00); (0x05, 0x40); (0x06, 0x05); (0x07, 0x0F);
     (0x08, 0xFF)] in
  let d := snd (inb d INPUT_STATUS1) in
  let d := write_indexed d AC_PORT AC_PORT ((fun i => (i, i)) <$> seqZ 0 16) in
  let d := write_indexed d AC_PORT AC_PORT
    [(0x10, 0x41); (0x11, 0x00); (0x12, 0x0F); (0x13, 0x00); (0x14, 0x00)] in
  outb d AC_PORT 0x20.

(** [framebuffer().fill(0)] over the 64000 pixels at [FB_ADDR]. *)
Definition fill_framebuffer (v : Z) (m : memory) : memory :=
  fun a => if (FB_ADDR <=? a) && (a <? FB_ADDR + WIDTH * HEIGHT) then v else m a.

Definition enter_mode13 (d : D) (m : memory) : D * memory := (set_mode d, fill_framebuffer 0 m).

Definition set_palette_entry (d : D) (index r g b : Z) : D :=
  let d := outb d DAC_INDEX index in
  let d := outb d DAC_DATA (Z.shiftr r 2) in
  let d := outb d DAC_DATA (Z.shiftr g 2) in
  outb d DAC_DATA (Z.shiftr b 2).

(** ** The palette *)

(** [for (idx, chunk) in palette.chunks_exact(3).enumerate()] *)
Fixpoint set_palette (d : D) (idx : Z) (palette : bytes) : D :=
  match palette with
  | r :: g :: b :: palette => set_palette (set_palette_entry d (as_u8 idx) r g b) (idx + 1) palette
  | _ => d
  end.

Definition PLAYPAL : bytes := [80; 76; 65; 89; 80; 65; 76].
Definition IWAD : bytes := [73; 87; 65; 68].
Definition PWAD : bytes := [80; 87; 65; 68].

(** The loop of [load_playpal] from directory entry [i] on, [n] entries left. *)
Fixpoint scan_lumps (d : D) (wad : bytes) (dir_offset i : Z) (n : nat) : outcome D :=
  match n with
  | O => Ok d
  | S n =>
      let len := Z.of_nat (length wad) in
      step ← i *! 16;
      base ← dir_offset +! step;
      last ← base +! 16;
      if len <? last then Ok d else
      entry ← slice wad base last;
      name ← slice entry 8 16;
      let end_ := default 8%nat (position0 name) in
      nm ← slice name 0 (Z.of_nat end_);
      if negb (bool_decide (nm = PLAYPAL)) then scan_lumps d wad dir_offset (i + 1) n else
      ob ← slice entry 0 4;
      sb ← slice entry 4 8;
      let lump_off := from_le ob in
      let lump_size := from_le sb in
      lump_end ← lump_off +! 768;
      if (lump_size <? 768) || (len <? lump_end) then Ok d else
      palette ← slice wad lump_off lump_end;
      Ok (set_palette d 0 palette)
  end.

Definition load_playpal (d : D) (wad : bytes) : outcome D :=
  if Z.of_nat (length wad) <? 12 then Ok d else
  magic ← slice wad 0 4;
  if negb (bool_decide (magic = IWAD)) && negb (bool_decide (magic = PWAD)) then Ok d else
  nb ← slice wad 4 8;
  db ← slice wad 8 12;
  let num_lumps := from_le nb in
  let dir_offset := from_le db in
  scan_lumps d wad dir_offset 0 (Z.to_nat num_lumps).

Definition DOOM1_WAD : bytes := [100; 111; 111; 109; 49; 46; 119; 97; 100].

Definition DG_Init (archive : option bytes) (d : D) : outcome D :=
  wad ← cxfs_open archive DOOM1_WAD;
  match wad with
  | Some wad => load_playpal d wad
  | None => Ok d
  end.

End Vga13.

(** ** Frames and time *)

(** [DG_DrawFrame]: [DG_ScreenBuffer] is a pointer, null before the engine starts. *)
Definition DG_DrawFrame (DG_ScreenBuffer : Z) (m : memory) : memory :=
  if DG_ScreenBuffer =? 0 then m else
  fun a => if (FB_ADDR <=? a) && (a <? FB_ADDR + WIDTH * HEIGHT)
           then m (DG_ScreenBuffer + (a - FB_ADDR)) else m a.

(** [(uptime_ticks() * 10) as u32] *)
Definition DG_GetTicksMs (uptime : Z) : outcome Z :=
  ms ← uptime *! 10; Ok (as_u32 ms).

(** [DG_SleepMs]: [uptime n] is what the [n]-th call of [uptime_ticks] reads; the result
    is the number of [hlt]s, [None] if the loop did not end within the fuel. *)
Fixpoint sleep_until (fuel : nat) (uptime : nat -> Z) (target : Z) (n : nat) : option nat :=
  match fuel with
  | O => None
  | S fuel => if uptime n <? target then sleep_until fuel uptime target (S n) else Some (n - 1)%nat
  end.
Definition DG_SleepMs (fuel : nat) (uptime : nat -> Z) (ms : Z) : outcome (option nat) :=
  target ← uptime 0%nat +! Z.max (ms / 10) 1;
  Ok (sleep_until fuel uptime target 1).

(** ** Reading a WAD directory *)

Definition sub (l : bytes) (a b : Z) : bytes := take (Z.to_nat (b - a)) (drop (Z.to_nat a) l).

Definition is_byte (b : Z) : Prop := 0 <= b < 256.

Definition wad_ok (wad : bytes) : Prop := Forall is_byte wad /\ Z.of_nat (length wad) < 2 ^ 63.

Definition wad_lumps (wad : bytes) : Z := from_le (sub wad 4 8).
Definition wad_dir (wad : bytes) : Z := from_le (sub wad 8 12).
Definition dir_entry (wad : bytes) (dir i : Z) : bytes := sub wad (dir + i * 16) (dir + i * 16 + 16).
Definition lump_name (e : bytes) : bytes := take (default 8%nat (position0 (sub e 8 16))) (sub e 8 16).
Definition lump_off (e : bytes) : Z := from_le (sub e 0 4).
Definition lump_size (e : bytes) : Z := from_le (sub e 4 8).

Lemma slice_sub l a b : 0 <= a <= b -> b <= Z.of_nat (length l) -> slice l a b = Ok (sub l a b).
Proof.
  intros Hab Hb. unfold slice, sub. destruct (_ && _) eqn:E; [done|]. rewrite !andb_false_iff in E. lia.
Qed.

Lemma length_sub l a b : 0 <= a <= b -> b <= Z.of_nat (length l) -> length (sub l a b) = Z.to_nat (b - a).
Proof. intros Ha Hb. unfold sub. rewrite length_take, length_drop. lia. Qed.

Lemma sub_bytes l a b : Forall is_byte l -> Forall is_byte (sub l a b).
Proof. intros H. by apply Forall_take, Forall_drop. Qed.

Lemma from_le_bound l : Forall is_byte l -> 0 <= from_le l < 256 ^ Z.of_nat (length l).
Proof.
  unfold is_byte. induction 1 as [|b l Hb _ IH]; cbn [from_le length]; [done|].
  rewrite Nat2Z.inj_succ, Z.pow_succ_r by lia. lia.
Qed.

Lemma from_le_u32 l a : Forall is_byte l -> 0 <= a -> a + 4 <= Z.of_nat (length l) ->
  0 <= from_le (sub l a (a + 4)) < 2 ^ 32.
Proof.
  intros Hl Ha Hb. pose proof (from_le_bound (sub l a (a + 4)) (sub_bytes _ _ _ Hl)) as H.
  rewrite length_sub in H by lia. by replace (Z.to_nat (a + 4 - a)) with 4%nat in H by lia.
Qed.

Lemma position0_le l k : (length l <= k)%nat -> (default k (position0 l) <= k)%nat.
Proof.
  intros Hl. unfold position0. destruct (list_find _ l) as [[i x]|] eqn:E; cbn; [|lia].
  apply list_find_Some in E as (Hi & _). apply lookup_lt_Some in Hi. lia.
Qed.

Section Playpal.
Context {D : Type} `{!Ports D}.

(** One turn of the directory loop. *)
Lemma scan_step (d : D) wad dir i n :
  wad_ok wad -> 0 <= dir < 2 ^ 32 -> 0 <= i < 2 ^ 32 ->
  let e := dir_entry wad dir i in
  scan_lumps d wad dir i (S n) =
    if Z.of_nat (length wad) <? dir + i * 16 + 16 then Ok d
    else if negb (bool_decide (lump_name e = PLAYPAL)) then scan_lumps d wad dir (i + 1) n
    else if (lump_size e <? 768) || (Z.of_nat (length wad) <? lump_off e + 768) then Ok d
    else Ok (set_palette d 0 (sub wad (lump_off e) (lump_off e + 768))).
Proof.
  intros [Hb Hlen] Hd Hi e. cbn [scan_lumps].
  rewrite u64_mul_returns by (unfold u64_max; lia). cbn [mbind outcome_bind].
  rewrite u64_add_returns by (unfold u64_max; lia). cbn [mbind outcome_bind].
  rewrite u64_add_returns by (unfold u64_max; lia). cbn [mbind outcome_bind].
  destruct (Z.ltb_spec (Z.of_nat (length wad)) (dir + i * 16 + 16)) as [|Hin]; [done|].
  rewrite slice_sub by lia. cbn [mbind outcome_bind]. fold (dir_entry wad dir i). fold e.
  assert (He : length e = 16%nat) by (unfold e, dir_entry; rewrite length_sub by lia; lia).
  assert (Heb : Forall is_byte e) by by apply sub_bytes.
  rewrite (slice_sub e 8 16) by lia. cbn [mbind outcome_bind].
  pose proof (length_sub e 8 16 ltac:(lia) ltac:(lia)) as Hn.
  pose proof (position0_le (sub e 8 16) 8 ltac:(lia)) as Hpos.
  rewrite (slice_sub (sub e 8 16)) by lia. cbn [mbind outcome_bind].
  replace (sub (sub e 8 16) 0 _) with (lump_name e) by (unfold lump_name, sub at 3; f_equal; lia).
  destruct (negb _); [done|].
  rewrite (slice_sub e 0 4), (slice_sub e 4 8) by lia. cbn [mbind outcome_bind].
  fold (lump_off e) (lump_size e). pose proof (from_le_u32 e 0 Heb ltac:(lia) ltac:(lia)) as Ho. change (0 + 4) with 4 in Ho. fold (lump_off e) in Ho.
  rewrite u64_add_returns by (unfold u64_max; lia). cbn [mbind outcome_bind].
  destruct (Z.ltb_spec (lump_size e) 768); [done|].
  destruct (Z.ltb_spec (Z.of_nat (length wad)) (lump_off e + 768)); [done|]. cbn [orb].
  by rewrite slice_sub by lia.
Qed.
Lemma set_palette_loop wad base n idx (d : D) :
  (base + 3 * (idx + n) <= length wad)%nat -> (idx + n <= 256)%nat ->
  set_palette d (Z.of_nat idx) (take (3 * n) (drop (base + 3 * idx) wad)) = foldl (fun d i =>
    let c j := nth (base + 3 * i + j) wad 0 in
    set_palette_entry d (Z.of_nat i) (c 0%nat) (c 1%nat) (c 2%nat)) d (seq idx n).
Proof.
  revert idx d. induction n as [|n IH]; intros idx d Hlen Hidx; [done|]. cbn [seq foldl].
  assert (Hnth : forall p, (p < length wad)%nat -> drop p wad = nth p wad 0 :: drop (S p) wad).
  { intros p Hp. apply drop_S. rewrite nth_lookup. by destruct (lookup_lt_is_Some_2 wad p Hp) as [x ->]. }
  rewrite (Hnth (base + 3 * idx)%nat), (Hnth (S (base + 3 * idx))), (Hnth (S (S (base + 3 * idx)))) by lia.
  replace (3 * S n)%nat with (S (S (S (3 * n)))) by lia. cbn [take set_palette].
  replace (as_u8 (Z.of_nat idx)) with (Z.of_nat idx) by (unfold as_u8; rewrite Z.mod_small; lia).
  replace (Z.of_nat idx + 1) with (Z.of_nat (S idx)) by lia.
  replace (S (S (S (base + 3 * idx)))) with (base + 3 * S idx)%nat by lia.
  rewrite IH by lia. cbv zeta. do 2 f_equal; f_equal; lia.
Qed.

(** From entry [i] on the directory loop ends without a panic. *)
Lemma scan_safe (d : D) wad dir n i : wad_ok wad -> 0 <= dir < 2 ^ 32 -> 0 <= i -> i + Z.of_nat n <= 2 ^ 32 ->
  exists d', scan_lumps d wad dir i n = Ok d' /\
    (d' = d \/ exists off, 0 <= off /\ off + 768 <= Z.of_nat (length wad) /\
                 d' = set_palette d 0 (sub wad off (off + 768))).
Proof.
  intros Hw Hd. revert i. induction n as [|n IH]; intros i Hi Hin; [exists d; auto|].
  rewrite scan_step by (done || lia). cbv zeta. set (e := dir_entry _ _ _).
  assert (Ho : 0 <= lump_off e) by (apply from_le_bound, sub_bytes, sub_bytes, Hw).
  case_match; [exists d; auto|]. case_match; [apply IH; lia|].
  destruct (_ || _) eqn:E; [exists d; auto|].
  apply orb_false_iff in E as [_ E%Z.ltb_ge]. eauto 10.
Qed.

Lemma load_playpal_scan (d : D) wad : wad_ok wad -> 12 <= Z.of_nat (length wad) ->
  sub wad 0 4 = IWAD \/ sub wad 0 4 = PWAD ->
  load_playpal d wad = scan_lumps d wad (wad_dir wad) 0 (Z.to_nat (wad_lumps wad)) /\
  0 <= wad_dir wad < 2 ^ 32 /\ 0 <= wad_lumps wad < 2 ^ 32.
Proof.
  intros [Hb _] H12 Hm. split_and!; try (apply (from_le_u32 wad); done || lia).
  unfold load_playpal. rewrite (proj2 (Z.ltb_ge _ _) H12).
  rewrite (slice_sub wad 0 4), (slice_sub wad 4 8), (slice_sub wad 8 12) by lia. cbn [mbind outcome_bind].
  destruct Hm as [-> | ->]; done.
Qed.

(** No WAD file can crash the palette loader: whatever the bytes, [load_playpal] makes
    no access out of range and no arithmetic overflow, and it either leaves the palette
    registers alone or programs them from 768 bytes that lie inside of the file. *)
Theorem load_playpal_safe (d : D) wad : wad_ok wad ->
  exists d', load_playpal d wad = Ok d' /\
    (d' = d \/ exists off, 0 <= off /\ off + 768 <= Z.of_nat (length wad) /\
                 d' = set_palette d 0 (sub wad off (off + 768))).
Proof.
  intros Hw. destruct (Z.ltb_spec (Z.of_nat (length wad)) 12) as [Hs|H12].
  { exists d. unfold load_playpal. rewrite (proj2 (Z.ltb_lt _ _) Hs). auto. }
  destruct (decide (sub wad 0 4 = IWAD \/ sub wad 0 4 = PWAD)) as [Hm|Hm].
  - destruct (load_playpal_scan d wad Hw H12 Hm) as (-> & Hd & Hn).
    apply scan_safe; done || lia.
  - exists d. split; [|auto]. unfold load_playpal. rewrite (proj2 (Z.ltb_ge _ _) H12).
    rewrite (slice_sub wad 0 4) by lia. cbn [mbind outcome_bind].
    rewrite !bool_decide_eq_false_2 by tauto. done.
Qed.

(** The palette is found: if the [k]-th directory entry is the first one named
    PLAYPAL, the directory up to it is inside of the file, and it names 768 bytes of the
    file, then the 256 palette registers are set, in order, to its first 256 colours cut
    to six bits per component. *)
Theorem load_playpal_found (d : D) wad k : wad_ok wad -> 12 <= Z.of_nat (length wad) ->
  sub wad 0 4 = IWAD \/ sub wad 0 4 = PWAD ->
  let e i := dir_entry wad (wad_dir wad) (Z.of_nat i) in
  Z.of_nat k < wad_lumps wad ->
  wad_dir wad + Z.of_nat k * 16 + 16 <= Z.of_nat (length wad) ->
  (forall i, (i < k)%nat -> lump_name (e i) <> PLAYPAL) -> lump_name (e k) = PLAYPAL ->
  768 <= lump_size (e k) -> lump_off (e k) + 768 <= Z.of_nat (length wad) ->
  load_playpal d wad = Ok (foldl (fun d i =>
    let c j := nth (Z.to_nat (lump_off (e k)) + 3 * i + j) wad 0 in
    set_palette_entry d (Z.of_nat i) (c 0%nat) (c 1%nat) (c 2%nat)) d (seq 0 256)).
Proof.
  intros Hw H12 Hm e Hk Hdir Hbefore Hname Hsize Hoff.
  destruct (load_playpal_scan d wad Hw H12 Hm) as (-> & Hd & Hn).
  assert (Hscan : forall i, (i <= k)%nat ->
    scan_lumps d wad (wad_dir wad) (Z.of_nat i) (Z.to_nat (wad_lumps wad) - i) =
    Ok (set_palette d 0 (sub wad (lump_off (e k)) (lump_off (e k) + 768)))).
  { intros i Hi. remember (k - i)%nat as m eqn:Em. revert i Hi Em. induction m as [|m IH]; intros i Hi Em.
    - assert (i = k) as -> by lia.
      replace (Z.to_nat (wad_lumps wad) - k)%nat with (S (Z.to_nat (wad_lumps wad) - k - 1)) by lia.
      rewrite scan_step by (done || lia). fold (e k). cbv zeta.
      rewrite (proj2 (Z.ltb_ge _ _) Hdir), bool_decide_eq_true_2 by done. cbn [negb].
      by rewrite (proj2 (Z.ltb_ge _ _) Hsize), (proj2 (Z.ltb_ge _ _) Hoff).
    - replace (Z.to_nat (wad_lumps wad) - i)%nat with (S (Z.to_nat (wad_lumps wad) - S i)) by lia.
      rewrite scan_step by (done || lia). fold (e i). cbv zeta.
      rewrite (proj2 (Z.ltb_ge _ _)) by lia. rewrite bool_decide_eq_false_2 by (apply Hbefore; lia). cbn [negb].
      replace (Z.of_nat i + 1) with (Z.of_nat (S i)) by lia. apply IH; lia. }
  specialize (Hscan 0%nat). rewrite Nat.sub_0_r in Hscan. change (Z.of_nat 0) with 0 in Hscan. rewrite Hscan by lia.
  assert (Ho : 0 <= lump_off (e k)) by (apply from_le_bound, sub_bytes, sub_bytes, Hw).
  f_equal. rewrite <- (set_palette_loop wad (Z.to_nat (lump_off (e k))) 256 0) by lia.
  unfold sub. do 2 f_equal; [lia|]. by rewrite Nat.mul_0_r, Nat.add_0_r.
Qed.

End Playpal.

(** A device that records the writes. *)
#[global] Instance log_ports : Ports (list (Z * Z)) := {
  inb d _ := (0, d);
  inw d _ := (0, d);
  outb d p v := d ++ [(p, v)];
}.

(** A WAD with two lumps, the second of which is a palette of 256 equal colours. *)
Definition demo_wad : bytes :=
  IWAD ++ to_le 4 2 ++ to_le 4 12 ++
  (to_le 4 0 ++ to_le 4 0 ++ [69; 49; 77; 49; 0; 0; 0; 0]) ++
  (to_le 4 44 ++ to_le 4 768 ++ PLAYPAL ++ [0]) ++ replicate 768 200.

Lemma demo_wad_ok : wad_ok demo_wad.
Proof.
  split; [|done]. apply (bool_decide_unpack (Forall (fun b => is_byte b) demo_wad)). by vm_compute.
Qed.

Lemma load_playpal_safe_witness : exists d', load_playpal ([] : list (Z * Z)) demo_wad = Ok d' /\ length d' = 1024%nat.
Proof.
  destruct (load_playpal_safe ([] : list (Z * Z)) demo_wad demo_wad_ok) as (d' & H & _). exists d'. split; [done|].
  revert H. vm_compute. by intros [= <-].
Defined.

Lemma load_playpal_found_witness : load_playpal ([] : list (Z * Z)) demo_wad =
  Ok (concat ((fun i => [(DAC_INDEX, Z.of_nat i); (DAC_DATA, 50); (DAC_DATA, 50); (DAC_DATA, 50)]) <$> seq 0 256)).
Proof.
  rewrite (load_playpal_found ([] : list (Z * Z)) demo_wad 1 demo_wad_ok); try (vm_compute; congruence).
  - by left; vm_compute.
  - intros i Hi. assert (i = 0%nat) as -> by lia. vm_compute. congruence.
Defined.

(** ** Sleeping *)

(** With enough fuel [DG_SleepMs] returns at the first wake-up at which the clock shows
    [max (ms / 10) 1] ticks more than at the call. *)
Lemma DG_SleepMs_returns fuel uptime ms k :
  let target := uptime 0%nat + Z.max (ms / 10) 1 in
  target <= u64_max -> (1 <= k <= fuel)%nat ->
  (forall i, (1 <= i < k)%nat -> uptime i < target) -> target <= uptime k ->
  DG_SleepMs fuel uptime ms = Ok (Some (k - 1)%nat).
Proof.
  intros target Ht Hk Hbefore Hreach. unfold DG_SleepMs. rewrite u64_add_returns by done. cbn [mbind outcome_bind].
  fold target. f_equal. assert (H : forall n, (1 <= n <= k)%nat -> (k - n < fuel)%nat ->
    sleep_until fuel uptime target n = Some (k - 1)%nat); [|apply H; lia].
  clear Hk. induction fuel as [|fuel IH]; intros n Hn Hf; [lia|]. cbn [sleep_until].
  destruct (Z.ltb_spec (uptime n) target) as [Hlt|Hge].
  - destruct (decide (n = k)); [subst; lia|]. apply IH; lia.
  - destruct (decide (n = k)); [by subst|]. specialize (Hbefore n). lia.
Qed.
