(* ===== verification/Syscall.v ===== *)
(** * System calls (src/syscall.rs)

    [int 0x80] enters the handler through an interrupt gate, so the handler runs to its
    end; the result is left in the static [SYSCALL_RETURN] and read by the caller after
    the return from the interrupt, when other threads may run. *)

From S2P Require Import Prelude Vga.

Inductive Syscall := Uptime | PutChar | Exit.

Definition syscall_as_u64 (s : Syscall) : Z :=
  match s with Uptime => 0 | PutChar => 1 | Exit => 2 end.

Definition SYSCALL_VECTOR : Z := 0x80.

(** What the calls use of the kernel: the clock, the console and the result cell. *)
Record system := mk_system {
  sys_uptime : Z;
  writer : Writer;
  SYSCALL_RETURN : Z;
}.

(** [print!("{}", c as char)]: the character U+0000 to U+00FF in UTF-8. *)
Definition utf8_of_u8 (c : Z) : list Z :=
  if c <? 0x80 then [c] else [Z.lor 0xC0 (Z.shiftr c 6); Z.lor 0x80 (Z.land c 0x3F)].

Definition print (s : system) (str : list Z) : outcome system :=
  '(r, w) ← write_str (writer s) str;
  _ ← expect r;
  Ok (mk_system (sys_uptime s) w (SYSCALL_RETURN s)).

Definition dispatch (number arg1 arg2 arg3 : Z) (s : system) : outcome (Z * system) :=
  if number =? 0 then Ok (sys_uptime s, s)
  else if number =? 1 then
    let c := Z.land arg1 0xff in
    s ← (if c =? 10 then print s [10] else print s (utf8_of_u8 c));
    Ok (0, s)
  else if number =? 2 then Ok (0, s)
  else Ok (u64_max, s).

(** The registers a caller passes. *)
Record call_regs := mk_call { c_rax : Z; c_rdi : Z; c_rsi : Z; c_rdx : Z }.

Definition syscall_handler (r : call_regs) (s : system) : outcome system :=
  '(result, s) ← dispatch (c_rax r) (c_rdi r) (c_rsi r) (c_rdx r) s;
  Ok (mk_system (sys_uptime s) (writer s) result).

(** [syscall0], [syscall1], [syscall2] without another thread in between; the registers
    that are not inputs of the [asm!] block hold what the compiler left there. *)
Definition invoke (r : call_regs) (s : system) : outcome (Z * system) :=
  s ← syscall_handler r s; Ok (SYSCALL_RETURN s, s).
Definition syscall0 (n rdi rsi rdx : Z) := invoke (mk_call n rdi rsi rdx).
Definition syscall1 (n a1 rsi rdx : Z) := invoke (mk_call n a1 rsi rdx).
Definition syscall2 (n a1 a2 rdx : Z) := invoke (mk_call n a1 a2 rdx).

(** ** Callers under preemption *)

(** A caller is before its [int 0x80], between it and the load of the result, or done. *)
Inductive caller := Calling (r : call_regs) | Returning | Returned (v : Z).

Definition caller_step (i : nat) (st : list caller * system) : outcome (list caller * system) :=
  let '(cs, s) := st in
  match cs !! i with
  | Some (Calling r) => s ← syscall_handler r s; Ok (<[i := Returning]> cs, s)
  | Some Returning => Ok (<[i := Returned (SYSCALL_RETURN s)]> cs, s)
  | _ => Ok st
  end.

Fixpoint callers_run (schedule : list nat) (st : list caller * system) : outcome (list caller * system) :=
  match schedule with
  | [] => Ok st
  | i :: schedule => st ← caller_step i st; callers_run schedule st
  end.

(** The console is one that [console_is_terminal] describes, and stays one. *)
Definition system_shows (s : system) (color : Z) (t : terminal) : Prop :=
  writer s = console_at color t /\ narrow t.

Lemma print_shows s str color t : system_shows s color t ->
  exists t', print s str = Ok (mk_system (sys_uptime s) (console_at color t') (SYSCALL_RETURN s)) /\
    t' = foldl terminal_byte t (printable <$> str) /\ narrow t'.
Proof.
  intros [Hw Hn]. unfold print. rewrite Hw. eexists. split; [|split; [done|]].
  - unfold write_str. by rewrite write_string_at.
  - clear Hw. revert t Hn. induction str as [|b str IH]; intros t Hn; [done|]. cbn.
    by apply IH, terminal_byte_narrow.
Qed.

(** What a system call does when no other call comes between it and its return:
    the clock is returned by call 0, a character is put on the console by call 1 (as the
    printable bytes of its UTF-8 form), call 2 does nothing, every other number answers
    [u64::MAX]; no argument makes the kernel panic. *)
Lemma syscall_shows s color t n a1 rsi rdx : system_shows s color t ->
  exists v s', syscall1 n a1 rsi rdx s = Ok (v, s') /\ sys_uptime s' = sys_uptime s /\
    v = (if n =? 0 then sys_uptime s else if (n =? 1) || (n =? 2) then 0 else u64_max) /\
    system_shows s' color
      (if n =? 1 then foldl terminal_byte t (printable <$> utf8_of_u8 (a1 mod 256)) else t).
Proof.
  intros Hs. unfold syscall1, invoke, syscall_handler, dispatch. cbn [c_rax c_rdi c_rsi c_rdx].
  destruct (Z.eqb_spec n 0) as [->|H0]; [by eexists _, _|].
  destruct (Z.eqb_spec n 1) as [->|H1].
  - replace (Z.land a1 255) with (a1 mod 256) by (change 255 with (Z.ones 8); by rewrite Z.land_ones).
    assert (Hp : (if a1 mod 256 =? 10 then print s [10] else print s (utf8_of_u8 (a1 mod 256))) =
      print s (utf8_of_u8 (a1 mod 256))) by (by destruct (Z.eqb_spec (a1 mod 256) 10) as [->|]).
    rewrite Hp. destruct (print_shows s (utf8_of_u8 (a1 mod 256)) color t Hs) as (t' & -> & -> & Hn).
    by eexists _, _.
  - destruct (n =? 2); by eexists _, _.
Qed.

Definition demo_system : system := mk_system 42 (console_at 14 (mk_terminal [] [])) 0.

