(* ===== verification/CLib.v ===== *)
(** * The C library for Doom: the heap (src/ffi/stubs.c, src/ffi/mod.rs [rust_alloc],
    [rust_free])

    [malloc] and its family put a 16-byte header with the size in front of each block of
    the kernel heap, which they share with the kernel's own allocations.  [size_t]
    arithmetic wraps around. *)

From S2P Require Import Prelude Machine Alloc LinkedList FixedBlock HeapMem ListMem BlockMem.

Definition MALLOC_HDR : Z := 16.

(** [memcpy] is [copy]; [memset] over [n] bytes. *)
Definition memset (m : memory) (dst c n : Z) : memory :=
  fun x => if (dst <=? x) && (x <? dst + n) then as_u8 c else m x.

Definition __memcpy_chk (m : memory) (dst src len dstlen : Z) : memory := copy m src dst len.
Definition __memset_chk (m : memory) (dst c len dstlen : Z) : memory := memset m dst c len.

Section CHeap.
(** A heap that keeps its lists in the memory it owns. *)
Context {S : Type} `{!HeapAllocator S, !HeapMemory S}.

Record c_state := mk_c {
  c_heap : S;
  c_mem : memory;
}.

Definition rust_alloc (st : c_state) (sz al : Z) : outcome (Z * c_state) :=
  layout ← expect (from_size_align sz al);
  '(p, h) ← ha_alloc (c_heap st) layout;
  Ok (p, mk_c h (hm_alloc (c_heap st) layout (c_mem st))).

Definition rust_free (st : c_state) (ptr sz al : Z) : outcome c_state :=
  layout ← expect (from_size_align sz al);
  h ← ha_dealloc (c_heap st) ptr layout;
  Ok (mk_c h (hm_dealloc (c_heap st) ptr layout (c_mem st))).

Definition malloc (st : c_state) (sz : Z) : outcome (Z * c_state) :=
  let sz := if sz =? 0 then 1 else sz in
  '(raw, st) ← rust_alloc st (wrap64 (sz + MALLOC_HDR)) 16;
  if raw =? 0 then Ok (0, st) else
  Ok (raw + MALLOC_HDR, mk_c (c_heap st) (store64 (c_mem st) raw sz)).

Definition free (st : c_state) (ptr : Z) : outcome c_state :=
  if ptr =? 0 then Ok st else
  let raw := ptr - MALLOC_HDR in
  let sz := load64 (c_mem st) raw in
  rust_free st raw (wrap64 (sz + MALLOC_HDR)) 16.

Definition calloc (st : c_state) (nmemb sz : Z) : outcome (Z * c_state) :=
  let total := wrap64 (nmemb * sz) in
  '(p, st) ← malloc st total;
  if p =? 0 then Ok (p, st) else Ok (p, mk_c (c_heap st) (memset (c_mem st) p 0 total)).

Definition c_realloc (st : c_state) (ptr new_size : Z) : outcome (Z * c_state) :=
  if ptr =? 0 then malloc st new_size else
  if new_size =? 0 then st ← free st ptr; Ok (0, st) else
  let old_size := load64 (c_mem st) (ptr - MALLOC_HDR) in
  '(n, st) ← malloc st new_size;
  if n =? 0 then Ok (0, st) else
  let st := mk_c (c_heap st) (copy (c_mem st) ptr n (if old_size <? new_size then old_size else new_size)) in
  st ← free st ptr;
  Ok (n, st).

(** ** Blocks *)

(** A block the program holds: its address and, byte by byte, what the program put there
    ([None] where it has put nothing yet). *)
Definition block := (Z * list (option Z))%type.

Definition raw_of (b : block) : Z * Layout :=
  (fst b - MALLOC_HDR, mk_layout (Z.of_nat (length (snd b)) + MALLOC_HDR) 16).

Definition MAX_SIZE : Z := 2 ^ 60.

(** The header holds the size, and the bytes are those of the program. *)
Definition holds (m : memory) (b : block) : Prop :=
  1 <= Z.of_nat (length (snd b)) <= MAX_SIZE /\
  load64 m (fst b - MALLOC_HDR) = Z.of_nat (length (snd b)) /\
  forall i v, snd b !! i = Some (Some v) -> m (fst b + Z.of_nat i) = v.

(** The blocks the Rust side holds in the same heap, and what is in them. *)
Section Invariant.
Variable others : list (Z * Layout).
Variable rust_mem : memory.

Definition all_hold (m : memory) (blocks : list block) : Prop :=
  Forall (holds m) blocks /\
  forall b x, b ∈ others -> fst b <= x < fst b + size (snd b) -> m x = rust_mem x.

Definition c_inv (st : c_state) (blocks : list block) : Prop :=
  ha_inv (c_heap st) ((raw_of <$> blocks) ++ others) /\ all_hold (c_mem st) blocks.

(** A program: it allocates, writes a byte into a block it holds, resizes and frees the
    [k]-th block. *)
Inductive c_op :=
  | CMalloc (n : Z)
  | CCalloc (nmemb n : Z)
  | CWrite (k i : nat) (v : Z)
  | CRealloc (k : nat) (n : Z)
  | CFree (k : nat).

Definition c_op_ok (o : c_op) : Prop :=
  match o with
  | CMalloc n => 0 <= n <= MAX_SIZE
  | CCalloc a n => 0 <= a * n <= MAX_SIZE
  | CWrite _ _ _ | CFree _ => True
  | CRealloc _ n => 0 <= n <= MAX_SIZE
  end.

(** Fresh contents of an allocation of [n] bytes. *)
Definition fresh (n : Z) : list (option Z) := replicate (Z.to_nat (if n =? 0 then 1 else n)) None.
Definition zeroed (n : Z) : list (option Z) := if n =? 0 then [None] else replicate (Z.to_nat n) (Some 0).
Definition resized (n : Z) (bs : list (option Z)) : list (option Z) :=
  take (Z.to_nat n) bs ++ replicate (Z.to_nat n - length bs) None.

(** One operation of the program, with the record of what it holds. *)
Definition c_step (o : c_op) (st : c_state) (blocks : list block) : outcome (c_state * list block) :=
  match o with
  | CMalloc n => '(p, st) ← malloc st n; Ok (st, if p =? 0 then blocks else (p, fresh n) :: blocks)
  | CCalloc a n => '(p, st) ← calloc st a n; Ok (st, if p =? 0 then blocks else (p, zeroed (a * n)) :: blocks)
  | CWrite k i v =>
      match blocks !! k with
      | Some (p, bs) =>
          if decide (i < length bs)%nat
          then Ok (mk_c (c_heap st) (fun x => if x =? p + Z.of_nat i then v else c_mem st x),
                   <[k := (p, <[i := Some v]> bs)]> blocks)
          else Ok (st, blocks)
      | None => Ok (st, blocks)
      end
  | CRealloc k n =>
      match blocks !! k with
      | Some (p, bs) =>
          '(q, st) ← c_realloc st p n;
          Ok (st, if n =? 0 then delete k blocks
                  else if q =? 0 then blocks else <[k := (q, resized n bs)]> blocks)
      | None => Ok (st, blocks)
      end
  | CFree k =>
      match blocks !! k with
      | Some (p, _) => st ← free st p; Ok (st, delete k blocks)
      | None => Ok (st, blocks)
      end
  end.

Fixpoint c_run (ops : list c_op) (st : c_state) (blocks : list block) : outcome (c_state * list block) :=
  match ops with
  | [] => Ok (st, blocks)
  | o :: ops => '(st, blocks) ← c_step o st blocks; c_run ops st blocks
  end.

(** ** The family keeps its promises *)

#[global] Instance c_inv_perm st : Proper (Permutation ==> iff) (c_inv st).
Proof.
  assert (H : forall l k, l ≡ₚ k -> c_inv st l -> c_inv st k).
  { intros l k Hp [H1 [H2 H3]]. split; [by rewrite <- Hp|split; [by rewrite <- Hp|done]]. }
  intros l k Hp. split; apply H; by rewrite Hp.
Qed.

Lemma holds_frame m m' b :
  (forall x, fst b - MALLOC_HDR <= x < fst b + Z.of_nat (length (snd b)) -> m' x = m x) -> holds m b -> holds m' b.
Proof.
  unfold MALLOC_HDR. intros Heq (Hl & Hh & Hc). split_and!; [lia|lia| |].
  - rewrite <- Hh. symmetry. unfold MALLOC_HDR.
    apply (load64_agree m m' (fst b - 16) (fst b)); [|lia..]. intros x Hx. symmetry. apply Heq. lia.
  - intros i v Hi. rewrite Heq; [by apply Hc|]. apply lookup_lt_Some in Hi. lia.
Qed.

Lemma in_raw b x : fst b - MALLOC_HDR <= x < fst b + Z.of_nat (length (snd b)) ->
  fst (raw_of b) <= x < fst (raw_of b) + size (snd (raw_of b)).
Proof. unfold raw_of. cbn. lia. Qed.

Lemma all_hold_frame m m' (blocks : list block) :
  (forall b x, b ∈ (raw_of <$> blocks) ++ others -> fst b <= x < fst b + size (snd b) -> m' x = m x) ->
  all_hold m blocks -> all_hold m' blocks.
Proof.
  intros Heq [H Ho]. split.
  - apply Forall_forall. intros b Hb. eapply holds_frame; [|exact (proj1 (Forall_forall _ _) H b Hb)].
    intros x Hx. apply (Heq (raw_of b)); [|by apply in_raw]. apply elem_of_app. left. by apply list_elem_of_fmap_2.
  - intros b x Hb Hx. rewrite (Heq b x); [by apply (Ho b)| |done]. apply elem_of_app. by right.
Qed.

Lemma all_hold_cons m b blocks : all_hold m (b :: blocks) <-> holds m b /\ all_hold m blocks.
Proof. unfold all_hold. rewrite Forall_cons. tauto. Qed.

Lemma raw_layout n : 1 <= n <= MAX_SIZE ->
  from_size_align (wrap64 (n + MALLOC_HDR)) 16 = Some (mk_layout (n + MALLOC_HDR) 16) /\
  layout_ok (mk_layout (n + MALLOC_HDR) 16).
Proof.
  unfold MAX_SIZE, MALLOC_HDR. change (2 ^ 60) with 1152921504606846976. intros Hn. split.
  - rewrite wrap64_small by (unfold is_u64, u64_max; lia). unfold from_size_align.
    change (is_pow2 16) with true. cbn [andb]. rewrite (proj2 (Z.leb_le _ _)); [done|].
    unfold ISIZE_MAX. change (2 ^ 63) with 9223372036854775808. lia.
  - split; cbn; [change (2 ^ 61) with 2305843009213693952; lia|]. exists 4. split; [lia|done].
Qed.

Lemma length_fresh n : 0 <= n -> Z.of_nat (length (fresh n)) = if n =? 0 then 1 else n.
Proof. intros Hn. unfold fresh. rewrite length_replicate. case_match; lia. Qed.

(** The program changes the bytes of one block. *)
Lemma update_inv st p bs bs' rest m' : c_inv st ((p, bs) :: rest) -> length bs' = length bs ->
  (forall x, x < p \/ p + Z.of_nat (length bs) <= x -> m' x = c_mem st x) ->
  (forall i v, bs' !! i = Some (Some v) -> m' (p + Z.of_nat i) = v) ->
  c_inv (mk_c (c_heap st) m') ((p, bs') :: rest).
Proof.
  intros [Hi Hh] Hl Hout Hin. apply all_hold_cons in Hh as [(Hs & Hhd & _) Hh].
  assert (Hraw : raw_of (p, bs') = raw_of (p, bs)) by (unfold raw_of; cbn; by rewrite Hl).
  split; cbn [fmap list_fmap c_heap c_mem]; [by rewrite Hraw|]. apply all_hold_cons. split.
  - split_and!; cbn [fst snd] in *; [lia|lia| |done]. rewrite Hl, <- Hhd. symmetry. unfold MALLOC_HDR.
    apply (load64_agree (c_mem st) m' (p - 16) p); [|lia..]. intros x Hx. symmetry. apply Hout. lia.
  - apply ha_blocks in Hi as [_ [Hd _]].
    rewrite Forall_fmap in Hd. rewrite Forall_forall in Hd.
    eapply all_hold_frame; [|exact Hh]. intros b x Hb Hx. apply Hout. specialize (Hd b Hb).
    unfold apart_r, apart, raw_of, range_of, MALLOC_HDR in Hd. cbn in Hd. lia.
Qed.

Lemma malloc_inv st blocks n : c_inv st blocks -> 0 <= n <= MAX_SIZE ->
  exists p st', malloc st n = Ok (p, st') /\ c_inv st' (if p =? 0 then blocks else (p, fresh n) :: blocks).
Proof.
  intros [Hi Hh] Hn. unfold malloc. set (n' := if n =? 0 then 1 else n).
  assert (Hn' : 1 <= n' <= MAX_SIZE) by (unfold n', MAX_SIZE in *; case_match; lia).
  destruct (raw_layout n' Hn') as [Hl Hok]. unfold rust_alloc. rewrite Hl. cbn [expect mbind outcome_bind].
  destruct (ha_alloc_ok _ _ _ Hi Hok) as (raw & h & -> & _ & Hi'). cbn [mbind outcome_bind].
  assert (Hh' : all_hold (hm_alloc (c_heap st) (mk_layout (n' + MALLOC_HDR) 16) (c_mem st)) blocks).
  { eapply all_hold_frame; [|exact Hh]. intros b x Hb Hx. by eapply hm_alloc_keeps. }
  destruct (Z.eqb_spec raw 0) as [->|Hr]; [by eexists 0, _|].
  destruct (ha_blocks _ _ Hi') as [Hb Hd]. apply Forall_cons in Hb as [(H0 & _) _]. cbn in H0.
  eexists _, _. split; [done|]. rewrite (proj2 (Z.eqb_neq _ _)) by (unfold MALLOC_HDR; lia).
  assert (Hraw : raw_of (raw + MALLOC_HDR, fresh n) = (raw, mk_layout (n' + MALLOC_HDR) 16)).
  { unfold raw_of. cbn [fst snd]. rewrite length_fresh by lia. fold n'. f_equal. lia. }
  split; cbn [fmap list_fmap c_heap c_mem]; [by rewrite Hraw|]. apply all_hold_cons. split.
  - split_and!; cbn [fst snd]; rewrite ?length_fresh by lia; fold n'; [lia|lia| |].
    + replace (raw + MALLOC_HDR - MALLOC_HDR) with raw by lia. rewrite load64_store64_eq. apply wrap64_small.
      unfold is_u64, u64_max, MAX_SIZE in *. lia.
    + unfold fresh. by intros i v [? _]%lookup_replicate.
  - destruct Hd as [Hd _]. rewrite Forall_fmap, Forall_forall in Hd. eapply all_hold_frame; [|exact Hh'].
    intros b x Hb' Hx. apply store64_outside. specialize (Hd b Hb').
    unfold apart_r, apart, range_of, MALLOC_HDR in Hd. cbn in Hd. lia.
Qed.

Lemma free_inv st p bs rest : c_inv st ((p, bs) :: rest) -> exists st', free st p = Ok st' /\ c_inv st' rest.
Proof.
  intros [Hi Hh]. apply all_hold_cons in Hh as [(Hs & Hhd & _) Hh]. cbn [fst snd] in *. cbn [fmap list_fmap] in Hi.
  destruct (ha_blocks _ _ Hi) as [Hb _]. apply Forall_cons in Hb as [(H0 & _) _]. unfold raw_of, MALLOC_HDR in H0. cbn in H0.
  unfold free. rewrite (proj2 (Z.eqb_neq _ _)) by lia. rewrite Hhd. unfold rust_free.
  destruct (raw_layout _ Hs) as [-> Hok]. cbn [expect mbind outcome_bind].
  destruct (ha_dealloc_ok (c_heap st) ((raw_of <$> rest) ++ others) (p - MALLOC_HDR)
    (mk_layout (Z.of_nat (length bs) + MALLOC_HDR) 16) Hi Hok) as (h & -> & _ & Hi'). eexists. split; [done|]. split; [done|].
  cbn [c_mem]. eapply all_hold_frame; [|exact Hh]. intros b x Hb Hx. by eapply hm_dealloc_keeps.
Qed.

Lemma calloc_inv st blocks a n : c_inv st blocks -> 0 <= a * n <= MAX_SIZE ->
  exists p st', calloc st a n = Ok (p, st') /\ c_inv st' (if p =? 0 then blocks else (p, zeroed (a * n)) :: blocks).
Proof.
  intros Hi Hn. unfold calloc. rewrite wrap64_small by (unfold is_u64, u64_max, MAX_SIZE in *; lia).
  destruct (malloc_inv st blocks (a * n) Hi Hn) as (p & st' & -> & Hi'). cbn [mbind outcome_bind].
  destruct (Z.eqb_spec p 0) as [->|Hp]; [by eexists 0, _|].
  eexists p, _. split; [done|]. rewrite (proj2 (Z.eqb_neq _ _)) by done.
  pose proof (length_fresh (a * n) ltac:(lia)) as Hf.
  apply (update_inv st' p (fresh (a * n))); [done| | |].
  - unfold zeroed. case_match; [cbn; lia|]. rewrite length_replicate. lia.
  - intros x Hx. unfold memset. destruct (_ && _) eqn:E; [|done]. apply andb_prop in E as [E1 E2].
    case_match; lia.
  - intros i v. unfold zeroed, memset. destruct (Z.eqb_spec (a * n) 0) as [->|Hz].
    + destruct i as [|[|i]]; cbn; congruence.
    + intros [[= ->] Hlt]%lookup_replicate.
      rewrite (proj2 (Z.leb_le _ _)), (proj2 (Z.ltb_lt _ _)) by lia. done.
Qed.

Lemma realloc_inv st p bs rest n : c_inv st ((p, bs) :: rest) -> 0 <= n <= MAX_SIZE ->
  exists q st', c_realloc st p n = Ok (q, st') /\
    c_inv st' (if n =? 0 then rest else if q =? 0 then (p, bs) :: rest else (q, resized n bs) :: rest).
Proof.
  intros Hi Hn. pose proof Hi as [Hh Hc]. apply all_hold_cons in Hc as [(Hs & Hhd & _) _]. cbn [fst snd] in Hs, Hhd.
  destruct (ha_blocks _ _ Hh) as [Hb _]. apply Forall_cons in Hb as [(H0 & _) _]. unfold raw_of, MALLOC_HDR in H0. cbn in H0.
  unfold c_realloc. rewrite (proj2 (Z.eqb_neq p 0)) by lia. destruct (Z.eqb_spec n 0) as [->|Hn0].
  { destruct (free_inv st p bs rest Hi) as (st' & -> & Hi'). by eexists _, _. }
  destruct (malloc_inv st _ n Hi Hn) as (q & st1 & -> & Hi1). cbn [mbind outcome_bind].
  destruct (Z.eqb_spec q 0) as [->|Hq]; [by eexists 0, _|]. rewrite Hhd.
  set (k := if Z.of_nat (length bs) <? n then Z.of_nat (length bs) else n).
  assert (Hk : k = Z.min (Z.of_nat (length bs)) n) by (unfold k; case_match; lia).
  pose proof (length_fresh n ltac:(lia)) as Hf. rewrite (proj2 (Z.eqb_neq n 0)) in Hf by done.
  assert (Hold : holds (c_mem st1) (p, bs)) by (destruct Hi1 as [_ [_ [Hx _]%all_hold_cons]%all_hold_cons]; exact Hx).
  assert (Hi2 : c_inv (mk_c (c_heap st1) (copy (c_mem st1) p q k)) ((q, resized n bs) :: (p, bs) :: rest)).
  { apply (update_inv st1 q (fresh n)); [done| | |].
    - unfold resized. rewrite length_app, length_take, length_replicate. lia.
    - intros x Hx. unfold copy. destruct (_ && _) eqn:E; [|done]. apply andb_prop in E as [E1 E2]. lia.
    - intros i v. unfold resized. intros [Hiv|[_ [? _]%lookup_replicate]]%lookup_app_Some; [|done].
      apply lookup_take_Some in Hiv as [Hiv Hlt]. destruct Hold as (_ & _ & Hold). cbn in Hold. rewrite <- (Hold i v Hiv).
      apply lookup_lt_Some in Hiv. unfold copy.
      rewrite (proj2 (Z.leb_le _ _)), (proj2 (Z.ltb_lt _ _)) by lia. cbn. f_equal. lia. }
  rewrite Permutation_swap in Hi2. destruct (free_inv _ _ _ _ Hi2) as (st' & -> & Hi'). cbn [mbind outcome_bind].
  eexists q, st'. split; [done|]. by rewrite (proj2 (Z.eqb_neq q 0)).
Qed.

Lemma insert_perm {A} (l : list A) k x y : l !! k = Some x -> <[k := y]> l ≡ₚ y :: delete k l.
Proof.
  intros Hk. rewrite insert_take_drop, delete_take_drop by by eapply lookup_lt_Some.
  by rewrite <- Permutation_middle.
Qed.

Lemma c_step_inv o st blocks : c_inv st blocks -> c_op_ok o ->
  exists st' blocks', c_step o st blocks = Ok (st', blocks') /\ c_inv st' blocks'.
Proof.
  intros Hi Ho. destruct o as [n|a n|k i v|k n|k]; cbn [c_step].
  - destruct (malloc_inv st blocks n Hi Ho) as (p & st' & -> & Hi'). by eexists _, _.
  - destruct (calloc_inv st blocks a n Hi Ho) as (p & st' & -> & Hi'). by eexists _, _.
  - destruct (blocks !! k) as [[p bs]|] eqn:Ek; [|by eexists _, _]. case_decide as Hlt; [|by eexists _, _].
    eexists _, _. split; [done|]. rewrite (insert_perm _ _ _ _ Ek). rewrite (delete_Permutation _ _ _ Ek) in Hi.
    pose proof Hi as [_ Hh]. apply all_hold_cons in Hh as [(_ & _ & Hc) _]. cbn in Hc.
    apply (update_inv st p bs); [done|apply length_insert| |].
    + intros x Hx. destruct (Z.eqb_spec x (p + Z.of_nat i)); [lia|done].
    + intros j w. destruct (decide (j = i)) as [->|Hne].
      * rewrite list_lookup_insert_eq by done. intros [= ->]. by rewrite Z.eqb_refl.
      * rewrite list_lookup_insert_ne by done. intros Hj. rewrite (proj2 (Z.eqb_neq _ _)) by lia. by apply Hc.
  - destruct (blocks !! k) as [[p bs]|] eqn:Ek; [|by eexists _, _].
    rewrite (delete_Permutation _ _ _ Ek) in Hi. destruct (realloc_inv _ _ _ _ n Hi Ho) as (q & st' & -> & Hi').
    eexists _, _. split; [done|]. case_match; [done|]. case_match.
    + by rewrite (delete_Permutation _ _ _ Ek).
    + by rewrite (insert_perm _ _ _ _ Ek).
  - destruct (blocks !! k) as [[p bs]|] eqn:Ek; [|by eexists _, _].
    rewrite (delete_Permutation _ _ _ Ek) in Hi. destruct (free_inv _ _ _ _ Hi) as (st' & -> & Hi'). by eexists _, _.
Qed.

Lemma c_run_inv ops st blocks : c_inv st blocks -> Forall c_op_ok ops ->
  exists st' blocks', c_run ops st blocks = Ok (st', blocks') /\ c_inv st' blocks'.
Proof.
  intros Hi Hops. revert st blocks Hi. induction Hops as [|o ops Ho _ IH]; intros st blocks Hi; [by exists st, blocks|].
  cbn [c_run]. destruct (c_step_inv o st blocks Hi Ho) as (st' & blocks' & -> & Hi'). by apply IH.
Qed.

(** What the invariant means for the program. *)
Lemma c_inv_sound st blocks : c_inv st blocks ->
  (forall p bs, (p, bs) ∈ blocks -> p mod 16 = 0 /\
     forall i v, bs !! i = Some (Some v) -> c_mem st (p + Z.of_nat i) = v) /\
  pairwise ((fun b => (fst b, Z.of_nat (length (snd b)))) <$> blocks).
Proof.
  intros [Hh [Hc _]]. destruct (ha_blocks _ _ Hh) as [Hb Hd]. apply Forall_app in Hb as [Hb _]. split.
  - intros p bs Hin. rewrite Forall_fmap, Forall_forall in Hb. specialize (Hb _ Hin).
    destruct (proj1 (Forall_forall _ _) Hc _ Hin) as (_ & _ & Hv). split; [|exact Hv].
    destruct Hb as (_ & Hal & _). unfold raw_of, MALLOC_HDR in Hal. cbn in Hal. Z.div_mod_to_equations. lia.
  - rewrite fmap_app in Hd. apply pairwise_app in Hd as [Hd _]. rewrite <- list_fmap_compose in Hd.
    eapply pairwise_shrink; [|exact Hd]. apply Forall_forall. intros b _.
    unfold inside, range_of, raw_of, MALLOC_HDR. cbn. lia.
Qed.

End Invariant.

(** Some of the program's blocks can be counted among the others for a while. *)
Lemma c_inv_hide others rust_mem st hidden blocks : c_inv others rust_mem st (hidden ++ blocks) ->
  c_inv ((raw_of <$> hidden) ++ others) (c_mem st) st blocks.
Proof.
  intros [Hi [Hh _]]. apply Forall_app in Hh as [_ Hh]. split; [|done].
  rewrite fmap_app, <- app_assoc in Hi. rewrite Permutation_app_swap_app in Hi. done.
Qed.

Lemma c_inv_unhide others rust_mem st st' hidden blocks blocks' : c_inv others rust_mem st (hidden ++ blocks) ->
  c_inv ((raw_of <$> hidden) ++ others) (c_mem st) st' blocks' -> c_inv others rust_mem st' (hidden ++ blocks').
Proof.
  intros [_ [Hh Ho]] [Hi' [Hh' Ho']]. apply Forall_app in Hh as [Hh _]. split; [|split].
  - rewrite fmap_app, <- app_assoc. by rewrite Permutation_app_swap_app in Hi'.
  - apply Forall_app. split; [|done]. apply Forall_forall. intros b Hb.
    eapply holds_frame; [|exact (proj1 (Forall_forall _ _) Hh b Hb)]. intros x Hx.
    apply (Ho' (raw_of b)); [|by apply in_raw]. apply elem_of_app. left. by apply list_elem_of_fmap_2.
  - intros b x Hb Hx. rewrite (Ho' b x); [by apply (Ho b)| |done]. apply elem_of_app. by right.
Qed.

(** C17. The C heap keeps what the program stores, and what the kernel stores beside it.
    Whatever the program does with [malloc], [calloc], [realloc], [free] and writes into
    its blocks (sizes up to [2^60]): nothing panics; the blocks it holds are 16-byte
    aligned and disjoint; every byte reads as the program last left it, as zero after
    [calloc], and as before a [realloc] up to the smaller of the two sizes; and no byte of
    a block the kernel holds in the same heap ([others]) changes. *)
Theorem c_heap_integrity ops st others : ha_inv (c_heap st) others -> Forall c_op_ok ops ->
  exists st' blocks, c_run ops st [] = Ok (st', blocks) /\
    (forall p bs, (p, bs) ∈ blocks -> p mod 16 = 0 /\
       forall i v, bs !! i = Some (Some v) -> c_mem st' (p + Z.of_nat i) = v) /\
    pairwise ((fun b => (fst b, Z.of_nat (length (snd b)))) <$> blocks) /\
    (forall b x, b ∈ others -> fst b <= x < fst b + size (snd b) -> c_mem st' x = c_mem st x).
Proof.
  intros H0 Hops. assert (Hi : c_inv others (c_mem st) st []) by done.
  destruct (c_run_inv others (c_mem st) ops st [] Hi Hops) as (st' & blocks & Hr & Hi'). exists st', blocks.
  destruct (c_inv_sound _ _ _ _ Hi') as [H1 H2]. split_and!; [done..|]. apply Hi'.
Qed.

End CHeap.

(** The kernel's heap over the free-list allocator, with the lists in memory. *)
#[local] Existing Instance BlockMemDemo.size_first.

Module CDemo.

Definition ops : list c_op := [CMalloc 5; CWrite 0 2 77; CRealloc 0 40; CCalloc 2 3; CFree 1].

(** The kernel's heap with one block of the kernel's in it. *)
Definition start : c_state (S := FixedSizeBlockAllocator) := mk_c FixedDemo.one (fun x => x mod 256).

End CDemo.

Lemma c_heap_integrity_witness : exists st' blocks,
  c_run CDemo.ops CDemo.start [] = Ok (st', blocks) /\
  pairwise ((fun b => (fst b, Z.of_nat (length (snd b)))) <$> blocks) /\
  c_mem st' 0x10003 = 3.
Proof.
  destruct (@c_heap_integrity _ (@fixed_allocator list_heap list_allocator) fixed_memory CDemo.ops CDemo.start [(0x10000, FixedDemo.small)] FixedDemo.one_inv)
    as (st' & blocks & Hr & _ & Hd & Ho).
  - repeat constructor; vm_compute; congruence.
  - exists st', blocks. split; [exact Hr|]. split; [exact Hd|].
    apply (Ho (0x10000, FixedDemo.small)); [by apply list_elem_of_here|cbn; lia].
Defined.
