(* ===== verification/CString.v ===== *)
(** * The C library for Doom: strings and numbers (src/ffi/stubs.c)

    Strings are sequences of bytes in memory up to a NUL.  Loops take fuel: [None] is a
    loop that has not ended, or behaviour that C leaves undefined.  The theorems give the
    result for any fuel above the length of the strings. *)

From S2P Require Import Prelude Machine Fmt Alloc LinkedList FixedBlock HeapMem CLib.

(** ** C values *)

(** [char] is signed; conversion to [int] keeps the value modulo 2^32. *)
Definition schar (b : Z) : Z := if b <? 128 then b else b - 256.
Definition to_int (z : Z) : Z := (z + 2147483648) mod 4294967296 - 2147483648.
Definition to_long (z : Z) : Z := wrap64 (z + 9223372036854775808) - 9223372036854775808.
Definition is_int (z : Z) : Prop := -2147483648 <= z <= 2147483647.
Definition LONG_MAX : Z := 9223372036854775807.

(** Signed arithmetic that does not fit is undefined. *)
Definition as_long (z : Z) : option Z := if (- LONG_MAX - 1 <=? z) && (z <=? LONG_MAX) then Some z else None.
Definition as_int (z : Z) : option Z := if (-2147483648 <=? z) && (z <=? 2147483647) then Some z else None.

Definition store8 (m : memory) (a v : Z) : memory := fun x => if x =? a then as_u8 v else m x.

(** [while (cond) body] *)
Fixpoint while {A} (fuel : nat) (cond : A -> bool) (body : A -> A) (a : A) : option A :=
  match fuel with
  | O => None
  | S fuel => if cond a then while fuel cond body (body a) else Some a
  end.

(** ** Strings *)

Definition strlen (fuel : nat) (m : memory) (s : Z) : option Z :=
  while fuel (fun n => negb (m (s + n) =? 0)) (fun n => n + 1) 0.

Definition strcmp (fuel : nat) (m : memory) (a b : Z) : option Z :=
  '(a, b) ← while fuel (fun '(a, b) => negb (m a =? 0) && (m a =? m b)) (fun '(a, b) => (a + 1, b + 1)) (a, b);
  Some (m a - m b).

(** The loop of [strncmp] counts [n] down; running out of it is equality. *)
Fixpoint strncmp (m : memory) (a b : Z) (n : nat) : Z :=
  match n with
  | O => 0
  | S n => if negb (m a =? 0) && (m a =? m b) then strncmp m (a + 1) (b + 1) n else m a - m b
  end.

Definition to_lower (c : Z) : Z := if (65 <=? c) && (c <=? 90) then c + 32 else c.

Definition strcasecmp (fuel : nat) (m : memory) (a b : Z) : option Z :=
  '(a, b) ← while fuel (fun '(a, b) => negb (m a =? 0) && (to_lower (schar (m a)) =? to_lower (schar (m b))))
                       (fun '(a, b) => (a + 1, b + 1)) (a, b);
  Some (to_lower (m a) - to_lower (m b)).

Fixpoint strncasecmp (m : memory) (a b : Z) (n : nat) : Z :=
  match n with
  | O => 0
  | S n =>
      if negb (m a =? 0) && (to_lower (schar (m a)) =? to_lower (schar (m b)))
      then strncasecmp m (a + 1) (b + 1) n else to_lower (m a) - to_lower (m b)
  end.

(** The second loop of [strncpy], and the first, with [n - i] iterations left. *)
Fixpoint strncpy_pad (m : memory) (dst i : Z) (rest : nat) : memory :=
  match rest with
  | O => m
  | S rest => strncpy_pad (store8 m (dst + i) 0) dst (i + 1) rest
  end.
Fixpoint strncpy_from (m : memory) (dst src i : Z) (rest : nat) : memory :=
  match rest with
  | O => m
  | S rest' =>
      if m (src + i) =? 0 then strncpy_pad m dst i rest
      else strncpy_from (store8 m (dst + i) (m (src + i))) dst src (i + 1) rest'
  end.
Definition strncpy (m : memory) (dst src : Z) (n : nat) : memory := strncpy_from m dst src 0 n.
Definition __strncpy_chk (m : memory) (dst src : Z) (n : nat) (dstlen : Z) : memory := strncpy m dst src n.

(** A null pointer is [None]. *)
Definition strchr (fuel : nat) (m : memory) (s c : Z) : option (option Z) :=
  s ← while fuel (fun s => negb (m s =? 0) && negb (m s =? as_u8 c)) (fun s => s + 1) s;
  Some (if negb (m s =? 0) then Some s else if c =? 0 then Some s else None).

Definition strrchr (fuel : nat) (m : memory) (s c : Z) : option (option Z) :=
  '(s, last) ← while fuel (fun '(s, _) => negb (m s =? 0))
                 (fun '(s, last) => (s + 1, if m s =? as_u8 c then Some s else last)) (s, None);
  Some last.

Definition strstr (fuel : nat) (m : memory) (haystack needle : Z) : option (option Z) :=
  nlen ← strlen fuel m needle;
  if nlen =? 0 then Some (Some haystack) else
  let differs h := negb (strncmp m h needle (Z.to_nat nlen) =? 0) in
  h ← while fuel (fun h => negb (m h =? 0) && differs h) (fun h => h + 1) haystack;
  Some (if negb (m h =? 0) then Some h else None).

(** ** Numbers *)

Definition is_blank (c : Z) : bool := (c =? 32) || (c =? 9).
Definition isdigit (c : Z) : bool := (48 <=? c) && (c <=? 57).

(** The value of a digit of [strtol], in any base. *)
Definition digit_of (c : Z) : option Z :=
  if isdigit c then Some (c - 48)
  else if (97 <=? c) && (c <=? 102) then Some (c - 97 + 10)
  else if (65 <=? c) && (c <=? 70) then Some (c - 65 + 10)
  else None.

Fixpoint strtol_digits (fuel : nat) (m : memory) (s base val : Z) : option (Z * Z) :=
  match fuel with
  | O => None
  | S fuel =>
      if m s =? 0 then Some (val, s) else
      match digit_of (m s) with
      | None => Some (val, s)
      | Some d =>
          if base <=? d then Some (val, s) else
          val ← as_long (val * base + d);
          strtol_digits fuel m (s + 1) base val
      end
  end.

(** The value and the end pointer. *)
Definition strtol (fuel : nat) (m : memory) (s base : Z) : option (Z * Z) :=
  s ← while fuel (fun s => is_blank (m s)) (fun s => s + 1) s;
  let '(neg, s) := if m s =? 45 then (true, s + 1) else if m s =? 43 then (false, s + 1) else (false, s) in
  let '(base, s) :=
    if base =? 0 then
      if (m s =? 48) && ((m (s + 1) =? 120) || (m (s + 1) =? 88)) then (16, s + 2)
      else if m s =? 48 then (8, s)
      else (10, s)
    else (base, s) in
  '(val, s) ← strtol_digits fuel m s base 0;
  Some (if neg then - val else val, s).

Definition atoi (fuel : nat) (m : memory) (s : Z) : option Z :=
  '(v, _) ← strtol fuel m s 10;
  Some (to_int v).

Definition abs (x : Z) : option Z := if x <? 0 then as_int (- x) else Some x.

(** ** Characters *)

Definition toupper (c : Z) : Z := if (97 <=? c) && (c <=? 122) then c - 32 else c.
Definition tolower (c : Z) : Z := if (65 <=? c) && (c <=? 90) then c + 32 else c.
Definition isspace (c : Z) : bool :=
  (c =? 32) || (c =? 9) || (c =? 10) || (c =? 13) || (c =? 12) || (c =? 11).
Definition isprint (c : Z) : bool := (32 <=? c) && (c <? 127).
Definition isalpha (c : Z) : bool := ((97 <=? c) && (c <=? 122)) || ((65 <=? c) && (c <=? 90)).
Definition isalnum (c : Z) : bool := isalpha c || isdigit c.

(** The tables behind the <ctype.h> macros: 384 entries for the codes from -128 on, all 0.
    [__ctype_b_loc] and [__ctype_toupper_loc] give the entry of code 0 ([None] outside of
    the table). *)
Definition ctype_table : list Z := replicate 384 0.
Definition toupper_table : list Z := replicate 384 0.
Definition at_code (table : list Z) (c : Z) : option Z := if c <? -128 then None else table !! Z.to_nat (c + 128).
Definition __ctype_b_loc (c : Z) : option Z := at_code ctype_table c.
Definition __ctype_toupper_loc (c : Z) : option Z := at_code toupper_table c.

(** A program compiled against such macros finds no character of any class, and every
    letter upper-cased to NUL, where the functions of the same names answer otherwise. *)
Lemma ctype_tables_empty c : -128 <= c <= 255 -> __ctype_b_loc c = Some 0 /\ __ctype_toupper_loc c = Some 0.
Proof.
  intros Hc. unfold __ctype_b_loc, __ctype_toupper_loc, at_code. rewrite (proj2 (Z.ltb_ge _ _)) by lia.
  split; apply lookup_replicate; split; [done|lia|done|lia].
Qed.

(** ** Strings in memory *)

Fixpoint bytes_at (m : memory) (p : Z) (l : list Z) : Prop :=
  match l with
  | [] => True
  | c :: l => m p = c /\ bytes_at m (p + 1) l
  end.

(** A NUL-terminated string. *)
Fixpoint cstr (m : memory) (p : Z) (s : list Z) : Prop :=
  match s with
  | [] => m p = 0
  | c :: s => m p = c /\ 0 < c < 256 /\ cstr m (p + 1) s
  end.

Lemma cstr_bytes m p s : cstr m p s <-> bytes_at m p (s ++ [0]) /\ Forall (fun c => 0 < c < 256) s.
Proof.
  revert p. induction s as [|c s IH]; intros p; cbn; [rewrite Forall_nil; tauto|].
  rewrite IH, Forall_cons. tauto.
Qed.

Lemma bytes_at_app m p l l' : bytes_at m p (l ++ l') <-> bytes_at m p l /\ bytes_at m (p + Z.of_nat (length l)) l'.
Proof.
  revert p. induction l as [|c l IH]; intros p; cbn [bytes_at app length].
  - rewrite Z.add_0_r. tauto.
  - rewrite IH. replace (p + 1 + Z.of_nat (length l)) with (p + Z.of_nat (S (length l))) by lia. tauto.
Qed.

Lemma bytes_at_ext m m' p l : (forall x, p <= x < p + Z.of_nat (length l) -> m' x = m x) ->
  bytes_at m p l -> bytes_at m' p l.
Proof.
  revert p. induction l as [|c l IH]; intros p Hx H; [done|]. cbn in *. destruct H as [H1 H2].
  split; [rewrite Hx by lia; done|]. apply IH; [|done]. intros x Hr. apply Hx. lia.
Qed.

Lemma bytes_at_lookup m p l i c : bytes_at m p l -> l !! i = Some c -> m (p + Z.of_nat i) = c.
Proof.
  revert p i. induction l as [|d l IH]; intros p [|i] H Hi; cbn in Hi; [done..| |].
  - rewrite Z.add_0_r. destruct H. congruence.
  - replace (p + Z.of_nat (S i)) with (p + 1 + Z.of_nat i) by lia. by apply IH; [apply H|].
Qed.

Lemma bytes_read m p l : bytes_at m p l -> (fun i => m (p + Z.of_nat i)) <$> seq 0 (length l) = l.
Proof.
  intros H. apply list_eq_same_length with (length l); [done|by rewrite length_fmap, length_seq|].
  intros i x y Hi Hx Hy. rewrite list_lookup_fmap, lookup_seq_lt in Hx by done. injection Hx as <-.
  by apply (bytes_at_lookup _ _ l).
Qed.

Lemma cstr_ext m m' p s : (forall x, p <= x <= p + Z.of_nat (length s) -> m' x = m x) -> cstr m p s -> cstr m' p s.
Proof.
  intros Hx. rewrite !cstr_bytes. intros [H Hs]. split; [|done]. revert H. apply bytes_at_ext.
  intros x. rewrite length_app. cbn. intros. apply Hx. lia.
Qed.

Lemma cstr_last m p s : cstr m p s -> m (p + Z.of_nat (length s)) = 0.
Proof. rewrite cstr_bytes, bytes_at_app. by intros [[_ [H _]] _]. Qed.

Lemma cstr_drop m p s k : cstr m p s -> (k <= length s)%nat -> cstr m (p + Z.of_nat k) (drop k s).
Proof.
  revert p s. induction k as [|k IH]; intros p s H Hk; [by rewrite Z.add_0_r|].
  destruct s as [|c s]; [cbn in Hk; lia|]. destruct H as (_ & _ & H). cbn [drop].
  replace (p + Z.of_nat (S k)) with (p + 1 + Z.of_nat k) by lia. apply IH; [done|cbn in Hk; lia].
Qed.

Lemma strlen_from fuel m s n q : cstr m (q + n) s -> (length s < fuel)%nat ->
  while fuel (fun n => negb (m (q + n) =? 0)) (fun n => n + 1) n = Some (n + Z.of_nat (length s)).
Proof.
  revert fuel n. induction s as [|c s IH]; intros fuel n H Hf; (destruct fuel as [|fuel]; [lia|]); cbn [while].
  - cbn in H. rewrite H. cbn. f_equal. lia.
  - destruct H as (-> & Hc & H). rewrite (proj2 (Z.eqb_neq c 0)) by lia. cbn [negb].
    rewrite IH; [|by rewrite Z.add_assoc|cbn in Hf; lia]. f_equal. cbn [length]. lia.
Qed.

Lemma strlen_spec fuel m p s : cstr m p s -> (length s < fuel)%nat -> strlen fuel m p = Some (Z.of_nat (length s)).
Proof. intros H Hf. unfold strlen. rewrite (strlen_from _ _ s); [done|by rewrite Z.add_0_r|done]. Qed.

(** ** Comparison *)

(** Lexicographic order of two strings under a key of their characters. *)
Fixpoint lex (key : Z -> Z) (a b : list Z) : comparison :=
  match a, b with
  | [], [] => Eq
  | [], _ :: _ => Lt
  | _ :: _, [] => Gt
  | x :: a, y :: b => match key x ?= key y with Eq => lex key a b | c => c end
  end.

Lemma sub_compare x y : (x - y ?= 0) = (x ?= y).
Proof. destruct (Z.compare_spec x y), (Z.compare_spec (x - y) 0); (done || lia). Qed.

Lemma to_lower_schar x y : 0 <= x < 256 -> 0 <= y < 256 ->
  (to_lower (schar x) =? to_lower (schar y)) = (to_lower x =? to_lower y).
Proof.
  intros Hx Hy. unfold to_lower, schar.
  destruct (Z.ltb_spec x 128), (Z.ltb_spec y 128); repeat case_match; apply eq_true_iff_eq; rewrite !Z.eqb_eq; lia.
Qed.

Section Compare.
Variables (eqb : Z -> Z -> bool) (key : Z -> Z).
Hypothesis key_eqb : forall x y, 0 <= x < 256 -> 0 <= y < 256 -> eqb x y = (key x =? key y).
Hypothesis key_zero : key 0 = 0.
Hypothesis key_pos : forall x, 0 < x < 256 -> 0 < key x.

Lemma cstr_head m p s : cstr m p s -> 0 <= m p < 256.
Proof. destruct s as [|c s]; cbn; [intros ->; lia|intros (-> & ? & _); lia]. Qed.

(** Where the loop stops, the characters decide the order of the strings. *)
Lemma stop_lex m p q a b : cstr m p a -> cstr m q b -> negb (m p =? 0) && eqb (m p) (m q) = false ->
  (key (m p) - key (m q) ?= 0) = lex key a b.
Proof.
  intros Ha Hb. pose proof (cstr_head _ _ _ Ha) as Hp. pose proof (cstr_head _ _ _ Hb) as Hq.
  rewrite key_eqb, sub_compare by done.
  destruct a as [|x a], b as [|y b]; cbn in Ha, Hb; cbn [lex].
  - intros _. by rewrite Ha, Hb, Z.compare_refl.
  - destruct Hb as (-> & Hy & _). rewrite Ha, key_zero. intros _. apply Z.compare_lt_iff. auto.
  - destruct Ha as (-> & Hx & _). rewrite Hb, key_zero. intros _. apply Z.compare_gt_iff. auto.
  - destruct Ha as (-> & Hx & _), Hb as (-> & Hy & _). rewrite (proj2 (Z.eqb_neq x 0)) by lia. cbn [negb andb].
    rewrite Z.eqb_neq. intros Hne. by destruct (Z.compare_spec (key x) (key y)).
Qed.

(** Where it goes on, both strings have a next character, and the same. *)
Lemma step_lex m p q a b : cstr m p a -> cstr m q b -> negb (m p =? 0) && eqb (m p) (m q) = true ->
  exists x y a' b', a = x :: a' /\ b = y :: b' /\ key x = key y /\ cstr m (p + 1) a' /\ cstr m (q + 1) b'.
Proof.
  intros Ha Hb. pose proof (cstr_head _ _ _ Ha) as Hp. pose proof (cstr_head _ _ _ Hb) as Hq.
  rewrite andb_true_iff, negb_true_iff, Z.eqb_neq, key_eqb, Z.eqb_eq by done. intros [Hnz Hk].
  destruct a as [|x a]; [by cbn in Ha|]. destruct Ha as (Ep & Hx & Ha). rewrite Ep in Hk.
  destruct b as [|y b]; [cbn in Hb; rewrite Hb, key_zero in Hk; specialize (key_pos x Hx); lia|].
  destruct Hb as (Eq & Hy & Hb). rewrite Eq in Hk. eauto 10.
Qed.

Lemma compare_walk fuel m p q a b : cstr m p a -> cstr m q b -> (length a < fuel)%nat ->
  exists p' q', while fuel (fun '(a, b) => negb (m a =? 0) && eqb (m a) (m b)) (fun '(a, b) => (a + 1, b + 1)) (p, q)
      = Some (p', q') /\
    (key (m p') - key (m q') ?= 0) = lex key a b.
Proof.
  revert p q a b. induction fuel as [|fuel IH]; intros p q a b Ha Hb Hf; [lia|]. cbn [while].
  destruct (negb (m p =? 0) && eqb (m p) (m q)) eqn:E; [|eauto using stop_lex].
  destruct (step_lex _ _ _ _ _ Ha Hb E) as (x & y & a' & b' & -> & -> & Hk & Ha' & Hb').
  destruct (IH _ _ _ _ Ha' Hb' ltac:(cbn in Hf; lia)) as (p' & q' & -> & H). exists p', q'. split; [done|].
  rewrite H. cbn [lex]. by rewrite Hk, Z.compare_refl.
Qed.

(** The bounded comparisons, which share this shape. *)
Lemma compare_bounded (cmp : memory -> Z -> Z -> nat -> Z) m :
  (forall p q, cmp m p q O = 0) ->
  (forall p q n, cmp m p q (S n) = if negb (m p =? 0) && eqb (m p) (m q) then cmp m (p + 1) (q + 1) n
                                   else key (m p) - key (m q)) ->
  forall n p q a b, cstr m p a -> cstr m q b -> (cmp m p q n ?= 0) = lex key (take n a) (take n b).
Proof.
  intros HO HS n. induction n as [|n IH]; intros p q a b Ha Hb; [by rewrite HO|]. rewrite HS.
  destruct (negb (m p =? 0) && eqb (m p) (m q)) eqn:E.
  - destruct (step_lex _ _ _ _ _ Ha Hb E) as (x & y & a' & b' & -> & -> & Hk & Ha' & Hb').
    cbn [take lex]. rewrite Hk, Z.compare_refl. by apply IH.
  - rewrite (stop_lex _ _ _ _ _ Ha Hb E). rewrite key_eqb in E by (eapply cstr_head; done).
    destruct a as [|x a], b as [|y b]; cbn [take lex]; try done.
    destruct Ha as (Hx & Hx' & _), Hb as (Hy & _ & _). rewrite Hx, Hy, (proj2 (Z.eqb_neq x 0)) in E by lia.
    cbn in E. apply Z.eqb_neq in E. by destruct (Z.compare_spec (key x) (key y)).
Qed.

End Compare.

Lemma id_pos x : 0 < x < 256 -> 0 < id x.
Proof. unfold id. lia. Qed.

Lemma to_lower_pos x : 0 < x < 256 -> 0 < to_lower x.
Proof. unfold to_lower. case_match; lia. Qed.

Lemma strncmp_lex n m p q a b : cstr m p a -> cstr m q b -> (strncmp m p q n ?= 0) = lex id (take n a) (take n b).
Proof. by apply (compare_bounded Z.eqb id (fun _ _ _ _ => eq_refl) eq_refl id_pos strncmp). Qed.

(** The string comparisons terminate on NUL-terminated strings and order them
    lexicographically by unsigned bytes: [strcmp] and [strncmp] as they are, the latter on
    their first [n] characters, [strcasecmp] and [strncasecmp] after mapping upper case
    to lower case. *)
Theorem strcmp_lexicographic fuel m p q a b n :
  cstr m p a -> cstr m q b -> (length a < fuel)%nat ->
  (exists r, strcmp fuel m p q = Some r /\ (r ?= 0) = lex id a b) /\
  (exists r, strcasecmp fuel m p q = Some r /\ (r ?= 0) = lex to_lower a b) /\
  (strncmp m p q n ?= 0) = lex id (take n a) (take n b) /\
  (strncasecmp m p q n ?= 0) = lex to_lower (take n a) (take n b).
Proof.
  intros Ha Hb Hf.
  split; [|split; [|split]].
  - destruct (compare_walk Z.eqb id (fun _ _ _ _ => eq_refl) eq_refl id_pos fuel m p q a b) as (p' & q' & E & H); [done..|].
    unfold strcmp. rewrite E. eauto.
  - destruct (compare_walk _ to_lower to_lower_schar eq_refl to_lower_pos fuel m p q a b) as (p' & q' & E & H); [done..|].
    unfold strcasecmp. rewrite E. eauto.
  - by apply strncmp_lex.
  - by apply (compare_bounded _ to_lower to_lower_schar eq_refl to_lower_pos strncasecmp).
Qed.

Lemma strcmp_lexicographic_witness :
  let m := fun x => nth (Z.to_nat x) (str "iwad" ++ [0] ++ str "IWADs" ++ [0]) 0 in
  exists r, strcasecmp 10 m 0 5 = Some r /\ (r ?= 0) = Lt.
Proof.
  intros m. apply (strcmp_lexicographic 10 m 0 5 (str "iwad") (str "IWADs") 0); [by vm_compute..|cbn; lia].
Defined.

(** ** Copying and searching *)

Lemma store8_other m a v x : x <> a -> store8 m a v x = m x.
Proof. intros H. unfold store8. by rewrite (proj2 (Z.eqb_neq x a)). Qed.

Lemma store8_same m a v : 0 <= v < 256 -> store8 m a v a = v.
Proof. intros H. unfold store8. rewrite Z.eqb_refl. unfold as_u8. by rewrite Z.mod_small. Qed.

Lemma strncpy_pad_spec rest m dst i :
  bytes_at (strncpy_pad m dst i rest) (dst + i) (replicate rest 0) /\
  forall x, x < dst + i \/ dst + i + Z.of_nat rest <= x -> strncpy_pad m dst i rest x = m x.
Proof.
  revert m i. induction rest as [|rest IH]; intros m i; [done|]. cbn [strncpy_pad replicate bytes_at].
  destruct (IH (store8 m (dst + i) 0) (i + 1)) as [H1 H2]. rewrite Z.add_assoc in H1.
  split; [split; [|done]|].
  - rewrite H2 by lia. by apply store8_same.
  - intros x Hx. rewrite H2, store8_other by lia. done.
Qed.

Lemma strncpy_from_spec rest m dst src i s : cstr m (src + i) s ->
  (forall x y, dst + i <= x < dst + i + Z.of_nat rest -> src + i <= y <= src + i + Z.of_nat (length s) -> x <> y) ->
  bytes_at (strncpy_from m dst src i rest) (dst + i) (take rest s ++ replicate (rest - length s) 0) /\
  forall x, x < dst + i \/ dst + i + Z.of_nat rest <= x -> strncpy_from m dst src i rest x = m x.
Proof.
  revert m i s. induction rest as [|rest IH]; intros m i s Hs Hd; [done|]. cbn [strncpy_from].
  destruct s as [|c s].
  - cbn in Hs. rewrite Hs. cbn [Z.eqb]. rewrite take_nil, Nat.sub_0_r. apply strncpy_pad_spec.
  - destruct Hs as (-> & Hc & Hs). rewrite (proj2 (Z.eqb_neq c 0)) by lia. cbn [length] in Hd.
    destruct (IH (store8 m (dst + i) c) (i + 1) s) as [H1 H2].
    + rewrite Z.add_assoc. apply (cstr_ext m); [|done]. intros x Hx. apply store8_other.
      intros ->. apply (Hd (dst + i) (dst + i)); lia.
    + intros x y Hx Hy. apply Hd; lia.
    + rewrite Z.add_assoc in H1. cbn [take app length Nat.sub bytes_at]. split; [split; [|done]|].
      * rewrite H2 by lia. apply store8_same. lia.
      * intros x Hx. rewrite H2, store8_other by lia. done.
Qed.

(** [strncpy] into a separate buffer leaves there the first [n] characters, padded with
    NULs, and writes nothing else. *)
Lemma strncpy_spec m dst src n s : cstr m src s ->
  (dst + Z.of_nat n <= src \/ src + Z.of_nat (length s) < dst) ->
  bytes_at (strncpy m dst src n) dst (take n s ++ replicate (n - length s) 0) /\
  forall x, x < dst \/ dst + Z.of_nat n <= x -> strncpy m dst src n x = m x.
Proof.
  intros Hs Hd. unfold strncpy. destruct (strncpy_from_spec n m dst src 0 s) as [H1 H2].
  - by rewrite Z.add_0_r.
  - intros x y. lia.
  - rewrite Z.add_0_r in *. done.
Qed.

(** A walk that stops within [n] steps stops at the first place it can. *)
Lemma while_first fuel (cond : Z -> bool) p n : cond (p + Z.of_nat n) = false -> (n < fuel)%nat ->
  exists k, while fuel cond (fun q => q + 1) p = Some (p + Z.of_nat k) /\ (k <= n)%nat /\
    (forall j, (j < k)%nat -> cond (p + Z.of_nat j) = true) /\ cond (p + Z.of_nat k) = false.
Proof.
  revert p n. induction fuel as [|fuel IH]; intros p n Hn Hf; [lia|]. cbn [while].
  destruct (cond p) eqn:E.
  - destruct n as [|n]; [rewrite Z.add_0_r in Hn; congruence|].
    replace (p + Z.of_nat (S n)) with (p + 1 + Z.of_nat n) in Hn by lia.
    destruct (IH (p + 1) n Hn ltac:(lia)) as (k & -> & Hk & Hj & Hs). exists (S k).
    replace (p + Z.of_nat (S k)) with (p + 1 + Z.of_nat k) by lia. split_and!; [done|lia| |done].
    intros [|j] Hlt; [by rewrite Z.add_0_r|].
    replace (p + Z.of_nat (S j)) with (p + 1 + Z.of_nat j) by lia. apply Hj. lia.
  - exists O. rewrite Z.add_0_r. split_and!; [done|lia|lia|done].
Qed.

Lemma cstr_lookup m p s k : cstr m p s -> (k <= length s)%nat -> m (p + Z.of_nat k) = default 0 (s !! k).
Proof.
  intros H Hk. pose proof (cstr_drop _ _ _ _ H Hk) as Hd.
  rewrite <- (Nat.add_0_r k) at 2. rewrite <- lookup_drop.
  destruct (drop k s) as [|c s']; [done|]. by destruct Hd.
Qed.

Lemma cstr_nonzero m p s k : cstr m p s -> (k < length s)%nat -> m (p + Z.of_nat k) <> 0.
Proof.
  intros H Hk. pose proof (cstr_drop _ _ _ k H ltac:(lia)) as Hd.
  destruct (drop k s) as [|c s'] eqn:E; [apply (f_equal length) in E; rewrite length_drop in E; cbn in E; lia|].
  destruct Hd as (-> & Hc & _). lia.
Qed.

(** [strchr] finds the first occurrence of a character. *)
Lemma strchr_first fuel m p s c : cstr m p s -> (length s < fuel)%nat -> 0 < c < 256 ->
  exists r, strchr fuel m p c = Some r /\
    match r with
    | Some q => exists k, q = p + Z.of_nat k /\ s !! k = Some c /\ forall j, (j < k)%nat -> s !! j <> Some c
    | None => c ∉ s
    end.
Proof.
  intros Hs Hf Hc. unfold strchr. assert (as_u8 c = c) as -> by (unfold as_u8; rewrite Z.mod_small; lia).
  destruct (while_first fuel (fun q => negb (m q =? 0) && negb (m q =? c)) p (length s)) as (k & -> & Hk & Hj & Hst);
    [by rewrite (cstr_last _ _ _ Hs)|done|]. eexists. split; [reflexivity|].
  assert (Hbefore : forall j, (j < k)%nat -> s !! j <> Some c).
  { intros j Hlt Hl. specialize (Hj j Hlt). rewrite (cstr_lookup _ _ _ _ Hs), Hl in Hj by lia. cbn in Hj.
    rewrite Z.eqb_refl, andb_false_r in Hj. done. }
  destruct (m (p + Z.of_nat k) =? 0) eqn:E0; cbn [negb andb] in *.
  - rewrite (proj2 (Z.eqb_neq c 0)) by lia. rewrite list_elem_of_lookup. intros [j Hj']. apply Z.eqb_eq in E0.
    assert (k = length s) as -> by (destruct (decide (k < length s)%nat); [by destruct (cstr_nonzero _ _ _ k Hs)|lia]).
    apply (Hbefore j); [by eapply lookup_lt_Some|done].
  - exists k. split; [done|]. split; [|done]. apply negb_false_iff, Z.eqb_eq in Hst. apply Z.eqb_neq in E0.
    rewrite (cstr_lookup _ _ _ _ Hs) in Hst, E0 by lia. destruct (s !! k); cbn in *; congruence.
Qed.

Lemma lex_id_eq a b : lex id a b = Eq <-> a = b.
Proof.
  revert b. induction a as [|x a IH]; intros [|y b]; cbn [lex id]; try done.
  destruct (Z.compare_spec x y) as [->|H|H]; [rewrite IH; split; [by intros ->|by intros [= ->]]|split; [done|]; intros [= -> ->]; lia..].
Qed.

Lemma strncmp_prefix m p q a b : cstr m p a -> cstr m q b -> strncmp m p q (length b) = 0 <-> b `prefix_of` a.
Proof.
  intros Ha Hb. rewrite <- Z.compare_eq_iff.
  rewrite (strncmp_lex _ _ _ _ _ _ Ha Hb), lex_id_eq, (take_ge b) by lia. split.
  - intros H. exists (drop (length b) a). by rewrite <- H at 1; rewrite take_drop.
  - intros [l ->]. by rewrite take_app_length.
Qed.

(** [strstr] finds the first occurrence of a string. *)
Lemma strstr_first fuel m p q s t : cstr m p s -> cstr m q t -> (length s < fuel)%nat -> (length t < fuel)%nat ->
  exists r, strstr fuel m p q = Some r /\
    match r with
    | Some q => exists k, q = p + Z.of_nat k /\ t `prefix_of` drop k s /\ forall j, (j < k)%nat -> ~ t `prefix_of` drop j s
    | None => forall j, ~ t `prefix_of` drop j s
    end.
Proof.
  intros Hs Ht Hfs Hft. unfold strstr. rewrite (strlen_spec _ _ _ _ Ht Hft). cbn [mbind option_bind].
  destruct (Z.eqb_spec (Z.of_nat (length t)) 0) as [H0|H0].
  { assert (t = []) as -> by (destruct t; [done|cbn in H0; lia]). eexists. split; [done|]. exists O.
    split; [lia|]. split; [apply prefix_nil|lia]. }
  rewrite Nat2Z.id.
  set (cond := fun h : Z => negb (m h =? 0) && negb (strncmp m h q (length t) =? 0)).
  destruct (while_first fuel cond p (length s)) as (k & -> & Hk & Hj & Hst);
    [unfold cond; by rewrite (cstr_last _ _ _ Hs)|done|]. eexists. split; [reflexivity|].
  assert (Hbefore : forall j, (j < k)%nat -> ~ t `prefix_of` drop j s).
  { intros j Hlt. specialize (Hj j Hlt). apply andb_true_iff in Hj as [_ Hj]. apply negb_true_iff, Z.eqb_neq in Hj.
    by rewrite (strncmp_prefix m _ _ (drop j s) t) in Hj by (try apply cstr_drop; (done || lia)). }
  unfold cond in Hst. destruct (m (p + Z.of_nat k) =? 0) eqn:E0; cbn [negb andb] in *.
  - apply Z.eqb_eq in E0. intros j Hp. destruct (decide (j < k)%nat) as [|Hge]; [by apply (Hbefore j)|].
    assert (k = length s) by (destruct (decide (k < length s)%nat); [by destruct (cstr_nonzero _ _ _ k Hs)|lia]).
    rewrite drop_ge in Hp by lia. apply prefix_length in Hp. cbn in Hp. lia.
  - exists k. split; [done|]. split; [|done]. apply negb_false_iff, Z.eqb_eq in Hst.
    rewrite (strncmp_prefix m _ _ (drop k s) t) in Hst by (try apply cstr_drop; (done || lia)). done.
Qed.

(** [strrchr] never answers the terminating NUL, which C counts as part of the string. *)
Lemma strrchr_nul fuel m p s : cstr m p s -> (length s < fuel)%nat -> strrchr fuel m p 0 = Some None.
Proof.
  intros Hs Hf. unfold strrchr. change (as_u8 0) with 0.
  assert (H : exists e, while fuel (fun '(s, _) => negb (m s =? 0))
    (fun '(s, last) => (s + 1, if m s =? 0 then Some s else last)) (p, None) = Some (e, None)); [|by destruct H as [e ->]].
  revert p s Hs Hf. induction fuel as [|fuel IH]; intros p s Hs Hf; [lia|]. cbn [while].
  destruct (m p =? 0) eqn:E; cbn [negb]; [eauto|]. destruct s as [|c s]; [cbn in Hs; by rewrite Hs in E|].
  destruct Hs as (_ & _ & Hs). apply (IH _ s Hs). cbn in Hf. lia.
Qed.

(** ** Reading numbers *)

(** Digits of a base, and what [strtol] makes of them from [v] on. *)
Definition digits_ok (base : Z) (ds : list Z) : Prop := Forall (fun c => exists d, 0 <= d < base /\ c = digit d) ds.
Definition value_from (base v : Z) (ds : list Z) : Z := foldl (fun v c => v * base + digit_value c) v ds.

(** No digit of the base follows. *)
Definition digits_end (base : Z) (rest : list Z) : Prop :=
  match rest with [] => True | c :: _ => match digit_of c with Some d => base <= d | None => True end end.

Lemma digit_of_digit d : 0 <= d < 16 -> digit_of (digit d) = Some d.
Proof.
  intros Hd. unfold digit_of, digit, isdigit. destruct (Z.ltb_spec d 10).
  - rewrite (proj2 (Z.leb_le 48 (48 + d))), (proj2 (Z.leb_le (48 + d) 57)) by lia. cbn. f_equal. lia.
  - rewrite (proj2 (Z.leb_gt (87 + d) 57)), andb_false_r by lia.
    rewrite (proj2 (Z.leb_le 97 (87 + d))), (proj2 (Z.leb_le (87 + d) 102)) by lia. cbn. f_equal. lia.
Qed.

Lemma value_from_ge base v ds : 2 <= base <= 16 -> digits_ok base ds -> 0 <= v -> v <= value_from base v ds.
Proof.
  intros Hb. revert v. induction ds as [|c ds IH]; intros v Hds Hv; [done|]. cbn [value_from foldl].
  apply Forall_cons_1 in Hds as [(d & Hd & ->) Hds]. rewrite digit_value_digit by lia.
  assert (v <= v * base + d) by nia. specialize (IH (v * base + d) Hds). unfold value_from in *. lia.
Qed.

Lemma as_long_small z : - LONG_MAX - 1 <= z <= LONG_MAX -> as_long z = Some z.
Proof. intros [H1 H2]. apply Z.leb_le in H1, H2. unfold as_long. by rewrite H1, H2. Qed.

Lemma strtol_digits_spec fuel m p base v ds rest : 2 <= base <= 16 -> digits_ok base ds -> digits_end base rest ->
  cstr m p (ds ++ rest) -> 0 <= v -> value_from base v ds <= LONG_MAX -> (length ds < fuel)%nat ->
  strtol_digits fuel m p base v = Some (value_from base v ds, p + Z.of_nat (length ds)).
Proof.
  intros Hb. revert fuel p v. induction ds as [|c ds IH]; intros fuel p v Hds Hend Hs Hv Hmax Hf;
    (destruct fuel as [|fuel]; [lia|]); cbn [strtol_digits app] in *.
  - rewrite Z.add_0_r. destruct rest as [|c rest]; cbn in Hs, Hend; [by rewrite Hs|].
    destruct Hs as (-> & Hc & _). rewrite (proj2 (Z.eqb_neq c 0)) by lia.
    destruct (digit_of c) as [d|]; [|done]. by rewrite (proj2 (Z.leb_le base d)).
  - destruct Hs as (-> & Hc & Hs). rewrite (proj2 (Z.eqb_neq c 0)) by lia.
    apply Forall_cons_1 in Hds as [(d & Hd & ->) Hds]. rewrite digit_of_digit by lia.
    rewrite (proj2 (Z.leb_gt base d)) by lia. cbn [value_from foldl] in *. rewrite digit_value_digit in * by lia.
    assert (Hge : v * base + d <= value_from base (v * base + d) ds) by (apply value_from_ge; [done..|nia]).
    unfold value_from in Hge. rewrite as_long_small by nia. cbn [mbind option_bind]. rewrite IH; [|done..|nia|done|cbn in Hf; lia]. cbn [length]. do 2 f_equal. lia.
Qed.

Lemma value_from_0 base ds : value_from base 0 ds = value_of base ds.
Proof. done. Qed.

(** The text of a number as [strtol] accepts it. *)
Definition signed (neg : bool) (ds : list Z) : list Z := if neg then 45 :: ds else ds.
Definition signed_value (neg : bool) (v : Z) : Z := if neg then - v else v.

Lemma digits_no_sign base c : 2 <= base <= 16 -> (exists d, 0 <= d < base /\ c = digit d) ->
  (c =? 45) = false /\ (c =? 43) = false /\ is_blank c = false.
Proof.
  intros Hb (d & Hd & ->). unfold is_blank, digit. case_match; rewrite orb_false_iff, !Z.eqb_neq; lia.
Qed.

Lemma skip_blanks fuel m p n s : cstr m p (replicate n 32 ++ s) -> (n < fuel)%nat ->
  (forall c, head s = Some c -> is_blank c = false) ->
  while fuel (fun s => is_blank (m s)) (fun s => s + 1) p = Some (p + Z.of_nat n).
Proof.
  revert fuel p. induction n as [|n IH]; intros fuel p Hs Hf Hh; (destruct fuel as [|fuel]; [lia|]); cbn [while].
  - rewrite Z.add_0_r. destruct s as [|c s]; cbn in Hs; [by rewrite Hs|]. destruct Hs as (-> & _). by rewrite Hh.
  - cbn [replicate app] in Hs. destruct Hs as (-> & _ & Hs). cbn [is_blank]. change (is_blank 32) with true. cbn iota.
    rewrite (IH _ _ Hs) by (lia || done). f_equal. lia.
Qed.

(** In the bases 2 to 16: blanks, a sign and digits up to the first other character. *)
Lemma strtol_spec fuel m p base n neg ds rest : 2 <= base <= 16 -> digits_ok base ds -> ds <> [] -> digits_end base rest ->
  value_of base ds <= LONG_MAX -> cstr m p (replicate n 32 ++ signed neg ds ++ rest) -> (n + length ds < fuel)%nat ->
  strtol fuel m p base = Some (signed_value neg (value_of base ds), p + Z.of_nat (n + length (signed neg ds))).
Proof.
  intros Hb Hds Hne Hend Hmax Hs Hf. unfold strtol.
  destruct ds as [|c ds]; [done|]. destruct (digits_no_sign base c Hb) as (H45 & H43 & Hbl);
    [by apply Forall_cons_1 in Hds as [? _]|].
  rewrite (skip_blanks _ _ _ _ _ Hs) by (lia || (destruct neg; cbn; intros ? [= <-]; done)). cbn [mbind option_bind].
  pose proof (cstr_drop _ _ _ n Hs ltac:(rewrite length_app, length_replicate; lia)) as Hd.
  rewrite drop_app_length' in Hd by by rewrite length_replicate.
  rewrite (proj2 (Z.eqb_neq base 0)) by lia.
  destruct neg; cbn [signed app] in *; destruct Hd as (E & Hc & Hd'); rewrite E.
  - cbn [Z.eqb Pos.eqb]. rewrite (strtol_digits_spec _ _ _ _ _ (c :: ds) rest) by (done || lia). cbn [mbind option_bind].
    rewrite value_from_0. cbn [signed_value length]. do 2 f_equal. lia.
  - rewrite H45, H43. rewrite (strtol_digits_spec _ _ _ _ _ (c :: ds) rest) by (done || lia || by rewrite E).
    cbn [mbind option_bind]. rewrite value_from_0. cbn [signed_value length]. do 2 f_equal. lia.
Qed.

(** Base 0 reads the base off the first digits: octal after a zero, unless an x follows. *)
Lemma strtol_base0 fuel m p n neg c s : cstr m p (replicate n 32 ++ signed neg (c :: s)) -> (n < fuel)%nat ->
  (exists d, 0 <= d < 10 /\ c = digit d) -> (c = 48 -> forall x, head s = Some x -> x <> 120 /\ x <> 88) ->
  strtol fuel m p 0 = strtol fuel m p (if c =? 48 then 8 else 10).
Proof.
  intros Hs Hf Hdig Hx. unfold strtol. destruct (digits_no_sign 10 c ltac:(lia) Hdig) as (H45 & H43 & Hbl).
  rewrite (skip_blanks _ _ _ _ _ Hs) by (lia || (destruct neg; cbn; intros ? [= <-]; done)). cbn [mbind option_bind].
  pose proof (cstr_drop _ _ _ n Hs ltac:(rewrite length_app, length_replicate; lia)) as Hd.
  rewrite drop_app_length' in Hd by by rewrite length_replicate.
  assert (Hsel : forall q, cstr m q (c :: s) ->
    (if (m q =? 48) && ((m (q + 1) =? 120) || (m (q + 1) =? 88)) then (16, q + 2)
     else if m q =? 48 then (8, q) else (10, q)) = (if c =? 48 then 8 else 10, q)).
  { intros q (-> & _ & Hq). destruct (Z.eqb_spec c 48) as [->|]; [|done]. cbn [andb].
    destruct s as [|x s]; cbn in Hq; [by rewrite Hq|]. destruct Hq as (-> & _).
    destruct (Hx eq_refl x eq_refl). by rewrite (proj2 (Z.eqb_neq x 120)), (proj2 (Z.eqb_neq x 88)). }
  destruct neg; cbn [signed] in Hd.
  - destruct Hd as (-> & _ & Hd). cbn [Z.eqb Pos.eqb]. rewrite Hsel by done. by case_match.
  - pose proof Hd as (E & _). set (q := p + Z.of_nat n) in *.
    replace (m q =? 45) with false by (by rewrite E). replace (m q =? 43) with false by (by rewrite E).
    cbn [Z.eqb]. rewrite Hsel by done. by case_match.
Qed.

(** ** Duplicating a string *)

Section Strdup.
Context {H : Type} `{!HeapAllocator H, !HeapMemory H}.

Variable others : list (Z * Layout).
Variable rust_mem : memory.

Definition strdup (fuel : nat) (st : c_state) (s : Z) : option (outcome (Z * c_state)) :=
  n ← strlen fuel (c_mem st) s;
  let n := wrap64 (n + 1) in
  Some ('(p, st) ← malloc st n;
        if p =? 0 then Ok (p, st) else Ok (p, mk_c (c_heap st) (copy (c_mem st) s p n))).

Lemma block_bytes st blocks p (s : list Z) : c_inv others rust_mem st blocks -> (p, Some <$> s) ∈ blocks -> bytes_at (c_mem st) p s.
Proof.
  intros [_ [Hh _]] Hin. destruct (proj1 (Forall_forall _ _) Hh _ Hin) as (_ & _ & Hv). cbn [fst snd] in Hv.
  clear Hin. revert p Hv. induction s as [|c s IH]; intros p Hv; [done|]. split.
  - rewrite <- (Hv O c) by done. f_equal. lia.
  - apply IH. intros i v Hi. rewrite <- (Hv (S i) v) by done. f_equal. lia.
Qed.

(** [strdup] of a string that fills a block of the program answers null or a new block
    with the same string, and keeps the blocks the program holds. *)
Lemma strdup_copies fuel st blocks p s : c_inv others rust_mem st blocks -> (p, Some <$> (s ++ [0])) ∈ blocks ->
  Forall (fun c => 0 < c < 256) s -> (length s < fuel)%nat ->
  exists q st', strdup fuel st p = Some (Ok (q, st')) /\
    c_inv others rust_mem st' (if q =? 0 then blocks else (q, Some <$> (s ++ [0])) :: blocks).
Proof.
  intros Hi Hin Hs Hf. unfold strdup. pose proof (block_bytes _ _ _ _ Hi Hin) as Hb.
  assert (Hlen : 1 <= Z.of_nat (length s) + 1 <= MAX_SIZE).
  { destruct Hi as [_ [Hh _]]. destruct (proj1 (Forall_forall _ _) Hh _ Hin) as (Hl & _). cbn in Hl.
    rewrite length_fmap, length_app in Hl. cbn in Hl. lia. }
  rewrite (strlen_spec fuel _ p s) by (rewrite ?cstr_bytes; done). cbn [mbind option_bind].
  rewrite wrap64_small by (unfold is_u64, u64_max, MAX_SIZE in *; lia).
  destruct (malloc_inv others rust_mem st blocks (Z.of_nat (length s) + 1) Hi ltac:(lia)) as (q & st' & -> & Hi').
  cbn [mbind outcome_bind]. destruct (Z.eqb_spec q 0) as [->|Hq]; [by eexists 0, _|].
  eexists q, _. split; [done|]. rewrite (proj2 (Z.eqb_neq _ _)) by done.
  assert (Hb' : bytes_at (c_mem st') p (s ++ [0])) by (apply (block_bytes _ _ _ _ Hi'); by apply list_elem_of_further).
  assert (Hn : Z.of_nat (length s) + 1 = Z.of_nat (length (s ++ [0]))) by (rewrite length_app; cbn; lia).
  rewrite Hn in *. clear Hb Hin. refine (update_inv others rust_mem st' q (fresh _) _ _ _ Hi' _ _ _).
  - rewrite length_fmap. unfold fresh. rewrite (proj2 (Z.eqb_neq _ 0)), length_replicate by lia. lia.
  - intros x Hx. unfold fresh in Hx. rewrite (proj2 (Z.eqb_neq _ 0)), length_replicate in Hx by lia.
    unfold copy. destruct (_ && _) eqn:E; [|done]. apply andb_prop in E as [E1 E2]. lia.
  - intros i v Hv. rewrite list_lookup_fmap in Hv. destruct ((s ++ [0]) !! i) as [c|] eqn:Ei; [|done].
    injection Hv as <-. pose proof (lookup_lt_Some _ _ _ Ei). unfold copy.
    rewrite (proj2 (Z.leb_le _ _)), (proj2 (Z.ltb_lt _ _)) by lia. cbn [andb].
    replace (p + (q + Z.of_nat i - q)) with (p + Z.of_nat i) by lia. by apply bytes_at_lookup with (s ++ [0]).
Qed.

End Strdup.
