(* ===== verification/CFloat.v ===== *)
(** * The C library for Doom: floating point (src/ffi/stubs.c)

    [double] is IEEE 754 binary64, as the Standard Library's [SpecFloat] specifies it: 53
    bits of mantissa, exponents up to 1024, rounding to the nearest even; NaNs carry neither
    sign nor payload.  [strtod] converts what [strtol] reads, and [fabs] is its comparison
    with zero. *)

From Stdlib Require Import SpecFloat.
From S2P Require Import Prelude Machine CLib CString.

Abbreviation double := spec_float.

(** [(double)i] *)
Definition double_of_long (i : Z) : double := binary_normalize 53 1024 i 0 false.

(** [strtod] answers the number and where it stopped reading. *)
Definition strtod (fuel : nat) (m : memory) (s : Z) : option (double * Z) :=
  '(i, stop) ← strtol fuel m s 10;
  Some (double_of_long i, stop).

Definition fabs (x : double) : double := if SFltb x (S754_zero false) then SFopp x else x.

(** ** Values *)

(** A finite double that is the integer [n]. *)
Definition is_integer (x : double) (n : Z) : Prop :=
  match x with
  | S754_zero _ => n = 0
  | S754_finite s m e =>
      let v := if s then Zneg m else Zpos m in
      if 0 <=? e then n = v * 2 ^ e else n * 2 ^ (- e) = v
  | _ => False
  end.

Lemma digits2_log2 m : Zpos (digits2_pos m) = Z.log2 (Zpos m) + 1.
Proof.
  assert (H : forall m, digits2_pos m = Pos.size m) by (intros p; induction p; cbn; congruence).
  rewrite H. destruct m; cbn; lia.
Qed.

Lemma digits2_shift m d : digits2_pos (Pos.iter xO m d) = (digits2_pos m + d)%positive.
Proof.
  induction d as [|d IH] using Pos.peano_ind; [cbn; lia|].
  rewrite Pos.iter_succ. cbn [digits2_pos]. rewrite IH. lia.
Qed.

Lemma shift_value m d : Zpos (Pos.iter xO m d) = Zpos m * 2 ^ Zpos d.
Proof.
  induction d as [|d IH] using Pos.peano_ind; [cbn; lia|].
  rewrite Pos.iter_succ, Pos2Z.inj_xO, IH, Pos2Z.inj_succ, Z.pow_succ_r by lia. lia.
Qed.

(** A mantissa of 53 bits at an exponent in range needs no rounding. *)
Lemma round_53 s m e : digits2_pos m = 53%positive -> -1074 <= e <= 971 ->
  binary_round_aux 53 1024 s (Zpos m) e loc_Exact = S754_finite s m e.
Proof.
  intros Hd He.
  assert (Hs : shr_fexp 53 1024 (Zpos m) e loc_Exact = (Build_shr_record (Zpos m) false false, e)).
  { unfold shr_fexp, Zdigits2, fexp, emin. rewrite Hd. replace (Z.max (53 + e - 53) (3 - 1024 - 53) - e) with 0 by lia. done. }
  unfold binary_round_aux. rewrite Hs. cbn [shr_m loc_of_shr_record round_nearest_even]. rewrite Hs. cbn [shr_m].
  by destruct (Z.leb_spec e (1024 - 53)); [|lia].
Qed.

Lemma round_exact s m : Zpos m < 2 ^ 53 ->
  is_integer (binary_round 53 1024 s m 0) (if s then Zneg m else Zpos m).
Proof.
  intros Hm. pose proof (digits2_log2 m) as Hd. pose proof (Z.log2_nonneg (Zpos m)).
  assert (Z.log2 (Zpos m) < 53) by (apply Z.log2_lt_pow2; lia).
  assert (He : fexp 53 1024 (Zpos (digits2_pos m) + 0) = Zpos (digits2_pos m) - 53) by (unfold fexp, emin; lia).
  unfold binary_round, shl_align. rewrite He. destruct (Zpos (digits2_pos m) - 53 - 0) as [|d|d] eqn:Hz; [|lia|].
  - rewrite round_53 by lia. cbn [is_integer Z.leb Z.compare]. change (2 ^ 0) with 1. lia.
  - rewrite round_53 by (rewrite ?digits2_shift; lia). unfold is_integer.
    destruct (Z.leb_spec 0 (Zpos (digits2_pos m) - 53)); [lia|]. cbv zeta.
    replace (- (Zpos (digits2_pos m) - 53)) with (Zpos d) by lia.
    destruct s; rewrite <- ?Pos2Z.opp_pos, shift_value; lia.
Qed.

(** Integers below 2^53 are converted exactly. *)
Lemma double_of_long_exact i : - 2 ^ 53 < i < 2 ^ 53 -> is_integer (double_of_long i) i.
Proof.
  intros Hi. unfold double_of_long, binary_normalize.
  destruct i as [|m|m]; [done|exact (round_exact false m ltac:(lia))|exact (round_exact true m ltac:(lia))].
Qed.

(** Larger ones are rounded, ties to even. *)
Lemma double_of_long_rounds : double_of_long (2 ^ 53 + 1) = double_of_long (2 ^ 53) /\
  double_of_long (2 ^ 53 + 3) = double_of_long (2 ^ 53 + 4).
Proof. split; vm_compute; reflexivity. Qed.

(** A finite double is at most one integer. *)
Lemma is_integer_unique x n n' : is_integer x n -> is_integer x n' -> n = n'.
Proof.
  destruct x as [s| | |s m e]; cbn [is_integer]; [congruence|done..|].
  destruct (Z.leb_spec 0 e); [congruence|]. intros H1 H2. rewrite <- H2 in H1.
  apply Z.mul_reg_r in H1; [done|]. apply Z.pow_nonzero; lia.
Qed.

#[export] Instance double_eq_dec : EqDecision double.
Proof. solve_decision. Defined.

(** [fabs] is the absolute value, but for negative zero, which it keeps. *)
Lemma fabs_spec x : fabs x = if decide (x = S754_zero true) then x else SFabs x.
Proof. by destruct x as [[]|[]| |[] m e]; unfold fabs; cbn; case_decide. Qed.

Lemma fabs_integer x n : is_integer x n -> is_integer (fabs x) (Z.abs n).
Proof.
  destruct x as [[]| | |[] m e]; cbn [is_integer fabs SFltb SFcompare SFopp negb]; try lia; unfold fabs;
    cbn [SFltb SFcompare SFopp negb is_integer]; (destruct (Z.leb_spec 0 e)); intros H1; nia.
Qed.
