(* ===== verification/CStdio.v ===== *)
(** * The C library for Doom: files (src/ffi/stubs.c [fopen] .. [rename], src/ffi/mod.rs
    [rust_fs_open])

    A [FILE] is a structure of three words in the C heap that points into the archive,
    which is itself a block of the kernel heap.  The operations work on that memory; the
    specification is a set of byte sequences with cursors beside a set of blocks, and the
    two are related through the invariant of the heap. *)

From S2P Require Import Prelude Machine Alloc LinkedList FixedBlock HeapMem ListMem BlockMem Fs CLib CString.

(** ** [FILE] *)

Record FILE := mk_file { f_data : Z; f_size : Z; f_pos : Z }.

Definition SIZEOF_FILE : Z := 24.

Definition get_file (m : memory) (f : Z) : FILE := mk_file (load64 m f) (load64 m (f + 8)) (load64 m (f + 16)).

(** Assignments to the fields. *)
Definition set_data (m : memory) (f v : Z) : memory := store64 m f v.
Definition set_size (m : memory) (f v : Z) : memory := store64 m (f + 8) v.
Definition set_pos (m : memory) (f v : Z) : memory := store64 m (f + 16) v.

(** [_stdout] and [_stderr]. *)
Definition std_stream : FILE := mk_file 0 0 0.

Section Stdio.
Context {S : Type} `{!HeapAllocator S, !HeapMemory S}.

(** The address and the contents of the archive, once it is loaded. *)
Variable archive : option (Z * bytes).

(** [CStr::from_ptr]: the bytes before the NUL. *)
Definition from_ptr (fuel : nat) (m : memory) (p : Z) : option bytes :=
  n ← strlen fuel m p;
  Some ((fun i => m (p + Z.of_nat i)) <$> seq 0 (Z.to_nat n)).

(** [rust_fs_open]: the pointer, and [*out_size] after the call; a path that is not UTF-8
    is not found. *)
Definition rust_fs_open (fuel : nat) (m : memory) (name out_size : Z) : option (outcome (Z * Z)) :=
  path ← from_ptr fuel m name;
  Some (if negb (utf8_valid path) then Ok (0, out_size) else
        data ← cxfs_slice (snd <$> archive) path;
        match data, archive with
        | Some (off, d), Some (base, _) => Ok (base + off, Z.of_nat (length d))
        | _, _ => Ok (0, out_size)
        end).

Definition fopen (fuel : nat) (st : c_state (S := S)) (path mode : Z) : option (outcome (Z * c_state (S := S))) :=
  found ← rust_fs_open fuel (c_mem st) path 0;
  Some ('(data, sz) ← found;
        if data =? 0 then Ok (0, st) else
        '(f, st) ← malloc st SIZEOF_FILE;
        if f =? 0 then Ok (0, st) else
        Ok (f, mk_c (c_heap st) (set_pos (set_size (set_data (c_mem st) f data) f sz) f 0))).

Definition fclose (st : c_state (S := S)) (f : Z) : outcome (Z * c_state (S := S)) :=
  st ← free st f;
  Ok (0, st).

Definition fread (st : c_state (S := S)) (buf sz nmemb f : Z) : outcome (Z * c_state (S := S)) :=
  let F := get_file (c_mem st) f in
  if (f =? 0) || (f_data F =? 0) then Ok (0, st) else
  let want := wrap64 (sz * nmemb) in
  let avail := wrap64 (f_size F - f_pos F) in
  let n := if avail <? want then avail else want in
  let m := copy (c_mem st) (f_data F + f_pos F) buf n in
  let m := set_pos m f (wrap64 (load64 m (f + 16) + n)) in
  count ← n /! sz;
  Ok (count, mk_c (c_heap st) m).

(** [fwrite] has no backing store; [fflush] has nothing to do. *)
Definition fwrite (buf sz nmemb f : Z) : Z := 0.
Definition fflush (f : Z) : Z := 0.

(** [fseek]; [whence] is 0 for the start, 1 for the position, anything else for the end. *)
Definition fseek (st : c_state (S := S)) (f offset whence : Z) : Z * c_state (S := S) :=
  if f =? 0 then (-1, st) else
  let F := get_file (c_mem st) f in
  let pos := if whence =? 0 then wrap64 offset
             else if whence =? 1 then wrap64 (f_pos F + offset)
             else wrap64 (f_size F + offset) in
  if f_size F <? pos then (-1, st) else (0, mk_c (c_heap st) (set_pos (c_mem st) f pos)).

Definition ftell (st : c_state (S := S)) (f : Z) : Z :=
  if f =? 0 then -1 else to_long (f_pos (get_file (c_mem st) f)).

(** The directory operations always fail. *)
Definition mkdir (path mode : Z) : Z := -1.
Definition remove (path : Z) : Z := -1.
Definition rename (old new : Z) : Z := -1.

(** ** The specification *)

(** A file that is open: its bytes and the cursor. *)
Record afile := mk_afile { a_data : bytes; a_pos : nat }.

(** The blocks the program holds, byte by byte ([None] where it has put nothing yet), and
    its files. *)
Record aworld := mk_aworld { a_blocks : list (list (option Z)); a_files : list afile }.

(** A program: heap operations, and file operations on the [h]-th file with the [k]-th block
    as path or buffer. *)
Inductive s_op :=
  | SHeap (o : c_op)
  | SOpen (k : nat)
  | SRead (h k i : nat) (sz nmemb : Z)
  | SWrite (h k : nat) (sz nmemb : Z)
  | SSeek (h : nat) (offset whence : Z)
  | STell (h : nat)
  | SFlush (h : nat)
  | SClose (h : nat).

Definition s_op_ok (o : s_op) : Prop :=
  match o with
  | SHeap o => c_op_ok o
  | SRead _ _ _ sz n => 0 < sz /\ 0 <= n /\ sz * n <= u64_max
  | SSeek _ off _ => - 2 ^ 63 <= off < 2 ^ 63
  | _ => True
  end.

(** The string in a block: bytes that were written, up to a NUL. *)
Fixpoint c_text (bs : list (option Z)) : option bytes :=
  match bs with
  | Some c :: bs =>
      if c =? 0 then Some [] else
      if (0 <? c) && (c <? 256) then s ← c_text bs; Some (c :: s) else None
  | _ => None
  end.

(** [ok] says whether the heap granted the memory that was asked for. *)
Definition heap_spec (o : c_op) (ok : bool) (bl : list (list (option Z))) : list (list (option Z)) :=
  match o with
  | CMalloc n => if ok then fresh n :: bl else bl
  | CCalloc a n => if ok then zeroed (a * n) :: bl else bl
  | CWrite k i v => alter (insert i (Some v)) k bl
  | CRealloc k n => if n =? 0 then delete k bl else if ok then alter (resized n) k bl else bl
  | CFree k => delete k bl
  end.

Definition read_spec (f : afile) (sz n : Z) : bytes := take (Z.to_nat (sz * n)) (drop (a_pos f) (a_data f)).

Definition seek_target (f : afile) (off wh : Z) : Z :=
  off + (if wh =? 0 then 0 else if wh =? 1 then Z.of_nat (a_pos f) else Z.of_nat (length (a_data f))).

(** A read asks for no more than the block holds from byte [i] on. *)
Definition fits (bs : list (option Z)) (i : nat) (sz n : Z) : bool := Z.of_nat i + sz * n <=? Z.of_nat (length bs).

(** One operation in unbounded arithmetic, and what it answers: a read takes what is there,
    a seek outside of the file fails and moves nothing. *)
Definition spec_step (files : list (bytes * bytes)) (o : s_op) (ok : bool) (w : aworld) : aworld * Z :=
  match o with
  | SHeap o => (mk_aworld (heap_spec o ok (a_blocks w)) (a_files w), 0)
  | SOpen k =>
      match (a_blocks w !! k ≫= c_text) ≫= find_file files with
      | Some data => if ok then (mk_aworld (a_blocks w) (mk_afile data 0 :: a_files w), 1) else (w, 0)
      | None => (w, 0)
      end
  | SRead h k i sz n =>
      match a_files w !! h, a_blocks w !! k with
      | Some f, Some bs =>
          if fits bs i sz n then
            let got := read_spec f sz n in
            (mk_aworld (<[k := list_inserts i (Some <$> got) bs]> (a_blocks w))
                       (<[h := mk_afile (a_data f) (a_pos f + length got)]> (a_files w)),
             Z.of_nat (length got) / sz)
          else (w, 0)
      | _, _ => (w, 0)
      end
  | SSeek h off wh =>
      match a_files w !! h with
      | Some f =>
          let t := seek_target f off wh in
          if (0 <=? t) && (t <=? Z.of_nat (length (a_data f)))
          then (mk_aworld (a_blocks w) (<[h := mk_afile (a_data f) (Z.to_nat t)]> (a_files w)), 0)
          else (w, -1)
      | None => (w, 0)
      end
  | STell h => (w, match a_files w !! h with Some f => Z.of_nat (a_pos f) | None => 0 end)
  | SWrite _ _ _ _ | SFlush _ => (w, 0)
  | SClose h => (mk_aworld (a_blocks w) (delete h (a_files w)), 0)
  end.

Fixpoint spec_run (files : list (bytes * bytes)) (ops : list (s_op * bool)) (w : aworld) : aworld * list Z :=
  match ops with
  | [] => (w, [])
  | (o, ok) :: ops =>
      let '(w, a) := spec_step files o ok w in
      let '(w, l) := spec_run files ops w in
      (w, a :: l)
  end.

(** ** The program on the C library *)

(** The state of the library, with the addresses the program holds; beside each address is
    what the program expects there. *)
Record session := mk_session {
  s_c : c_state (S := S);
  s_blocks : list block;
  s_files : list (Z * afile);
}.

Definition expects (s : session) : aworld := mk_aworld (snd <$> s_blocks s) (snd <$> s_files s).

(** Do an operation on the library: the answer comes from there.  What the program expects
    follows the specification, told whether the pointer that came back was null. *)
Definition with_c (s : session) (st : c_state (S := S)) : session := mk_session st (s_blocks s) (s_files s).

Definition s_step (o : s_op) (s : session) : option (outcome (session * Z)) :=
  match o with
  | SHeap o => Some ('(st, blocks) ← c_step o (s_c s) (s_blocks s);
                     Ok (mk_session st blocks (s_files s), 0))
  | SOpen k =>
      match s_blocks s !! k with
      | Some (p, bs) =>
          match c_text bs with
          | Some path =>
              r ← fopen (length bs) (s_c s) p 0;
              Some ('(f, st) ← r;
                    if f =? 0 then Ok (with_c s st, 0) else
                    let F := get_file (c_mem st) f in
                    let data := (fun i => c_mem st (f_data F + Z.of_nat i)) <$> seq 0 (Z.to_nat (f_size F)) in
                    Ok (mk_session st (s_blocks s) ((f, mk_afile data 0) :: s_files s), 1))
          | None => Some (Ok (s, 0))
          end
      | None => Some (Ok (s, 0))
      end
  | SRead h k i sz n =>
      match s_files s !! h, s_blocks s !! k with
      | Some (f, af), Some (p, bs) =>
          if fits bs i sz n then
            Some ('(count, st) ← fread (s_c s) (p + Z.of_nat i) sz n f;
                  let got := read_spec af sz n in
                  Ok (mk_session st (<[k := (p, list_inserts i (Some <$> got) bs)]> (s_blocks s))
                        (<[h := (f, mk_afile (a_data af) (a_pos af + length got))]> (s_files s)), count))
          else Some (Ok (s, 0))
      | _, _ => Some (Ok (s, 0))
      end
  | SWrite h k sz n =>
      match s_files s !! h, s_blocks s !! k with
      | Some (f, _), Some (p, _) => Some (Ok (s, fwrite p sz n f))
      | _, _ => Some (Ok (s, 0))
      end
  | SSeek h off wh =>
      match s_files s !! h with
      | Some (f, af) =>
          let '(r, st) := fseek (s_c s) f off wh in
          Some (Ok (mk_session st (s_blocks s)
            (if r =? 0 then <[h := (f, mk_afile (a_data af) (Z.to_nat (seek_target af off wh)))]> (s_files s)
             else s_files s), r))
      | None => Some (Ok (s, 0))
      end
  | STell h =>
      match s_files s !! h with
      | Some (f, _) => Some (Ok (s, ftell (s_c s) f))
      | None => Some (Ok (s, 0))
      end
  | SFlush h =>
      match s_files s !! h with
      | Some (f, _) => Some (Ok (s, fflush f))
      | None => Some (Ok (s, 0))
      end
  | SClose h =>
      match s_files s !! h with
      | Some (f, _) => Some ('(r, st) ← fclose (s_c s) f; Ok (mk_session st (s_blocks s) (delete h (s_files s)), r))
      | None => Some (Ok (s, 0))
      end
  end.

Fixpoint s_run (ops : list s_op) (s : session) : option (outcome (session * list Z)) :=
  match ops with
  | [] => Some (Ok (s, []))
  | o :: ops =>
      match s_step o s with
      | Some (Ok (s, a)) =>
          match s_run ops s with
          | Some (Ok (s, l)) => Some (Ok (s, a :: l))
          | r => r
          end
      | Some (Panic e) => Some (Panic e)
      | None => None
      end
  end.

(** ** Words and bytes *)

Lemma load_bytes n m a v : bytes_at m a (to_le n v) -> 0 <= v < 256 ^ Z.of_nat n -> load_le n m a = v.
Proof.
  revert a v. induction n as [|n IH]; intros a v; cbn [to_le load_le]; [cbn; lia|]. intros [-> Hb] Hv.
  rewrite Nat2Z.inj_succ, Z.pow_succ_r in Hv by lia.
  rewrite (IH _ (v / 256) Hb).
  - rewrite Z.mod_mod by lia. pose proof (Z.div_mod v 256). lia.
  - split; [apply Z.div_pos; lia|apply Z.div_lt_upper_bound; lia].
Qed.

Lemma to_le_bytes n m a v k : (forall x, a <= x < a + Z.of_nat n -> m x = (v / 2 ^ (8 * (x - k))) mod 256) -> k <= a ->
  bytes_at m a (to_le n (v / 2 ^ (8 * (a - k)))).
Proof.
  revert a. induction n as [|n IH]; intros a Hm Hk; [done|]. split.
  - apply Hm. lia.
  - replace (v / 2 ^ (8 * (a - k)) / 256) with (v / 2 ^ (8 * (a + 1 - k))); [apply IH; [|lia]; intros x Hx; apply Hm; lia|].
    change 256 with (2 ^ 8). rewrite Z.div_div by (try apply Z.pow_pos_nonneg; lia). rewrite <- Z.pow_add_r by lia. do 2 f_equal. lia.
Qed.

Lemma store64_bytes m a v : bytes_at (store64 m a v) a (to_le 8 v).
Proof.
  replace (to_le 8 v) with (to_le 8 (v / 2 ^ (8 * (a - a)))) by (rewrite Z.sub_diag; cbn [Z.mul Z.pow]; by rewrite Z.div_1_r).
  apply to_le_bytes; [|lia]. intros x Hx. unfold store64.
  rewrite (proj2 (Z.leb_le _ _)), (proj2 (Z.ltb_lt _ _)) by lia. done.
Qed.

(** ** The invariant *)

(** A file that is open: where its [FILE] and its bytes are. *)
Record handle := mk_handle { h_ptr : Z; h_data : Z; h_file : afile }.

Definition file_bytes (data sz pos : Z) : list Z := to_le 8 data ++ to_le 8 sz ++ to_le 8 pos.

Definition file_block (h : handle) : block :=
  (h_ptr h, Some <$> file_bytes (h_data h) (Z.of_nat (length (a_data (h_file h)))) (Z.of_nat (a_pos (h_file h)))).

Lemma length_file_bytes d s p : length (file_bytes d s p) = 24%nat.
Proof. reflexivity. Qed.

Lemma get_file_bytes m p d s pos : bytes_at m p (file_bytes d s pos) ->
  0 <= d <= u64_max -> 0 <= s <= u64_max -> 0 <= pos <= u64_max -> get_file m p = mk_file d s pos.
Proof.
  unfold file_bytes, u64_max. rewrite !bytes_at_app, !length_to_le. intros (H1 & H2 & H3) Hd Hs Hp.
  unfold get_file, load64. change (256 ^ Z.of_nat 8) with 18446744073709551616 in *.
  rewrite (load_bytes 8 m p d), (load_bytes 8 m (p + 8) s), (load_bytes 8 m (p + 16) pos); try done;
    try (change (256 ^ Z.of_nat 8) with 18446744073709551616; lia).
  by replace (p + 16) with (p + Z.of_nat 8 + Z.of_nat 8) by lia.
Qed.

Lemma set_pos_bytes m p d s pos pos' : bytes_at m p (file_bytes d s pos) ->
  bytes_at (set_pos m p pos') p (file_bytes d s pos').
Proof.
  unfold file_bytes, set_pos. rewrite !bytes_at_app, !length_to_le. intros (H1 & H2 & _). split_and!.
  - eapply bytes_at_ext; [|exact H1]. intros x Hx. rewrite length_to_le in Hx. apply store64_outside. lia.
  - eapply bytes_at_ext; [|exact H2]. intros x Hx. rewrite length_to_le in Hx. apply store64_outside. lia.
  - replace (p + Z.of_nat 8 + Z.of_nat 8) with (p + 16) by lia. apply store64_bytes.
Qed.

Lemma new_file_bytes m p d s : bytes_at (set_pos (set_size (set_data m p d) p s) p 0) p (file_bytes d s 0).
Proof.
  unfold file_bytes, set_pos, set_size, set_data. rewrite !bytes_at_app, !length_to_le. split_and!.
  - eapply bytes_at_ext; [|apply store64_bytes]. intros x Hx. rewrite length_to_le in Hx.
    by rewrite !store64_outside by lia.
  - eapply bytes_at_ext; [|apply store64_bytes]. intros x Hx. rewrite length_to_le in Hx. apply store64_outside. lia.
  - replace (p + Z.of_nat 8 + Z.of_nat 8) with (p + 16) by lia. apply store64_bytes.
Qed.

Section Invariant.
(** The archive is one of the kernel's blocks, with a file system in it. *)
Record mounted (st : c_state (S := S)) (others : list (Z * Layout)) (files : list (bytes * bytes))
    (base : Z) (image : bytes) (home : Layout) : Prop := {
  names_ok : Forall (fun f => 0 ∉ fst f) files;
  image_built : build files = Some image;
  archive_loaded : archive = Some (base, image);
  image_held : (base, home) ∈ others;
  image_size : Z.of_nat (length image) <= size home;
  image_place : base + size home <= 2 ^ 62;
  image_bytes : bytes_at (c_mem st) base image;
}.

Variables (st0 : c_state (S := S)) (others : list (Z * Layout)).
Variables (files : list (bytes * bytes)) (base : Z) (image : bytes) (home : Layout).
Hypothesis mount : mounted st0 others files base image home.

#[local] Ltac use_mount := pose proof mount as [Hnames Hbuilt Hloaded Hheld Hsize Hplace Himage].

(** The bytes of an open file are there, in the archive. *)
Definition located (h : handle) : Prop :=
  base <= h_data h /\ h_data h + Z.of_nat (length (a_data (h_file h))) <= base + Z.of_nat (length image) /\
  bytes_at (c_mem st0) (h_data h) (a_data (h_file h)) /\ (a_pos (h_file h) <= length (a_data (h_file h)))%nat.

#[local] Abbreviation inv := (c_inv others (c_mem st0)).

Definition s_inv (s : session) : Prop := exists hs,
  s_files s = (fun h => (h_ptr h, h_file h)) <$> hs /\ Forall located hs /\
  inv (s_c s) ((file_block <$> hs) ++ s_blocks s).

Lemma base_positive st blocks : inv st blocks -> 0 < base.
Proof. use_mount.
  intros [Hi _]. destruct (ha_blocks _ _ Hi) as [Hb _]. rewrite Forall_forall in Hb.
  destruct (Hb (base, home)) as (H0 & _); [apply elem_of_app; by right|done].
Qed.

Lemma archive_kept st blocks a l : inv st blocks -> base <= a -> a + Z.of_nat (length l) <= base + Z.of_nat (length image) ->
  bytes_at (c_mem st0) a l -> bytes_at (c_mem st) a l.
Proof. use_mount.
  intros [_ [_ Ho]] H1 H2 Hb. eapply bytes_at_ext; [|exact Hb]. intros x Hx.
  apply (Ho (base, home)); [done|cbn; lia].
Qed.

Lemma located_words h st blocks : inv st blocks -> located h ->
  0 < h_data h <= u64_max /\ Z.of_nat (length (a_data (h_file h))) < 2 ^ 62.
Proof. use_mount.
  intros Hi (H1 & H2 & _). apply base_positive in Hi. change (2 ^ 62) with 4611686018427387904 in *. unfold u64_max. lia.
Qed.

Lemma file_bytes_at st h rest : inv st (file_block h :: rest) ->
  bytes_at (c_mem st) (h_ptr h) (file_bytes (h_data h) (Z.of_nat (length (a_data (h_file h)))) (Z.of_nat (a_pos (h_file h)))).
Proof. intros Hi. eapply block_bytes; [exact Hi|]. apply list_elem_of_here. Qed.

Lemma file_read st h rest : inv st (file_block h :: rest) -> located h ->
  h_ptr h <> 0 /\
  get_file (c_mem st) (h_ptr h) = mk_file (h_data h) (Z.of_nat (length (a_data (h_file h)))) (Z.of_nat (a_pos (h_file h))).
Proof.
  intros Hi Hl. destruct (located_words _ _ _ Hi Hl) as [Hd Hn]. change (2 ^ 62) with 4611686018427387904 in Hn.
  destruct Hl as (_ & _ & _ & Hp). split.
  - destruct Hi as [Hi _]. destruct (ha_blocks _ _ Hi) as [[(H0 & _) _]%Forall_cons _].
    unfold raw_of, MALLOC_HDR in H0. cbn in H0. lia.
  - eapply get_file_bytes; [by eapply file_bytes_at|unfold u64_max in *; lia..].
Qed.

(** The program changes the bytes of one block: as [update_inv], with the bytes as a list. *)
Lemma rewrite_block st p bs l rest m' : inv st ((p, bs) :: rest) -> length l = length bs ->
  (forall x, x < p \/ p + Z.of_nat (length bs) <= x -> m' x = c_mem st x) -> bytes_at m' p l ->
  inv (mk_c (c_heap st) m') ((p, Some <$> l) :: rest).
Proof.
  intros Hi Hl Hout Hb. eapply update_inv; [exact Hi|by rewrite length_fmap|exact Hout|].
  intros i v. rewrite list_lookup_fmap. destruct (l !! i) as [c|] eqn:E; [|done]. intros [= <-].
  by eapply bytes_at_lookup.
Qed.

Definition moved (h : handle) (pos : nat) : handle := mk_handle (h_ptr h) (h_data h) (mk_afile (a_data (h_file h)) pos).

Lemma file_moves st h rest pos : inv st (file_block h :: rest) ->
  inv (mk_c (c_heap st) (set_pos (c_mem st) (h_ptr h) (Z.of_nat pos))) (file_block (moved h pos) :: rest).
Proof.
  intros Hi. eapply rewrite_block; [exact Hi|done| |].
  - intros x Hx. rewrite length_fmap, length_file_bytes in Hx. cbn [h_ptr moved] in Hx. apply store64_outside. lia.
  - eapply set_pos_bytes. by apply file_bytes_at in Hi.
Qed.

Lemma block_reads st p bs rest i l src : inv st ((p, bs) :: rest) -> (i + length l <= length bs)%nat ->
  bytes_at (c_mem st) src l ->
  inv (mk_c (c_heap st) (copy (c_mem st) src (p + Z.of_nat i) (Z.of_nat (length l))))
      ((p, list_inserts i (Some <$> l) bs) :: rest).
Proof.
  intros Hi Hlen Hb. eapply update_inv; [exact Hi|by rewrite length_inserts| |].
  - intros x Hx. unfold copy. destruct (_ && _) eqn:E; [|done]. apply andb_prop in E as [E1 E2]. lia.
  - intros j v Hj. unfold copy.
    destruct (decide (i <= j < i + length l)%nat) as [Hin|Hin].
    + rewrite list_lookup_inserts in Hj by (rewrite ?length_fmap; lia). rewrite list_lookup_fmap in Hj.
      destruct (l !! (j - i)%nat) as [c|] eqn:E; [|done]. injection Hj as <-.
      rewrite (proj2 (Z.leb_le _ _)), (proj2 (Z.ltb_lt _ _)) by lia. cbn [andb].
      rewrite <- (bytes_at_lookup _ _ _ _ _ Hb E). f_equal. lia.
    + assert (Hj' : bs !! j = Some (Some v)).
      { destruct (decide (j < i)%nat); [by rewrite list_lookup_inserts_lt in Hj by lia|].
        by rewrite list_lookup_inserts_ge in Hj by (rewrite length_fmap; lia). }
      destruct (_ && _) eqn:E; [apply andb_prop in E as [E1 E2]; lia|].
      destruct Hi as [_ [Hh _]]. apply Forall_cons in Hh as [(_ & _ & Hc) _]. by apply Hc.
Qed.

(** ** The functions *)

(** What a read takes is what the arithmetic of [fread] says. *)
Lemma read_length f sz n : (a_pos f <= length (a_data f))%nat -> 0 <= sz * n ->
  Z.of_nat (length (read_spec f sz n)) = Z.min (sz * n) (Z.of_nat (length (a_data f)) - Z.of_nat (a_pos f)).
Proof. intros Hp Hn. unfold read_spec. rewrite length_take, length_drop. lia. Qed.

Lemma bytes_at_part m p l a n : bytes_at m p l -> (a <= length l)%nat -> bytes_at m (p + Z.of_nat a) (take n (drop a l)).
Proof.
  intros Hb Ha. rewrite <- (take_drop a l) in Hb. apply bytes_at_app in Hb as [_ Hb]. rewrite length_take, Nat.min_l in Hb by lia.
  rewrite <- (take_drop n (drop a l)) in Hb. by apply bytes_at_app in Hb as [Hb _].
Qed.

Lemma fread_ok st h p bs rest i sz n : inv st (file_block h :: (p, bs) :: rest) -> located h ->
  0 < sz -> 0 <= n -> sz * n <= u64_max -> fits bs i sz n = true ->
  let got := read_spec (h_file h) sz n in
  exists st', fread st (p + Z.of_nat i) sz n (h_ptr h) = Ok (Z.of_nat (length got) / sz, st') /\
    inv st' (file_block (moved h (a_pos (h_file h) + length got)) :: (p, list_inserts i (Some <$> got) bs) :: rest).
Proof.
  intros Hi Hl Hsz Hn Hmax Hfit got. apply Z.leb_le in Hfit.
  destruct (file_read _ _ _ Hi Hl) as [Hnz Hg]. destruct (located_words _ _ _ Hi Hl) as [Hd Hlen].
  change (2 ^ 62) with 4611686018427387904 in Hlen. pose proof Hl as (Hb1 & Hb2 & Hbytes & Hpos).
  pose proof (read_length (h_file h) sz n Hpos ltac:(lia)) as Hgot. fold got in Hgot.
  unfold fread. rewrite Hg. cbn [f_data f_size f_pos].
  rewrite (proj2 (Z.eqb_neq _ _) Hnz), (proj2 (Z.eqb_neq (h_data h) 0)) by lia. cbn [orb].
  rewrite (wrap64_small (sz * n)) by (unfold is_u64; lia).
  rewrite (wrap64_small (Z.of_nat (length (a_data (h_file h))) - _)) by (unfold is_u64, u64_max; lia).
  replace (if _ <? _ then _ else _) with (Z.of_nat (length got)) by (rewrite Hgot; case_match; lia).
  assert (Hi1 : inv (mk_c (c_heap st) (copy (c_mem st) (h_data h + Z.of_nat (a_pos (h_file h))) (p + Z.of_nat i) (Z.of_nat (length got))))
    (file_block h :: (p, list_inserts i (Some <$> got) bs) :: rest)).
  { rewrite Permutation_swap. apply block_reads; [by rewrite Permutation_swap|lia|].
    apply bytes_at_part; [|done]. by eapply archive_kept. }
  destruct (file_read _ _ _ Hi1 Hl) as [_ Hg1]. cbn [c_mem] in Hg1. set (m := copy _ _ _ _) in *.
  assert (Hpos1 : load64 m (h_ptr h + 16) = Z.of_nat (a_pos (h_file h))) by (apply (f_equal f_pos) in Hg1; exact Hg1).
  rewrite Hpos1. rewrite wrap64_small by (unfold is_u64, u64_max; lia). rewrite u64_div_returns by lia. cbn [mbind outcome_bind].
  eexists. split; [done|]. rewrite <- Nat2Z.inj_add. exact (file_moves _ _ _ _ Hi1).
Qed.

(** An offset in [long] range wraps to a position inside of the file exactly when it is one. *)
Lemma seek_wrap len t : 0 <= len < 2 ^ 62 -> - 2 ^ 63 <= t < 2 ^ 63 + 2 ^ 62 ->
  (len <? wrap64 t) = negb ((0 <=? t) && (t <=? len)) /\ (0 <= t <= len -> wrap64 t = t).
Proof.
  change (2 ^ 62) with 4611686018427387904. change (2 ^ 63) with 9223372036854775808. intros Hl Ht.
  assert (Hw : wrap64 t = if t <? 0 then t + u64_mod else t).
  { unfold wrap64, u64_mod. case_match eqn:E; [rewrite <- (Z.mod_add _ 1) by done|]; rewrite Z.mod_small; lia. }
  rewrite Hw. unfold u64_mod. destruct (Z.ltb_spec t 0), (Z.leb_spec 0 t), (Z.leb_spec t len); cbn; split; lia.
Qed.

Lemma fseek_ok st h rest off wh : inv st (file_block h :: rest) -> located h -> - 2 ^ 63 <= off < 2 ^ 63 ->
  let t := seek_target (h_file h) off wh in
  if (0 <=? t) && (t <=? Z.of_nat (length (a_data (h_file h))))
  then exists st', fseek st (h_ptr h) off wh = (0, st') /\ inv st' (file_block (moved h (Z.to_nat t)) :: rest)
  else fseek st (h_ptr h) off wh = (-1, st).
Proof.
  intros Hi Hl Hoff t. destruct (file_read _ _ _ Hi Hl) as [Hnz Hg]. destruct (located_words _ _ _ Hi Hl) as [_ Hlen].
  destruct Hl as (_ & _ & _ & Hpos). unfold fseek. rewrite Hg. cbn [f_data f_size f_pos]. rewrite (proj2 (Z.eqb_neq _ _) Hnz).
  replace (if wh =? 0 then _ else _) with (wrap64 t) by (unfold t, seek_target; repeat case_match; f_equal; lia).
  destruct (seek_wrap (Z.of_nat (length (a_data (h_file h)))) t) as [-> Hw].
  { lia. }
  { unfold t, seek_target. change (2 ^ 62) with 4611686018427387904 in *. change (2 ^ 63) with 9223372036854775808 in *.
    repeat case_match; lia. }
  destruct ((0 <=? t) && _) eqn:E; [|done]. cbn [negb]. apply andb_prop in E as [E1 E2].
  eexists. split; [done|]. rewrite Hw by lia. replace t with (Z.of_nat (Z.to_nat t)) at 1 by lia. by apply file_moves.
Qed.

Lemma ftell_ok st h rest : inv st (file_block h :: rest) -> located h -> ftell st (h_ptr h) = Z.of_nat (a_pos (h_file h)).
Proof.
  intros Hi Hl. destruct (file_read _ _ _ Hi Hl) as [Hnz Hg]. destruct (located_words _ _ _ Hi Hl) as [_ Hlen].
  destruct Hl as (_ & _ & _ & Hpos). change (2 ^ 62) with 4611686018427387904 in Hlen.
  unfold ftell. rewrite (proj2 (Z.eqb_neq _ _) Hnz), Hg. cbn [f_pos]. unfold to_long.
  rewrite wrap64_small by (unfold is_u64, u64_max; lia). lia.
Qed.

Lemma c_text_at m p bs s : (forall i v, bs !! i = Some (Some v) -> m (p + Z.of_nat i) = v) -> c_text bs = Some s ->
  cstr m p s /\ (length s < length bs)%nat.
Proof.
  revert p s. induction bs as [|[c|] bs IH]; intros p s Hm; cbn [c_text]; [done| |done].
  assert (Hc : m p = c) by (rewrite <- (Hm O c) by done; f_equal; lia).
  destruct (Z.eqb_spec c 0) as [->|Hc0]; [intros [= <-]; cbn; split; [done|lia]|].
  destruct (_ && _) eqn:E; [|done]. apply andb_prop in E as [E1 E2].
  destruct (c_text bs) as [s'|] eqn:Es; [|done]. intros [= <-].
  destruct (IH (p + 1) s') as [H1 H2]; [|done|cbn; repeat split; [done|lia..|done|lia]].
  intros i v Hi. rewrite <- (Hm (Datatypes.S i) v) by done. f_equal. lia.
Qed.

Lemma from_ptr_spec fuel m p s : cstr m p s -> (length s < fuel)%nat -> from_ptr fuel m p = Some s.
Proof.
  intros Hs Hf. unfold from_ptr. rewrite (strlen_spec _ _ _ _ Hs Hf). cbn [mbind option_bind]. rewrite Nat2Z.id. f_equal.
  apply cstr_bytes in Hs as [Hs _]. apply bytes_at_app in Hs as [Hs _]. by apply bytes_read.
Qed.

(** [rust_fs_open] answers the file's place in the archive. *)
Lemma rust_fs_open_ok fuel m p path : cstr m p path -> (length path < fuel)%nat ->
  match find_file files path with
  | Some d => exists off, rust_fs_open fuel m p 0 = Some (Ok (base + off, Z.of_nat (length d))) /\
      0 <= off /\ off + Z.of_nat (length d) <= Z.of_nat (length image) /\ bytes_at (c_mem st0) (base + off) d
  | None => rust_fs_open fuel m p 0 = Some (Ok (0, 0))
  end.
Proof. use_mount.
  intros Hs Hf. unfold rust_fs_open. rewrite (from_ptr_spec _ _ _ _ Hs Hf). cbn [mbind option_bind]. rewrite Hloaded.
  cbn [fmap option_fmap option_map snd]. pose proof (open_built _ _ path Hnames Hbuilt) as Ho. unfold cxfs_open in Ho.
  destruct (cxfs_slice (Some image) path) as [r|] eqn:Er; [|done]. cbn [mbind outcome_bind] in Ho. injection Ho as Ho.
  destruct (find_file files path) as [d|] eqn:Ed.
  - rewrite (find_file_utf8 _ _ _ _ Hbuilt Ed). destruct r as [[off d']|]; [|done]. cbn in Ho. injection Ho as ->.
    destruct (cxfs_slice_inside _ _ _ _ Er) as (H0 & Hin & Hd). exists off. split_and!; [done..|].
    rewrite Hd. replace off with (Z.of_nat (Z.to_nat off)) at 1 by lia. apply bytes_at_part; [done|lia].
  - destruct r; [done|]. by destruct (utf8_valid path).
Qed.

Lemma fopen_ok st blocks p bs path mode : inv st blocks -> (p, bs) ∈ blocks -> c_text bs = Some path ->
  match find_file files path with
  | Some d => exists f st', fopen (length bs) st p mode = Some (Ok (f, st')) /\
      if f =? 0 then inv st' blocks
      else exists off, located (mk_handle f (base + off) (mk_afile d 0)) /\
                       inv st' (file_block (mk_handle f (base + off) (mk_afile d 0)) :: blocks)
  | None => fopen (length bs) st p mode = Some (Ok (0, st))
  end.
Proof.
  intros Hi Hin Ht. pose proof (base_positive _ _ Hi) as Hbase.
  assert (Hm : forall i v, bs !! i = Some (Some v) -> c_mem st (p + Z.of_nat i) = v).
  { destruct Hi as [_ [Hh _]]. destruct (proj1 (Forall_forall _ _) Hh _ Hin) as (_ & _ & Hv). exact Hv. }
  destruct (c_text_at _ _ _ _ Hm Ht) as [Hs Hf]. pose proof (rust_fs_open_ok _ _ _ _ Hs Hf) as Ho. unfold fopen.
  destruct (find_file files path) as [d|]; [|rewrite Ho; done].
  destruct Ho as (off & -> & H0 & Hoff & Hd). cbn [mbind option_bind outcome_bind].
  rewrite (proj2 (Z.eqb_neq (base + off) 0)) by lia.
  destruct (malloc_inv others (c_mem st0) st blocks SIZEOF_FILE Hi) as (f & st' & -> & Hi');
    [unfold SIZEOF_FILE, MAX_SIZE; lia|]. cbn [mbind outcome_bind].
  destruct (Z.eqb_spec f 0) as [->|Hf0]; [by eexists 0, _|]. eexists f, _. split; [done|].
  rewrite (proj2 (Z.eqb_neq _ _)) by done. exists off. split.
  - split_and!; cbn [h_data h_file a_data a_pos]; [lia|lia|done|lia].
  - unfold file_block. cbn [h_ptr h_data h_file a_data a_pos]. eapply rewrite_block; [exact Hi'|done| |apply new_file_bytes].
    intros x Hx. change (Z.of_nat (length (fresh SIZEOF_FILE))) with 24 in Hx.
    unfold set_pos, set_size, set_data. by rewrite !store64_outside by lia.
Qed.

Lemma fclose_ok st h rest : inv st (file_block h :: rest) -> exists st', fclose st (h_ptr h) = Ok (0, st') /\ inv st' rest.
Proof.
  intros Hi. destruct (free_inv others (c_mem st0) _ _ _ _ Hi) as (st' & E & Hi').
  exists st'. split; [|done]. unfold fclose. by rewrite E.
Qed.

(** ** The steps *)

Definition step_refines (o : s_op) (s : session) : Prop := exists s' a ok,
  s_step o s = Some (Ok (s', a)) /\ spec_step files o ok (expects s) = (expects s', a) /\ s_inv s'.

(** An operation the program has no operands for does nothing. *)
Lemma skip_step o s a ok : s_inv s -> s_step o s = Some (Ok (s, a)) -> spec_step files o ok (expects s) = (expects s, a) ->
  step_refines o s.
Proof. intros. by exists s, a, ok. Qed.

Lemma expects_block s k : a_blocks (expects s) !! k = snd <$> s_blocks s !! k.
Proof. apply list_lookup_fmap. Qed.
Lemma expects_file s h : a_files (expects s) !! h = snd <$> s_files s !! h.
Proof. apply list_lookup_fmap. Qed.

Lemma alter_at {A} (g : A -> A) k (l : list A) : alter g k l = match l !! k with Some x => <[k := g x]> l | None => l end.
Proof.
  revert k. induction l as [|x l IH]; intros [|k]; try done. cbn. change (list_alter g k l) with (alter g k l).
  rewrite IH. by destruct (l !! k).
Qed.

Lemma c_step_spec o st blocks st' blocks' : c_step o st blocks = Ok (st', blocks') ->
  exists ok, snd <$> blocks' = heap_spec o ok (snd <$> blocks).
Proof.
  destruct o as [n|a n|k i v|k n|k]; cbn [c_step heap_spec]; unfold block in *.
  - destruct (malloc _ _) as [[p s1]|]; [|done]. intros [= <- <-]. exists (negb (p =? 0)). by destruct (p =? 0).
  - destruct (calloc _ _ _) as [[p s1]|]; [|done]. intros [= <- <-]. exists (negb (p =? 0)). by destruct (p =? 0).
  - intros H. exists true. rewrite alter_at, list_lookup_fmap. revert H.
    destruct (blocks !! k) as [[p bs]|] eqn:Ek; [|by intros [= <- <-]].
    cbn [fmap option_fmap option_map snd]. case_decide; intros [= <- <-].
    + by rewrite list_fmap_insert.
    + rewrite (list_insert_ge bs) by lia. symmetry. apply list_insert_id. by rewrite list_lookup_fmap, Ek.
  - destruct (blocks !! k) as [[p bs]|] eqn:Ek.
    + destruct (c_realloc _ _ _) as [[q s1]|]; [|done]. intros [= <- <-]. exists (negb (q =? 0)).
      destruct (n =? 0); [apply list_fmap_delete|]. destruct (q =? 0); [done|]. cbn [negb].
      by rewrite alter_at, list_lookup_fmap, Ek, list_fmap_insert.
    + intros [= <- <-]. exists false. case_match; [|done]. by rewrite <- list_fmap_delete, delete_beyond.
  - destruct (blocks !! k) as [[p bs]|] eqn:Ek.
    + destruct (free _ _) as [s1|]; [|done]. intros [= <- <-]. exists true. apply list_fmap_delete.
    + intros [= <- <-]. exists true. by rewrite <- list_fmap_delete, delete_beyond.
Qed.

Lemma heap_step o s : s_inv s -> c_op_ok o -> step_refines (SHeap o) s.
Proof.
  intros (hs & Hf & Hl & Hi) Ho.
  destruct (c_step_inv _ _ o _ _ (c_inv_hide _ _ _ _ _ Hi) Ho)
    as (st' & blocks' & E & Hi').
  destruct (c_step_spec _ _ _ _ _ E) as [ok Hok]. exists (mk_session st' blocks' (s_files s)), 0, ok.
  cbn [s_step spec_step]. rewrite E. split_and!; [done|unfold expects; cbn; by rewrite <- Hok|].
  exists hs. split_and!; [done..|]. by eapply c_inv_unhide.
Qed.

(** The [h]-th file in front. *)
Lemma front_file hs h hd (blocks : list block) : hs !! h = Some hd ->
  (file_block <$> hs) ++ blocks ≡ₚ file_block hd :: (file_block <$> delete h hs) ++ blocks.
Proof. intros Hh. rewrite (delete_Permutation hs h hd) at 1 by done. done. Qed.

Lemma front_file' hs h hd hd' (blocks : list block) : hs !! h = Some hd ->
  (file_block <$> <[h := hd']> hs) ++ blocks ≡ₚ file_block hd' :: (file_block <$> delete h hs) ++ blocks.
Proof. intros Hh. by rewrite (insert_perm hs h hd hd') by done. Qed.

Lemma front_block k b (fs blocks : list block) : blocks !! k = Some b -> fs ++ blocks ≡ₚ b :: fs ++ delete k blocks.
Proof. intros Hk. rewrite (delete_Permutation blocks k b) at 1 by done. by rewrite <- Permutation_middle. Qed.

Lemma front_block' k b b' (fs blocks : list block) : blocks !! k = Some b -> fs ++ <[k := b']> blocks ≡ₚ b' :: fs ++ delete k blocks.
Proof. intros Hk. rewrite (insert_perm blocks k b b') by done. by rewrite <- Permutation_middle. Qed.

(** The files of a session are its handles. *)
Lemma handle_at s hs h : s_files s = (fun h => (h_ptr h, h_file h)) <$> hs -> Forall located hs ->
  match s_files s !! h with
  | Some (f, af) => exists hd, hs !! h = Some hd /\ located hd /\ f = h_ptr hd /\ af = h_file hd
  | None => True
  end.
Proof.
  intros -> Hl. rewrite list_lookup_fmap. destruct (hs !! h) as [hd|] eqn:E; [|done]. cbn.
  exists hd. split_and!; [done| |done|done]. exact (proj1 (Forall_lookup _ _) Hl _ _ E).
Qed.

Lemma read_step h k i sz n s : s_inv s -> s_op_ok (SRead h k i sz n) -> step_refines (SRead h k i sz n) s.
Proof.
  intros Hinv Ho. pose proof Hinv as (hs & Hf & Hl & Hi). pose proof (handle_at s hs h Hf Hl) as Hh.
  eassert (Hstep : s_step (SRead h k i sz n) s = _) by (cbn [s_step]; reflexivity).
  destruct (s_files s !! h) as [[f af]|] eqn:Eh.
  2: { eapply (skip_step _ _ 0 true); [done|done|]. cbn [spec_step]. by rewrite expects_file, Eh. }
  destruct (s_blocks s !! k) as [[p bs]|] eqn:Ek.
  2: { eapply (skip_step _ _ 0 true); [done|done|]. cbn [spec_step]. by rewrite expects_file, expects_block, Eh, Ek. }
  destruct (fits bs i sz n) eqn:Ef.
  2: { eapply (skip_step _ _ 0 true); [done|done|]. cbn [spec_step]. rewrite expects_file, expects_block, Eh, Ek. cbn. by rewrite Ef. }
  destruct Hh as (hd & Hhd & Hloc & -> & ->). destruct Ho as (Hsz & Hn & Hmax).
  rewrite (front_file _ _ _ _ Hhd), (front_block _ _ _ _ Ek) in Hi.
  destruct (fread_ok _ _ _ _ _ i sz n Hi Hloc Hsz Hn Hmax Ef) as (st' & E & Hi').
  rewrite E in Hstep. cbn [mbind outcome_bind] in Hstep. set (got := read_spec (h_file hd) sz n) in *.
  eexists _, _, true. split_and!; [exact Hstep| |].
  - cbn [spec_step]. rewrite expects_file, expects_block, Eh, Ek. cbn [fmap option_fmap option_map snd]. rewrite Ef.
    fold got. unfold expects. cbn [s_blocks s_files a_blocks a_files]. by rewrite !list_fmap_insert.
  - exists (<[h := moved hd (a_pos (h_file hd) + length got)]> hs). cbn [s_files s_c s_blocks]. split_and!.
    + by rewrite Hf, list_fmap_insert.
    + apply Forall_insert; [done|]. destruct Hloc as (H1 & H2 & H3 & H4). split_and!; cbn [h_data h_file moved a_data a_pos]; try done.
      pose proof (read_length (h_file hd) sz n H4 ltac:(lia)) as Hg. fold got in Hg. lia.
    + by rewrite (front_file' _ _ _ _ _ Hhd), (front_block' _ _ _ _ _ Ek).
Qed.

Lemma seek_step h off wh s : s_inv s -> s_op_ok (SSeek h off wh) -> step_refines (SSeek h off wh) s.
Proof.
  intros Hinv Ho. pose proof Hinv as (hs & Hf & Hl & Hi). pose proof (handle_at s hs h Hf Hl) as Hh.
  eassert (Hstep : s_step (SSeek h off wh) s = _) by (cbn [s_step]; reflexivity).
  destruct (s_files s !! h) as [[f af]|] eqn:Eh.
  2: { eapply (skip_step _ _ 0 true); [done|done|]. cbn [spec_step]. by rewrite expects_file, Eh. }
  destruct Hh as (hd & Hhd & Hloc & -> & ->). pose proof Hi as Hi0. rewrite (front_file _ _ _ _ Hhd) in Hi.
  pose proof (fseek_ok _ _ _ off wh Hi Hloc Ho) as Hs. cbn zeta in Hs. set (t := seek_target (h_file hd) off wh) in *.
  destruct ((0 <=? t) && (t <=? _)) eqn:E.
  - destruct Hs as (st' & Es & Hi'). rewrite Es in Hstep. cbn [Z.eqb] in Hstep. eexists _, _, true. split_and!; [exact Hstep| |].
    + cbn [spec_step]. rewrite expects_file, Eh. cbn [fmap option_fmap option_map snd]. fold t. rewrite E.
      unfold expects. cbn [s_blocks s_files a_blocks a_files]. by rewrite list_fmap_insert.
    + exists (<[h := moved hd (Z.to_nat t)]> hs). cbn [s_files s_c s_blocks]. split_and!.
      * by rewrite Hf, list_fmap_insert.
      * apply Forall_insert; [done|]. destruct Hloc as (H1 & H2 & H3 & H4). split_and!; cbn [h_data h_file moved a_data a_pos]; try done.
        apply andb_prop in E as [E1 E2]. lia.
      * by rewrite (front_file' _ _ _ _ _ Hhd).
  - rewrite Hs in Hstep. cbn [Z.eqb] in Hstep. eexists _, _, true. split_and!; [exact Hstep| |].
    + cbn [spec_step]. rewrite expects_file, Eh. cbn [fmap option_fmap option_map snd]. fold t. by rewrite E.
    + by exists hs.
Qed.

Lemma open_step k s : s_inv s -> step_refines (SOpen k) s.
Proof.
  intros Hinv. pose proof Hinv as (hs & Hf & Hl & Hi).
  eassert (Hstep : s_step (SOpen k) s = _) by (cbn [s_step]; reflexivity).
  destruct (s_blocks s !! k) as [[p bs]|] eqn:Ek.
  2: { eapply (skip_step _ _ 0 true); [done|done|]. cbn [spec_step]. by rewrite expects_block, Ek. }
  destruct (c_text bs) as [path|] eqn:Et.
  2: { eapply (skip_step _ _ 0 true); [done|done|]. cbn [spec_step]. rewrite expects_block, Ek. cbn. by rewrite Et. }
  assert (Hin : (p, bs) ∈ (file_block <$> hs) ++ s_blocks s) by (apply elem_of_app; right; by eapply list_elem_of_lookup_2).
  pose proof (fopen_ok _ _ _ _ _ 0 Hi Hin Et) as Ho.
  assert (Hspec : forall ok, spec_step files (SOpen k) ok (expects s) = match find_file files path with
    | Some data => if ok then (mk_aworld (a_blocks (expects s)) (mk_afile data 0 :: a_files (expects s)), 1) else (expects s, 0)
    | None => (expects s, 0) end).
  { intros ok. cbn [spec_step]. rewrite expects_block, Ek. cbn. by rewrite Et. }
  destruct (find_file files path) as [d|].
  - destruct Ho as (f & st' & E & Hi'). rewrite E in Hstep. cbn [mbind option_bind outcome_bind] in Hstep.
    destruct (f =? 0) eqn:E0.
    + eexists _, _, false. split_and!; [exact Hstep|by rewrite Hspec|]. by exists hs.
    + destruct Hi' as (off & Hloc & Hi'). destruct (file_read _ _ _ Hi' Hloc) as [_ Hg]. cbn [h_ptr h_data h_file a_data a_pos] in Hg.
      assert (Hd : bytes_at (c_mem st') (base + off) d).
      { destruct Hloc as (H1 & H2 & H3 & _). cbn in H1, H2, H3. by eapply archive_kept. }
      rewrite Hg in Hstep. cbn [f_data f_size] in Hstep. rewrite Nat2Z.id, (bytes_read _ _ _ Hd) in Hstep.
      eexists _, _, true. split_and!; [exact Hstep|by rewrite Hspec|].
      exists (mk_handle f (base + off) (mk_afile d 0) :: hs). split_and!; [by cbn; rewrite Hf|by constructor|done].
  - rewrite Ho in Hstep. cbn in Hstep. eexists _, _, true. split_and!; [exact Hstep|by rewrite Hspec|]. by exists hs.
Qed.

Lemma close_step h s : s_inv s -> step_refines (SClose h) s.
Proof.
  intros Hinv. pose proof Hinv as (hs & Hf & Hl & Hi). pose proof (handle_at s hs h Hf Hl) as Hh.
  eassert (Hstep : s_step (SClose h) s = _) by (cbn [s_step]; reflexivity).
  destruct (s_files s !! h) as [[f af]|] eqn:Eh.
  2: { eapply (skip_step _ _ 0 true); [done|done|]. cbn [spec_step]. rewrite delete_beyond by by rewrite expects_file, Eh.
       by destruct (expects s). }
  destruct Hh as (hd & Hhd & Hloc & -> & ->). rewrite (front_file _ _ _ _ Hhd) in Hi.
  destruct (fclose_ok _ _ _ Hi) as (st' & E & Hi'). rewrite E in Hstep. cbn [mbind outcome_bind] in Hstep.
  eexists _, _, true. split_and!; [exact Hstep|cbn [spec_step]; unfold expects; cbn; by rewrite list_fmap_delete|].
  exists (delete h hs). cbn [s_files s_c s_blocks]. split_and!; [by rewrite Hf, list_fmap_delete| |done].
  by apply Forall_delete.
Qed.

Lemma s_step_refines o s : s_inv s -> s_op_ok o -> step_refines o s.
Proof.
  intros Hi Ho. destruct o as [o|k|h k i sz n|h k sz n|h off wh|h|h|h].
  - by apply heap_step.
  - by apply open_step.
  - by apply read_step.
  - eapply (skip_step _ _ 0 true); [done| |done]. cbn. by destruct (s_files s !! h) as [[]|], (s_blocks s !! k) as [[]|].
  - by apply seek_step.
  - pose proof Hi as (hs & Hf & Hl & Hi'). pose proof (handle_at s hs h Hf Hl) as Hh.
    eapply (skip_step _ _ _ true); [done|..]; cbn [s_step spec_step].
    2: reflexivity. rewrite expects_file. destruct (s_files s !! h) as [[f af]|]; [|done].
    destruct Hh as (hd & Hhd & Hloc & -> & ->). rewrite (front_file _ _ _ _ Hhd) in Hi'. by rewrite (ftell_ok _ _ _ Hi' Hloc).
  - eapply (skip_step _ _ 0 true); [done| |done]. cbn. by destruct (s_files s !! h) as [[]|].
  - by apply close_step.
Qed.

Lemma s_run_refines ops s : s_inv s -> Forall s_op_ok ops -> exists s' answers oks,
  s_run ops s = Some (Ok (s', answers)) /\ length oks = length ops /\
  spec_run files (zip ops oks) (expects s) = (expects s', answers) /\ s_inv s'.
Proof.
  intros Hi Hops. revert s Hi. induction Hops as [|o ops Ho _ IH]; intros s Hi; [by exists s, [], []|].
  destruct (s_step_refines o s Hi Ho) as (s1 & a & ok & E & Hs & Hi1).
  destruct (IH s1 Hi1) as (s2 & l & oks & E2 & Hlen & Hs2 & Hi2).
  exists s2, (a :: l), (ok :: oks). cbn [s_run zip_with spec_run length]. rewrite E, E2, Hs, Hs2. split_and!; [done|by rewrite Hlen|done|done].
Qed.

End Invariant.

(** C18. Files and heap together.  A program that allocates, writes, resizes and frees blocks
    and opens, reads, seeks, tells and closes files in any order, its [FILE]s in the same
    heap as its blocks and the archive of [mkcxfs] in a block of the kernel's, never
    panics or reads past a file; every call answers as the specification does, where files
    are byte sequences with a cursor and only the refusal of memory is left open; at the
    end every byte of every block reads as the specification says, and the archive is
    untouched. *)
Theorem file_refines_spec ops st others files base image home :
  ha_inv (c_heap st) others -> mounted st others files base image home -> Forall s_op_ok ops ->
  exists s' answers oks, s_run ops (mk_session st [] []) = Some (Ok (s', answers)) /\ length oks = length ops /\
    spec_run files (zip ops oks) (mk_aworld [] []) = (expects s', answers) /\
    (forall p bs i v, (p, bs) ∈ s_blocks s' -> bs !! i = Some (Some v) -> c_mem (s_c s') (p + Z.of_nat i) = v) /\
    bytes_at (c_mem (s_c s')) base image.
Proof.
  intros Hh Hm Hops. assert (Hi : s_inv st others base image (mk_session st [] [])) by (by exists []).
  destruct (s_run_refines st others files base image home Hm ops _ Hi Hops) as (s' & l & oks & E & Hl & Hs & hs & _ & _ & Hi').
  exists s', l, oks. split_and!; [done..| |].
  - intros p bs i v Hin. destruct (c_inv_sound _ _ _ _ Hi') as [Hc _]. apply (Hc p bs). apply elem_of_app. by right.
  - eapply archive_kept; [done|exact Hi'|lia..|apply Hm].
Qed.

End Stdio.

(** ** A session *)

#[local] Existing Instance BlockMemDemo.size_first.

Module StdioDemo.

Definition disk : list (bytes * bytes) := [([97], [1; 2; 3; 4; 5]); ([66], [9])].
Definition image : bytes := default [] (build disk).
Definition home : Layout := mk_layout 512 8.

(** The kernel's heap with the archive in it. *)
Definition base : Z := match fixed_alloc (fixed_new FixedDemo.empty) home with Ok (p, _) => p | Panic _ => 0 end.
Definition heap : FixedSizeBlockAllocator (S := list_heap) :=
  match fixed_alloc (fixed_new FixedDemo.empty) home with Ok (_, a) => a | Panic _ => fixed_new FixedDemo.empty end.

Definition start : c_state (S := FixedSizeBlockAllocator) := mk_c heap (fun x => nth (Z.to_nat (x - base)) image 0).

(** Open [A], read two bytes, go back one, read the rest, close. *)
Definition ops : list s_op :=
  [SHeap (CMalloc 2); SHeap (CWrite 0 0 65); SHeap (CWrite 0 1 0); SOpen 0; SHeap (CCalloc 2 4);
   SRead 0 0 0 1 2; SSeek 0 (-1) 1; STell 0; SRead 0 0 2 3 2; SSeek 0 (-9) 2; SClose 0; SHeap (CFree 1)].

Lemma disk_heap_inv : fixed_inv heap [(base, home)].
Proof.
  destruct (fixed_alloc_inv (fixed_new FixedDemo.empty) [] home FixedDemo.new_inv (FixedDemo.small_ok 512 ltac:(lia))) as (p & a & E & _ & Hi).
  assert (Hv : fixed_alloc (fixed_new FixedDemo.empty) home = Ok (base, heap)) by (vm_compute; reflexivity).
  rewrite E in Hv. injection Hv as -> ->. exact Hi.
Qed.

Lemma disk_mounted : mounted (Some (base, image)) start [(base, home)] disk base image home.
Proof.
  split; [|vm_compute; reflexivity|reflexivity|by apply list_elem_of_here|vm_compute; congruence|vm_compute; congruence|].
  - repeat constructor; cbn; rewrite !elem_of_cons, elem_of_nil; lia.
  - vm_compute. repeat split.
Qed.

Lemma answers : match s_run (Some (base, image)) ops (mk_session start [] []) with
  Some (Ok (_, l)) => Some l | _ => None end = Some [0; 0; 0; 1; 0; 2; 0; 1; 1; -1; 0; 0].
Proof. vm_compute. reflexivity. Qed.

End StdioDemo.

Lemma file_refines_spec_witness : exists s' oks,
  s_run (Some (StdioDemo.base, StdioDemo.image)) StdioDemo.ops (mk_session StdioDemo.start [] [])
    = Some (Ok (s', [0; 0; 0; 1; 0; 2; 0; 1; 1; -1; 0; 0])) /\
  spec_run StdioDemo.disk (zip StdioDemo.ops oks) (mk_aworld [] [])
    = (expects s', [0; 0; 0; 1; 0; 2; 0; 1; 1; -1; 0; 0]).
Proof.
  destruct (@file_refines_spec _ (@fixed_allocator list_heap list_allocator) fixed_memory
    (Some (StdioDemo.base, StdioDemo.image)) StdioDemo.ops StdioDemo.start
    [(StdioDemo.base, StdioDemo.home)] StdioDemo.disk StdioDemo.base StdioDemo.image StdioDemo.home StdioDemo.disk_heap_inv)
    as (s' & answers & oks & E & _ & Hs & _).
  - exact StdioDemo.disk_mounted.
  - repeat constructor; vm_compute; congruence.
  - exists s', oks. pose proof StdioDemo.answers as Ha. rewrite E in Ha. injection Ha as ->. split; [exact E|exact Hs].
Defined.
