(* ===== verification/Spawn.v ===== *)
(** * Threads on the kernel heap (src/thread/thread.rs over src/allocator.rs)

    [Thread::with_stack_size] takes a zeroed stack and a boxed context from the heap.
    Stack says what it writes there; here the two blocks come from an allocator. *)

From S2P Require Import Prelude Machine Context Stack Scheduler Alloc.

(** The layouts of [vec![0u8; bytes]] and of [Box<ThreadContext>]. *)
Definition stack_layout (bytes : Z) : Layout := mk_layout bytes 1.
Definition context_layout : Layout := mk_layout CTX_SIZE 8.

Section Spawn.
Context {S : Type} `{!HeapAllocator S}.

(** What an allocation writes into the memory the heap keeps its lists in. *)
Variable alloc_mem : S -> Layout -> memory -> memory.

(** An allocation that must succeed: null is [handle_alloc_error], which panics. *)
Definition alloc_or_die (h : S) (l : Layout) (m : memory) : outcome (Z * S * memory) :=
  '(p, h') ← ha_alloc h l;
  if p =? 0 then Panic ExplicitPanic else Ok (p, h', alloc_mem h l m).

(** [Thread::with_stack_size].  The heap does not write into blocks in use, so the stack
    may as well be zeroed after the context is allocated. *)
Definition thread_with_stack_size (h : S) (entry_point stack_bytes next : Z) (m : memory)
    : outcome (Thread * S * memory * Z) :=
  l ← expect (from_size_align stack_bytes 1);
  '(stack_ptr, h, m) ← alloc_or_die h l m;
  '(ctx_ptr, h, m) ← alloc_or_die h context_layout m;
  '(t, m, next) ← with_stack_size entry_point stack_ptr stack_bytes ctx_ptr next m;
  Ok (t, h, m, next).

Definition heap_below (s : S) (limit : Z) : Prop := 0 < fst (ha_heap s) /\ fst (ha_heap s) + snd (ha_heap s) <= limit.

Lemma alloc_or_die_ok h live l m : ha_inv h live -> layout_ok l ->
  match alloc_or_die h l m with
  | Ok (p, h', _) => p <> 0 /\ ha_heap h' = ha_heap h /\ ha_inv h' ((p, l) :: live)
  | Panic e => e = ExplicitPanic
  end.
Proof.
  intros Hi Hl. unfold alloc_or_die. destruct (ha_alloc_ok h live l Hi Hl) as (p & h' & -> & Hh & Hi').
  cbn [mbind outcome_bind]. by destruct (Z.eqb_spec p 0).
Qed.

(** A thread from the heap: its two blocks are the program's from now on, disjoint from
    all others, and the thread is ready to start; or the heap is exhausted. *)
Lemma thread_from_heap h live entry_point stack_bytes next m :
  ha_inv h live -> heap_below h (2 ^ 61) -> is_u64 entry_point -> 48 <= stack_bytes <= 2 ^ 60 ->
  match thread_with_stack_size h entry_point stack_bytes next m with
  | Ok (t, h', m', next') => exists stack_ptr ctx_ptr,
      placement_ok entry_point stack_ptr stack_bytes ctx_ptr /\
      fresh_thread entry_point stack_ptr stack_bytes ctx_ptr next t m' next' /\
      ha_heap h' = ha_heap h /\
      ha_inv h' ((ctx_ptr, context_layout) :: (stack_ptr, stack_layout stack_bytes) :: live)
  | Panic e => e = ExplicitPanic
  end.
Proof.
  intros Hi [Hlo Hhi] He Hb. unfold thread_with_stack_size. change (2 ^ 60) with 1152921504606846976 in Hb.
  assert (Hf : from_size_align stack_bytes 1 = Some (stack_layout stack_bytes)).
  { unfold from_size_align. change (is_pow2 1) with true. cbn [andb]. rewrite (proj2 (Z.leb_le _ _)); [done|].
    unfold ISIZE_MAX. change (2 ^ 63) with 9223372036854775808. lia. }
  assert (Hls : layout_ok (stack_layout stack_bytes)).
  { split; cbn; [change (2 ^ 61) with 2305843009213693952; lia|]. exists 0. split; [lia|done]. }
  assert (Hlc : layout_ok context_layout) by (split; [vm_compute; split; congruence|by exists 3]).
  rewrite Hf. cbn [expect mbind outcome_bind].
  pose proof (alloc_or_die_ok h live _ m Hi Hls) as H1.
  destruct (alloc_or_die h (stack_layout stack_bytes) m) as [[[sp h1] m1]|]; [|done].
  destruct H1 as (Hsp & Hh1 & Hi1). cbn [mbind outcome_bind].
  pose proof (alloc_or_die_ok h1 _ _ m1 Hi1 Hlc) as H2.
  destruct (alloc_or_die h1 context_layout m1) as [[[cp h2] m2]|]; [|done].
  destruct H2 as (Hcp & Hh2 & Hi2). cbn [mbind outcome_bind].
  destruct (ha_blocks _ _ Hi2) as [Hblk [Hap _]]. rewrite Hh2, Hh1 in Hblk.
  apply Forall_cons in Hblk as [(Hc0 & _ & Hcin) Hblk]. apply Forall_cons in Hblk as [(Hs0 & _ & Hsin) _].
  cbn [fmap list_fmap] in Hap. apply Forall_cons in Hap as [Hap _].
  unfold apart_r, apart, inside, range_of in Hap, Hcin, Hsin. cbn in Hap, Hcin, Hsin, Hc0, Hs0. unfold CTX_SIZE in Hap, Hcin.
  change (2 ^ 61) with 2305843009213693952 in Hhi.
  assert (Hpl : placement_ok entry_point sp stack_bytes cp).
  { unfold placement_ok, stack_block, apart, is_u64, CTX_SIZE, u64_max, u64_mod in *. cbn. lia. }
  destruct (with_stack_size_fresh entry_point sp stack_bytes cp next m2 Hpl) as (t & m' & n' & -> & Hfr).
  cbn [mbind outcome_bind]. exists sp, cp. split_and!; [exact Hpl|exact Hfr|congruence|exact Hi2].
Qed.

End Spawn.

(** ** Entering a new thread from boot *)

(** The processor calls [enter_scheduler] on a stack outside of the thread's blocks and
    of the bootstrap context at [boot]. *)
Record caller_apart (boot : Z) (c : cpu) (stack_ptr stack_bytes ctx_ptr : Z) : Prop := {
  ca_regs : regs_ok c;
  ca_flags : flags_ok (flags c);
  ca_boot : 0 <= boot /\ boot + CTX_SIZE <= u64_mod;
  ca_stack : 16 <= regs c RSP;
  ca_boot_stack : apart boot CTX_SIZE (regs c RSP - 16) 16;
  ca_boot_thread : apart boot CTX_SIZE stack_ptr stack_bytes /\ apart boot CTX_SIZE ctx_ptr CTX_SIZE;
  ca_thread_stack : apart (regs c RSP - 16) 16 stack_ptr stack_bytes /\ apart (regs c RSP - 16) 16 ctx_ptr CTX_SIZE;
}.

Lemma fresh_ready entry_point stack_ptr stack_bytes ctx_ptr next t next' boot ret c :
  placement_ok entry_point stack_ptr stack_bytes ctx_ptr -> 0 < ctx_ptr ->
  fresh_thread entry_point stack_ptr stack_bytes ctx_ptr next t (mem c) next' ->
  caller_apart boot c stack_ptr stack_bytes ctx_ptr ->
  ready boot ret (cli c) t entry_point.
Proof.
  intros (Hs & He & Hc & Hc' & Hap) Hc0 [_ Est Ectx (sp & Etop & Hctx & Hret) _] [Hr Hf Hb Hsp Hbs [Hbt1 Hbt2] [Hts1 Hts2]].
  assert (Hin : stack_ptr + 16 <= sp /\ sp + 8 <= stack_ptr + stack_bytes).
  { rewrite Est in Etop. pose proof Hs as (_ & Hl & _). cbn in Hl.
    destruct (top_value _ Hs) as [E|E]; rewrite E in Etop; injection Etop as <-; cbn; lia. }
  pose proof (Hr RSP) as Hrsp. destruct Hs as (Hp & Hl & Hm). cbn in Hp, Hl, Hm.
  unfold ready, context_ptr. rewrite Ectx. set (s := at_switch boot ctx_ptr ret (cli c)).
  unfold apart, CTX_SIZE, is_u64, u64_max, u64_mod in *.
  assert (Hsp' : regs s RSP = regs c RSP - 8).
  { change (regs s RSP) with (wrap64 (regs c RSP - 8)). apply wrap64_small. unfold is_u64, u64_max. lia. }
  assert (Hmem : forall x, (x < regs c RSP - 8 \/ regs c RSP <= x) -> mem s x = mem c x).
  { intros x Hx. change (mem s) with (store64 (mem c) (regs s RSP) ret). rewrite Hsp'. apply store64_outside. lia. }
  assert (Hread : ctx_read (mem s) ctx_ptr = ctx_read (mem c) ctx_ptr).
  { apply ctx_read_agree. intros x Hx. unfold CTX_SIZE in Hx. apply Hmem. lia. }
  split_and!.
  - unfold valid_call, apart. change (regs s RDI) with boot. rewrite Hsp'.
    split; [apply at_switch_regs; [done|unfold is_u64, u64_max; lia..]|]. split; [by apply flags_ok_cli|].
    unfold CTX_SIZE, u64_mod. lia.
  - unfold valid_target, resumable, apart. change (regs s RSI) with ctx_ptr. change (regs s RDI) with boot.
    rewrite Hread, Hctx, Hsp'. cbn. unfold CTX_SIZE, u64_mod. split_and!; try lia. done.
  - lia.
  - change (mem (cli c)) with (mem c). apply (f_equal TC.rsp) in Hctx. cbn in Hctx. rewrite Z.add_0_r in Hctx. lia.
  - rewrite Hread, Hctx. cbn. rewrite <- Hret. apply load_le_ext. intros x Hx. apply Hmem. cbn in Hx. lia.
Qed.
