(* ===== verification/Shell.v ===== *)
(** * The shell (src/task/shell.rs, src/memory.rs [init_memory_map], [dump_memory_map])

    Line editing, command dispatch and the built-in commands, over the console, the
    system calls, the memory map and, for [doom], the scheduler and the heap.  Decoding of
    scancodes into keys is the [pc_keyboard] crate's: it is an interface without laws. *)

From S2P Require Import Prelude Fmt Machine Context Stack Alloc Spawn Memory Vga Syscall Eevdf Scheduler.

(** ** Keys *)

Inductive KeyCode := Backspace | OtherKeyCode (code : Z).

Inductive DecodedKey :=
  | Unicode (c : Z)
  | RawKey (k : KeyCode).

(** [Keyboard::add_byte] answers an error, nothing yet, or a key event;
    [process_keyevent] turns an event into a key, or nothing (a release, a modifier). *)
Class KeyDecoder (K Ev : Type) := {
  kd_new : K;
  kd_add_byte : K -> Z -> (option Ev + unit) * K;
  kd_process : K -> Ev -> option DecodedKey * K;
}.

Definition PROMPT : list Z := str "moltos> ".

Section Shell.
Context {S : Type} `{!HeapAllocator S}.
Variable alloc_mem : S -> Layout -> memory -> memory.

(** The address of [doom_entry], and what the compiler leaves in registers that a system
    call does not pass. *)
Variables doom_entry junk : Z.

(** What the commands reach. *)
Record world := mk_world {
  sys : system;
  MEMORY_MAP : option (list MemoryRegion);
  DOOM_LAUNCHED : bool;
  sched : Scheduler;
  heap : S;
  wmem : memory;
  next_id : Z;
}.

Definition with_sys (w : world) (s : system) : world :=
  mk_world s (MEMORY_MAP w) (DOOM_LAUNCHED w) (sched w) (heap w) (wmem w) (next_id w).

(** [print!] and [println!] of the formatted text. *)
Definition wprint (w : world) (s : list Z) : outcome world :=
  sys' ← print (sys w) s; Ok (with_sys w sys').
Definition wprintln (w : world) (s : list Z) : outcome world := wprint w (s ++ [10]).

(** ** The memory map *)

Definition init_memory_map (w : world) (map : list MemoryRegion) : outcome world :=
  match MEMORY_MAP w with
  | Some _ => Panic ExpectFailed
  | None => Ok (mk_world (sys w) (Some map) (DOOM_LAUNCHED w) (sched w) (heap w) (wmem w) (next_id w))
  end.

Definition region_kind (r : MemoryRegion) : list Z :=
  match region_type r with
  | Usable => str "Usable"
  | Reserved => str "Reserved"
  | OtherRegion => str "Other"
  end.

Fixpoint dump_regions (w : world) (map : list MemoryRegion) : outcome world :=
  match map with
  | [] => Ok w
  | r :: map =>
      d ← region_end r -! region_start r;
      size_kib ← d /! 1024;
      w ← wprintln w (str "  " ++ pad_left 48 16 (fmt_hex (region_start r)) ++ str "-"
                      ++ pad_left 48 16 (fmt_hex (region_end r)) ++ str " "
                      ++ pad_left 32 8 (fmt_dec size_kib) ++ str " KiB  " ++ region_kind r);
      dump_regions w map
  end.

Definition dump_memory_map (w : world) : outcome world :=
  map ← expect (MEMORY_MAP w); dump_regions w map.

(** ** Commands *)

Fixpoint wprint_lines (w : world) (lines : list (list Z)) : outcome world :=
  match lines with
  | [] => Ok w
  | l :: lines => w ← wprintln w l; wprint_lines w lines
  end.

Definition cmd_help (w : world) : outcome world := wprint_lines w [
  str "  help       - show this message";
  str "  clear/cls  - clear the screen";
  str "  echo ...   - print the rest of the line";
  str "  uptime     - show uptime in timer ticks";
  str "  mem/memory - dump memory map";
  str "  syscall    - test syscalls (uptime, putchar)";
  str "  doom       - launch Doom (requires doom1.wad)"].

Definition cmd_uptime (w : world) : outcome world :=
  wprintln w (fmt_dec (sys_uptime (sys w)) ++ str " ticks").

Definition cmd_mem (w : world) : outcome world :=
  w ← wprintln w (str "Memory map:"); dump_memory_map w.

(** [vga_buffer::clear_screen] *)
Definition vga_clear_screen (s : system) : outcome system :=
  c ← clear_screen (writer s);
  Ok (mk_system (sys_uptime s) c (SYSCALL_RETURN s)).

Definition cmd_clear (w : world) : outcome world :=
  s ← vga_clear_screen (sys w);
  Ok (with_sys w s).

Definition cmd_echo (w : world) (args : list Z) : outcome world := wprintln w args.

Definition cmd_syscall (w : world) (args : list Z) : outcome world :=
  let sub := default [] (head (split_ascii_whitespace args)) in
  if bool_decide (sub = str "uptime") || bool_decide (sub = str "u") then
    '(ticks, s) ← syscall0 (syscall_as_u64 Uptime) junk junk junk (sys w);
    wprintln (with_sys w s) (str "syscall(SYS_UPTIME) = " ++ fmt_dec ticks ++ str " ticks")
  else if bool_decide (sub = str "putchar") || bool_decide (sub = str "p") then
    '(_, s) ← syscall1 (syscall_as_u64 PutChar) 65 junk junk (sys w);
    wprintln (with_sys w s) (str " (printed via syscall)")
  else if bool_decide (sub = []) then wprint_lines w [
    str "Usage: syscall <uptime|putchar>";
    str "  uptime (u)  - call SYS_UPTIME via int 0x80";
    str "  putchar (p) - call SYS_PUTCHAR('A') via int 0x80"]
  else wprintln w (str "unknown syscall test: '" ++ sub ++ str "'. Use uptime or putchar.").

Definition DOOM_STACK : Z := 24 * 1024 * 1024.

Definition cmd_doom (w : world) : outcome world :=
  let launched := DOOM_LAUNCHED w in
  let w := mk_world (sys w) (MEMORY_MAP w) true (sched w) (heap w) (wmem w) (next_id w) in
  if launched then wprintln w (str "doom: already running") else
  w ← wprintln w (str "launching doom...");
  '(t, h, m, next) ← thread_with_stack_size alloc_mem (heap w) doom_entry DOOM_STACK (next_id w) (wmem w);
  Ok (mk_world (sys w) (MEMORY_MAP w) (DOOM_LAUNCHED w) (spawn (sched w) t) h m next).

Definition one_of (cmd : list Z) (names : list String.string) : bool :=
  existsb (fun n => bool_decide (cmd = str n)) names.

Definition run_command (line : list Z) (w : world) : outcome world :=
  if bool_decide (line = []) then Ok w else
  let parts := split_ascii_whitespace line in
  let cmd := default [] (head parts) in
  let rest := join (tail parts) in
  if one_of cmd ["help"%string] then cmd_help w
  else if one_of cmd ["clear"%string; "cls"%string] then cmd_clear w
  else if one_of cmd ["echo"%string] then cmd_echo w (trim rest)
  else if one_of cmd ["uptime"%string] then cmd_uptime w
  else if one_of cmd ["mem"%string; "memory"%string] then cmd_mem w
  else if one_of cmd ["syscall"%string] then cmd_syscall w (trim rest)
  else if one_of cmd ["doom"%string] then cmd_doom w
  else wprintln w (str "unknown command: '" ++ cmd ++ str "'. Type 'help' for commands.").

(** ** The shell task *)

(** [String::pop] on ASCII text. *)
Definition pop_char (line : list Z) : option (list Z) :=
  match line with [] => None | _ => Some (take (length line - 1) line) end.

Definition rub_out (line : list Z) (w : world) : outcome (list Z * world) :=
  match pop_char line with
  | Some line => w ← wprint w [8]; Ok (line, w)
  | None => Ok (line, w)
  end.

(** [c.is_ascii() && !c.is_control()] *)
Definition is_printable_ascii (c : Z) : bool := (32 <=? c) && (c <? 127).

(** The body of the loop of [run_shell] for one decoded key. *)
Definition shell_key (line : list Z) (w : world) (key : DecodedKey) : outcome (list Z * world) :=
  match key with
  | Unicode c =>
      if (c =? 13) || (c =? 10) then
        w ← wprintln w [];
        w ← run_command (trim line) w;
        w ← wprint w PROMPT;
        Ok ([], w)
      else if (c =? 8) || (c =? 127) then rub_out line w
      else if is_printable_ascii c then w ← wprint w [c]; Ok (line ++ [c], w)
      else Ok (line, w)
  | RawKey Backspace => rub_out line w
  | RawKey (OtherKeyCode _) => Ok (line, w)
  end.

Fixpoint shell_keys (line : list Z) (w : world) (keys : list DecodedKey) : outcome (list Z * world) :=
  match keys with
  | [] => Ok (line, w)
  | k :: keys => '(line, w) ← shell_key line w k; shell_keys line w keys
  end.

(** What [run_shell] prints before its loop. *)
Definition shell_start (w : world) : outcome world :=
  w ← wprintln w (str "Chronos shell. Type 'help' for commands.");
  wprint w PROMPT.

Context {K Ev : Type} `{!KeyDecoder K Ev}.

(** The keys behind a scancode. *)
Definition decode (k : K) (scancode : Z) : option DecodedKey * K :=
  match kd_add_byte k scancode with
  | (inl (Some event), k) => kd_process k event
  | (_, k) => (None, k)
  end.

(** One turn of the loop of [run_shell]. *)
Definition shell_scancode (k : K) (line : list Z) (w : world) (scancode : Z) : outcome (K * list Z * world) :=
  let '(key, k) := decode k scancode in
  match key with
  | Some key => '(line, w) ← shell_key line w key; Ok (k, line, w)
  | None => Ok (k, line, w)
  end.

Fixpoint run_shell (k : K) (line : list Z) (w : world) (scancodes : list Z) : outcome (K * list Z * world) :=
  match scancodes with
  | [] => Ok (k, line, w)
  | sc :: scancodes => '(k, line, w) ← shell_scancode k line w sc; run_shell k line w scancodes
  end.

(** The keys of a sequence of scancodes. *)
Fixpoint decode_all (k : K) (scancodes : list Z) : list DecodedKey * K :=
  match scancodes with
  | [] => ([], k)
  | sc :: scancodes =>
      let '(key, k) := decode k sc in
      let '(keys, k) := decode_all k scancodes in
      (option_list key ++ keys, k)
  end.

(** ** What a command line means *)

(** The reference for [run_command]: the words of the line, the first of which is the
    command. *)
Definition exec_words (words : list (list Z)) (w : world) : outcome world :=
  match words with
  | [] => Ok w
  | cmd :: args =>
      if one_of cmd ["help"%string] then cmd_help w
      else if one_of cmd ["clear"%string; "cls"%string] then cmd_clear w
      else if one_of cmd ["echo"%string] then wprintln w (join args)
      else if one_of cmd ["uptime"%string] then cmd_uptime w
      else if one_of cmd ["mem"%string; "memory"%string] then cmd_mem w
      else if one_of cmd ["syscall"%string] then cmd_syscall w (default [] (head args))
      else if one_of cmd ["doom"%string] then cmd_doom w
      else wprintln w (str "unknown command: '" ++ cmd ++ str "'. Type 'help' for commands.")
  end.

Lemma run_command_ref line w : plain line ->
  run_command (trim line) w = exec_words (split_ascii_whitespace line) w.
Proof.
  intros Hp. unfold run_command. rewrite (split_trim _ Hp).
  pose proof (split_from_words [] line ltac:(constructor)) as Hw. fold (split_ascii_whitespace line) in Hw.
  pose proof (split_plain line Hp) as Hpl.
  case_bool_decide as He.
  - by rewrite <- (split_trim _ Hp), He.
  - destruct (split_ascii_whitespace line) as [|cmd args] eqn:Es; [by apply split_nil_trim in Es|].
    cbn [head tail default from_option id exec_words].
    apply Forall_cons in Hw as [_ Hw]. apply Forall_cons in Hpl as [_ Hpl].
    rewrite (trim_solid (join args)) by (by apply join_solid). unfold cmd_echo.
    assert (Hsys : cmd_syscall w (join args) = cmd_syscall w (default [] (head args))).
    { unfold cmd_syscall. rewrite split_join by done. destruct Hw as [|a args Ha Hw]; [done|].
      cbn [head default from_option id]. pose proof (split_join [a]) as Hj. cbn [join] in Hj.
      by rewrite Hj by by apply Forall_singleton. }
    by rewrite Hsys.
Qed.

(** ** The prompt line on the screen *)

(** [w] is [w0] with more on the console; [at_margin] when the last byte was a newline. *)
Definition drawn (color : Z) (w0 w : world) (t : terminal) : Prop :=
  exists s, w = with_sys w0 s /\ sys_uptime s = sys_uptime (sys w0) /\ system_shows s color t.
Definition at_margin (color : Z) (w0 w : world) : Prop :=
  exists t, drawn color w0 w t /\ Vga.line t = [].

Lemma wprint_drawn color w0 w t s : drawn color w0 w t ->
  exists w', wprint w s = Ok w' /\ drawn color w0 w' (foldl terminal_byte t (printable <$> s)).
Proof.
  intros (s0 & -> & Hu & Hs). unfold wprint. cbn [sys with_sys].
  destruct (print_shows s0 s color t Hs) as (t' & -> & -> & Hn). cbn [mbind outcome_bind].
  eexists. split; [done|]. by eexists.
Qed.

Lemma wprintln_margin color w0 w t s : drawn color w0 w t ->
  exists w', wprintln w s = Ok w' /\ at_margin color w0 w'.
Proof.
  intros Hd. unfold wprintln. destruct (wprint_drawn color w0 w t (s ++ [10]) Hd) as (w' & -> & Hd').
  eexists. split; [done|]. eexists. split; [exact Hd'|]. by rewrite fmap_app, foldl_app.
Qed.

Lemma wprint_lines_margin color w0 w lines : at_margin color w0 w ->
  exists w', wprint_lines w lines = Ok w' /\ at_margin color w0 w'.
Proof.
  revert w. induction lines as [|l lines IH]; intros w Hm; [by exists w|]. cbn [wprint_lines].
  destruct Hm as (t & Hd & _). destruct (wprintln_margin color w0 w t l Hd) as (w' & -> & Hm'). by apply IH.
Qed.

Definition regions_ok (map : list MemoryRegion) : Prop := Forall (fun r => region_start r <= region_end r) map.

Lemma dump_regions_margin color w0 w map : regions_ok map -> at_margin color w0 w ->
  exists w', dump_regions w map = Ok w' /\ at_margin color w0 w'.
Proof.
  intros Hr. revert w. induction Hr as [|r map Hr _ IH]; intros w Hm; [by exists w|]. cbn [dump_regions].
  rewrite (proj2 (u64_sub_ok _ _ _) (conj eq_refl Hr)). cbn [mbind outcome_bind].
  rewrite u64_div_returns by done. cbn [mbind outcome_bind]. destruct Hm as (t & Hd & _).
  edestruct (wprintln_margin color w0 w t) as (w' & -> & Hm'); [done|]. by apply IH.
Qed.

Lemma cmd_clear_margin color w0 w t : drawn color w0 w t ->
  exists w', cmd_clear w = Ok w' /\ at_margin color w0 w'.
Proof.
  intros (s & -> & Hu & Hw & Hn). unfold cmd_clear, vga_clear_screen. cbn [sys with_sys]. rewrite Hw.
  rewrite clear_screen_ok by (by apply shape_screen). cbn [mbind outcome_bind].
  eexists. split; [done|]. exists (mk_terminal [] []). split; [|done].
  eexists. split; [done|]. split; [done|]. split; [done|]. split; [constructor|cbn; lia].
Qed.

Lemma invoke_drawn color w0 w t n a1 r1 r2 : drawn color w0 w t ->
  exists v s' t', syscall1 n a1 r1 r2 (sys w) = Ok (v, s') /\ drawn color w0 (with_sys w s') t'.
Proof.
  intros (s & -> & Hu & Hs). cbn [sys with_sys].
  destruct (syscall_shows s color t n a1 r1 r2 Hs) as (v & s' & E & Hu' & _ & Hs').
  exists v, s'. eexists. split; [exact E|]. exists s'. split; [done|]. split; [congruence|exact Hs'].
Qed.

Lemma cmd_syscall_margin color w0 w args : at_margin color w0 w ->
  exists w', cmd_syscall w args = Ok w' /\ at_margin color w0 w'.
Proof.
  intros Hm. pose proof Hm as (t & Hd & _). unfold cmd_syscall.
  case_match; [|case_match; [|case_match]].
  - destruct (invoke_drawn color w0 w t (syscall_as_u64 Uptime) junk junk junk Hd) as (v & s' & t' & E & Hd').
    change (syscall0 _ _ _ _) with (syscall1 (syscall_as_u64 Uptime) junk junk junk). rewrite E.
    cbn [mbind outcome_bind]. by eapply wprintln_margin.
  - destruct (invoke_drawn color w0 w t (syscall_as_u64 PutChar) 65 junk junk Hd) as (v & s' & t' & E & Hd').
    rewrite E. cbn [mbind outcome_bind]. by eapply wprintln_margin.
  - by apply wprint_lines_margin.
  - by eapply wprintln_margin.
Qed.

(** *** Commands between two prompts *)

(** What is true of the kernel at every prompt: the memory map is there, and the heap is
    consistent with the blocks in use. *)
Definition world_ok (w : world) (live : list (Z * Layout)) : Prop :=
  (exists map, MEMORY_MAP w = Some map /\ regions_ok map) /\ ha_inv (heap w) live /\ heap_below (heap w) (2 ^ 61).

(** Doom is launched at most once, and then on a thread of its own, ready to start. *)
Definition launches (w w' : world) : Prop :=
  (DOOM_LAUNCHED w' = DOOM_LAUNCHED w /\ sched w' = sched w /\ heap w' = heap w /\ next_id w' = next_id w) \/
  (DOOM_LAUNCHED w = false /\ DOOM_LAUNCHED w' = true /\
   exists th, sched w' = spawn (sched w) th /\
     exists sp cp m, fresh_thread doom_entry sp DOOM_STACK cp (next_id w) th m (next_id w')).

Definition unchanged (w w' : world) : Prop :=
  sys_uptime (sys w') = sys_uptime (sys w) /\ MEMORY_MAP w' = MEMORY_MAP w /\ ha_heap (heap w') = ha_heap (heap w).

Definition ran (color : Z) (w : world) (live : list (Z * Layout)) (r : outcome world) : Prop :=
  match r with
  | Ok w' => unchanged w w' /\ launches w w' /\ (exists live', world_ok w' live') /\
             exists t', system_shows (sys w') color t' /\ Vga.line t' = []
  | Panic e => e = ExplicitPanic /\ DOOM_LAUNCHED w = false
  end.

Lemma margin_ran color w live r : world_ok w live ->
  (exists w', r = Ok w' /\ at_margin color w w') -> ran color w live r.
Proof.
  intros Hw (w' & -> & t & (s & -> & Hu & Hs) & Hl). split; [done|]. split; [by left|]. split; [by exists live|by exists t].
Qed.

Hypothesis entry_u64 : is_u64 doom_entry.

Lemma cmd_doom_ran color w live t : world_ok w live -> system_shows (sys w) color t -> ran color w live (cmd_doom w).
Proof.
  intros Hw Hs. unfold cmd_doom. destruct (DOOM_LAUNCHED w) eqn:El.
  - assert (Hsame : mk_world (sys w) (MEMORY_MAP w) true (sched w) (heap w) (wmem w) (next_id w) = w)
      by (by destruct w; cbn in El; subst).
    rewrite Hsame. apply margin_ran; [done|]. apply (wprintln_margin _ _ _ t). exists (sys w). split; [by destruct w|done].
  - set (w1 := mk_world (sys w) (MEMORY_MAP w) true (sched w) (heap w) (wmem w) (next_id w)).
    destruct (wprintln_margin color w1 w1 t (str "launching doom...")) as (w' & -> & t' & (s' & -> & Hu & Hs') & Hl).
    { exists (sys w). done. }
    cbn [mbind outcome_bind heap next_id wmem with_sys w1 MEMORY_MAP DOOM_LAUNCHED sched sys] in *.
    destruct Hw as (Hmap & Hi & Hb).
    pose proof (thread_from_heap alloc_mem (heap w) live doom_entry DOOM_STACK (next_id w) (wmem w) Hi Hb entry_u64) as Ht.
    destruct (thread_with_stack_size _ _ _ _ _ _) as [[[[th h'] m'] next']|e]; cbn [mbind outcome_bind ran].
    + destruct Ht as (sp & cp & _ & Hf & Hh & Hi'); [by vm_compute|].
      split; [by split|]. split; [right; split; [done|]; split; [done|]; exists th; split; [done|by exists sp, cp, m']|].
      split; [|by exists t']. eexists. split; [exact Hmap|]. split; [exact Hi'|]. unfold heap_below in *. cbn [heap].
      by rewrite Hh.
    + split; [|done]. apply Ht. by vm_compute.
Qed.

Lemma exec_words_ran color w live t words : world_ok w live -> system_shows (sys w) color t -> Vga.line t = [] ->
  ran color w live (exec_words words w).
Proof.
  intros Hw Hs Hl. assert (Hd : drawn color w w t) by (exists (sys w); split; [by destruct w|done]).
  assert (Hm : at_margin color w w) by (by exists t).
  unfold exec_words. destruct words as [|cmd args]; [apply margin_ran; [done|by exists w]|].
  repeat case_match; try (by apply (cmd_doom_ran _ _ _ t)); apply margin_ran; try done.
  - by apply wprint_lines_margin.
  - by apply (cmd_clear_margin _ _ _ t).
  - by apply (wprintln_margin _ _ _ t).
  - by apply (wprintln_margin _ _ _ t).
  - destruct Hw as ((map & Em & Hr) & _ & _). unfold cmd_mem.
    destruct (wprintln_margin color w w t (str "Memory map:") Hd) as (w' & -> & Hm').
    cbn [mbind outcome_bind]. unfold dump_memory_map.
    assert (MEMORY_MAP w' = Some map) as -> by (by destruct Hm' as (? & (? & -> & _) & _)).
    by apply dump_regions_margin.
  - by apply cmd_syscall_margin.
  - by apply (wprintln_margin _ _ _ t).
Qed.

(** *** The line being edited *)

(** The reference for the edited line. *)
Definition edit (line : list Z) (key : DecodedKey) : list Z :=
  match key with
  | Unicode c =>
      if (c =? 13) || (c =? 10) then []
      else if (c =? 8) || (c =? 127) then take (length line - 1) line
      else if is_printable_ascii c then line ++ [c] else line
  | RawKey Backspace => take (length line - 1) line
  | RawKey (OtherKeyCode _) => line
  end.

(** The line stays within the row the prompt is on. *)
Fixpoint fits (line : list Z) (keys : list DecodedKey) : bool :=
  (length PROMPT + length line <=? BUFFER_WIDTH)%nat &&
  match keys with [] => true | k :: keys => fits (edit line k) keys end.

Lemma fits_line line keys : fits line keys = true -> (length PROMPT + length line <= BUFFER_WIDTH)%nat.
Proof. destruct keys; cbn [fits]; by intros [H%Nat.leb_le _]%andb_prop. Qed.

(** At the prompt; [shown] when the bottom row of the screen is the prompt and the line. *)
Definition prompt_ok (color : Z) (shown : bool) (line : list Z) (w : world) : Prop :=
  (exists live, world_ok w live) /\ Forall (fun c => is_printable_ascii c = true) line /\
  exists t, system_shows (sys w) color t /\ (shown = true -> Vga.line t = PROMPT ++ line).

Definition session (color : Z) (shown : bool) (line : list Z) (w : world) (r : outcome (list Z * world)) : Prop :=
  match r with
  | Ok (line', w') => line' = line /\ prompt_ok color shown line' w' /\ unchanged w w' /\ launches w w'
  | Panic e => e = ExplicitPanic /\ DOOM_LAUNCHED w = false
  end.

Lemma prompt_ok_weaken color shown shown' line w : (shown' = true -> shown = true) ->
  prompt_ok color shown line w -> prompt_ok color shown' line w.
Proof. intros Hs (Hw & Hp & t & Ht & Hl). split; [done|]. split; [done|]. exists t. auto. Qed.

Lemma printable_plain l : Forall (fun c => is_printable_ascii c = true) l -> plain l.
Proof. intros Hl. eapply Forall_impl; [exact Hl|]. intros c Hc ->. done. Qed.

Lemma printable_ascii c : is_printable_ascii c = true -> printable c = c /\ c <> 10 /\ c <> 8.
Proof.
  unfold is_printable_ascii. intros [H1%Z.leb_le H2%Z.ltb_lt]%andb_prop. unfold printable.
  destruct (Z.leb_spec 0x20 c), (Z.leb_spec c 0x7e); cbn [andb orb]; lia.
Qed.

(** Printable text that fits extends the current line. *)
Lemma type_text t l : Forall (fun c => is_printable_ascii c = true) l ->
  (length (Vga.line t) + length l <= BUFFER_WIDTH)%nat ->
  foldl terminal_byte t (printable <$> l) = mk_terminal (history t) (Vga.line t ++ l).
Proof.
  intros Hl. revert t. induction Hl as [|c l Hc Hl IH]; intros t Hn; [rewrite app_nil_r; by destruct t|].
  cbn [fmap list_fmap foldl length] in *. destruct (printable_ascii c Hc) as (-> & H10 & H8).
  assert (Ht : terminal_byte t c = mk_terminal (history t) (Vga.line t ++ [c])).
  { unfold terminal_byte. rewrite (proj2 (Z.eqb_neq _ _) H10), (proj2 (Z.eqb_neq _ _) H8), decide_False by lia. done. }
  rewrite Ht, IH; cbn [Vga.line history]; [by rewrite <- app_assoc|]. rewrite length_app. cbn [length]. lia.
Qed.

Lemma launches_trans w w1 w2 : launches w w1 -> launches w1 w2 -> launches w w2.
Proof.
  intros [(Hd & Hs & Hh & Hn)|(Hd & Hd1 & Hx)] [(Hd' & Hs' & Hh' & Hn')|(Hd' & Hd1' & Hx')]; try congruence.
  - left. split_and!; congruence.
  - right. rewrite Hs, Hn in Hx'. split; [congruence|done].
  - right. rewrite Hs', Hn'. split; [done|]. split; [congruence|done].
Qed.

(** A key that only draws. *)
Lemma draw_session color shown shown' line line' w s : prompt_ok color shown line w ->
  Forall (fun c => is_printable_ascii c = true) line' -> (shown' = true -> shown = true) ->
  (forall t, shown' = true -> Vga.line t = PROMPT ++ line ->
     Vga.line (foldl terminal_byte t (printable <$> s)) = PROMPT ++ line') ->
  session color shown' line' w (w ← wprint w s; Ok (line', w)).
Proof.
  intros ((live & Hw) & Hp & t & Hs & Hl) Hp' Hsh Ht.
  destruct (wprint_drawn color w w t s) as (w' & -> & s' & -> & Hu & Hs'); [exists (sys w); split; [by destruct w|done]|].
  cbn [mbind outcome_bind]. split; [done|]. split.
  - split; [by exists live|]. split; [done|]. eexists. split; [exact Hs'|]. auto.
  - split; [done|]. by left.
Qed.

Lemma idle_session color shown shown' line w : prompt_ok color shown line w -> (shown' = true -> shown = true) ->
  session color shown' line w (Ok (line, w)).
Proof. intros Hp Hs. split; [done|]. split; [by eapply prompt_ok_weaken|]. split; [done|by left]. Qed.

Lemma rub_out_session color shown shown' line w : prompt_ok color shown line w -> (shown' = true -> shown = true) ->
  session color shown' (take (length line - 1) line) w (rub_out line w).
Proof.
  intros Hp Hs. unfold rub_out, pop_char. destruct line as [|c line]; [by eapply idle_session|].
  set (l := c :: line) in *. apply (draw_session color shown _ l); [done|apply Forall_take; apply Hp|done|].
  intros t _ Hl. cbn [fmap list_fmap foldl]. change (printable 8) with 8. unfold terminal_byte.
  change (8 =? 10) with false. change (8 =? 8) with true. cbn [Vga.line]. rewrite Hl, length_app.
  rewrite take_app_ge by (cbn; lia). done.
Qed.

Lemma enter_session color shown shown' line w : prompt_ok color shown line w ->
  session color shown' [] w (w ← wprintln w []; w ← run_command (trim line) w; w ← wprint w PROMPT; Ok ([], w)).
Proof.
  intros ((live & Hw) & Hp & t & Hs & Hl).
  destruct (wprintln_margin color w w t []) as (w1 & -> & t1 & (s1 & -> & Hu1 & Hs1) & Hl1);
    [exists (sys w); split; [by destruct w|done]|].
  cbn [mbind outcome_bind]. rewrite run_command_ref by (by apply printable_plain).
  pose proof (exec_words_ran color (with_sys w s1) live t1 (split_ascii_whitespace line) Hw Hs1 Hl1) as Hr.
  destruct (exec_words _ _) as [w2|e]; cbn [ran mbind outcome_bind] in *; [|exact Hr].
  destruct Hr as ((Hu2 & Hm2 & Hh2) & Hla & (live2 & Hw2) & t2 & Hs2 & Hl2).
  destruct (wprint_drawn color w2 w2 t2 PROMPT) as (w3 & -> & s3 & -> & Hu3 & Hs3);
    [exists (sys w2); split; [by destruct w2|done]|].
  cbn [mbind outcome_bind]. split; [done|]. split.
  - split; [by exists live2|]. split; [constructor|]. eexists. split; [exact Hs3|]. intros _.
    rewrite type_text; [cbn [Vga.line]; by rewrite Hl2|by repeat constructor|]. rewrite Hl2. cbn. unfold BUFFER_WIDTH. lia.
  - unfold unchanged. cbn [sys MEMORY_MAP heap with_sys] in *. split; [split_and!; congruence|].
    apply (launches_trans _ w2); [|by left]. exact Hla.
Qed.

Lemma shell_key_session color shown shown' line w key : prompt_ok color shown line w ->
  (shown' = true -> shown = true /\ (length PROMPT + length (edit line key) <= BUFFER_WIDTH)%nat) ->
  session color shown' (edit line key) w (shell_key line w key).
Proof.
  intros Hp Hf. assert (Hs : shown' = true -> shown = true) by (intros H; apply (proj1 (Hf H))).
  destruct key as [c|[|k]]; cbn [shell_key edit] in *;
    [|by eapply rub_out_session|by eapply idle_session].
  destruct ((c =? 13) || (c =? 10)); [by eapply enter_session|].
  destruct ((c =? 8) || (c =? 127)); [by eapply rub_out_session|].
  destruct (is_printable_ascii c) eqn:Ec; [|by eapply idle_session].
  apply (draw_session color shown _ line); [done|apply Forall_app; split; [apply Hp|by apply Forall_singleton]|done|].
  intros t Hsh Hl. rewrite type_text; [cbn [Vga.line]; by rewrite Hl, <- app_assoc|by apply Forall_singleton|].
  destruct (Hf Hsh) as [_ Hf']. rewrite Hl, length_app. rewrite length_app in Hf'. lia.
Qed.

Lemma shell_keys_session color shown keys line w : prompt_ok color shown line w ->
  session color (shown && fits line keys) (foldl edit line keys) w (shell_keys line w keys).
Proof.
  revert shown line w. induction keys as [|k keys IH]; intros shown line w Hp.
  { eapply idle_session; [exact Hp|]. by intros [? _]%andb_prop. }
  cbn [shell_keys foldl]. set (ok := (length PROMPT + length (edit line k) <=? BUFFER_WIDTH)%nat).
  assert (H1 : session color (shown && ok) (edit line k) w (shell_key line w k)).
  { apply (shell_key_session color shown); [done|]. by intros [? ?%Nat.leb_le]%andb_prop. }
  destruct (shell_key line w k) as [[line1 w1]|e]; cbn [session mbind outcome_bind] in *; [|done].
  destruct H1 as (-> & Hp1 & (Hu1 & Hm1 & Hh1) & Hl1).
  specialize (IH _ _ w1 Hp1). destruct (shell_keys _ w1 keys) as [[line2 w2]|e]; cbn [session] in *.
  - destruct IH as (-> & Hp2 & (Hu2 & Hm2 & Hh2) & Hl2). split; [done|].
    split; [|split; [unfold unchanged; split_and!; congruence|by eapply launches_trans]].
    eapply prompt_ok_weaken; [|exact Hp2]. cbn [fits]. intros [-> [_ Hf]%andb_prop]%andb_prop. rewrite Hf.
    rewrite andb_true_r. by apply Nat.leb_le, (fits_line _ keys).
  - destruct IH as [-> Hd]. split; [done|]. destruct Hl1 as [(Hd1 & _)|(Hd1 & _)]; congruence.
Qed.

(** The banner and the first prompt. *)
Lemma shell_start_prompt color w live t : world_ok w live -> system_shows (sys w) color t ->
  exists w', shell_start w = Ok w' /\ prompt_ok color true [] w' /\ unchanged w w' /\ launches w w'.
Proof.
  intros Hw Hs. unfold shell_start.
  destruct (wprintln_margin color w w t (str "Chronos shell. Type 'help' for commands."))
    as (w1 & -> & t1 & Hd1 & Hl1); [exists (sys w); split; [by destruct w|done]|]. cbn [mbind outcome_bind].
  destruct (wprint_drawn color w w1 t1 PROMPT Hd1) as (w2 & -> & s2 & -> & Hu & Hs2).
  eexists. split; [done|]. split; [|split; [done|by left]].
  split; [by exists live|]. split; [constructor|]. eexists. split; [exact Hs2|]. intros _.
  rewrite type_text; [cbn [Vga.line]; by rewrite Hl1|by repeat constructor|]. rewrite Hl1. cbn. unfold BUFFER_WIDTH. lia.
Qed.

Lemma run_shell_keys k line w scancodes :
  run_shell k line w scancodes =
    ('(line, w) ← shell_keys line w (fst (decode_all k scancodes)); Ok (snd (decode_all k scancodes), line, w)).
Proof.
  revert k line w. induction scancodes as [|sc scs IH]; intros k line w; [done|].
  cbn [run_shell decode_all]. unfold shell_scancode. destruct (decode k sc) as [[key|] k1]; cbn [mbind outcome_bind].
  - rewrite (surjective_pairing (decode_all k1 scs)). cbn [fst snd]; change (option_list (Some key) ++ ?l) with (key :: l); cbn [shell_keys].
    destruct (shell_key line w key) as [[line1 w1]|e]; cbn [mbind outcome_bind]; [apply IH|done].
  - rewrite IH. by destruct (decode_all k1 scs).
Qed.

(** *** The shell after a sequence of scancodes *)

Definition keyboard_of (scs : list Z) : K := snd (decode_all kd_new scs).
Definition keys_of (scs : list Z) : list DecodedKey := fst (decode_all kd_new scs).
Definition line_of (scs : list Z) : list Z := foldl edit [] (keys_of scs).
Definition prompt_at (color : Z) (scs : list Z) (w : world) : Prop :=
  prompt_ok color (fits [] (keys_of scs)) (line_of scs) w.

Lemma decode_all_snoc k scs sc :
  decode_all k (scs ++ [sc]) =
    (fst (decode_all k scs) ++ option_list (fst (decode (snd (decode_all k scs)) sc)),
     snd (decode (snd (decode_all k scs)) sc)).
Proof.
  revert k. induction scs as [|s scs IH]; intros k; cbn [app decode_all].
  - cbn [fst snd app]. destruct (decode k sc) as [key k']. by rewrite app_nil_r.
  - destruct (decode k s) as [key k']. rewrite IH. destruct (decode_all k' scs) as [ks k'']. cbn [fst snd].
    by rewrite app_assoc.
Qed.

Lemma fits_snoc line keys k : fits line (keys ++ [k]) = true ->
  fits line keys = true /\ (length PROMPT + length (edit (foldl edit line keys) k) <= BUFFER_WIDTH)%nat.
Proof.
  revert line. induction keys as [|k' keys IH]; intros line; cbn [app fits foldl].
  - intros [-> [H%Nat.leb_le _]%andb_prop]%andb_prop. by split.
  - intros [-> H]%andb_prop. destruct (IH _ H) as [-> ?]. by split.
Qed.

Lemma shell_scancode_at color scs w sc : prompt_at color scs w ->
  match shell_scancode (keyboard_of scs) (line_of scs) w sc with
  | Ok (k, line, w') => k = keyboard_of (scs ++ [sc]) /\ line = line_of (scs ++ [sc]) /\
      prompt_at color (scs ++ [sc]) w' /\ unchanged w w' /\ launches w w'
  | Panic e => e = ExplicitPanic /\ DOOM_LAUNCHED w = false
  end.
Proof.
  unfold prompt_at, shell_scancode, line_of, keys_of, keyboard_of. rewrite decode_all_snoc. cbn [fst snd]. intros Hp.
  destruct (decode _ sc) as [[key|] k']; cbn [fst snd option_list]; [|rewrite app_nil_r; by split_and!; [..|left]].
  change (option_list (Some key)) with [key]. rewrite foldl_snoc. set (ks := fst (decode_all kd_new scs)) in *.
  pose proof (shell_key_session color (fits [] ks) (fits [] (ks ++ [key])) (foldl edit [] ks) w key Hp (fits_snoc [] ks key)) as H.
  destruct (shell_key _ _ _) as [[line' w']|e]; cbn [session mbind outcome_bind] in *; [|done].
  destruct H as (-> & H). split; [done|]. by split.
Qed.

End Shell.

(** ** Theorems *)

Section Theorems.
Context {S : Type} `{!HeapAllocator S} {K Ev : Type} `{!KeyDecoder K Ev}.
Variable alloc_mem : S -> Layout -> memory -> memory.
Variables doom_entry junk : Z.

(** C23. The shell's line, and the screen.  Whatever scancodes arrive, the shell's line is
    the one the keys edit (printables appended, backspaces taken off, enter starting anew),
    every command returns, the memory map and the clock are left alone, and at most one
    thread, running Doom on 24 MiB of stack, is added to the scheduler.  As long as the
    line has fit behind the prompt, the bottom row of the screen is the prompt and the
    line.  The only panic is that of the first [doom] when the heap has no room for it. *)
Theorem shell_line_on_screen color k line w scancodes : is_u64 doom_entry ->
  prompt_ok color true line w ->
  match run_shell alloc_mem doom_entry junk k line w scancodes with
  | Ok (k', line', w') =>
      k' = snd (decode_all k scancodes) /\ line' = foldl edit line (fst (decode_all k scancodes)) /\
      prompt_ok color (fits line (fst (decode_all k scancodes))) line' w' /\ unchanged w w' /\ launches doom_entry w w'
  | Panic e => e = ExplicitPanic /\ DOOM_LAUNCHED w = false
  end.
Proof.
  intros He Hp. rewrite run_shell_keys.
  pose proof (shell_keys_session alloc_mem doom_entry junk He color true (fst (decode_all k scancodes)) line w Hp) as H.
  destruct (shell_keys _ _ _ _ _ _) as [[line' w']|e]; cbn [session mbind outcome_bind] in *; [|exact H].
  split; [done|exact H].
Qed.

(** [run_command] of a trimmed line is the reference [exec_words] on the line's words:
    blanks before, after and between words do not matter, [echo] prints its words with one
    space between them, and a blank line does nothing. *)
Theorem run_command_words line (w : world (S := S)) : plain line ->
  run_command alloc_mem doom_entry junk (trim line) w =
    exec_words alloc_mem doom_entry junk (split_ascii_whitespace line) w.
Proof. apply run_command_ref. Qed.

End Theorems.

(** ** A session *)

Module ShellDemo.

(** A decoder for a keyboard that sends ASCII. *)
#[global] Instance ascii_decoder : KeyDecoder unit Z := {
  kd_new := tt;
  kd_add_byte k b := (inl (Some b), k);
  kd_process k e := (Some (Unicode e), k);
}.

Definition heap0 : BumpAllocator := mk_bump 0x100000 0x2100000 0x100000 0.
Definition screen0 (launched : bool) : world :=
  mk_world (mk_system 42 (console_at 14 (mk_terminal [] PROMPT)) 0)
    (Some [mk_region 0 0x9f000 Usable]) launched (fst (scheduler_new 0x1000 (fun _ => 0))) heap0 (fun _ => 0) 0.

Lemma screen0_ok launched : prompt_ok 14 true [] (screen0 launched).
Proof.
  split; [|split; [constructor|]].
  - exists []. split; [eexists; split; [done|by apply Forall_singleton]|]. split; [split; cbn; (done || lia)|].
    by vm_compute.
  - exists (mk_terminal [] PROMPT). split; [|done]. split; [done|]. split; [constructor|cbn; unfold BUFFER_WIDTH; lia].
Qed.

(** A line that outgrows its row cannot be rubbed out on the screen: backspace stops at the
    left margin.  After 73 characters and two backspaces the shell's line has 71, and the
    screen still shows 72 of them behind the prompt. *)
Lemma backspace_stops_at_margin :
  (sys <$> (snd <$> shell_keys (fun _ _ m => m) 0 0 [] (screen0 true)
     (replicate 73 (Unicode 97) ++ [Unicode 8; RawKey Backspace])))
    = Ok (mk_system 42 (console_at 14 (mk_terminal [PROMPT ++ replicate 72 97] [])) 0) /\
  fst <$> shell_keys (fun _ _ m => m) 0 0 [] (screen0 true)
     (replicate 73 (Unicode 97) ++ [Unicode 8; RawKey Backspace]) = Ok (replicate 71 97).
Proof. split; vm_compute; reflexivity. Qed.

Definition no_mem (_ : BumpAllocator) (_ : Layout) (m : memory) : memory := m.

Lemma shell_line_on_screen_witness :
  exists k' w', run_shell no_mem 0x400000 0 tt [] (screen0 true) (str "echo  hi" ++ [13] ++ str "mex" ++ [8]) =
      Ok (k', str "me", w') /\ prompt_ok 14 true (str "me") w'.
Proof.
  pose proof (shell_line_on_screen no_mem 0x400000 0 14 tt [] (screen0 true) (str "echo  hi" ++ [13] ++ str "mex" ++ [8])
    ltac:(by vm_compute) (screen0_ok true)) as H.
  destruct (run_shell _ _ _ _ _ _ _) as [[[k' line'] w']|e]; [|by destruct H as [_ H]].
  destruct H as (-> & -> & Hp & _). eexists _, w'. split; [reflexivity|exact Hp].
Defined.

Lemma run_command_words_witness :
  run_command no_mem 0x400000 0 (trim (str "  echo   a    b ")) (screen0 true) =
    wprintln (screen0 true) (str "a b").
Proof. rewrite (run_command_words no_mem 0x400000 0 (str "  echo   a    b ") (screen0 true)); [done|]. by repeat constructor. Defined.

End ShellDemo.

