(* ===== verification/Runtime.v ===== *)
(** * The executor thread (src/task/executor.rs [run], [sleep_if_idle]; src/main.rs
    [heartbeat], the spawning of the tasks; src/task/shell.rs and keyboard.rs under it)

    The executor with the kernel's two futures, the shell and the heartbeat, between the
    keyboard interrupt and the clock.  Keyboard interrupts come between turns of the
    executor's loop and, at [irq_point]s, inside the polls. *)

From stdpp Require Import gmap.
From S2P Require Import Prelude Fmt Machine Stack Alloc Vga Syscall Spawn Tasks Shell.

Section Runtime.
Context {Heap : Type} `{!HeapAllocator Heap} {K Ev : Type} `{!KeyDecoder K Ev}.
Context {Q SQ C : Type} `{!ArrayQueue Z Q} `{!ArrayQueue Z SQ} `{!AtomicWaker Z C}.
Variable alloc_mem : Heap -> Layout -> memory -> memory.
Variables doom_entry junk : Z.

(** The states of the two futures between polls: before the first, or suspended in
    [scancodes.next().await] or [Sleep::new(200).await]. *)
Inductive kfuture :=
  | ShellStart
  | ShellWait (keyboard : K) (line : list Z)
  | HeartStart
  | HeartWait (sleep : Sleep).

(** What the futures act on.  [irqs] holds the scancodes that arrive at the coming
    interrupt points; [typed] records the scancodes the queue has accepted. *)
Record kworld := mk_kworld {
  shellw : world (S := Heap);
  keyq : scancodes (SQ := SQ) (C := C);
  SLEEPERS : list (Z * Z);
  irqs : list (list Z);
  typed : list Z;
}.

Definition uptime_ticks (w : kworld) : Z := sys_uptime (sys (shellw w)).

Definition with_shellw (w : kworld) (s : world) : kworld := mk_kworld s (keyq w) (SLEEPERS w) (irqs w) (typed w).
Definition with_keyq (w : kworld) (k : scancodes) : kworld := mk_kworld (shellw w) k (SLEEPERS w) (irqs w) (typed w).

(** ** Interrupts *)

Definition accepted (w : kworld) (sc : Z) : bool :=
  match SCANCODE_QUEUE (keyq w) with
  | Some queue => match aq_push queue sc with Some _ => true | None => false end
  | None => false
  end.

Definition key_irq (w : kworld) (q : Q) (sc : Z) : outcome (kworld * Q) :=
  '(k, q) ← add_scancode (keyq w) q sc;
  Ok (mk_kworld (shellw w) k (SLEEPERS w) (irqs w) (if accepted w sc then typed w ++ [sc] else typed w), q).

Fixpoint key_irqs (w : kworld) (q : Q) (scs : list Z) : outcome (kworld * Q) :=
  match scs with
  | [] => Ok (w, q)
  | sc :: scs => '(w, q) ← key_irq w q sc; key_irqs w q scs
  end.

Definition irq_point (w : kworld) (q : Q) : outcome (kworld * Q) :=
  match irqs w with
  | [] => Ok (w, q)
  | scs :: rest => key_irqs (mk_kworld (shellw w) (keyq w) (SLEEPERS w) rest (typed w)) q scs
  end.

(** ** The futures *)

(** [poll_next] of the scancode stream, with an interrupt point between its halves. *)
Definition next_scancode (waker : Z) (w : kworld) (q : Q) : outcome (option Z * kworld * Q) :=
  k ← poll_register (keyq w) waker;
  '(w, q) ← irq_point (with_keyq w k) q;
  '(o, k) ← poll_pop (keyq w);
  Ok (o, with_keyq w k, q).

(** The loop of [run_shell] until [scancodes.next()] is pending; one turn for each
    scancode that is queued or can still arrive is enough. *)
Fixpoint shell_loop (fuel : nat) (kbd : K) (line : list Z) (waker : Z) (w : kworld) (q : Q)
    : outcome (K * list Z * kworld * Q) :=
  match fuel with
  | O => Ok (kbd, line, w, q)
  | S fuel =>
      '(o, w, q) ← next_scancode waker w q;
      match o with
      | None => Ok (kbd, line, w, q)
      | Some scancode =>
          '(kbd, line, s) ← shell_scancode alloc_mem doom_entry junk kbd line (shellw w) scancode;
          '(w, q) ← irq_point (with_shellw w s) q;
          shell_loop fuel kbd line waker w q
      end
  end.

Definition waiting (w : kworld) : list Z :=
  match SCANCODE_QUEUE (keyq w) with Some sq => aq_items sq | None => [] end.
Definition arriving (w : kworld) : nat := length (concat (irqs w)).

Definition shell_poll (kbd : K) (line : list Z) (waker : Z) (w : kworld) (q : Q)
    : outcome (bool * kfuture * kworld * Q) :=
  '(kbd, line, w, q) ← shell_loop (S (length (waiting w) + arriving w)) kbd line waker w q;
  Ok (false, ShellWait kbd line, w, q).

(** [Sleep::new(200).await] in a loop: a sleep that is over is followed by the next, which
    is not over yet. *)
Definition HEARTBEAT : Z := 200.

Fixpoint heart_loop (fuel : nat) (f : Sleep) (waker now : Z) (sleepers : list (Z * Z)) : Sleep * list (Z * Z) :=
  match fuel with
  | O => (f, sleepers)
  | S fuel =>
      match sleep_poll f waker now sleepers with
      | (true, _, sleepers) => heart_loop fuel (sleep_new now HEARTBEAT) waker now sleepers
      | (false, f, sleepers) => (f, sleepers)
      end
  end.

Definition heart_poll (f : Sleep) (waker : Z) (w : kworld) (q : Q) : outcome (bool * kfuture * kworld * Q) :=
  '(w, q) ← irq_point w q;
  let '(f, sleepers) := heart_loop 2 f waker (uptime_ticks w) (SLEEPERS w) in
  Ok (false, HeartWait f, mk_kworld (shellw w) (keyq w) sleepers (irqs w) (typed w), q).

(** [Task::poll] *)
Definition kpoll (f : kfuture) (waker : Z) (w : kworld) (q : Q) : outcome (bool * kfuture * kworld * Q) :=
  match f with
  | ShellStart =>
      s ← shell_start (shellw w);
      shell_poll kd_new [] waker (with_shellw (with_keyq w (ScancodeStream_new (keyq w))) s) q
  | ShellWait kbd line => shell_poll kbd line waker w q
  | HeartStart => heart_poll (sleep_new (uptime_ticks w) HEARTBEAT) waker w q
  | HeartWait f => heart_poll f waker w q
  end.

(** ** The executor's loop *)

Definition SHELL : Z := 0.
Definition HEART : Z := 1.

(** The executor [kernel_main] builds; task ids start at 0. *)
Definition boot_executor : outcome (Executor (Q := Q) kfuture) :=
  let '(shell, next) := TaskId_new 0 in
  e ← executor_spawn executor_new shell ShellStart;
  let '(heart, next) := TaskId_new next in
  executor_spawn e heart HeartStart.

(** [sleep_if_idle] halts when the ready queue is empty. *)
Definition idle (e : Executor (Q := Q) kfuture) : bool :=
  match aq_items (task_queue _ e) with [] => true | _ => false end.

(** One turn of [run], in which the scancodes of [arrivals] come; [true] when it ends in
    [enable_and_hlt]. *)
Definition executor_turn (e : Executor (Q := Q) kfuture) (w : kworld) (arrivals : list (list Z))
    : outcome (bool * Executor (Q := Q) kfuture * kworld) :=
  '(sleepers, q) ← wake_sleepers (uptime_ticks w) (SLEEPERS w) (task_queue _ e);
  let w := mk_kworld (shellw w) (keyq w) sleepers arrivals (typed w) in
  let e := mk_executor _ (tasks _ e) q (waker_cache _ e) in
  '(e, w) ← run_ready_tasks kpoll (S (length (aq_items q) + arriving w)) e w;
  Ok (idle e, e, w).

(** What happens to the executor's thread and its queues, in order: a keyboard or timer
    interrupt between turns, or a turn. *)
Inductive kevent := KeyIrq (sc : Z) | TimerIrq | Turn (arrivals : list (list Z)).

Definition tick (w : kworld) : kworld :=
  let s := sys (shellw w) in
  with_shellw w (with_sys (shellw w) (mk_system (wrap64 (sys_uptime s + 1)) (writer s) (SYSCALL_RETURN s))).

Definition kstep (st : Executor (Q := Q) kfuture * kworld) (ev : kevent)
    : outcome (Executor (Q := Q) kfuture * kworld) :=
  let '(e, w) := st in
  match ev with
  | KeyIrq sc =>
      '(w, q) ← key_irq w (task_queue _ e) sc;
      Ok (mk_executor _ (tasks _ e) q (waker_cache _ e), w)
  | TimerIrq => Ok (e, tick w)
  | Turn arrivals => '(_, e, w) ← executor_turn e w arrivals; Ok (e, w)
  end.

Fixpoint krun (st : Executor (Q := Q) kfuture * kworld) (evs : list kevent)
    : outcome (Executor (Q := Q) kfuture * kworld) :=
  match evs with
  | [] => Ok st
  | ev :: evs => st ← kstep st ev; krun st evs
  end.

(** ** Interrupts deliver *)

Definition open_ (w : kworld) : Prop := is_Some (SCANCODE_QUEUE (keyq w)).
Definition held (w : kworld) : option Z := aw_held (WAKER (keyq w)).

(** The scancodes [acc] have been queued, and the task that waited for them woken. *)
Record delivered (w : kworld) (q : Q) (acc : list Z) (w' : kworld) (q' : Q) : Prop := {
  d_shellw : shellw w' = shellw w;
  d_sleepers : SLEEPERS w' = SLEEPERS w;
  d_open : open_ w';
  d_typed : typed w' = typed w ++ acc;
  d_waiting : waiting w' = waiting w ++ acc;
  d_capacity : aq_capacity q' = aq_capacity q;
  d_ready : aq_items q' = aq_items q ++ (if decide (acc = []) then [] else option_list (held w));
  d_held : held w' = if decide (acc = []) then held w else None;
}.

Lemma delivered_nil w q : open_ w -> delivered w q [] w q.
Proof. intros Ho. constructor; try done; by rewrite ?app_nil_r. Qed.

Lemma delivered_app w q a1 w1 q1 a2 w2 q2 :
  delivered w q a1 w1 q1 -> delivered w1 q1 a2 w2 q2 -> delivered w q (a1 ++ a2) w2 q2.
Proof.
  intros [] []. constructor; try congruence; try (by rewrite app_assoc; congruence).
  - rewrite d_ready1, d_ready0, d_held0, <- app_assoc. f_equal.
    destruct a1 as [|x a1]; cbn [app]; [by rewrite decide_True by done|].
    rewrite !(decide_False (P := x :: _ = [])) by done. cbn [option_list]. case_decide; by rewrite ?app_nil_r.
  - rewrite d_held1, d_held0. destruct a1 as [|x a1]; cbn [app]; [by rewrite (decide_True (P := [] = []))|].
    rewrite !(decide_False (P := x :: _ = [])) by done. by case_decide.
Qed.

Lemma key_irq_ok w q sc : open_ w -> (held w <> None -> (length (aq_items q) < aq_capacity q)%nat) ->
  exists acc w' q', key_irq w q sc = Ok (w', q') /\ delivered w q acc w' q' /\ irqs w' = irqs w /\ (length acc <= 1)%nat.
Proof.
  intros Ho Hroom. pose proof Ho as [sq Hsq]. unfold key_irq, add_scancode, accepted. rewrite Hsq.
  pose proof (aq_push_spec sq sc) as Hp. destruct (aq_push sq sc) as [sq'|].
  - destruct Hp as (_ & Hi & _). destruct (aw_take_spec (WAKER (keyq w))) as [Ht Hn].
    destruct (aw_take (WAKER (keyq w))) as [o c]. cbn [fst snd] in *. subst o. fold (held w).
    assert (Hq : exists q', match held w with Some id => wake_task q id | None => Ok q end = Ok q' /\
      aq_capacity q' = aq_capacity q /\ aq_items q' = aq_items q ++ option_list (held w)).
    { destruct (held w) as [id|]; [|exists q; by rewrite app_nil_r]. unfold wake_task.
      pose proof (aq_push_spec q id) as Hpq. specialize (Hroom ltac:(done)).
      destruct (aq_push q id) as [q'|]; [|lia]. destruct Hpq as (_ & Hq & Hc). by exists q'. }
    destruct Hq as (q' & -> & Hc & Hq). cbn [mbind outcome_bind]. exists [sc]. eexists _, q'.
    split; [done|]. split; [|split; [done|cbn; lia]].
    constructor; cbn; try done; [by eexists|unfold waiting; cbn; by rewrite Hsq].
  - cbn [mbind outcome_bind]. exists [], w, q. split; [by destruct w|]. split; [by apply delivered_nil|]. split; [done|cbn; lia].
Qed.

Lemma key_irqs_ok scs w q : open_ w -> (held w <> None -> scs <> [] -> (length (aq_items q) < aq_capacity q)%nat) ->
  exists acc w' q', key_irqs w q scs = Ok (w', q') /\ delivered w q acc w' q' /\ irqs w' = irqs w /\
    (length acc <= length scs)%nat.
Proof.
  revert w q. induction scs as [|sc scs IH]; intros w q Ho Hroom; cbn [key_irqs].
  { exists [], w, q. split; [done|]. split; [by apply delivered_nil|]. done. }
  destruct (key_irq_ok w q sc Ho) as (a1 & w1 & q1 & -> & Hd1 & Hi1 & Hl1); [auto|]. cbn [mbind outcome_bind].
  destruct (IH w1 q1) as (a2 & w2 & q2 & -> & Hd2 & Hi2 & Hl2); [apply Hd1| |].
  - rewrite (d_held _ _ _ _ _ Hd1), (d_ready _ _ _ _ _ Hd1), (d_capacity _ _ _ _ _ Hd1).
    case_decide; [|done]. rewrite app_nil_r. auto.
  - exists (a1 ++ a2), w2, q2. split; [done|]. split; [by eapply delivered_app|]. split; [congruence|].
    rewrite length_app. cbn. lia.
Qed.

(** An interrupt point spends the arrivals it delivers. *)
Lemma irq_point_ok w q : open_ w -> (length (aq_items q) + arriving w <= aq_capacity q)%nat ->
  exists acc w' q', irq_point w q = Ok (w', q') /\ delivered w q acc w' q' /\
    (length acc + arriving w' <= arriving w)%nat /\
    (length (aq_items q') + arriving w' <= length (aq_items q) + arriving w)%nat.
Proof.
  intros Ho Hroom. unfold irq_point, arriving in *. destruct (irqs w) as [|scs rest] eqn:Ei.
  { exists [], w, q. split; [done|]. split; [by apply delivered_nil|]. rewrite Ei. cbn. lia. }
  cbn [concat] in *. rewrite length_app in *.
  destruct (key_irqs_ok scs (mk_kworld (shellw w) (keyq w) (SLEEPERS w) rest (typed w)) q Ho)
    as (acc & w' & q' & E & Hd & Hi & Hl).
  { intros _ Hne. destruct scs; [done|]. cbn in Hroom. lia. }
  exists acc, w', q'. split; [done|]. cbn in Hi. rewrite Hi. split; [by destruct Hd; constructor|]. split; [lia|].
  rewrite (d_ready _ _ _ _ _ Hd), length_app. case_decide as Ha; [cbn; lia|].
  assert (length acc <> 0%nat) by (by destruct acc).
  assert (length (option_list (held w)) <= 1)%nat by (destruct (held w); cbn; lia). unfold held in *. cbn in *. lia.
Qed.

(** ** The shell's poll drains the queue *)

(** What a poll leaves alone. *)
Definition steady (w w' : kworld) : Prop :=
  uptime_ticks w' = uptime_ticks w /\ (DOOM_LAUNCHED (shellw w) = true -> DOOM_LAUNCHED (shellw w') = true).

Lemma steady_trans w w1 w2 : steady w w1 -> steady w1 w2 -> steady w w2.
Proof. unfold steady. intros [? ?] [? ?]. split; [congruence|auto]. Qed.

Lemma steady_shellw w w' : shellw w' = shellw w -> steady w w'.
Proof. unfold steady, uptime_ticks. intros ->. done. Qed.

Lemma steady_launch w w' : unchanged (shellw w) (shellw w') -> launches doom_entry (shellw w) (shellw w') -> steady w w'.
Proof.
  intros (Hu & _) Hl. split; [done|]. destruct Hl as [(-> & _)|(_ & -> & _)]; done.
Qed.

(** The shell parked: nothing queued, its waker in the cell, its line that of all that
    was typed; of the ready queue only the room that arrivals took is gone. *)
Record parked (color : Z) (kbd : K) (line : list Z) (w : kworld) (q : Q) (w' : kworld) (q' : Q) : Prop := {
  p_open : open_ w';
  p_waiting : waiting w' = [];
  p_held : held w' = Some SHELL;
  p_kbd : kbd = keyboard_of (typed w');
  p_line : line = line_of (typed w');
  p_prompt : prompt_at color (typed w') (shellw w');
  p_ready : exists n, aq_items q' = aq_items q ++ replicate n SHELL;
  p_capacity : aq_capacity q' = aq_capacity q;
  p_room : (length (aq_items q') + arriving w' <= length (aq_items q) + arriving w)%nat;
  p_sleepers : SLEEPERS w' = SLEEPERS w;
  p_steady : steady w w';
}.

Lemma poll_register_ok w waker : open_ w ->
  exists k, poll_register (keyq w) waker = Ok k /\ open_ (with_keyq w k) /\
    waiting (with_keyq w k) = waiting w /\ held (with_keyq w k) = Some waker.
Proof.
  intros [sq Hsq]. unfold poll_register. rewrite Hsq. cbn [expect mbind outcome_bind]. eexists. split; [done|].
  split; [by eexists|]. split; [unfold waiting; cbn; by rewrite Hsq|]. apply aw_register_spec.
Qed.

Lemma poll_pop_ok w : open_ w ->
  match waiting w with
  | [] => poll_pop (keyq w) = Ok (None, keyq w)
  | sc :: rest => exists k, poll_pop (keyq w) = Ok (Some sc, k) /\ open_ (with_keyq w k) /\
      waiting (with_keyq w k) = rest /\ held (with_keyq w k) = held w
  end.
Proof.
  intros [sq Hsq]. unfold waiting, poll_pop. rewrite Hsq. cbn [expect mbind outcome_bind].
  pose proof (aq_pop_spec sq) as Hp. destruct (aq_pop sq) as [[sc sq']|].
  - destruct Hp as [-> _]. eexists. split; [done|]. split; [by eexists|]. done.
  - by rewrite Hp.
Qed.

(** A step of the poll: the world of the shell is untouched, the scancodes [acc] have
    arrived, and the shell's id has gone to the ready queue for at most that many. *)
Record arrives (w : kworld) (q : Q) (acc : list Z) (w' : kworld) (q' : Q) : Prop := {
  a_sleepers : SLEEPERS w' = SLEEPERS w;
  a_open : open_ w';
  a_typed : typed w' = typed w ++ acc;
  a_arriving : (length acc + arriving w' <= arriving w)%nat;
  a_ready : exists n, aq_items q' = aq_items q ++ replicate n SHELL;
  a_capacity : aq_capacity q' = aq_capacity q;
  a_room : (length (aq_items q') + arriving w' <= length (aq_items q) + arriving w)%nat;
  a_held : held w' = None \/ held w' = Some SHELL;
}.

Lemma arrives_trans w q a1 w1 q1 a2 w2 q2 :
  arrives w q a1 w1 q1 -> arrives w1 q1 a2 w2 q2 -> arrives w q (a1 ++ a2) w2 q2.
Proof.
  intros [? ? ? ? [n1 Hr1]] [? ? ? ? [n2 Hr2]]. constructor; try congruence; try lia; try done.
  - rewrite app_assoc. congruence.
  - rewrite length_app. lia.
  - exists (n1 + n2)%nat. rewrite Hr2, Hr1, replicate_add. by rewrite app_assoc.
Qed.

Lemma delivered_ready w q acc w' q' : delivered w q acc w' q' -> held w = None \/ held w = Some SHELL ->
  (exists n, aq_items q' = aq_items q ++ replicate n SHELL) /\ (held w' = None \/ held w' = Some SHELL).
Proof.
  intros Hd Hh. rewrite (d_ready _ _ _ _ _ Hd), (d_held _ _ _ _ _ Hd). case_decide; [split; [by exists O|done]|].
  split; [|by left]. destruct Hh as [-> | ->]; [by exists O|by exists 1%nat].
Qed.

Lemma irq_point_arrives w q : open_ w -> (length (aq_items q) + arriving w <= aq_capacity q)%nat ->
  held w = None \/ held w = Some SHELL ->
  exists acc w' q', irq_point w q = Ok (w', q') /\ arrives w q acc w' q' /\
    shellw w' = shellw w /\ waiting w' = waiting w ++ acc /\ (acc = [] -> held w' = held w).
Proof.
  intros Ho Hroom Hh. destruct (irq_point_ok w q Ho Hroom) as (acc & w' & q' & E & Hd & Har & Hrm).
  exists acc, w', q'. split; [done|]. destruct (delivered_ready _ _ _ _ _ Hd Hh) as [Hn Hh'].
  destruct Hd as [Hs Hsl Ho' Hty Hwt Hc Hr Hhe].
  split; [by constructor|split; [done|]; split; [done|]; intros ->; by rewrite Hhe, decide_True].
Qed.

Lemma next_scancode_ok w q : open_ w -> (length (aq_items q) + arriving w <= aq_capacity q)%nat ->
  exists o acc w' q', next_scancode SHELL w q = Ok (o, w', q') /\ arrives w q acc w' q' /\ shellw w' = shellw w /\
    waiting w ++ acc = match o with Some sc => sc :: waiting w' | None => [] end /\
    (o = None -> held w' = Some SHELL /\ waiting w' = []).
Proof.
  intros Ho Hroom. unfold next_scancode.
  destruct (poll_register_ok w SHELL Ho) as (k & -> & Ho0 & Hw0 & Hh0). cbn [mbind outcome_bind].
  destruct (irq_point_arrives (with_keyq w k) q Ho0 Hroom (or_intror Hh0)) as (acc & w1 & q1 & -> & Ha & Hs & Hw1 & Hh1).
  cbn [mbind outcome_bind]. rewrite Hw0 in Hw1. pose proof (poll_pop_ok w1 (a_open _ _ _ _ _ Ha)) as Hpop.
  destruct (waiting w1) as [|sc rest] eqn:Ew1.
  - rewrite Hpop. cbn [mbind outcome_bind]. replace (with_keyq w1 (keyq w1)) with w1 by by destruct w1.
    symmetry in Hw1. apply app_eq_nil in Hw1 as [Hw1 ->]. exists None, [], w1, q1.
    split; [done|]. split; [by destruct Ha; constructor|]. split; [done|]. split; [by rewrite Hw1|]. intros _. split; [|done].
    by rewrite Hh1.
  - destruct Hpop as (k2 & -> & Ho2 & Hw2 & Hh2). cbn [mbind outcome_bind]. exists (Some sc), acc. eexists _, q1.
    split; [done|]. split; [|split; [done|]; split; [by rewrite <- Hw1, Hw2|done]].
    destruct Ha. constructor; try done. by rewrite Hh2.
Qed.

Hypothesis entry_u64 : is_u64 doom_entry.

Lemma parked_after color kbd line w q acc w1 q1 w' q' : arrives w q acc w1 q1 -> steady w w1 ->
  parked color kbd line w1 q1 w' q' -> parked color kbd line w q w' q'.
Proof.
  intros [? ? ? ? [n1 Hr1]] Hst [? ? ? ? ? ? [n2 Hr2]]. constructor; try done; try congruence; try lia.
  - exists (n1 + n2)%nat. rewrite Hr2, Hr1, replicate_add. by rewrite app_assoc.
  - by eapply steady_trans.
Qed.

Lemma shell_loop_ok color fuel processed w q : open_ w ->
  (length (aq_items q) + arriving w <= aq_capacity q)%nat -> (length (waiting w) + arriving w < fuel)%nat ->
  typed w = processed ++ waiting w -> prompt_at color processed (shellw w) ->
  match shell_loop fuel (keyboard_of processed) (line_of processed) SHELL w q with
  | Ok (kbd, line, w', q') => parked color kbd line w q w' q'
  | Panic e => e = ExplicitPanic /\ DOOM_LAUNCHED (shellw w) = false
  end.
Proof.
  revert processed w q. induction fuel as [|fuel IH]; intros processed w q Ho Hroom Hfuel Hty Hpr; [lia|].
  cbn [shell_loop]. destruct (next_scancode_ok w q Ho Hroom) as (o & a1 & w1 & q1 & -> & Ha1 & Hs1 & Hw1 & Hn1).
  cbn [mbind outcome_bind]. destruct o as [sc|].
  - rewrite Hs1. pose proof (shell_scancode_at alloc_mem doom_entry junk entry_u64 color processed (shellw w) sc Hpr) as Hsc.
    destruct (shell_scancode _ _ _ _ _ _ _) as [[[kbd line] s]|e]; cbn [mbind outcome_bind]; [|exact Hsc].
    destruct Hsc as (-> & -> & Hpr' & Hun & Hla).
    assert (Ha1' : arrives w q a1 (with_shellw w1 s) q1) by (destruct Ha1; by constructor).
    destruct (irq_point_arrives (with_shellw w1 s) q1) as (a2 & w2 & q2 & -> & Ha2 & Hs2 & Hw2 & _);
      [apply Ha1'|pose proof (a_room _ _ _ _ _ Ha1'); rewrite (a_capacity _ _ _ _ _ Ha1'); lia|apply Ha1'|].
    cbn [mbind outcome_bind]. pose proof (arrives_trans _ _ _ _ _ _ _ _ Ha1' Ha2) as Ha.
    assert (Hst : steady w w2) by (apply steady_launch; by rewrite Hs2).
    change (waiting (with_shellw w1 s)) with (waiting w1) in Hw2.
    assert (Hty2 : typed w2 = (processed ++ [sc]) ++ waiting w2).
    { rewrite (a_typed _ _ _ _ _ Ha), Hty, Hw2, <- !app_assoc. f_equal. rewrite !app_assoc. f_equal. exact Hw1. }
    specialize (IH (processed ++ [sc]) w2 q2 (a_open _ _ _ _ _ Ha)). rewrite Hs2 in IH.
    pose proof (a_room _ _ _ _ _ Ha) as Hrm. pose proof (a_arriving _ _ _ _ _ Ha) as Har. rewrite length_app in Har.
    apply (f_equal length) in Hw1, Hw2. rewrite length_app in Hw1, Hw2. cbn [length] in Hw1.
    rewrite (a_capacity _ _ _ _ _ Ha) in IH. specialize (IH ltac:(lia) ltac:(lia) Hty2 Hpr').
    destruct (shell_loop _ _ _ _ _ _) as [[[[kbd' line'] w'] q']|e]; [by eapply parked_after|].
    destruct IH as [-> Hd]. split; [done|]. destruct Hla as [(<- & _)|(? & ? & _)]; [done|cbn in *; congruence].
  - destruct (Hn1 eq_refl) as [Hh1 Hw1']. apply app_eq_nil in Hw1 as [Hw ->].
    assert (Ht : typed w1 = processed) by (rewrite (a_typed _ _ _ _ _ Ha1), Hty, Hw; by rewrite !app_nil_r).
    destruct Ha1. constructor; try done; try (by rewrite Ht); [by rewrite Ht, Hs1|by apply steady_shellw].
Qed.

(** ** The executor's invariant *)

(** How often a task is in the ready queue. *)
Definition copies (i : Z) (l : list Z) : nat := length (filter (fun x => x = i) l).

(** The shell has not started, or it has processed [typed] up to what is waiting; and it
    will be polled, or nothing waits and its waker is in the cell. *)
Definition shell_ok (color : Z) (f : kfuture) (w : kworld) (items : list Z) : Prop :=
  match f with
  | ShellStart => SHELL ∈ items /\ typed w = waiting w /\ (exists live, world_ok (shellw w) live) /\
      exists t, system_shows (sys (shellw w)) color t
  | ShellWait kbd line => exists processed, typed w = processed ++ waiting w /\
      kbd = keyboard_of processed /\ line = line_of processed /\ prompt_at color processed (shellw w) /\
      (SHELL ∈ items \/ (waiting w = [] /\ held w = Some SHELL))
  | _ => False
  end.

(** The heartbeat is asleep, or it is in the ready queue and its sleep is over. *)
Definition heart_ok (f : kfuture) (w : kworld) (items : list Z) : Prop :=
  match f with
  | HeartStart => copies HEART items = 1%nat /\ SLEEPERS w = []
  | HeartWait s => registered s = true /\ target_tick s <= uptime_ticks w + HEARTBEAT /\
      ((copies HEART items = 0%nat /\ SLEEPERS w = [(target_tick s, HEART)]) \/
       (copies HEART items = 1%nat /\ SLEEPERS w = [] /\ target_tick s <= uptime_ticks w))
  | _ => False
  end.

Record kinv (color : Z) (e : Executor (Q := Q) kfuture) (w : kworld) : Prop := {
  k_open : open_ w;
  k_capacity : aq_capacity (task_queue _ e) = QUEUE_SIZE;
  k_wf : executor_wf e;
  k_ids : Forall (fun i => i = SHELL \/ i = HEART) (aq_items (task_queue _ e));
  k_held : held w = None \/ held w = Some SHELL;
  k_shell : exists f, tasks _ e !! SHELL = Some f /\ shell_ok color f w (aq_items (task_queue _ e));
  k_heart : exists f, tasks _ e !! HEART = Some f /\ heart_ok f w (aq_items (task_queue _ e));
}.

Lemma copies_app i l k : copies i (l ++ k) = (copies i l + copies i k)%nat.
Proof. unfold copies. by rewrite filter_app, length_app. Qed.

Lemma copies_cons_eq i l : copies i (i :: l) = S (copies i l).
Proof. unfold copies. by rewrite filter_cons_True. Qed.

Lemma copies_cons_ne i j l : j <> i -> copies i (j :: l) = copies i l.
Proof. intros. unfold copies. by rewrite filter_cons_False. Qed.

Lemma copies_heart_shells n l : copies HEART (l ++ replicate n SHELL) = copies HEART l.
Proof.
  rewrite copies_app. induction n as [|n IH]; cbn [replicate]; [cbn; lia|]. by rewrite copies_cons_ne.
Qed.

Lemma ids_length l : Forall (fun i => i = SHELL \/ i = HEART) l -> length l = (copies SHELL l + copies HEART l)%nat.
Proof.
  induction 1 as [|i l [-> | ->] _ IH]; [done| |]; rewrite copies_cons_eq, copies_cons_ne by done; cbn; lia.
Qed.

Lemma ids_shells n l : Forall (fun i => i = SHELL \/ i = HEART) l ->
  Forall (fun i => i = SHELL \/ i = HEART) (l ++ replicate n SHELL).
Proof. intros Hl. apply Forall_app. split; [done|]. apply Forall_replicate. by left. Qed.

(** Deliveries keep both tasks' promises. *)
Lemma shell_ok_delivered color f w q acc w' q' : delivered w q acc w' q' ->
  shell_ok color f w (aq_items q) -> shell_ok color f w' (aq_items q').
Proof.
  intros [Hs _ _ Hty Hwt _ Hr Hh] Hf. destruct f as [|kbd line| |]; cbn [shell_ok] in *; [| |done..].
  - destruct Hf as (Hin & Ht & Hw). rewrite Hs, Hr, Hty, Hwt, Ht. split; [apply elem_of_app; by left|done].
  - destruct Hf as (pr & Ht & Hk & Hl & Hp & Ho). exists pr. rewrite Hs, Hty, Hwt, Ht, <- app_assoc.
    do 4 (split; [done|]). rewrite Hr, Hh. destruct Ho as [Hin|[Hw0 Hh0]]; [left; apply elem_of_app; by left|].
    case_decide as Ha; [subst acc; right; by rewrite Hw0|]. left. rewrite Hh0. apply elem_of_app. right. by left.
Qed.

Lemma shell_ok_pop color f w l i : i <> SHELL -> shell_ok color f w (i :: l) -> shell_ok color f w l.
Proof.
  intros Hi. assert (H : SHELL ∈ i :: l -> SHELL ∈ l) by (intros [Heq|]%elem_of_cons; [by destruct Hi|done]).
  destruct f; cbn [shell_ok]; [intros [? ?]; split; auto| |done..].
  intros (pr & ? & ? & ? & ? & Ho). exists pr. do 4 (split; [done|]). destruct Ho; auto.
Qed.

Lemma heart_ok_ready f w items w' items' : heart_ok f w items -> copies HEART items' = copies HEART items ->
  SLEEPERS w' = SLEEPERS w -> uptime_ticks w' = uptime_ticks w -> heart_ok f w' items'.
Proof. intros Hf Hc Hs Hu. destruct f; cbn [heart_ok] in *; by rewrite ?Hc, ?Hs, ?Hu. Qed.

(** ** Polls *)

Lemma heart_loop_next f now sl : now < u64_max -> target_tick f <= now \/ f = sleep_new now HEARTBEAT ->
  heart_loop 2 f HEART now sl =
    (mk_sleep (saturating_add now HEARTBEAT) true, sl ++ [(saturating_add now HEARTBEAT, HEART)]).
Proof.
  intros Hn Hf. assert (Hlt : now < saturating_add now HEARTBEAT) by (unfold saturating_add, HEARTBEAT; lia).
  assert (Hnew : forall fuel, heart_loop (S fuel) (sleep_new now HEARTBEAT) HEART now sl =
    (mk_sleep (saturating_add now HEARTBEAT) true, sl ++ [(saturating_add now HEARTBEAT, HEART)])).
  { intros fuel. cbn [heart_loop]. unfold sleep_poll, sleep_new. cbn [target_tick registered].
    by rewrite (proj2 (Z.leb_gt _ _) Hlt). }
  destruct Hf as [Hf|Hf]; [|subst f; apply Hnew]. cbn [heart_loop]. unfold sleep_poll at 1.
  rewrite (proj2 (Z.leb_le _ _) Hf). exact (Hnew O).
Qed.

Lemma shell_poll_ok color processed w q : open_ w ->
  (length (aq_items q) + arriving w <= aq_capacity q)%nat ->
  typed w = processed ++ waiting w -> prompt_at color processed (shellw w) ->
  match shell_poll (keyboard_of processed) (line_of processed) SHELL w q with
  | Ok (r, f, w', q') => r = false /\ exists kbd line, f = ShellWait kbd line /\ parked color kbd line w q w' q'
  | Panic e => e = ExplicitPanic /\ DOOM_LAUNCHED (shellw w) = false
  end.
Proof.
  intros Ho Hroom Hty Hpr. unfold shell_poll.
  pose proof (shell_loop_ok color (S (length (waiting w) + arriving w)) processed w q Ho Hroom ltac:(lia) Hty Hpr) as H.
  destruct (shell_loop _ _ _ _ _ _) as [[[[kbd line] w'] q']|e]; cbn [mbind outcome_bind]; [|done].
  split; [done|]. by exists kbd, line.
Qed.

(** The shell's turn, from its first poll on. *)
Lemma kpoll_shell color f w items q : open_ w -> shell_ok color f w items ->
  (length (aq_items q) + arriving w <= aq_capacity q)%nat ->
  match kpoll f SHELL w q with
  | Ok (r, f', w', q') => r = false /\ exists kbd line, f' = ShellWait kbd line /\ parked color kbd line w q w' q'
  | Panic e => e = ExplicitPanic /\ DOOM_LAUNCHED (shellw w) = false
  end.
Proof.
  intros Ho Hf Hroom. destruct f as [|kbd line| |]; cbn [shell_ok kpoll] in *; [| |done..].
  - destruct Hf as (_ & Hty & (live & Hw) & t & Hs).
    destruct (shell_start_prompt doom_entry color (shellw w) live t Hw Hs) as (s & -> & Hp & Hu & Hl).
    cbn [mbind outcome_bind]. assert (Hk : ScancodeStream_new (keyq w) = keyq w).
    { unfold ScancodeStream_new, init_scancode_queue. by destruct Ho as [? ->]. }
    rewrite Hk. replace (with_keyq w (keyq w)) with w by by destruct w.
    pose proof (shell_poll_ok color [] (with_shellw w s) q Ho Hroom Hty Hp) as H.
    change (keyboard_of []) with (kd_new (K := K)) in H. change (line_of []) with (@nil Z) in H.
    destruct (shell_poll _ _ _ _ _) as [[[[r f'] w'] q']|e].
    + destruct H as (-> & kbd & line & -> & H). split; [done|]. exists kbd, line. split; [done|].
      assert (Hst : steady w (with_shellw w s)) by by apply steady_launch.
      destruct H. constructor; try done. by eapply steady_trans.
    + destruct H as [-> H]. split; [done|]. destruct Hl as [(<- & _)|(? & ? & _)]; [done|cbn in *; congruence].
  - destruct Hf as (pr & Hty & -> & -> & Hp & _). by apply shell_poll_ok.
Qed.

Definition asleep (w : kworld) : Prop := Forall (fun p => uptime_ticks w < fst p) (SLEEPERS w).

(** The heartbeat's turn: it registers its next sleep. *)
Lemma kpoll_heart f w items q : open_ w -> heart_ok f w items -> copies HEART items <> 0%nat -> uptime_ticks w < u64_max ->
  (length (aq_items q) + arriving w <= aq_capacity q)%nat ->
  exists s acc w1 w' q', kpoll f HEART w q = Ok (false, HeartWait s, w', q') /\ delivered w q acc w1 q' /\
    w' = mk_kworld (shellw w1) (keyq w1) [(target_tick s, HEART)] (irqs w1) (typed w1) /\
    registered s = true /\ uptime_ticks w < target_tick s <= uptime_ticks w + HEARTBEAT /\
    (length (aq_items q') + arriving w' <= length (aq_items q) + arriving w)%nat.
Proof.
  intros Ho Hf Hc Hu Hroom. destruct (irq_point_ok w q Ho Hroom) as (acc & w1 & q1 & E & Hd & _ & Hrm).
  set (s := mk_sleep (saturating_add (uptime_ticks w) HEARTBEAT) true).
  assert (Hu1 : uptime_ticks w1 = uptime_ticks w) by (unfold uptime_ticks; by rewrite (d_shellw _ _ _ _ _ Hd)).
  assert (Hpoll : forall f0, (target_tick f0 <= uptime_ticks w \/ f0 = sleep_new (uptime_ticks w) HEARTBEAT) ->
    SLEEPERS w = [] -> heart_poll f0 HEART w q =
      Ok (false, HeartWait s, mk_kworld (shellw w1) (keyq w1) [(target_tick s, HEART)] (irqs w1) (typed w1), q1)).
  { intros f0 Hf0 Hsl. unfold heart_poll. rewrite E. cbn [mbind outcome_bind].
    rewrite Hu1, (d_sleepers _ _ _ _ _ Hd), Hsl, heart_loop_next by done. done. }
  exists s, acc, w1. eexists _, q1.
  split; [|do 2 (split; [done|]); split; [done|]; split;
    [unfold s, saturating_add, HEARTBEAT; cbn; lia|exact Hrm]].
  destruct f as [| | |f]; cbn [heart_ok kpoll] in *; [done..| |].
  - destruct Hf as [_ Hsl]. apply Hpoll; [by right|done].
  - destruct Hf as (_ & _ & [[? _]|(_ & Hsl & Hdue)]); [done|]. apply Hpoll; [by left|done].
Qed.

(** What one poll of the executor's loop keeps. *)
Definition poll_keeps (color : Z) (w : kworld) (room : nat) (r : outcome (option (Executor (Q := Q) kfuture * kworld))) : Prop :=
  match r with
  | Ok (Some (e', w')) => kinv color e' w' /\ asleep w' /\ steady w w' /\
      (length (aq_items (task_queue _ e')) + arriving w' < room)%nat
  | Ok None => False
  | Panic p => p = ExplicitPanic /\ DOOM_LAUNCHED (shellw w) = false
  end.

Section RunOne.
Variables (color : Z) (e : Executor (Q := Q) kfuture) (w : kworld) (q : Q) (l : list Z).
Hypothesis (Hinv : kinv color e w) (Hasleep : asleep w) (Hup : uptime_ticks w < u64_max).
Hypothesis (Hl : aq_items q = l) (Hcap : aq_capacity q = QUEUE_SIZE) (Hroom : (length l + arriving w < QUEUE_SIZE)%nat).

Lemma cached_waker id : default id (waker_cache _ e !! id) = id.
Proof. destruct (waker_cache _ e !! id) as [x|] eqn:E; [|done]. by destruct (k_wf _ _ _ Hinv id x E). Qed.

Lemma run_one_shell : aq_pop (task_queue _ e) = Some (SHELL, q) -> aq_items (task_queue _ e) = SHELL :: l ->
  poll_keeps color w (S (length l) + arriving w) (run_one kpoll e w).
Proof.
  intros Hpop Hit. destruct (k_shell _ _ _ Hinv) as (f & Hf & Hsh).
  pose proof (kpoll_shell color f w _ q (k_open _ _ _ Hinv) Hsh ltac:(rewrite Hl, Hcap; lia)) as Hp.
  destruct (run_one kpoll e w) as [r|p] eqn:E; pose proof E as E0; unfold run_one in E;
    rewrite Hpop, Hf, cached_waker in E;
    destruct (kpoll f SHELL w q) as [[[[b f'] w'] q']|p']; cbn [mbind outcome_bind] in E; try done;
    [destruct Hp as (-> & kbd & line & -> & [Ho Hwt Hh -> -> Hpr [n Hr] Hc Hrm Hsl Hst]); injection E as <-
    |by destruct Hp as [-> _]|by injection E as <-].
  cbn [poll_keeps]. split; [|split; [|split; [done|cbn [task_queue]; rewrite Hl in Hrm; lia]]].
  - destruct Hinv. constructor; cbn [task_queue tasks]; try done.
    + congruence.
    + by eapply run_one_wf.
    + rewrite Hr, Hl. rewrite Hit in k_ids0. apply ids_shells. by inv k_ids0.
    + by right.
    + eexists. rewrite lookup_insert_eq. split; [done|]. exists (typed w'). rewrite Hwt, app_nil_r.
      do 4 (split; [done|]). by right.
    + destruct k_heart0 as (g & Hg & Hok). exists g. rewrite lookup_insert_ne by done. split; [done|].
      eapply heart_ok_ready; [exact Hok| |done|apply Hst]. rewrite Hr, Hl, Hit, copies_heart_shells. by rewrite copies_cons_ne.
  - unfold asleep. rewrite Hsl, (proj1 Hst). exact Hasleep.
Qed.

Lemma run_one_heart : aq_pop (task_queue _ e) = Some (HEART, q) -> aq_items (task_queue _ e) = HEART :: l ->
  poll_keeps color w (S (length l) + arriving w) (run_one kpoll e w).
Proof.
  intros Hpop Hit. destruct (k_heart _ _ _ Hinv) as (f & Hf & Hok).
  destruct (kpoll_heart f w _ q (k_open _ _ _ Hinv) Hok) as (s & acc & w1 & w' & q' & Ep & Hd & Hw' & Hreg & Htg & Hrm);
    [by rewrite Hit, copies_cons_eq|done|rewrite Hl, Hcap; lia|].
  assert (Hu' : uptime_ticks w' = uptime_ticks w) by (unfold uptime_ticks; rewrite Hw'; cbn; by rewrite (d_shellw _ _ _ _ _ Hd)).
  assert (E : run_one kpoll e w = Ok (Some (mk_executor _ (<[HEART := HeartWait s]> (tasks _ e)) q'
    (<[HEART := HEART]> (waker_cache _ e)), w'))).
  { unfold run_one. rewrite Hpop, Hf, cached_waker, Ep. done. }
  rewrite E. pose proof (delivered_ready _ _ _ _ _ Hd (k_held _ _ _ Hinv)) as [[n Hr] Hh].
  cbn [poll_keeps]. split; [|split; [|split; [|cbn [task_queue]; rewrite Hl in Hrm; lia]]].
  - pose proof (k_ids _ _ _ Hinv) as Hids. rewrite Hit in Hids. apply Forall_cons in Hids as [_ Hids].
    constructor; cbn [task_queue tasks].
    + rewrite Hw'. apply Hd.
    + by rewrite (d_capacity _ _ _ _ _ Hd).
    + eapply run_one_wf; [apply Hinv|exact E].
    + rewrite Hr, Hl. by apply ids_shells.
    + rewrite Hw'. exact Hh.
    + destruct (k_shell _ _ _ Hinv) as (g & Hg & Hsh). exists g. rewrite lookup_insert_ne by done. split; [done|].
      rewrite Hw'. apply (shell_ok_delivered color g w q acc w1 q' Hd). rewrite Hl. rewrite Hit in Hsh.
      by apply (shell_ok_pop color g w l HEART).
    + eexists. rewrite lookup_insert_eq. split; [done|]. split; [done|]. rewrite Hu'. split; [lia|]. left.
      rewrite Hw'. split; [|done]. rewrite Hr, Hl, copies_heart_shells.
      rewrite Hit in Hok. destruct f; cbn [heart_ok] in Hok; [done..| |]; rewrite copies_cons_eq in Hok; intuition lia.
  - unfold asleep. rewrite Hu', Hw'. apply Forall_singleton. cbn. lia.
  - apply steady_shellw. rewrite Hw'. apply Hd.
Qed.

End RunOne.

(** ** Turns *)

(** Everything has been polled: both tasks wait, the shell with nothing queued and its
    line that of all that was typed, the heartbeat for at most its period. *)
Record settled (color : Z) (e : Executor (Q := Q) kfuture) (w : kworld) : Prop := {
  s_ready : aq_items (task_queue _ e) = [];
  s_waiting : waiting w = [];
  s_held : held w = Some SHELL;
  s_shell : tasks _ e !! SHELL = Some (ShellWait (keyboard_of (typed w)) (line_of (typed w)));
  s_prompt : prompt_at color (typed w) (shellw w);
  s_heart : exists s, tasks _ e !! HEART = Some (HeartWait s) /\ SLEEPERS w = [(target_tick s, HEART)] /\
    uptime_ticks w < target_tick s <= uptime_ticks w + HEARTBEAT;
}.

Lemma kinv_settled color e w : kinv color e w -> asleep w -> aq_items (task_queue _ e) = [] -> settled color e w.
Proof.
  intros [_ _ _ _ _ (f & Hf & Hsh) (g & Hg & Hok)] Has Hit. rewrite Hit in *.
  destruct f as [|kbd line| |]; cbn [shell_ok] in Hsh; [by destruct Hsh as [?%elem_of_nil _]| |done..].
  destruct Hsh as (pr & Hty & -> & -> & Hp & [?%elem_of_nil|[Hw Hh]]); [done|]. rewrite Hw, app_nil_r in Hty. subst pr.
  destruct g as [| | |s]; cbn [heart_ok] in Hok; [done..|by destruct Hok|].
  destruct Hok as (_ & Hle & [[_ Hsl]|[? _]]); [|done]. constructor; try done. exists s. split; [done|]. split; [done|].
  unfold asleep in Has. rewrite Hsl in Has. apply Forall_cons_1 in Has as [Has _]. by split.
Qed.

Lemma run_one_ok color e w : kinv color e w -> asleep w -> uptime_ticks w < u64_max ->
  (length (aq_items (task_queue _ e)) + arriving w <= QUEUE_SIZE)%nat -> aq_items (task_queue _ e) <> [] ->
  poll_keeps color w (length (aq_items (task_queue _ e)) + arriving w) (run_one kpoll e w).
Proof.
  intros Hi Ha Hu Hroom Hne. pose proof (aq_pop_spec (task_queue _ e)) as Hp.
  destruct (aq_pop (task_queue _ e)) as [[x q]|] eqn:Epop; [|done]. destruct Hp as [Hit Hc].
  pose proof (k_ids _ _ _ Hi) as Hids. rewrite Hit in *. apply Forall_cons in Hids as [Hx _]. cbn [length] in *.
  rewrite (k_capacity _ _ _ Hi) in Hc.
  destruct Hx as [-> | ->]; [apply (run_one_shell color e w q (aq_items q))|apply (run_one_heart color e w q (aq_items q))]; done || lia.
Qed.

Lemma run_ready_ok color fuel e w : kinv color e w -> asleep w -> uptime_ticks w < u64_max ->
  (length (aq_items (task_queue _ e)) + arriving w <= QUEUE_SIZE)%nat ->
  (length (aq_items (task_queue _ e)) + arriving w < fuel)%nat ->
  match run_ready_tasks kpoll fuel e w with
  | Ok (e', w') => kinv color e' w' /\ settled color e' w' /\ steady w w'
  | Panic p => p = ExplicitPanic /\ DOOM_LAUNCHED (shellw w) = false
  end.
Proof.
  revert e w. induction fuel as [|fuel IH]; intros e w Hi Ha Hu Hroom Hf; [lia|]. cbn [run_ready_tasks].
  destruct (decide (aq_items (task_queue _ e) = [])) as [H0|H0].
  - assert (run_one kpoll e w = Ok None) as ->.
    { unfold run_one. pose proof (aq_pop_spec (task_queue _ e)) as Hp.
      destruct (aq_pop (task_queue _ e)) as [[x q]|]; [|done]. destruct Hp as [Hp _]. congruence. }
    cbn [mbind outcome_bind]. split; [done|]. split; [by apply kinv_settled|done].
  - pose proof (run_one_ok color e w Hi Ha Hu Hroom H0) as H1.
    destruct (run_one kpoll e w) as [[[e1 w1]|]|p]; cbn [poll_keeps mbind outcome_bind] in *; [|done|done].
    destruct H1 as (Hi1 & Ha1 & Hst & Hlt). pose proof Hst as [Hu1 Hd1].
    specialize (IH e1 w1 Hi1 Ha1 ltac:(lia) ltac:(lia) ltac:(lia)).
    destruct (run_ready_tasks _ _ _ _) as [[e' w']|p].
    + destruct IH as (? & ? & ?). split; [done|]. split; [done|]. by eapply steady_trans.
    + destruct IH as [-> Hd]. split; [done|]. destruct (DOOM_LAUNCHED (shellw w)); [|done]. by rewrite Hd1 in Hd.
Qed.

(** Between turns each task is in the ready queue at most once. *)
Definition kwait (color : Z) (e : Executor (Q := Q) kfuture) (w : kworld) : Prop :=
  kinv color e w /\ (copies SHELL (aq_items (task_queue _ e)) + length (option_list (held w)) <= 1)%nat.

Lemma kwait_length color e w : kwait color e w ->
  (length (aq_items (task_queue _ e)) + length (SLEEPERS w) <= 2)%nat.
Proof.
  intros [Hi Ht]. rewrite (ids_length _ (k_ids _ _ _ Hi)). destruct (k_heart _ _ _ Hi) as (g & _ & Hok).
  destruct g as [| | |s]; cbn [heart_ok] in Hok; [done..| |].
  - destruct Hok as [-> ->]. cbn. lia.
  - destruct Hok as (_ & _ & [[-> ->]|(-> & -> & _)]); cbn; lia.
Qed.

Lemma settled_kwait color e w : kinv color e w -> settled color e w -> kwait color e w.
Proof. intros Hi Hs. split; [done|]. rewrite (s_ready _ _ _ Hs), (s_held _ _ _ Hs). cbn. lia. Qed.

Lemma heart_due g w items : heart_ok g w items ->
  (due (uptime_ticks w) (SLEEPERS w) = [] /\ not_due (uptime_ticks w) (SLEEPERS w) = SLEEPERS w) \/
  exists s, g = HeartWait s /\ target_tick s <= uptime_ticks w /\ copies HEART items = 0%nat /\
    due (uptime_ticks w) (SLEEPERS w) = [(target_tick s, HEART)] /\ not_due (uptime_ticks w) (SLEEPERS w) = [].
Proof.
  intros Hok. destruct g as [| | |s]; cbn [heart_ok] in Hok; [done..|by destruct Hok as [_ ->]; left|].
  destruct Hok as (_ & _ & [[Hc0 ->]|(_ & -> & _)]); [|by left]. unfold due, not_due.
  destruct (decide (target_tick s <= uptime_ticks w)) as [Hle|Hle]; [right; exists s|left].
  - rewrite filter_cons_True, filter_cons_False by (cbn; tauto). done.
  - rewrite filter_cons_False, filter_cons_True by (cbn; tauto). done.
Qed.

Lemma shell_ok_more color f w items items' : shell_ok color f w items -> shell_ok color f w (items ++ items').
Proof.
  destruct f as [|kbd line| |]; cbn [shell_ok]; [| |done..].
  - intros [Hin Hsh]. split; [apply elem_of_app; by left|exact Hsh].
  - intros (pr & H1 & H2 & H3 & H4 & Ho). exists pr. do 4 (split; [done|]).
    destruct Ho; [left; apply elem_of_app; by left|by right].
Qed.

(** [wake_sleepers] at the start of a turn. *)
Lemma wake_kinv color e w arrivals : kwait color e w ->
  exists sl q, wake_sleepers (uptime_ticks w) (SLEEPERS w) (task_queue _ e) = Ok (sl, q) /\
    (length (aq_items q) <= 2)%nat /\
    let w' := mk_kworld (shellw w) (keyq w) sl arrivals (typed w) in
    kinv color (mk_executor _ (tasks _ e) q (waker_cache _ e)) w' /\ asleep w'.
Proof.
  intros Hk. pose proof (kwait_length _ _ _ Hk) as Hlen. destruct Hk as [Hi _].
  pose proof (length_filter (fun p : Z * Z => p.1 <= uptime_ticks w) (SLEEPERS w)) as Hfl.
  destruct (wake_from_spec (S (length (SLEEPERS w))) (uptime_ticks w) [] (SLEEPERS w) (task_queue _ e))
    as (q & E & Hit & Hc); [lia|rewrite (k_capacity _ _ _ Hi); unfold due, QUEUE_SIZE; lia|].
  eexists _, q. split; [exact E|]. split.
  { rewrite Hit, length_app, length_fmap. unfold due. lia. }
  destruct Hi as [Ho Hcap Hwf Hids Hh (f & Hf & Hsh) (g & Hg & Hok)].
  pose proof (heart_due g w _ Hok) as Hdue.
  split; [constructor; cbn [task_queue tasks waker_cache]; try done|].
  - congruence.
  - rewrite Hit. apply Forall_app. split; [done|].
    destruct Hdue as [[-> _]|(s & _ & _ & _ & -> & _)]; [constructor|apply Forall_singleton; by right].
  - exists f. split; [done|]. rewrite Hit. pose proof (shell_ok_more color f w _ (due (uptime_ticks w) (SLEEPERS w)).*2 Hsh) as Hsh'. by destruct f.
  - exists g. split; [done|]. rewrite Hit. destruct Hdue as [[-> ->]|(s & -> & Hle & Hc0 & -> & ->)].
    + cbn [fmap list_fmap]. rewrite app_nil_r. exact Hok.
    + destruct Hok as (Hr & Hb & _). split; [done|]. split; [done|]. right. split; [|done]. rewrite copies_app, Hc0. done.
  - unfold asleep, not_due. apply Forall_forall. intros p [Hp _]%list_elem_of_filter. cbn [SLEEPERS] in *.
    unfold uptime_ticks in *. cbn [shellw] in *. lia.
Qed.

Lemma executor_turn_ok color e w arrivals : kwait color e w -> uptime_ticks w < u64_max ->
  (length (concat arrivals) <= QUEUE_SIZE - 2)%nat ->
  match executor_turn e w arrivals with
  | Ok (halts, e', w') => halts = true /\ kinv color e' w' /\ settled color e' w' /\ steady w w'
  | Panic p => p = ExplicitPanic /\ DOOM_LAUNCHED (shellw w) = false
  end.
Proof.
  intros Hk Hu Ha. unfold executor_turn. destruct (wake_kinv color e w arrivals Hk) as (sl & q & -> & Hlen & Hi & Has).
  cbn [mbind outcome_bind]. set (w1 := mk_kworld _ _ _ _ _) in *. set (e1 := mk_executor _ _ _ _) in *.
  assert (Hroom : (length (aq_items q) + arriving w1 <= QUEUE_SIZE)%nat).
  { unfold arriving. cbn [irqs w1]. unfold QUEUE_SIZE in *. lia. }
  pose proof (run_ready_ok color (S (length (aq_items q) + arriving w1)) e1 w1 Hi Has Hu Hroom ltac:(cbn; lia)) as H.
  destruct (run_ready_tasks _ _ _ _) as [[e' w']|p]; cbn [mbind outcome_bind]; [|exact H].
  destruct H as (Hi' & Hs & Hst). split; [|done]. unfold idle. by rewrite (s_ready _ _ _ Hs).
Qed.

(** ** Any sequence of interrupts and turns *)

Lemma key_kwait color e w sc : kwait color e w ->
  exists w' q', key_irq w (task_queue _ e) sc = Ok (w', q') /\ steady w w' /\
    kwait color (mk_executor _ (tasks _ e) q' (waker_cache _ e)) w'.
Proof.
  intros Hk. pose proof (kwait_length _ _ _ Hk) as Hlen. destruct Hk as [Hi Ht].
  destruct (key_irq_ok w (task_queue _ e) sc (k_open _ _ _ Hi)) as (acc & w' & q' & E & Hd & _ & _).
  { intros _. rewrite (k_capacity _ _ _ Hi). unfold QUEUE_SIZE. lia. }
  exists w', q'. split; [done|]. split; [by apply steady_shellw, Hd|].
  destruct (delivered_ready _ _ _ _ _ Hd (k_held _ _ _ Hi)) as [[n Hr] Hh].
  destruct Hi as [Ho Hcap Hwf Hids Hhe (f & Hf & Hsh) (g & Hg & Hok)]. split.
  - constructor; cbn [task_queue tasks waker_cache]; try done.
    + apply Hd.
    + by rewrite (d_capacity _ _ _ _ _ Hd).
    + rewrite Hr. by apply ids_shells.
    + exists f. split; [done|]. by eapply shell_ok_delivered.
    + exists g. split; [done|]. eapply heart_ok_ready; [exact Hok| |apply Hd|unfold uptime_ticks; by rewrite (d_shellw _ _ _ _ _ Hd)].
      by rewrite Hr, copies_heart_shells.
  - cbn [task_queue]. rewrite (d_ready _ _ _ _ _ Hd), (d_held _ _ _ _ _ Hd), copies_app. case_decide; [change (copies SHELL []) with O; lia|].
    destruct Hhe as [Hhe|Hhe]; rewrite Hhe in *;
      [change (copies SHELL (option_list None)) with O|change (copies SHELL (option_list (Some SHELL))) with 1%nat in *;
       change (length (option_list (Some SHELL))) with 1%nat in Ht]; change (length (option_list None)) with O in *; lia.
Qed.

Lemma tick_kwait color e w : kwait color e w -> 0 <= uptime_ticks w < u64_max ->
  kwait color e (tick w) /\ uptime_ticks (tick w) = uptime_ticks w + 1 /\
  DOOM_LAUNCHED (shellw (tick w)) = DOOM_LAUNCHED (shellw w).
Proof.
  intros [Hi Ht] Hu. assert (Hup : uptime_ticks (tick w) = uptime_ticks w + 1).
  { unfold uptime_ticks, tick, wrap64. cbn. fold (uptime_ticks w). rewrite Z.mod_small; unfold u64_mod, u64_max in *; lia. }
  split; [split; [|exact Ht]|by split]. destruct Hi as [Ho Hcap Hwf Hids Hhe (f & Hf & Hsh) (g & Hg & Hok)].
  constructor; try done; [exists f; split; [done|]; by destruct f|]. exists g. split; [done|].
  destruct g as [| | |s]; cbn [heart_ok] in *; [done..|]. rewrite Hup. change (SLEEPERS (tick w)) with (SLEEPERS w).
  intuition lia.
Qed.

(** Fewer scancodes arrive during a turn than the ready queue has room for. *)
Definition event_ok (ev : kevent) : Prop :=
  match ev with Turn arrivals => (length (concat arrivals) <= QUEUE_SIZE - 2)%nat | _ => True end.

Definition kept (color : Z) (w : kworld) (n : nat) (r : outcome (Executor (Q := Q) kfuture * kworld)) : Prop :=
  match r with
  | Ok (e', w') => kwait color e' w' /\ uptime_ticks w <= uptime_ticks w' <= uptime_ticks w + Z.of_nat n /\
      (DOOM_LAUNCHED (shellw w) = true -> DOOM_LAUNCHED (shellw w') = true)
  | Panic p => p = ExplicitPanic /\ DOOM_LAUNCHED (shellw w) = false
  end.

Lemma kstep_kept color e w ev : kwait color e w -> 0 <= uptime_ticks w < u64_max -> event_ok ev ->
  kept color w 1 (kstep (e, w) ev).
Proof.
  intros Hk Hu Hev. destruct ev as [sc| |arrivals]; cbn [kstep].
  - destruct (key_kwait color e w sc Hk) as (w' & q' & -> & [Hu' Hd'] & Hk'). cbn [mbind outcome_bind kept].
    split; [done|]. split; [lia|done].
  - destruct (tick_kwait color e w Hk Hu) as (Hk' & Hu' & Hd'). cbn [kept]. split; [done|]. split; [lia|by rewrite Hd'].
  - pose proof (executor_turn_ok color e w arrivals Hk (proj2 Hu) Hev) as H.
    destruct (executor_turn e w arrivals) as [[[h e'] w']|p]; cbn [mbind outcome_bind kept]; [|exact H].
    destruct H as (_ & Hi & Hs & [Hu' Hd']). split; [by apply settled_kwait|]. split; [lia|done].
Qed.

Lemma krun_kept color evs e w : kwait color e w -> 0 <= uptime_ticks w -> uptime_ticks w + Z.of_nat (length evs) <= u64_max ->
  Forall event_ok evs -> kept color w (length evs) (krun (e, w) evs).
Proof.
  intros Hk Hu Hb Hev. revert e w Hk Hu Hb. induction Hev as [|ev evs Hev _ IH]; intros e w Hk Hu Hb.
  { cbn. split; [done|]. split; [lia|done]. }
  cbn [krun length] in *. pose proof (kstep_kept color e w ev Hk ltac:(lia) Hev) as H1.
  destruct (kstep (e, w) ev) as [[e1 w1]|p]; cbn [mbind outcome_bind kept] in *; [|exact H1].
  destruct H1 as (Hk1 & Hu1 & Hd1). specialize (IH e1 w1 Hk1 ltac:(lia) ltac:(lia)).
  destruct (krun (e1, w1) evs) as [[e2 w2]|p]; cbn [kept] in *.
  - destruct IH as (Hk2 & Hu2 & Hd2). split; [done|]. split; [lia|auto].
  - destruct IH as [-> Hd]. split; [done|]. destruct (DOOM_LAUNCHED (shellw w)); [|done]. by rewrite Hd1 in Hd.
Qed.

Lemma krun_snoc st evs ev : krun st (evs ++ [ev]) = (st ← krun st evs; kstep st ev).
Proof.
  revert st. induction evs as [|ev1 evs IH]; intros st; cbn [krun app].
  - cbn [mbind outcome_bind]. destruct (kstep st ev) as [st1|]; reflexivity.
  - destruct (kstep st ev1) as [st1|]; [|done]. cbn [mbind outcome_bind]. apply IH.
Qed.

(** Events followed by a turn. *)
Lemma session_settles color evs arrivals e w : kwait color e w ->
  0 <= uptime_ticks w -> uptime_ticks w + Z.of_nat (length evs) < u64_max -> Forall event_ok (evs ++ [Turn arrivals]) ->
  match krun (e, w) (evs ++ [Turn arrivals]) with
  | Ok (e, w) => settled color e w
  | Panic p => p = ExplicitPanic /\ DOOM_LAUNCHED (shellw w) = false
  end.
Proof.
  intros Hk Hu0 Hu [Hev Ht]%Forall_app. rewrite krun_snoc. apply Forall_cons_1 in Ht as [Ht _].
  pose proof (krun_kept color evs e w Hk Hu0 ltac:(lia) Hev) as H.
  destruct (krun _ _) as [[e1 w1]|p]; cbn [mbind outcome_bind kept kstep] in *; [|exact H].
  destruct H as (Hk1 & Hu1 & Hd1).
  pose proof (executor_turn_ok color e1 w1 arrivals Hk1 ltac:(lia) Ht) as H2.
  destruct (executor_turn _ _ _) as [[[h e2] w2]|p]; cbn [mbind outcome_bind]; [by destruct H2 as (_ & _ & ? & _)|].
  destruct H2 as [-> Hd]. split; [done|]. destruct (DOOM_LAUNCHED (shellw w)); [|done]. by rewrite Hd1 in Hd.
Qed.

(** The queues as [kernel_main] leaves them. *)
Definition boot_world (s : world) : kworld :=
  mk_kworld s (init_scancode_queue (mk_scancodes None aw_new)) [] [] [].

Lemma boot_queues : exists q1 q2, aq_push (aq_new QUEUE_SIZE : Q) 0 = Some q1 /\ aq_push q1 1 = Some q2 /\
  aq_items q2 = [0; 1] /\ aq_capacity q2 = QUEUE_SIZE.
Proof.
  destruct (aq_new_spec (A := Z) (Q := Q) QUEUE_SIZE ltac:(unfold QUEUE_SIZE; lia)) as [Hi0 Hc0].
  pose proof (aq_push_spec (aq_new QUEUE_SIZE : Q) 0) as H1. rewrite Hi0, Hc0 in H1.
  destruct (aq_push (aq_new QUEUE_SIZE) 0) as [q1|]; [|cbn in H1; unfold QUEUE_SIZE in H1; lia].
  destruct H1 as (_ & Hi1 & Hc1). pose proof (aq_push_spec q1 1) as H2. rewrite Hi1, Hc1 in H2.
  destruct (aq_push q1 1) as [q2|] eqn:E2; [|cbn in H2; unfold QUEUE_SIZE in H2; lia].
  destruct H2 as (_ & Hi2 & Hc2). exists q1, q2. done.
Qed.

Lemma boot_executor_eq : exists q, boot_executor = Ok (mk_executor _ {[HEART := HeartStart; SHELL := ShellStart]} q ∅) /\
  aq_items q = [SHELL; HEART] /\ aq_capacity q = QUEUE_SIZE.
Proof.
  destruct boot_queues as (q1 & q2 & E1 & E2 & Hi & Hc). exists q2. split; [|done].
  unfold boot_executor, TaskId_new, executor_spawn, executor_new. cbn [tasks task_queue waker_cache].
  rewrite lookup_empty, E1. cbn [expect mbind outcome_bind tasks task_queue waker_cache].
  change (wrap64 (0 + 1)) with 1. rewrite lookup_insert_ne, lookup_empty by done. by rewrite E2.
Qed.

Lemma boot_returns : returns boot_executor.
Proof. destruct boot_executor_eq as (q & -> & _). by eexists. Qed.

Lemma boot_kwait color s live t : world_ok s live -> system_shows (sys s) color t ->
  exists e, boot_executor = Ok e /\ kwait color e (boot_world s).
Proof.
  intros Hw Hs. destruct boot_executor_eq as (q2 & -> & Hi2 & Hc2).
  destruct (aq_new_spec (A := Z) (Q := SQ) QUEUE_SIZE ltac:(unfold QUEUE_SIZE; lia)) as [Hsi0 _].
  eexists. split; [reflexivity|]. split.
  - constructor; cbn [task_queue tasks waker_cache]; rewrite ?Hi2.
    + by eexists.
    + done.
    + intros id x. cbn [waker_cache]. by rewrite lookup_empty.
    + constructor; [by left|apply Forall_singleton; by right].
    + left. apply aw_new_spec.
    + eexists. split; [done|]. split; [left|]. split; [symmetry; exact Hsi0|]. split; [by exists live|by exists t].
    + eexists. split; [done|]. done.
  - cbn [task_queue]. rewrite Hi2. unfold held. cbn. rewrite aw_new_spec. by vm_compute.
Qed.

End Runtime.

(** ** Theorems *)

Section Theorems.
Context {Heap : Type} `{!HeapAllocator Heap} {K Ev : Type} `{!KeyDecoder K Ev}.
Context {Q SQ C : Type} `{!ArrayQueue Z Q} `{!ArrayQueue Z SQ} `{!AtomicWaker Z C}.
Variable alloc_mem : Heap -> Layout -> memory -> memory.
Variables doom_entry junk : Z.

(** C22. A turn of the executor's loop ends.  However many scancodes are queued, and however
    up to 98 more arrive while the tasks are polled, [run_ready_tasks] runs dry and the
    turn ends in [hlt] with nothing left to do: the scancode queue is empty, the shell's
    line is that of everything typed, its waker is in place, and the heartbeat sleeps for
    at most its period.  Only a first [doom] without room on the heap panics instead. *)
Theorem executor_turn_settles color (e : Executor (Q := Q) kfuture) (w : kworld (SQ := SQ) (C := C)) arrivals :
  is_u64 doom_entry -> kwait color e w -> uptime_ticks w < u64_max ->
  (length (concat arrivals) <= QUEUE_SIZE - 2)%nat ->
  match executor_turn alloc_mem doom_entry junk e w arrivals with
  | Ok (halts, e', w') => halts = true /\ settled color e' w' /\ uptime_ticks w' = uptime_ticks w
  | Panic p => p = ExplicitPanic /\ DOOM_LAUNCHED (shellw w) = false
  end.
Proof.
  intros He Hk Hu Ha. pose proof (executor_turn_ok alloc_mem doom_entry junk He color e w arrivals Hk Hu Ha) as H.
  destruct (executor_turn _ _ _ _ _ _) as [[[h e'] w']|p]; [|exact H].
  destruct H as (Hh & _ & Hs & Hst & _). by split.
Qed.

(** What is typed reaches the shell.  From boot on, for any sequence of keyboard
    interrupts, timer interrupts and turns of the executor with interrupts inside them, no
    queue overflows into a panic, and after each turn the shell's line is the one that the
    scancodes accepted so far spell, the screen shows it behind the prompt as long as it
    has fit, and both tasks can be woken. *)
Theorem typed_reaches_shell color (s : world (S := Heap)) live t evs arrivals :
  is_u64 doom_entry -> world_ok s live -> system_shows (sys s) color t ->
  0 <= sys_uptime (sys s) -> sys_uptime (sys s) + Z.of_nat (length evs) < u64_max ->
  Forall event_ok (evs ++ [Turn arrivals]) ->
  match (e ← boot_executor (K := K) (Q := Q);
         st ← krun alloc_mem doom_entry junk (e, boot_world (SQ := SQ) (C := C) s) evs;
         kstep alloc_mem doom_entry junk st (Turn arrivals)) with
  | Ok (e, w) => settled color e w
  | Panic p => p = ExplicitPanic /\ DOOM_LAUNCHED s = false
  end.
Proof.
  intros He Hw Hs Hu0 Hu Hev.
  destruct (boot_kwait (K := K) (Q := Q) (SQ := SQ) (C := C) color s live t Hw Hs) as (e & -> & Hk). cbn [mbind outcome_bind].
  rewrite <- krun_snoc. by apply (session_settles alloc_mem doom_entry junk He color evs arrivals e (boot_world s)).
Qed.

End Theorems.

(** ** Sessions *)

Module RuntimeDemo.
Import ListQueue ShellDemo.

Definition run (evs : list kevent) : outcome (Executor (Q := t) kfuture * kworld (SQ := t) (C := option Z)) :=
  e ← boot_executor (K := unit); krun no_mem 0x400000 0 (e, boot_world (screen0 true)) evs.

Lemma screen0_world : world_ok (screen0 true) [] /\ system_shows (sys (screen0 true)) 14 (mk_terminal [] PROMPT).
Proof.
  split; [|split; [done|]; split; [constructor|cbn; unfold BUFFER_WIDTH; lia]].
  split; [eexists; split; [done|by apply Forall_singleton]|]. split; [split; cbn; (done || lia)|]. by vm_compute.
Qed.

Lemma typed_reaches_shell_witness :
  match (e ← boot_executor (K := unit) (Q := t);
         st ← krun no_mem 0x400000 0 (e, boot_world (SQ := t) (C := option Z) (screen0 true))
                [Turn []; KeyIrq 0x68; TimerIrq; KeyIrq 0x69];
         kstep no_mem 0x400000 0 st (Turn [[0x21]; []; [0x21]])) with
  | Ok (e, w) => settled 14 e w
  | Panic p => p = ExplicitPanic /\ DOOM_LAUNCHED (screen0 true) = false
  end.
Proof.
  apply (typed_reaches_shell no_mem 0x400000 0 14 (screen0 true) [] (mk_terminal [] PROMPT)).
  - by vm_compute.
  - apply screen0_world.
  - apply screen0_world.
  - by vm_compute.
  - by vm_compute.
  - repeat constructor; vm_compute; lia.
Defined.

Lemma executor_turn_settles_witness : exists e,
  boot_executor (K := unit) (Q := t) = Ok e /\
  match executor_turn no_mem 0x400000 0 e (boot_world (SQ := t) (C := option Z) (screen0 true)) [[0x68]; [0x69; 13]] with
  | Ok (halts, e', w') => halts = true /\ settled 14 e' w' /\
      uptime_ticks w' = uptime_ticks (boot_world (SQ := t) (C := option Z) (screen0 true))
  | Panic p => p = ExplicitPanic /\ DOOM_LAUNCHED (screen0 true) = false
  end.
Proof.
  destruct (boot_kwait (K := unit) (Q := t) (SQ := t) (C := option Z) 14 (screen0 true) [] (mk_terminal [] PROMPT))
    as (e & E & Hk); [apply screen0_world..|].
  exists e. split; [exact E|].
  apply (executor_turn_settles no_mem 0x400000 0 14 e (boot_world (screen0 true)) [[0x68]; [0x69; 13]]).
  - by vm_compute.
  - exact Hk.
  - by vm_compute.
  - vm_compute. lia.
Defined.

(** The bound on arrivals is needed.  Each [poll_next] puts the waker back, so each
    scancode that arrives after one wakes the shell again although it is running; when the
    keyboard keeps pace with one poll of the shell for more than a hundred scancodes, the ready queue
    is full and [expect("task_queue full")] panics inside the interrupt handler. *)
Lemma ready_queue_overflows :
  (fst <$> run [Turn []; KeyIrq 0x61; Turn (replicate 202 [0x61])]) = Panic ExpectFailed /\
  is_ok (run [Turn []; KeyIrq 0x61; Turn (replicate 98 [0x61])]) = true.
Proof. split; vm_compute; reflexivity. Qed.

End RuntimeDemo.

