(* ===== verification/Cpu.v ===== *)
(** * Descriptor tables, interrupt controller and control registers
    (src/gdt.rs, src/lib.rs [init], src/interrupts.rs [IDT] and the exception handlers,
    src/serial.rs)

    What [moltos::init] sets up, and where the processor ends for each interrupt vector
    then.  The descriptor table and the interrupt controller are the [x86_64] and
    [pic8259] crates': they are interfaces with their documented behaviour. *)

From stdpp Require Import gmap.
From S2P Require Import Prelude Fmt Interrupts Syscall.

(** ** Segments (src/gdt.rs) *)

Inductive Descriptor := KernelCodeSegment | TssSegment (tss : list Z).

(** [add_entry] answers the selector of the descriptor it adds; earlier selectors stay
    valid. *)
Class DescriptorTable (G Sel : Type) := {
  gdt_new : G;
  gdt_add_entry : G -> Descriptor -> Sel * G;
  gdt_entry : G -> Sel -> option Descriptor;
  gdt_add_spec g d : gdt_entry (snd (gdt_add_entry g d)) (fst (gdt_add_entry g d)) = Some d;
  gdt_add_keeps g d s d' : gdt_entry g s = Some d' -> gdt_entry (snd (gdt_add_entry g d)) s = Some d';
}.

Definition DOUBLE_FAULT_IST_INDEX : Z := 0.
Definition DOUBLE_FAULT_STACK_SIZE : Z := 4096 * 5.

(** [TSS]: seven interrupt stacks, all unset but the double fault's, which is the top of
    the static [STACK] at [stack]. *)
Definition TSS (stack : Z) : outcome (list Z) :=
  top ← stack +! DOUBLE_FAULT_STACK_SIZE;
  index_set (replicate 7 0) (Z.to_nat DOUBLE_FAULT_IST_INDEX) top.

Section Tables.
Context {G Sel : Type} `{!DescriptorTable G Sel}.

Record Selectors := mk_selectors { code_selector : Sel; tss_selector : Sel }.

Definition GDT (tss : list Z) : G * Selectors :=
  let '(code, gdt) := gdt_add_entry gdt_new KernelCodeSegment in
  let '(ts, gdt) := gdt_add_entry gdt (TssSegment tss) in
  (gdt, mk_selectors code ts).

End Tables.

(** ** The interrupt descriptor table (src/interrupts.rs) *)

Inductive handler :=
  | breakpoint_handler | page_fault_handler | gp_fault_handler | stack_segment_fault_handler
  | segment_not_present_handler | invalid_opcode_handler | double_fault_handler
  | timer_entry | keyboard_entry | syscall_entry.

#[global] Instance handler_eq_dec : EqDecision handler.
Proof. solve_decision. Defined.

(** A present gate; [stack_index] selects a stack of the TSS. *)
Record gate := mk_gate { gate_handler : handler; stack_index : option Z }.

Definition idt := gmap Z gate.

Definition set_handler (v : Z) (h : handler) (t : idt) : idt := <[v := mk_gate h None]> t.

(** The gates of exceptions go by name in the table's type; others by index, which is
    checked. *)
Definition idt_index (v : Z) : outcome Z := if (32 <=? v) && (v <? 256) then Ok v else Panic IndexOutOfRange.

Definition IDT : outcome idt :=
  let t := set_handler 3 breakpoint_handler ∅ in
  let t := set_handler 14 page_fault_handler t in
  let t := set_handler 13 gp_fault_handler t in
  let t := set_handler 12 stack_segment_fault_handler t in
  let t := set_handler 11 segment_not_present_handler t in
  let t := set_handler 6 invalid_opcode_handler t in
  let t := <[8 := mk_gate double_fault_handler (Some DOUBLE_FAULT_IST_INDEX)]> t in
  timer ← idt_index (index_as_u8 TimerIndex);
  let t := set_handler timer timer_entry t in
  keyboard ← idt_index (index_as_u8 KeyboardIndex);
  let t := set_handler keyboard keyboard_entry t in
  sys ← idt_index SYSCALL_VECTOR;
  Ok (set_handler sys syscall_entry t).

(** *** How the processor delivers a vector

    A missing gate raises #NP (11); if the vector was itself a fault of the contributory
    class or a page fault, the second fault becomes a double fault (8). *)
Inductive delivery := Handled (v : Z) (g : gate) | TripleFault.

Definition contributory (v : Z) : bool := bool_decide (v ∈ [0; 10; 11; 12; 13; 14]).

Definition deliver (t : idt) (v : Z) : delivery :=
  let double_fault := match t !! 8 with Some g => Handled 8 g | None => TripleFault end in
  match t !! v with
  | Some g => Handled v g
  | None =>
      if v =? 8 then TripleFault
      else if contributory v then double_fault
      else match t !! 11 with Some g => Handled 11 g | None => double_fault end
  end.

(** ** Serial output and the exception handlers *)

(** The bytes sent to COM1, and what the text console is asked to print. *)
Record output := mk_output { serial : list Z; console : list Z }.

Definition serial_print (o : output) (s : list Z) : output := mk_output (serial o ++ s) (console o).
Definition serial_println (o : output) (s : list Z) : output := serial_print o (s ++ [10]).

(** A handler returns to what was interrupted, or halts for good in [hlt_loop]. *)
Inductive handler_end := Resumes | Halts.

Section Handlers.
(** The [Debug] texts of the interrupt frame, of the page fault's error code and of CR2. *)
Variable Frame : Type.
Variables (fmt_frame : Frame -> list Z) (fmt_pf_code fmt_addr : Z -> list Z).

Definition report (o : output) (what : list Z) (f : Frame) : output * handler_end :=
  let o := serial_println o what in
  (serial_println o (str "Stack Frame: " ++ fmt_frame f), Halts).

Definition with_code (what : list Z) (error_code : Z) : list Z :=
  what ++ str " (code=0x" ++ fmt_hex error_code ++ str ")".

(** The exception handlers; [cr2] is the faulting address. *)
Definition handle_exception (h : handler) (f : Frame) (error_code cr2 : Z) (o : output) : option (output * handler_end) :=
  match h with
  | gp_fault_handler => Some (report o (with_code (str "EXCEPTION: GENERAL PROTECTION FAULT") error_code) f)
  | stack_segment_fault_handler => Some (report o (with_code (str "EXCEPTION: STACK SEGMENT FAULT") error_code) f)
  | segment_not_present_handler => Some (report o (with_code (str "EXCEPTION: SEGMENT NOT PRESENT") error_code) f)
  | invalid_opcode_handler => Some (report o (str "EXCEPTION: INVALID OPCODE") f)
  | breakpoint_handler =>
      Some (mk_output (serial o) (console o ++ str "EXCEPTION: BREAKPOINT" ++ [10] ++ fmt_frame f ++ [10]), Resumes)
  | page_fault_handler =>
      let o := serial_println o (str "EXCEPTION: PAGE FAULT") in
      let o := serial_println o (str "Accessed Address: " ++ fmt_addr cr2) in
      let o := serial_println o (str "Error Code: " ++ fmt_pf_code error_code) in
      Some (serial_println o (str "Stack Frame: " ++ fmt_frame f), Halts)
  | double_fault_handler => Some (report o (str "EXCEPTION: DOUBLE FAULT") f)
  | timer_entry | keyboard_entry | syscall_entry => None
  end.

End Handlers.

(** ** [moltos::init] (src/lib.rs) *)

(** The two interrupt controllers.  [initialize] programs the vector offsets given to
    [new]; [write_masks] sets the two mask registers and nothing else. *)
Class ChainedPics (P : Type) := {
  pics_new : Z -> Z -> P;
  pics_initialize : P -> P;
  pics_write_masks : P -> Z -> Z -> P;
  pics_vector : P -> Z -> Z;
  pics_masks : P -> Z * Z;
  pics_vector_spec o1 o2 irq : 0 <= irq < 16 ->
    pics_vector (pics_initialize (pics_new o1 o2)) irq = if irq <? 8 then o1 + irq else o2 + (irq - 8);
  pics_write_spec p m1 m2 :
    pics_masks (pics_write_masks p m1 m2) = (m1, m2) /\
    forall irq, pics_vector (pics_write_masks p m1 m2) irq = pics_vector p irq;
}.

(** The assembly block: CR0 without EM, with MP. *)
Definition sse_cr0 (cr0 : Z) : Z := Z.lor (Z.land cr0 (not64 (Z.shiftl 1 2))) (Z.shiftl 1 1).
(** CR4 with OSFXSR and OSXMMEXCPT. *)
Definition sse_cr4 (cr4 : Z) : Z := Z.lor cr4 (Z.shiftl 3 9).

(** [0xFF & !((1 << 0) | (1 << 1))] *)
Definition PIC1_MASK : Z := Z.land 0xFF (Z.lxor 0xFF (Z.lor (Z.shiftl 1 0) (Z.shiftl 1 1))).

Section Init.
Context {G Sel : Type} `{!DescriptorTable G Sel} {P : Type} `{!ChainedPics P}.

(** The system registers, the interrupt controllers, the port writes and the interrupt
    flag. *)
Record system_regs := mk_sysregs {
  gdtr : option G;
  reg_cs : option Sel;
  reg_tr : option Sel;
  idtr : option idt;
  PICS : P;
  port_writes : list (Z * Z);
  cr0 : Z;
  cr4 : Z;
  interrupt_flag : bool;
}.

(** [gdt::init] *)
Definition gdt_init (stack : Z) (r : system_regs) : outcome system_regs :=
  tss ← TSS stack;
  let '(gdt, sel) := GDT (G := G) tss in
  Ok (mk_sysregs (Some gdt) (Some (code_selector sel)) (Some (tss_selector sel)) (idtr r) (PICS r) (port_writes r)
        (cr0 r) (cr4 r) (interrupt_flag r)).

Definition init_idt (r : system_regs) : outcome system_regs :=
  t ← IDT;
  Ok (mk_sysregs (gdtr r) (reg_cs r) (reg_tr r) (Some t) (PICS r) (port_writes r) (cr0 r) (cr4 r) (interrupt_flag r)).

Definition set_interrupts (b : bool) (r : system_regs) : system_regs :=
  mk_sysregs (gdtr r) (reg_cs r) (reg_tr r) (idtr r) (PICS r) (port_writes r) (cr0 r) (cr4 r) b.

(** [moltos::init] *)
Definition init (stack : Z) (r : system_regs) : outcome system_regs :=
  r ← gdt_init stack r;
  r ← init_idt r;
  let pics := pics_initialize (PICS r) in
  pit ← configure_pit 100;
  let pics := pics_write_masks pics PIC1_MASK 0xFF in
  let r := mk_sysregs (gdtr r) (reg_cs r) (reg_tr r) (idtr r) pics (port_writes r ++ pit)
             (sse_cr0 (cr0 r)) (sse_cr4 (cr4 r)) (interrupt_flag r) in
  Ok (set_interrupts true r).

(** ** What it sets up *)

(** An interrupt line reaches the processor. *)
Definition unmasked (p : P) (irq : Z) : bool :=
  let '(m1, m2) := pics_masks p in
  if irq <? 8 then negb (Z.testbit m1 irq) else negb (Z.testbit m2 (irq - 8)).

(** Where each vector ends. *)
Definition vector_handler (v : Z) : handler :=
  if v =? 3 then breakpoint_handler else if v =? 6 then invalid_opcode_handler
  else if v =? 12 then stack_segment_fault_handler else if v =? 13 then gp_fault_handler
  else if v =? 14 then page_fault_handler
  else if v =? 32 then timer_entry else if v =? 33 then keyboard_entry
  else if v =? 128 then syscall_entry
  else if (v =? 0) || (v =? 8) || (v =? 10) then double_fault_handler
  else segment_not_present_handler.

Record cpu_ready (stack : Z) (r0 r : system_regs) : Prop := {
  c_segments : exists g cs tr tss, gdtr r = Some g /\ reg_cs r = Some cs /\ reg_tr r = Some tr /\
    gdt_entry g cs = Some KernelCodeSegment /\ gdt_entry g tr = Some (TssSegment tss) /\
    tss !! Z.to_nat DOUBLE_FAULT_IST_INDEX = Some (stack + DOUBLE_FAULT_STACK_SIZE);
  c_vectors : exists t, idtr r = Some t /\ forall v, 0 <= v < 256 ->
    exists v' g, deliver t v = Handled v' g /\ gate_handler g = vector_handler v /\
      (stack_index g = Some DOUBLE_FAULT_IST_INDEX <-> gate_handler g = double_fault_handler);
  c_lines : forall irq, 0 <= irq < 16 -> unmasked (PICS r) irq = (irq <? 2);
  c_irqs : pics_vector (PICS r) 0 = index_as_u8 TimerIndex /\ pics_vector (PICS r) 1 = index_as_u8 KeyboardIndex;
  c_pit : exists pit, port_writes r = port_writes r0 ++ pit /\ configure_pit 100 = Ok pit;
  c_cr0 : forall i, 0 <= i < 64 ->
    Z.testbit (cr0 r) i = if i =? 2 then false else if i =? 1 then true else Z.testbit (cr0 r0) i;
  c_cr4 : forall i, 0 <= i < 64 ->
    Z.testbit (cr4 r) i = if (i =? 9) || (i =? 10) then true else Z.testbit (cr4 r0) i;
}.

Lemma sse_cr0_bits c i : 0 <= i < 64 ->
  Z.testbit (sse_cr0 c) i = if i =? 2 then false else if i =? 1 then true else Z.testbit c i.
Proof.
  intros Hi. unfold sse_cr0, not64. change u64_max with (Z.ones 64). rewrite Z.lor_spec, Z.land_spec, Z.lxor_spec.
  rewrite Z.ones_spec_low by lia. change (Z.shiftl 1 2) with (2 ^ 2). change (Z.shiftl 1 1) with (2 ^ 1).
  rewrite !Z.pow2_bits_eqb, (Z.eqb_sym 2 i), (Z.eqb_sym 1 i) by lia.
  destruct (Z.testbit c i), (Z.eqb_spec i 2), (Z.eqb_spec i 1); done || lia.
Qed.

Lemma sse_cr4_bits c i : 0 <= i < 64 ->
  Z.testbit (sse_cr4 c) i = if (i =? 9) || (i =? 10) then true else Z.testbit c i.
Proof.
  intros Hi. unfold sse_cr4. rewrite Z.lor_spec. change (Z.shiftl 3 9) with (Z.lor (2 ^ 9) (2 ^ 10)).
  rewrite Z.lor_spec, !Z.pow2_bits_eqb, (Z.eqb_sym 9 i), (Z.eqb_sym 10 i) by lia.
  destruct (i =? 9), (i =? 10), (Z.testbit c i); done.
Qed.

(** A check of the finitely many vectors or lines. *)
Definition all_below (n : nat) (p : Z -> bool) : bool := forallb (fun i => p (Z.of_nat i)) (seq 0 n).

Lemma all_below_spec n p v : all_below n p = true -> 0 <= v < Z.of_nat n -> p v = true.
Proof.
  unfold all_below. rewrite forallb_forall. intros H Hv. specialize (H (Z.to_nat v)). rewrite Z2Nat.id in H by lia.
  apply H. apply in_seq. lia.
Qed.

Lemma idt_vectors : exists t, IDT = Ok t /\ forall v, 0 <= v < 256 ->
  exists v' g, deliver t v = Handled v' g /\ gate_handler g = vector_handler v /\
    (stack_index g = Some DOUBLE_FAULT_IST_INDEX <-> gate_handler g = double_fault_handler).
Proof.
  destruct IDT as [t|] eqn:E; [|by vm_compute in E]. exists t. split; [done|]. intros v Hv.
  assert (H : all_below 256 (fun v => match deliver t v with
    | Handled _ g => bool_decide (gate_handler g = vector_handler v) &&
        eqb (bool_decide (stack_index g = Some DOUBLE_FAULT_IST_INDEX)) (bool_decide (gate_handler g = double_fault_handler))
    | TripleFault => false end) = true) by (injection E as <-; vm_compute; reflexivity).
  apply (all_below_spec _ _ v) in H; [|lia]. cbv beta in H. destruct (deliver t v) as [v' g|]; [|done]. exists v', g.
  apply andb_prop in H as [H1%bool_decide_eq_true_1 H2%eqb_prop]. split; [done|]. split; [done|].
  rewrite <- (bool_decide_eq_true (stack_index g = _)), <- (bool_decide_eq_true (gate_handler g = double_fault_handler)). by rewrite H2.
Qed.

Lemma unmasked_lines p irq : 0 <= irq < 16 -> unmasked (pics_write_masks p PIC1_MASK 0xFF) irq = (irq <? 2).
Proof.
  intros Hi. unfold unmasked. destruct (pics_write_spec p PIC1_MASK 0xFF) as [-> _].
  assert (H : all_below 16 (fun irq => eqb (if irq <? 8 then negb (Z.testbit PIC1_MASK irq) else negb (Z.testbit 0xFF (irq - 8)))
    (irq <? 2)) = true) by (vm_compute; reflexivity).
  apply (all_below_spec _ _ irq) in H; [|lia]. by apply eqb_prop.
Qed.

Lemma TSS_ok stack : stack + DOUBLE_FAULT_STACK_SIZE <= u64_max ->
  exists tss, TSS stack = Ok tss /\ tss !! Z.to_nat DOUBLE_FAULT_IST_INDEX = Some (stack + DOUBLE_FAULT_STACK_SIZE).
Proof. intros Hs. unfold TSS. rewrite u64_add_returns by done. by eexists. Qed.

Lemma init_idt_loaded stack r r' : init stack r = Ok r' -> exists t, idtr r' = Some t /\ IDT = Ok t.
Proof.
  unfold init. destruct (gdt_init stack r) as [r1|]; [|done]. cbn [mbind outcome_bind]. unfold init_idt.
  destruct IDT as [t|]; [|done]. cbn [mbind outcome_bind]. destruct (configure_pit 100) as [pit|]; [|done].
  cbn [mbind outcome_bind]. intros [= <-]. by exists t.
Qed.

(** The two selectors of the table. *)
Lemma GDT_entries tss : let '(g, sel) := GDT (G := G) tss in
  gdt_entry g (code_selector sel) = Some KernelCodeSegment /\ gdt_entry g (tss_selector sel) = Some (TssSegment tss).
Proof.
  unfold GDT. pose proof (gdt_add_spec (G := G) gdt_new KernelCodeSegment) as H1.
  destruct (gdt_add_entry gdt_new KernelCodeSegment) as [code g1]. cbn [fst snd] in H1.
  pose proof (gdt_add_spec g1 (TssSegment tss)) as H2. pose proof (gdt_add_keeps g1 (TssSegment tss) code _ H1) as H3.
  by destruct (gdt_add_entry g1 (TssSegment tss)) as [ts g2].
Qed.

Lemma init_ready stack r : PICS r = pics_new PIC_1_OFFSET PIC_2_OFFSET -> stack + DOUBLE_FAULT_STACK_SIZE <= u64_max ->
  exists r', init stack r = Ok r' /\ cpu_ready stack r r' /\ interrupt_flag r' = true.
Proof.
  intros Hp Hs'. unfold init, gdt_init, init_idt. destruct (TSS_ok stack Hs') as (tss & -> & Htss).
  destruct idt_vectors as (t & Et & Hv). rewrite Et. destruct (configure_pit 100) as [pit|] eqn:Epit; [|by vm_compute in Epit].
  cbn [mbind outcome_bind]. pose proof (GDT_entries tss) as Hg. destruct (GDT (G := G) tss) as [g sel].
  cbn [mbind outcome_bind gdtr reg_cs reg_tr idtr PICS port_writes cr0 cr4 interrupt_flag].
  eexists. split; [reflexivity|]. split; [|done]. constructor; cbn [gdtr reg_cs reg_tr idtr PICS port_writes cr0 cr4 set_interrupts].
  - destruct Hg as [Hcode Htr]. exists g, (code_selector sel), (tss_selector sel), tss. by do 5 (split; [done|]).
  - by exists t.
  - intros irq Hi. by apply unmasked_lines.
  - destruct (pics_write_spec (pics_initialize (PICS r)) PIC1_MASK 0xFF) as [_ ->].
    destruct (pics_write_spec (pics_initialize (PICS r)) PIC1_MASK 0xFF) as [_ H]. rewrite H, Hp.
    by rewrite !pics_vector_spec by lia.
  - by exists pit.
  - intros i Hi. by apply sse_cr0_bits.
  - intros i Hi. by apply sse_cr4_bits.
Qed.

End Init.

(** ** Theorems *)

Section Theorems.
Context {G Sel : Type} `{!DescriptorTable G Sel} {P : Type} `{!ChainedPics P}.


End Theorems.

(** *** Exceptions *)

Definition is_exception (h : handler) : bool :=
  match h with timer_entry | keyboard_entry | syscall_entry => false | _ => true end.

Lemma handle_exception_ends {Frame} (fmt_frame : Frame -> list Z) fmt_pf_code fmt_addr h f code cr2 o :
  is_exception h = true ->
  exists o' report, handle_exception Frame fmt_frame fmt_pf_code fmt_addr h f code cr2 o =
      Some (o', if bool_decide (h = breakpoint_handler) then Resumes else Halts) /\
    serial o' = serial o ++ report /\ (h <> breakpoint_handler -> report <> []).
Proof.
  destruct h; try done; intros _; do 2 eexists; (split; [reflexivity|]); cbn [serial report serial_println serial_print];
    rewrite <- ?app_assoc; (split; [reflexivity || by rewrite app_nil_r|done]).
Qed.

(** What becomes of an exception: a breakpoint is reported on the console and execution
    resumes; every other exception vector ends in a report on the serial line and a halted
    machine. *)
Theorem exceptions_end {Frame} (fmt_frame : Frame -> list Z) fmt_pf_code fmt_addr f code cr2 o v t :
  IDT = Ok t -> 0 <= v < 32 ->
  exists v' g o' report, deliver t v = Handled v' g /\
    handle_exception Frame fmt_frame fmt_pf_code fmt_addr (gate_handler g) f code cr2 o =
      Some (o', if v =? 3 then Resumes else Halts) /\
    serial o' = serial o ++ report /\ (v <> 3 -> report <> []).
Proof.
  intros Et Hv. destruct idt_vectors as (t' & Et' & H). rewrite Et in Et'. injection Et' as <-.
  destruct (H v ltac:(lia)) as (v' & g & Hd & Hg & _). exists v', g. rewrite Hg.
  assert (Hall : all_below 32 (fun v => is_exception (vector_handler v) &&
    eqb (bool_decide (vector_handler v = breakpoint_handler)) (v =? 3)) = true) by (vm_compute; reflexivity).
  apply (all_below_spec _ _ v) in Hall; [|lia]. apply andb_prop in Hall as [He Hb%eqb_prop].
  destruct (handle_exception_ends fmt_frame fmt_pf_code fmt_addr _ f code cr2 o He) as (o' & rep & E & Hs & Hr).
  exists o', rep. rewrite E, Hb. split; [done|]. split; [done|]. split; [done|]. intros Hne. apply Hr. intros Hh.
  rewrite Hh in Hb. cbn in Hb. symmetry in Hb. by apply Z.eqb_eq in Hb.
Qed.

(** ** Instances *)

Module CpuDemo.

(** A table as a list; the selector is the index. *)
#[global, refine] Instance list_gdt : DescriptorTable (list Descriptor) nat := {
  gdt_new := [];
  gdt_add_entry g d := (length g, g ++ [d]);
  gdt_entry g s := g !! s;
}.
Proof.
  - intros g d. cbn. by rewrite list_lookup_middle.
  - intros g d s d' H. cbn. by apply lookup_app_l_Some.
Defined.

Record pics := mk_pics { o1 : Z; o2 : Z; on : bool; m1 : Z; m2 : Z }.

#[global, refine] Instance plain_pics : ChainedPics pics := {
  pics_new a b := mk_pics a b false 0 0;
  pics_initialize p := mk_pics (o1 p) (o2 p) true (m1 p) (m2 p);
  pics_write_masks p a b := mk_pics (o1 p) (o2 p) (on p) a b;
  pics_vector p irq := if irq <? 8 then o1 p + irq else o2 p + (irq - 8);
  pics_masks p := (m1 p, m2 p);
}.
Proof. all: done. Defined.

Definition reset : system_regs (G := list Descriptor) (Sel := nat) (P := pics) :=
  mk_sysregs None None None None (pics_new PIC_1_OFFSET PIC_2_OFFSET) [] 0x80000011 0x20 false.


End CpuDemo.

