(* ===== verification/CPrintf.v ===== *)
(** * The C library for Doom: formatted output and input (src/ffi/stubs.c
    [fmt_vsnprintf], the printf family and [vsscanf_impl]; src/ffi/mod.rs
    [rust_serial_write])

    Variable arguments are the 64-bit words of the calling convention; [None] is a loop
    out of fuel or behaviour that C leaves undefined, such as a missing argument. *)

From S2P Require Import Prelude Machine Fmt Fs Cpu CLib CString CFloat.

(** ** Output into a bounded buffer *)

(** [va_arg] at the types the formats use. *)
Definition va_int (w : Z) : Z := to_int w.
Definition va_long (w : Z) : Z := to_long w.
Definition va_unsigned (w : Z) : Z := as_u32 w.
Definition va_unsigned_long (w : Z) : Z := wrap64 w.

Section Output.
Variables (buf maxlen : Z).

(** On the memory and [pos].  The argument of the macro is only evaluated if there is
    room: where it is [*s++] or [va_arg], a full buffer also stops the advance. *)
Definition has_room (o : memory * Z) : bool := wrap64 (snd o + 1) <? maxlen.
Definition OUT (o : memory * Z) (c : Z) : memory * Z :=
  if has_room o then (store8 (fst o) (buf + snd o) c, snd o + 1) else o.

Fixpoint out_times (n : nat) (c : Z) (o : memory * Z) : memory * Z :=
  match n with
  | O => o
  | S n => out_times n c (OUT o c)
  end.

Fixpoint out_string (fuel : nat) (s : Z) (o : memory * Z) : option (memory * Z) :=
  match fuel with
  | O => None
  | S fuel =>
      if fst o s =? 0 then Some o
      else out_string fuel (if has_room o then s + 1 else s) (OUT o (fst o s))
  end.

(** The same for the text of a null pointer; without room its loop never ends. *)
Fixpoint out_null (s : list Z) (o : memory * Z) : option (memory * Z) :=
  match s with
  | [] => Some o
  | c :: s => if has_room o then out_null s (OUT o c) else None
  end.

(** The digits, the last one written to [tmp] first; [room] is what is left of [tmp]. *)
Definition digit_char (upper : bool) (d : Z) : Z := if d <? 10 then 48 + d else if upper then 55 + d else 87 + d.
Fixpoint tmp_digits (room : nat) (upper : bool) (base val : Z) (tmp : list Z) : option (list Z) :=
  if val =? 0 then Some tmp else
  match room with
  | O => None
  | S room => tmp_digits room upper base (val / base) (digit_char upper (val mod base) :: tmp)
  end.

Definition out_number (zero_pad : bool) (width : Z) (neg upper : bool) (base val : Z) (o : memory * Z) : option (memory * Z) :=
  tmp ← if val =? 0 then Some [48] else tmp_digits 32 upper base val [];
  let missing := Z.to_nat (width - (Z.of_nat (length tmp) + (if neg then 1 else 0))) in
  let o := if zero_pad then o else out_times missing 32 o in
  let o := if neg then OUT o 45 else o in
  let o := if zero_pad then out_times missing 48 o else o in
  Some (foldl OUT o tmp).

(** ** One directive *)

Definition skip_char (m : memory) (fmt c : Z) : bool * Z := if m fmt =? c then (true, fmt + 1) else (false, fmt).

Fixpoint read_num (fuel : nat) (m : memory) (fmt acc : Z) : option (Z * Z) :=
  match fuel with
  | O => None
  | S fuel =>
      if isdigit (m fmt) then acc ← as_int (acc * 10 + (m fmt - 48)); read_num fuel m (fmt + 1) acc
      else Some (acc, fmt)
  end.

Record directive := mk_dir { zero_pad : bool; width : Z; is_long : bool; spec : Z }.

(** Width and precision; a precision above the width is taken as a zero-padded width. *)
Definition parse_field (fuel : nat) (m : memory) (fmt : Z) (zero_pad : bool) : option (bool * Z * Z) :=
  '(width, fmt) ← read_num fuel m fmt 0;
  let '(dot, fmt) := skip_char m fmt 46 in
  if dot then '(prec, fmt) ← read_num fuel m fmt 0;
              Some (if width <? prec then (true, prec, fmt) else (zero_pad, width, fmt))
  else Some (zero_pad, width, fmt).

(** From after the percent sign to after the conversion character. *)
Definition parse_directive (fuel : nat) (m : memory) (fmt : Z) : option (directive * Z) :=
  let '(_, fmt) := skip_char m fmt 45 in
  let '(zero_pad, fmt) := skip_char m fmt 48 in
  '(zero_pad, width, fmt) ← parse_field fuel m fmt zero_pad;
  let '(is_long, fmt) := skip_char m fmt 108 in
  let fmt := if is_long then snd (skip_char m fmt 108) else fmt in
  Some (mk_dir zero_pad width is_long (m fmt), fmt + 1).

Definition is_decimal (c : Z) : bool := (c =? 100) || (c =? 105).
Definition is_hex (c : Z) : bool := (c =? 120) || (c =? 88).

Definition out_directive (fuel : nat) (d : directive) (args : list Z) (o : memory * Z) : option ((memory * Z) * list Z) :=
  if spec d =? 99 then
    if has_room o then match args with w :: args => Some (OUT o (va_int w), args) | [] => None end
    else Some (o, args)
  else if spec d =? 115 then
    match args with
    | [] => None
    | w :: args => o ← (if w =? 0 then out_null (str "(null)") o else out_string fuel w o); Some (o, args)
    end
  else if is_decimal (spec d) then
    match args with
    | [] => None
    | w :: args =>
        let sv := if is_long d then va_long w else va_int w in
        val ← (if sv <? 0 then as_long (- sv) else Some sv);
        o ← out_number (zero_pad d) (width d) (sv <? 0) false 10 val o;
        Some (o, args)
    end
  else if (spec d =? 117) || is_hex (spec d) then
    match args with
    | [] => None
    | w :: args =>
        let val := if is_long d then va_unsigned_long w else va_unsigned w in
        o ← out_number (zero_pad d) (width d) false (spec d =? 88) (if is_hex (spec d) then 16 else 10) val o;
        Some (o, args)
    end
  else Some (o, args).

(** The loop over the format; [inner] bounds the loops inside of it. *)
Fixpoint format_loop (fuel inner : nat) (fmt : Z) (args : list Z) (o : memory * Z) : option (memory * Z) :=
  match fuel with
  | O => None
  | S fuel =>
      let m := fst o in
      if m fmt =? 0 then Some o else
      if negb (m fmt =? 37) then format_loop fuel inner (if has_room o then fmt + 1 else fmt) args (OUT o (m fmt)) else
      let fmt := fmt + 1 in
      if m fmt =? 0 then Some o else
      if m fmt =? 37 then format_loop fuel inner (fmt + 1) args (OUT o 37) else
      '(d, fmt) ← parse_directive inner m fmt;
      '(o, args) ← out_directive inner d args o;
      format_loop fuel inner fmt args o
  end.

Definition fmt_vsnprintf (fuel : nat) (m : memory) (fmt : Z) (args : list Z) : option (Z * memory) :=
  '(m, pos) ← format_loop fuel fuel fmt args (m, 0);
  let m := if pos <? maxlen then store8 m (buf + pos) 0
           else if 0 <? maxlen then store8 m (buf + (maxlen - 1)) 0 else m in
  Some (to_int pos, m).

End Output.

(** ** The printf family *)

Definition snprintf (fuel : nat) (m : memory) (buf maxlen fmt : Z) (args : list Z) : option (Z * memory) :=
  fmt_vsnprintf buf maxlen fuel m fmt args.

Definition vsnprintf (fuel : nat) (m : memory) (buf maxlen fmt : Z) (ap : list Z) : option (Z * memory) :=
  fmt_vsnprintf buf maxlen fuel m fmt ap.

(** The size [sprintf] assumes of its buffer. *)
Definition sprintf (fuel : nat) (m : memory) (buf fmt : Z) (args : list Z) : option (Z * memory) :=
  fmt_vsnprintf buf 4096 fuel m fmt args.

Definition vsprintf (fuel : nat) (m : memory) (buf fmt : Z) (ap : list Z) : option (Z * memory) :=
  fmt_vsnprintf buf 4096 fuel m fmt ap.

(** The fortified forms drop the size of the buffer they are told. *)
Definition __snprintf_chk (fuel : nat) (m : memory) (buf maxlen flag buflen fmt : Z) (args : list Z) : option (Z * memory) :=
  fmt_vsnprintf buf maxlen fuel m fmt args.

Definition __vsnprintf_chk (fuel : nat) (m : memory) (buf maxlen flag buflen fmt : Z) (ap : list Z) : option (Z * memory) :=
  fmt_vsnprintf buf maxlen fuel m fmt ap.

Definition rust_serial_write (o : output) (m : memory) (s len : Z) : output :=
  let bytes := (fun i => m (s + Z.of_nat i)) <$> seq 0 (Z.to_nat len) in
  if utf8_valid bytes then serial_print o bytes else o.

Definition serial_puts (fuel : nat) (o : output) (m : memory) (s : Z) : option output :=
  n ← strlen fuel m s;
  Some (rust_serial_write o m s n).

Definition puts (fuel : nat) (o : output) (m : memory) (s : Z) : option (Z * output) :=
  o ← serial_puts fuel o m s;
  Some (0, serial_print o [10]).

(** [vprintf_impl]; [buf] is its local array of 512 bytes. *)
Definition vprintf_impl (fuel : nat) (o : output) (m : memory) (buf fmt : Z) (args : list Z) : option (Z * memory * output) :=
  '(r, m) ← fmt_vsnprintf buf 512 fuel m fmt args;
  o ← serial_puts fuel o m buf;
  Some (r, m, o).

Definition printf (fuel : nat) (o : output) (m : memory) (buf fmt : Z) (args : list Z) : option (Z * memory * output) :=
  vprintf_impl fuel o m buf fmt args.

(** Every stream is the serial line. *)
Definition fprintf (fuel : nat) (o : output) (m : memory) (buf stream fmt : Z) (args : list Z) : option (Z * memory * output) :=
  vprintf_impl fuel o m buf fmt args.

(** These answer 0, not the number of bytes. *)
Definition __printf_chk (fuel : nat) (o : output) (m : memory) (buf flag fmt : Z) (args : list Z) : option (Z * memory * output) :=
  '(_, m) ← fmt_vsnprintf buf 512 fuel m fmt args;
  o ← serial_puts fuel o m buf;
  Some (0, m, o).

Definition __fprintf_chk (fuel : nat) (o : output) (m : memory) (buf stream flag fmt : Z) (args : list Z) : option (Z * memory * output) :=
  '(_, m) ← fmt_vsnprintf buf 512 fuel m fmt args;
  o ← serial_puts fuel o m buf;
  Some (0, m, o).

(** ** [sscanf] *)

Definition is_scan_blank (c : Z) : bool := (c =? 32) || (c =? 9) || (c =? 10).

(** The bytes of a word up to the next blank or the end. *)
Fixpoint scan_word (fuel : nat) (m : memory) (str p : Z) : option (memory * Z) :=
  match fuel with
  | O => None
  | S fuel =>
      if (m str =? 0) || is_scan_blank (m str) then Some (store8 m p 0, str)
      else scan_word fuel (store8 m p (m str)) (str + 1) (p + 1)
  end.

Definition skip_blanks_scan (fuel : nat) (m : memory) (str : Z) : option Z :=
  while fuel (fun s => is_scan_blank (m s)) (fun s => s + 1) str.

Definition scan_base (spec : Z) : option Z :=
  if is_hex spec then Some 16 else if spec =? 111 then Some 8
  else if spec =? 117 then Some 10 else if is_decimal spec then Some 0 else None.

(** One conversion: the memory, the rest of the input and of the arguments, or [inr] when
    the loop breaks off. *)
Definition scan_directive (fuel : nat) (m : memory) (str : Z) (args : list Z) (spec : Z) (is_long : bool)
    : option (memory * Z * list Z + unit) :=
  if spec =? 99 then
    match args with
    | [] => None
    | p :: args => Some (if m str =? 0 then inr () else inl (store8 m p (m str), str + 1, args))
    end
  else
    str ← skip_blanks_scan fuel m str;
    if spec =? 115 then
      match args with
      | [] => None
      | p :: args => if m str =? 0 then Some (inr ()) else '(m, str) ← scan_word fuel m str p; Some (inl (m, str, args))
      end
    else match scan_base spec with
    | None => Some (inr ())
    | Some base =>
        '(val, end_) ← strtol fuel m str base;
        if end_ =? str then Some (inr ()) else
        match args with
        | [] => None
        | p :: args => Some (inl (if is_long then store64 m p val else store32 m p val, end_, args))
        end
    end.

Fixpoint scan_loop (fuel inner : nat) (m : memory) (str fmt : Z) (args : list Z) (count : Z) : option (Z * memory) :=
  match fuel with
  | O => None
  | S fuel =>
      if m fmt =? 0 then Some (count, m) else
      if is_scan_blank (m fmt) then
        str ← skip_blanks_scan inner m str;
        scan_loop fuel inner m str (fmt + 1) args count
      else if negb (m fmt =? 37) then
        if m str =? m fmt then scan_loop fuel inner m (str + 1) (fmt + 1) args count else Some (count, m)
      else
        let fmt := fmt + 1 in
        if m fmt =? 37 then scan_loop fuel inner m (if m str =? 37 then str + 1 else str) (fmt + 1) args count else
        let '(is_long, fmt) := skip_char m fmt 108 in
        let fmt := if is_long then snd (skip_char m fmt 108) else
                   let '(half, fmt) := skip_char m fmt 104 in if half then snd (skip_char m fmt 104) else fmt in
        let spec := m fmt in
        let fmt := fmt + 1 in
        r ← scan_directive inner m str args spec is_long;
        match r with
        | inr _ => Some (count, m)
        | inl (m, str, args) => scan_loop fuel inner m str fmt args (count + 1)
        end
  end.

Definition sscanf (fuel : nat) (m : memory) (str fmt : Z) (args : list Z) : option (Z * memory) :=
  scan_loop fuel fuel m str fmt args 0.

Definition __isoc99_sscanf (fuel : nat) (m : memory) (str fmt : Z) (args : list Z) : option (Z * memory) :=
  scan_loop fuel fuel m str fmt args 0.

(** ** What the output should be *)

(** The conversions, and the directives as they are written in a format: the left-align
    flag, the zero flag, a width and a precision (zero when absent), and the number of
    [l] modifiers. *)
Inductive conv := Cc | Cs | Cd | Ci | Cu | Cx | CX.
Definition conv_char (c : conv) : Z :=
  match c with Cc => 99 | Cs => 115 | Cd => 100 | Ci => 105 | Cu => 117 | Cx => 120 | CX => 88 end.

Record dspec := mk_dspec {
  ds_minus : bool; ds_zero : bool; ds_width : Z; ds_prec : option Z; ds_long : nat; ds_conv : conv;
}.

Inductive piece := Lit (c : Z) | Percent | Dir (d : dspec).

Definition opt (b : bool) (c : Z) : list Z := if b then [c] else [].
Definition num (n : Z) : list Z := if n =? 0 then [] else fmt_dec n.
Definition prec_text (p : option Z) : list Z := match p with None => [] | Some p => 46 :: num p end.

Definition dir_text (d : dspec) : list Z :=
  opt (ds_minus d) 45 ++ opt (ds_zero d) 48 ++ num (ds_width d) ++ prec_text (ds_prec d) ++
  replicate (ds_long d) 108 ++ [conv_char (ds_conv d)].

Definition piece_text (p : piece) : list Z :=
  match p with Lit c => [c] | Percent => [37; 37] | Dir d => 37 :: dir_text d end.
Definition format_text (ps : list piece) : list Z := flat_map piece_text ps.

Definition small_int (n : Z) : Prop := 0 <= n <= 2147483647.
Definition piece_ok (p : piece) : Prop :=
  match p with
  | Lit c => 0 < c < 256 /\ c <> 37
  | Percent => True
  | Dir d => small_int (ds_width d) /\ small_int (default 0 (ds_prec d)) /\ (ds_long d <= 2)%nat
  end.

(** A precision above the width replaces it, with zeros. *)
Definition eff_zero (d : dspec) : bool := ds_zero d || (ds_width d <? default 0 (ds_prec d)).
Definition eff_width (d : dspec) : Z := Z.max (ds_width d) (default 0 (ds_prec d)).
Definition eff (d : dspec) : directive :=
  mk_dir (eff_zero d) (eff_width d) (0 <? ds_long d)%nat (conv_char (ds_conv d)).

(** A number in its field. *)
Definition number_text (zero : bool) (w : Z) (neg : bool) (ds : list Z) : list Z :=
  let missing := Z.to_nat (w - Z.of_nat (length (signed neg ds))) in
  if zero then signed neg (replicate missing 48 ++ ds) else replicate missing 32 ++ signed neg ds.

(** What a directive prints for an argument word, [texts] being the strings in memory. *)
Definition dir_render (texts : Z -> list Z) (d : dspec) (w : Z) : list Z :=
  let long := (0 <? ds_long d)%nat in
  let int_text n := number_text (eff_zero d) (eff_width d) (n <? 0) (fmt_dec (Z.abs n)) in
  let uint n := if long then va_unsigned_long n else va_unsigned n in
  match ds_conv d with
  | Cc => [as_u8 w]
  | Cs => if w =? 0 then str "(null)" else texts w
  | Cd | Ci => int_text (if long then va_long w else va_int w)
  | Cu => int_text (uint w)
  | Cx => number_text (eff_zero d) (eff_width d) false (fmt_hex (uint w))
  | CX => number_text (eff_zero d) (eff_width d) false (toupper <$> fmt_hex (uint w))
  end.

Fixpoint render (texts : Z -> list Z) (ps : list piece) (args : list Z) : list Z :=
  match ps with
  | [] => []
  | Lit c :: ps => c :: render texts ps args
  | Percent :: ps => 37 :: render texts ps args
  | Dir d :: ps =>
      match args with
      | [] => []
      | w :: args => dir_render texts d w ++ render texts ps args
      end
  end.

(** Literals, characters and strings fit into [room] bytes, after [n] others; numbers may be
    cut. *)
Definition dir_flows (room : nat) (texts : Z -> list Z) (n : nat) (d : dspec) (w : Z) : Prop :=
  match ds_conv d with
  | Cc | Cs => (n + length (dir_render texts d w) <= room)%nat
  | _ => True
  end.

Fixpoint flows (room : nat) (texts : Z -> list Z) (n : nat) (ps : list piece) (args : list Z) : Prop :=
  match ps with
  | [] => True
  | Lit _ :: ps => (n < room)%nat /\ flows room texts (S n) ps args
  | Percent :: ps => flows room texts (S n) ps args
  | Dir d :: ps =>
      match args with
      | [] => False
      | w :: args => dir_flows room texts n d w /\ flows room texts (n + length (dir_render texts d w)) ps args
      end
  end.

(** The arguments the directives take: enough of them, strings in memory away from the
    buffer, and no [LLONG_MIN]. *)
Definition arg_ok (m : memory) (buf maxlen : Z) (texts : Z -> list Z) (inner : nat) (d : dspec) (w : Z) : Prop :=
  match ds_conv d with
  | Cs => w <> 0 -> cstr m w (texts w) /\ (length (texts w) < inner)%nat /\
          (w + Z.of_nat (length (texts w)) < buf \/ buf + maxlen <= w)
  | Cd | Ci => (0 < ds_long d)%nat -> va_long w <> - 9223372036854775808
  | _ => True
  end.

Fixpoint args_ok (m : memory) (buf maxlen : Z) (texts : Z -> list Z) (inner : nat) (ps : list piece) (args : list Z) : Prop :=
  match ps with
  | [] => True
  | Dir d :: ps =>
      match args with
      | [] => False
      | w :: args => arg_ok m buf maxlen texts inner d w /\ args_ok m buf maxlen texts inner ps args
      end
  | _ :: ps => args_ok m buf maxlen texts inner ps args
  end.

(** ** The buffer *)

Section Emitted.
Variables (buf maxlen : Z) (m0 : memory).
Hypothesis maxlen_u64 : 0 <= maxlen <= u64_max.

(** [l] has been put out: as much of it as fits before the last byte is in the buffer,
    and memory outside of the buffer is as it was. *)
Definition emitted (l : list Z) (o : memory * Z) : Prop :=
  let room := Z.to_nat (maxlen - 1) in
  snd o = Z.of_nat (length l `min` room) /\ bytes_at (fst o) buf (take room l) /\
  forall x, x < buf \/ buf + maxlen <= x -> fst o x = m0 x.

Lemma emitted_room l o : emitted l o -> has_room maxlen o = (length l <? Z.to_nat (maxlen - 1))%nat.
Proof.
  intros (E & _). unfold has_room. rewrite E, wrap64_small by (unfold is_u64, u64_max in *; lia).
  apply eq_true_iff_eq. rewrite Z.ltb_lt, Nat.ltb_lt. lia.
Qed.

Lemma emitted_OUT l o c : emitted l o -> emitted (l ++ [as_u8 c]) (OUT buf maxlen o c).
Proof.
  intros Ho. unfold OUT. rewrite (emitted_room l o Ho). destruct o as [m pos]. unfold emitted in *.
  cbn [fst snd] in *. destruct Ho as (-> & Hb & Hx). set (room := Z.to_nat (maxlen - 1)) in *. rewrite length_app. cbn [length].
  destruct (Nat.ltb_spec (length l) room) as [Hl|Hge]; cbn [fst snd].
  - replace (length l `min` room)%nat with (length l) by lia. split_and!; [lia| |].
    + rewrite take_ge in * by (rewrite ?length_app; cbn [length]; lia). apply bytes_at_app. split.
      * eapply bytes_at_ext; [|exact Hb]. intros x Hx'. apply store8_other. lia.
      * split; [|done]. unfold store8. by rewrite Z.eqb_refl.
    + intros x Hx'. rewrite store8_other by lia. by apply Hx.
  - split_and!; [lia| |done]. rewrite take_app_le by lia. done.
Qed.

Lemma emitted_byte l o c : emitted l o -> 0 <= c < 256 -> emitted (l ++ [c]) (OUT buf maxlen o c).
Proof. intros Ho Hc. rewrite <- (Z.mod_small c 256 Hc) at 1. by apply emitted_OUT. Qed.

Lemma emitted_foldl l o cs : emitted l o -> Forall (fun c => 0 <= c < 256) cs -> emitted (l ++ cs) (foldl (OUT buf maxlen) o cs).
Proof.
  revert l o. induction cs as [|c cs IH]; intros l o Ho Hcs; [by rewrite app_nil_r|].
  apply Forall_cons_1 in Hcs as [Hc Hcs]. cbn [foldl]. rewrite cons_middle, app_assoc.
  apply IH; [|done]. by apply emitted_byte.
Qed.

Lemma emitted_times l o n c : emitted l o -> 0 <= c < 256 -> emitted (l ++ replicate n c) (out_times buf maxlen n c o).
Proof.
  revert l o. induction n as [|n IH]; intros l o Ho Hc; [by rewrite app_nil_r|]. cbn [out_times replicate].
  rewrite cons_middle, app_assoc.
  apply IH; [|done]. by apply emitted_byte.
Qed.

(** Strings outside of the buffer are still there. *)
Lemma emitted_cstr l o p s : emitted l o -> cstr m0 p s ->
  p + Z.of_nat (length s) < buf \/ buf + maxlen <= p -> cstr (fst o) p s.
Proof. intros (_ & _ & Hx) Hs Hd. eapply cstr_ext; [|exact Hs]. intros x Hr. apply Hx. lia. Qed.

Lemma emitted_string fuel l o p s : emitted l o -> cstr m0 p s ->
  p + Z.of_nat (length s) < buf \/ buf + maxlen <= p -> (length s < fuel)%nat -> (length l + length s <= Z.to_nat (maxlen - 1))%nat ->
  exists o', out_string buf maxlen fuel p o = Some o' /\ emitted (l ++ s) o'.
Proof.
  revert fuel l o p. induction s as [|c s IH]; intros fuel l o p Ho Hs Hd Hf Hr; (destruct fuel as [|fuel]; [lia|]);
    cbn [out_string]; pose proof (emitted_cstr _ _ _ _ Ho Hs Hd) as Hs'.
  - cbn in Hs'. rewrite Hs'. exists o. by rewrite app_nil_r.
  - destruct Hs' as (-> & Hc & _). rewrite (proj2 (Z.eqb_neq c 0)) by lia. destruct Hs as (_ & _ & Hs).
    cbn [length] in *. rewrite (emitted_room _ _ Ho), (proj2 (Nat.ltb_lt _ _)) by lia.
    destruct (IH fuel (l ++ [c]) (OUT buf maxlen o c) (p + 1)) as (o' & E & Ho'); [|done|lia|lia|rewrite length_app; cbn; lia|].
    + apply emitted_byte; [done..|lia].
    + exists o'. split; [done|]. by rewrite cons_middle, app_assoc.
Qed.

(** A string that does not fit is never done with. *)
Lemma string_hangs fuel l o p s : emitted l o -> cstr m0 p s ->
  p + Z.of_nat (length s) < buf \/ buf + maxlen <= p -> (Z.to_nat (maxlen - 1) < length l + length s)%nat -> s <> [] ->
  out_string buf maxlen fuel p o = None.
Proof.
  revert l o p s. induction fuel as [|fuel IH]; intros l o p s Ho Hs Hd Hr Hne; [done|]. cbn [out_string].
  pose proof (emitted_cstr _ _ _ _ Ho Hs Hd) as Hs'. destruct s as [|c s]; [done|].
  pose proof Hs' as (E & Hc & _). rewrite E, (proj2 (Z.eqb_neq c 0)) by lia. rewrite (emitted_room _ _ Ho).
  destruct (Nat.ltb_spec (length l) (Z.to_nat (maxlen - 1))) as [Hlt|Hge]; cbn [length] in *.
  - destruct Hs as (_ & _ & Hs). apply (IH (l ++ [c]) _ _ s); [apply emitted_byte; [done..|lia]|done|lia|rewrite length_app; cbn; lia|].
    intros ->. cbn in Hr. lia.
  - unfold OUT. rewrite (emitted_room _ _ Ho), (proj2 (Nat.ltb_ge _ _)) by lia. apply (IH l o p (c :: s)); done || (cbn; lia).
Qed.

Lemma emitted_null l o s : emitted l o -> Forall (fun c => 0 <= c < 256) s -> (length l + length s <= Z.to_nat (maxlen - 1))%nat ->
  exists o', out_null buf maxlen s o = Some o' /\ emitted (l ++ s) o'.
Proof.
  revert l o. induction s as [|c s IH]; intros l o Ho Hs Hr; cbn [out_null]; [exists o; by rewrite app_nil_r|].
  apply Forall_cons_1 in Hs as [Hc Hs]. cbn [length] in Hr. rewrite (emitted_room _ _ Ho), (proj2 (Nat.ltb_lt _ _)) by lia.
  destruct (IH (l ++ [c]) (OUT buf maxlen o c)) as (o' & -> & Ho'); [by apply emitted_byte|done|rewrite length_app; cbn; lia|].
  exists o'. split; [done|]. by rewrite cons_middle, app_assoc.
Qed.

End Emitted.

(** ** Numbers *)

Definition letter_case (upper : bool) : Z -> Z := if upper then toupper else id.

Lemma digit_char_digit upper d : 0 <= d < 16 -> digit_char upper d = letter_case upper (digit d).
Proof.
  intros Hd. unfold digit_char, digit, letter_case, toupper, id. destruct (Z.ltb_spec d 10), upper; try done.
  - rewrite (proj2 (Z.leb_gt 97 (48 + d))) by lia. done.
  - rewrite (proj2 (Z.leb_le 97 (87 + d))), (proj2 (Z.leb_le (87 + d) 122)) by lia. cbn. lia.
Qed.

Lemma tmp_digits_from room fuel upper base val acc : 2 <= base <= 16 -> 0 < val < base ^ Z.of_nat room ->
  val < base ^ Z.of_nat fuel ->
  tmp_digits room upper base val (letter_case upper <$> acc) = Some (letter_case upper <$> digits_from fuel base val acc).
Proof.
  intros Hb. revert fuel val acc. induction room as [|room IH]; intros fuel val acc Hv Hf; [cbn in Hv; lia|].
  destruct fuel as [|fuel]; [cbn in Hf; lia|]. cbn [tmp_digits digits_from].
  rewrite (proj2 (Z.eqb_neq val 0)) by lia. pose proof (Z.mod_pos_bound val base ltac:(lia)).
  rewrite digit_char_digit, <- fmap_cons by lia. rewrite !Nat2Z.inj_succ, !Z.pow_succ_r in * by lia.
  destruct (Z.eqb_spec (val / base) 0) as [E|E]; [rewrite E; by destruct room|].
  assert (0 <= val / base) by (apply Z.div_pos; lia). apply IH; [split; [lia|]|]; apply Z.div_lt_upper_bound; lia.
Qed.

Lemma tmp_digits_spec upper base val : 10 <= base <= 16 -> 0 < val <= u64_max ->
  tmp_digits 32 upper base val [] = Some (letter_case upper <$> digits base val).
Proof.
  intros Hb Hv. assert (10 ^ 32 <= base ^ 32) by (apply Z.pow_le_mono_l; lia).
  assert (10 ^ 64 <= base ^ 64) by (apply Z.pow_le_mono_l; lia).
  change (10 ^ 32) with 100000000000000000000000000000000 in *. unfold u64_max in *.
  apply (tmp_digits_from 32 64 upper base val []); [lia| |]; [change (Z.of_nat 32) with 32; lia|].
  change (Z.of_nat 64) with 64. change (10 ^ 64) with (100000000000000000000000000000000 * 100000000000000000000000000000000) in *. lia.
Qed.

Lemma digit_bytes upper base n : 2 <= base <= 16 -> 0 <= n <= u64_max ->
  Forall (fun c => 0 <= c < 256) (letter_case upper <$> digits base n).
Proof.
  intros Hb Hn. destruct (digits_spec base n Hb Hn) as (_ & _ & Hd & _). rewrite Forall_fmap.
  eapply Forall_impl; [exact Hd|]. intros c (d & Hd' & ->). cbn. unfold letter_case, toupper, digit, id.
  destruct upper; repeat case_match; lia.
Qed.

Lemma emitted_number buf maxlen m0 l o zero w neg upper base val : 0 <= maxlen <= u64_max -> emitted buf maxlen m0 l o ->
  10 <= base <= 16 -> 0 <= val <= u64_max ->
  exists o', out_number buf maxlen zero w neg upper base val o = Some o' /\
    emitted buf maxlen m0 (l ++ number_text zero w neg (letter_case upper <$> digits base val)) o'.
Proof.
  intros Hm Ho Hb Hv. unfold out_number. pose proof (digit_bytes upper base val ltac:(lia) Hv) as Hbytes.
  assert (E : (if val =? 0 then Some [48] else tmp_digits 32 upper base val []) = Some (letter_case upper <$> digits base val)).
  { destruct (Z.eqb_spec val 0) as [->|Hne]; [|by apply tmp_digits_spec; lia].
    destruct (digits_spec base 0 ltac:(lia) Hv) as (_ & _ & _ & E0 & _). rewrite E0 by done. by destruct upper. }
  rewrite E. clear E. set (ds := letter_case upper <$> digits base val) in *. cbn [mbind option_bind].
  eexists. split; [reflexivity|]. unfold number_text.
  replace (Z.of_nat (length (signed neg ds))) with (Z.of_nat (length ds) + (if neg then 1 else 0))
    by (destruct neg; cbn [signed length]; lia).
  set (missing := Z.to_nat _).
  assert (Hminus : forall l o, emitted buf maxlen m0 l o -> emitted buf maxlen m0 (l ++ [45]) (OUT buf maxlen o 45))
    by (intros l' o' Ho'; exact (emitted_OUT _ _ _ Hm _ _ 45 Ho')).
  destruct zero, neg; cbn [signed]; rewrite ?(cons_middle 45), ?app_assoc;
    repeat first [ assumption | apply Hminus | apply emitted_foldl | apply emitted_times | lia ].
Qed.

(** ** Directives in memory *)

Lemma skip_char_spec m p (b : bool) c s : cstr m p (opt b c ++ s) -> (b = false -> head s <> Some c) -> c <> 0 ->
  skip_char m p c = (b, p + Z.of_nat (length (opt b c))) /\ cstr m (p + Z.of_nat (length (opt b c))) s.
Proof.
  intros Hs Hh Hc. unfold skip_char. destruct b; cbn [opt app length] in *.
  - destruct Hs as (-> & _ & Hs). by rewrite Z.eqb_refl.
  - rewrite Z.add_0_r. split; [|done]. destruct s as [|x s]; cbn in Hs; [rewrite Hs|destruct Hs as (-> & _)].
    + by rewrite (proj2 (Z.eqb_neq 0 c)).
    + rewrite (proj2 (Z.eqb_neq x c)); [done|]. intros ->. by apply Hh.
Qed.

Lemma as_int_small z : 0 <= z <= 2147483647 -> as_int z = Some z.
Proof. intros H. unfold as_int. by rewrite (proj2 (Z.leb_le (-2147483648) z)), (proj2 (Z.leb_le z 2147483647)) by lia. Qed.

Lemma read_num_spec fuel m p acc ds s : digits_ok 10 ds -> cstr m p (ds ++ s) ->
  (forall c, head s = Some c -> isdigit c = false) -> 0 <= acc -> value_from 10 acc ds <= 2147483647 -> (length ds < fuel)%nat ->
  read_num fuel m p acc = Some (value_from 10 acc ds, p + Z.of_nat (length ds)).
Proof.
  revert fuel p acc. induction ds as [|c ds IH]; intros fuel p acc Hds Hs Hh Ha Hmax Hf;
    (destruct fuel as [|fuel]; [lia|]); cbn [read_num app] in *.
  - rewrite Z.add_0_r. destruct s as [|x s]; cbn in Hs; [by rewrite Hs|]. destruct Hs as (-> & _). by rewrite Hh.
  - destruct Hs as (-> & _ & Hs). apply Forall_cons_1 in Hds as [(d & Hd & ->) Hds].
    assert (Hge := value_from_ge 10 (acc * 10 + d) ds ltac:(lia) Hds ltac:(lia)).
    cbn [value_from foldl] in Hmax. rewrite digit_value_digit in Hmax by lia. unfold value_from in Hge.
    assert (digit d = 48 + d) as -> by (unfold digit; case_match; lia).
    unfold isdigit. rewrite (proj2 (Z.leb_le 48 (48 + d))), (proj2 (Z.leb_le (48 + d) 57)) by lia. cbn [andb].
    replace (48 + d - 48) with d by lia. rewrite as_int_small by lia. cbn [mbind option_bind].
    rewrite IH; [|done..|lia|done|cbn in Hf; lia]. cbn [value_from foldl length].
    assert (digit_value (48 + d) = d) as -> by (unfold digit_value; case_match; lia). do 2 f_equal. lia.
Qed.

Lemma num_spec fuel m p n s : small_int n -> cstr m p (num n ++ s) -> (forall c, head s = Some c -> isdigit c = false) ->
  (64 < fuel)%nat -> read_num fuel m p 0 = Some (n, p + Z.of_nat (length (num n))) /\ cstr m (p + Z.of_nat (length (num n))) s.
Proof.
  intros Hn Hs Hh Hf. split.
  - unfold num in *. destruct (Z.eqb_spec n 0) as [->|Hne]; [apply (read_num_spec fuel m p 0 [] s (List.Forall_nil _) Hs Hh); cbn; lia|].
    destruct (digits_spec 10 n ltac:(lia)) as (Hv & Hl & Hd & _); [unfold small_int, u64_max in *; lia|].
    change (digits 10 n) with (fmt_dec n) in *.
    rewrite (read_num_spec fuel m p 0 (fmt_dec n) s); rewrite ?value_from_0, ?Hv; (done || apply Hn || lia).
  - pose proof (cstr_drop _ _ _ (length (num n)) Hs ltac:(rewrite length_app; lia)) as H.
    by rewrite drop_app_length in H.
Qed.

(** The first character of what follows each part of a directive. *)
Definition starts (P : Z -> Prop) (s : list Z) : Prop := forall c, head s = Some c -> P c.

Lemma starts_app (P : Z -> Prop) a b : (a <> [] -> starts P a) -> starts P b -> starts P (a ++ b).
Proof. intros Ha Hb. destruct a as [|x a]; [done|]. by apply Ha. Qed.

Lemma num_digit n c : small_int n -> head (num n) = Some c -> exists d, 0 <= d < 10 /\ c = digit d.
Proof.
  intros Hn Hc. unfold num in Hc. destruct (Z.eqb_spec n 0) as [->|Hn0]; [done|].
  destruct (digits_spec 10 n ltac:(lia)) as (_ & _ & Hd & _); [unfold small_int, u64_max in *; lia|].
  unfold fmt_dec in Hc. destruct (digits 10 n) as [|x l]; [done|]. injection Hc as ->. by apply Forall_cons_1 in Hd as [Hd _].
Qed.

Lemma starts_num n : small_int n -> num n <> [] -> starts (fun c => c <> 45 /\ c <> 48) (num n).
Proof.
  intros Hn Hne c Hc. unfold num in *. destruct (Z.eqb_spec n 0) as [->|Hn0]; [done|].
  destruct (digits_spec 10 n ltac:(lia)) as (_ & _ & Hd & _ & Hh); [unfold small_int, u64_max in *; lia|].
  unfold fmt_dec in *. specialize (Hh Hn0). destruct (digits 10 n) as [|x l]; [done|]. injection Hc as ->.
  apply Forall_cons_1 in Hd as [(d & Hd & ->) _]. split; [unfold digit; case_match; lia|]. intros E. apply Hh. cbn. by rewrite E.
Qed.

Lemma starts_tail k c s : starts (fun x => x <> 45 /\ x <> 46 /\ isdigit x = false) (replicate k 108 ++ conv_char c :: s).
Proof. destruct k; intros x [= <-]; [by destruct c|done]. Qed.

Lemma long_spec m p k c s : (k <= 2)%nat -> cstr m p (replicate k 108 ++ conv_char c :: s) ->
  let '(is_long, q) := skip_char m p 108 in
  let q := if is_long then snd (skip_char m q 108) else q in
  is_long = (0 <? k)%nat /\ q = p + Z.of_nat k /\ m q = conv_char c.
Proof.
  intros Hk Hs. assert (Hc : forall q, cstr m q (conv_char c :: s) -> skip_char m q 108 = (false, q) /\ m q = conv_char c).
  { intros q (E & _). split; [|done]. unfold skip_char. rewrite E. by destruct c. }
  destruct k as [|[|[|k]]]; [| | |lia]; cbn [replicate app] in Hs.
  - destruct (Hc _ Hs) as [-> E]. rewrite Z.add_0_r. done.
  - destruct Hs as (E1 & _ & Hs). destruct (Hc _ Hs) as [H1 E].
    unfold skip_char at 1. rewrite E1. cbn [Z.eqb Pos.eqb]. by rewrite H1.
  - destruct Hs as (E1 & _ & E2 & _ & Hs). destruct (Hc _ Hs) as [_ E].
    unfold skip_char. rewrite E1. cbn [Z.eqb Pos.eqb]. rewrite E2. cbn [Z.eqb Pos.eqb snd].
    replace (p + 1 + 1) with (p + Z.of_nat 2) in * by lia. done.
Qed.

(** The width and precision of [d], read from after the zero flag. *)
Lemma field_spec fuel m p d s : small_int (ds_width d) -> small_int (default 0 (ds_prec d)) -> (64 < fuel)%nat ->
  cstr m p (num (ds_width d) ++ prec_text (ds_prec d) ++ s) -> starts (fun x => x <> 46 /\ isdigit x = false) s ->
  let q := p + Z.of_nat (length (num (ds_width d) ++ prec_text (ds_prec d))) in
  parse_field fuel m p (ds_zero d) = Some (eff_zero d, eff_width d, q) /\ cstr m q s.
Proof.
  intros Hw Hp Hf Hs Hh. cbv zeta. unfold parse_field. rewrite length_app, Nat2Z.inj_add, Z.add_assoc.
  destruct (num_spec fuel m p (ds_width d) (prec_text (ds_prec d) ++ s)) as [-> Hs1]; [done|done| |done|].
  { destruct (ds_prec d); [by intros c [= <-]|]. intros c Hc. by apply Hh. }
  cbn [mbind option_bind]. set (p1 := p + Z.of_nat (length (num (ds_width d)))) in *.
  unfold eff_zero, eff_width. destruct (ds_prec d) as [n|]; cbn [prec_text default] in *.
  - destruct (skip_char_spec m p1 true 46 (num n ++ s)) as [-> Hs2]; [done..|]. change (Z.of_nat (length (opt true 46))) with 1 in *.
    destruct (num_spec fuel m (p1 + 1) n s) as [-> Hs3]; [done|done| |done|]; [intros c Hc; by apply Hh|].
    cbn [mbind option_bind length]. replace (p1 + Z.of_nat (S (length (num n)))) with (p1 + 1 + Z.of_nat (length (num n))) by lia.
    split; [|done]. cbn [id default from_option].
    destruct (Z.ltb_spec (ds_width d) n); rewrite ?orb_true_r, ?orb_false_r; do 3 f_equal; lia.
  - destruct (skip_char_spec m p1 false 46 s) as [-> Hs2]; [done|by intros _ Hc; apply Hh in Hc as [? _]|done|].
    split; [|done]. cbn [id default from_option opt length]. rewrite (proj2 (Z.ltb_ge (ds_width d) 0)), orb_false_r by apply Hw.
    do 3 f_equal; unfold small_int in *; lia.
Qed.

Lemma parse_directive_spec fuel m p d s : piece_ok (Dir d) -> cstr m p (dir_text d ++ s) -> (64 < fuel)%nat ->
  parse_directive fuel m p = Some (eff d, p + Z.of_nat (length (dir_text d))).
Proof.
  intros (Hw & Hp & Hk) Hs Hf. unfold dir_text in *. rewrite <- !app_assoc in Hs. cbn [app] in Hs.
  pose proof (starts_tail (ds_long d) (ds_conv d) s) as Ht.
  assert (Hfield : starts (fun c => c <> 45 /\ c <> 48) (num (ds_width d) ++ prec_text (ds_prec d) ++
                      replicate (ds_long d) 108 ++ conv_char (ds_conv d) :: s)).
  { apply starts_app; [by apply starts_num|]. apply starts_app; [by destruct (ds_prec d); [intros _ c [= <-]|]|].
    intros c Hc. destruct (Ht c Hc) as (H45 & _ & Hd). split; [done|]. by intros ->. }
  unfold parse_directive.
  destruct (skip_char_spec m p (ds_minus d) 45 _ Hs) as [-> Hs1]; [|done|].
  { intros _. destruct (ds_zero d); [done|]. cbn. intros Hc. by destruct (Hfield _ Hc). }
  destruct (skip_char_spec m _ (ds_zero d) 48 _ Hs1) as [-> Hs2]; [|done|].
  { intros _ Hc. by destruct (Hfield _ Hc). }
  set (p2 := p + _ + _) in *.
  destruct (field_spec fuel m p2 d _ Hw Hp Hf Hs2) as [E Hs3]; [intros c Hc; by apply Ht|].
  rewrite E. clear E. cbn [mbind option_bind]. set (p3 := p2 + _) in *.
  pose proof (long_spec m p3 (ds_long d) (ds_conv d) s Hk Hs3) as Hlong.
  destruct (skip_char m p3 108) as [is_long q]. destruct Hlong as (-> & -> & ->).
  unfold eff. do 2 f_equal. subst p3 p2. rewrite !length_app, length_replicate. cbn [length]. lia.
Qed.

(** ** Formatting *)

Lemma as_u8_to_int w : as_u8 (to_int w) = as_u8 w.
Proof. unfold as_u8, to_int. Z.div_mod_to_equations. lia. Qed.

Lemma to_int_range w : -2147483648 <= to_int w <= 2147483647.
Proof. unfold to_int. Z.div_mod_to_equations. lia. Qed.

Lemma va_long_range w : - 9223372036854775808 <= va_long w <= 9223372036854775807.
Proof. unfold va_long, to_long. pose proof (wrap64_u64 (w + 9223372036854775808)). unfold is_u64, u64_max in *. lia. Qed.

Lemma unsigned_range (b : bool) w : 0 <= (if b then va_unsigned_long w else va_unsigned w) <= u64_max.
Proof.
  destruct b; [apply wrap64_u64|]. unfold va_unsigned, as_u32, u64_max.
  pose proof (Z.mod_pos_bound w 4294967296 eq_refl). lia.
Qed.

Lemma dir_text_head d s : piece_ok (Dir d) -> exists c t, dir_text d ++ s = c :: t /\ c <> 37.
Proof.
  intros (Hw & _). assert (Hall : starts (fun c => c <> 37) (dir_text d)).
  { unfold dir_text. repeat (apply starts_app; [intros Hne|]).
    - destruct (ds_minus d); by intros c [= <-].
    - destruct (ds_zero d); by intros c [= <-].
    - intros c Hc. destruct (num_digit _ _ Hw Hc) as (k & Hk & ->). unfold digit. case_match; lia.
    - destruct (ds_prec d); by intros c [= <-].
    - destruct (ds_long d); by intros c [= <-].
    - intros c [= <-]. by destruct (ds_conv d). }
  destruct (dir_text d) as [|c t] eqn:E; [|by exists c, (t ++ s); split; [|apply Hall]].
  apply (f_equal length) in E. unfold dir_text in E. rewrite !length_app in E. cbn in E. lia.
Qed.

(** The number of arguments a format takes. *)
Fixpoint arity (ps : list piece) : nat :=
  match ps with
  | [] => O
  | Dir _ :: ps => S (arity ps)
  | _ :: ps => arity ps
  end.

Section Format.
Variables (buf maxlen : Z) (m0 : memory) (texts : Z -> list Z) (inner : nat).
Hypothesis maxlen_u64 : 0 <= maxlen <= u64_max.

Lemma signed_directive (b : bool) l o w zero wd (args : list Z) : emitted buf maxlen m0 l o -> (b = true -> va_long w <> - 9223372036854775808) ->
  let sv := if b then va_long w else va_int w in
  exists o', (val ← (if sv <? 0 then as_long (- sv) else Some sv);
              o ← out_number buf maxlen zero wd (sv <? 0) false 10 val o; Some (o, args)) = Some (o', args) /\
    emitted buf maxlen m0 (l ++ number_text zero wd (sv <? 0) (fmt_dec (Z.abs sv))) o'.
Proof.
  intros Ho Hb sv. assert (Hsv : - LONG_MAX <= sv <= LONG_MAX).
  { unfold sv, LONG_MAX, va_int. pose proof (to_int_range w). pose proof (va_long_range w). destruct b; [|lia].
    specialize (Hb eq_refl). lia. }
  assert ((if sv <? 0 then as_long (- sv) else Some sv) = Some (Z.abs sv)) as ->.
  { destruct (Z.ltb_spec sv 0); [rewrite as_long_small by lia|]; f_equal; lia. }
  cbn [mbind option_bind].
  destruct (emitted_number buf maxlen m0 l o zero wd (sv <? 0) false 10 (Z.abs sv)) as (o' & -> & Ho');
    [done..|lia|unfold LONG_MAX, u64_max in *; lia|].
  exists o'. split; [done|]. revert Ho'. unfold letter_case. by rewrite list_fmap_id.
Qed.

Lemma unsigned_directive l o zero wd upper base val (args : list Z) : emitted buf maxlen m0 l o -> 10 <= base <= 16 -> 0 <= val <= u64_max ->
  exists o', (o ← out_number buf maxlen zero wd false upper base val o; Some (o, args)) = Some (o', args) /\
    emitted buf maxlen m0 (l ++ number_text zero wd false (letter_case upper <$> digits base val)) o'.
Proof.
  intros Ho Hb Hv. destruct (emitted_number buf maxlen m0 l o zero wd false upper base val) as (o' & -> & Ho'); [done..|].
  by exists o'.
Qed.

Lemma out_directive_spec d w args l o : emitted buf maxlen m0 l o -> arg_ok m0 buf maxlen texts inner d w ->
  dir_flows (Z.to_nat (maxlen - 1)) texts (length l) d w ->
  exists o', out_directive buf maxlen inner (eff d) (w :: args) o = Some (o', args) /\
    emitted buf maxlen m0 (l ++ dir_render texts d w) o'.
Proof.
  intros Ho Ha Hfl. unfold out_directive, dir_flows, dir_render, eff, arg_ok in *. cbn [spec is_long zero_pad width].
  pose proof (unsigned_range (0 <? ds_long d)%nat w) as Hu. set (val := if (0 <? ds_long d)%nat then va_unsigned_long w else _) in *.
  assert (Hnn : number_text (eff_zero d) (eff_width d) (val <? 0) (fmt_dec (Z.abs val)) =
                number_text (eff_zero d) (eff_width d) false (letter_case false <$> digits 10 val)).
  { rewrite (proj2 (Z.ltb_ge val 0)), Z.abs_eq by lia. unfold letter_case. by rewrite list_fmap_id. }
  destruct (ds_conv d); cbn [conv_char Z.eqb Pos.eqb is_decimal is_hex orb].
  - cbn [length] in Hfl. rewrite (emitted_room buf maxlen m0 maxlen_u64 l o Ho), (proj2 (Nat.ltb_lt _ _)) by lia.
    eexists. split; [done|]. rewrite <- as_u8_to_int. by apply emitted_OUT.
  - destruct (Z.eqb_spec w 0) as [->|Hw].
    + destruct (emitted_null buf maxlen m0 maxlen_u64 l o (str "(null)") Ho (str_bytes _) Hfl) as (o' & -> & Ho'). by exists o'.
    + destruct (Ha Hw) as (Hs & Hl & Hd).
      destruct (emitted_string buf maxlen m0 maxlen_u64 inner l o w (texts w)) as (o' & -> & Ho'); [done..|]. by exists o'.
  - apply signed_directive; [done|]. intros Hb. apply Ha. by apply Nat.ltb_lt.
  - apply signed_directive; [done|]. intros Hb. apply Ha. by apply Nat.ltb_lt.
  - rewrite Hnn. by apply unsigned_directive.
  - destruct (unsigned_directive l o (eff_zero d) (eff_width d) false 16 val args) as (o' & E & Ho'); [done..|].
    exists o'. split; [exact E|]. revert Ho'. unfold letter_case. by rewrite list_fmap_id.
  - by apply (unsigned_directive l o (eff_zero d) (eff_width d) true 16 val args).
Qed.

(** The loop over the first part of a format. *)
Lemma format_loop_prefix ps tail fuel fmt args l o : Forall piece_ok ps -> cstr m0 fmt (format_text ps ++ tail) ->
  fmt + Z.of_nat (length (format_text ps ++ tail)) < buf \/ buf + maxlen <= fmt ->
  args_ok m0 buf maxlen texts inner ps args -> flows (Z.to_nat (maxlen - 1)) texts (length l) ps args ->
  emitted buf maxlen m0 l o -> (64 < inner)%nat ->
  exists o', format_loop buf maxlen (length ps + fuel) inner fmt args o =
      format_loop buf maxlen fuel inner (fmt + Z.of_nat (length (format_text ps))) (drop (arity ps) args) o' /\
    emitted buf maxlen m0 (l ++ render texts ps args) o'.
Proof.
  revert fmt args l o. induction ps as [|p ps IH]; intros fmt args l o Hps Hs Hd Ha Hfl Ho Hin.
  - exists o. cbn. by rewrite Z.add_0_r, app_nil_r.
  - apply Forall_cons_1 in Hps as [Hp Hps]. cbn [format_text flat_map length Nat.add format_loop] in *. fold (format_text ps) in *.
    rewrite <- app_assoc in Hs, Hd. pose proof (emitted_cstr _ _ _ _ _ _ _ Ho Hs Hd) as Hs'. rewrite length_app in Hd.
    assert (Hrest : cstr m0 (fmt + Z.of_nat (length (piece_text p))) (format_text ps ++ tail)).
    { pose proof (cstr_drop _ _ _ (length (piece_text p)) Hs ltac:(rewrite length_app; lia)) as H. by rewrite drop_app_length in H. }
    rewrite length_app, Nat2Z.inj_add, Z.add_assoc.
    destruct p as [c| |d]; cbn [piece_text app render args_ok flows arity] in *.
    + destruct Hs' as (-> & Hc & _). destruct Hp as [_ H37]. destruct Hfl as [Hlt Hfl].
      rewrite (emitted_room buf maxlen m0 maxlen_u64 l o Ho), (proj2 (Nat.ltb_lt _ _)) by lia.
      rewrite (proj2 (Z.eqb_neq c 0)), (proj2 (Z.eqb_neq c 37)) by lia. cbn [negb].
      destruct (IH (fmt + 1) args (l ++ [c]) (OUT buf maxlen o c)) as (o' & E & Ho'); [done..|cbn in *; lia|done|by rewrite length_app, Nat.add_1_r| |done|].
      * apply emitted_byte; [done..|lia].
      * exists o'. split; [exact E|]. by rewrite cons_middle, app_assoc.
    + destruct Hs' as (-> & _ & -> & _ & _). cbn [Z.eqb Pos.eqb negb].
      change (Z.of_nat (length [37; 37])) with 2 in *. rewrite <- (Z.add_assoc fmt 1 1).
      destruct (IH (fmt + 2) args (l ++ [37]) (OUT buf maxlen o 37)) as (o' & E & Ho'); [done..|cbn in *; lia|done|by rewrite length_app, Nat.add_1_r| |done|].
      * exact (emitted_OUT buf maxlen m0 maxlen_u64 l o 37 Ho).
      * exists o'. split; [exact E|]. by rewrite cons_middle, app_assoc.
    + destruct Hs' as (-> & _ & Hs'). cbn [Z.eqb Pos.eqb negb].
      destruct (dir_text_head d (format_text ps ++ tail) Hp) as (c & t & E & Hc37).
      pose proof Hs' as Hhead. rewrite E in Hhead. destruct Hhead as (-> & Hc & _).
      rewrite (proj2 (Z.eqb_neq c 0)), (proj2 (Z.eqb_neq c 37)) by lia.
      rewrite (parse_directive_spec inner _ _ d (format_text ps ++ tail) Hp Hs' Hin). cbn [mbind option_bind].
      destruct args as [|w args]; [done|]. destruct Ha as [Hw Ha], Hfl as [Hfd Hfl].
      destruct (out_directive_spec d w args l o Ho Hw Hfd) as (o1 & -> & Ho1). cbn [mbind option_bind drop].
      cbn [length] in Hrest, Hd |- *. replace (fmt + 1 + Z.of_nat (length (dir_text d))) with (fmt + Z.of_nat (S (length (dir_text d)))) by lia.
      destruct (IH (fmt + Z.of_nat (S (length (dir_text d)))) args (l ++ dir_render texts d w) o1)
        as (o' & E' & Ho'); [done..|lia|done|by rewrite length_app|done|done|].
      exists o'. split; [exact E'|]. by rewrite app_assoc.
Qed.

Lemma format_loop_spec ps fuel fmt args l o : Forall piece_ok ps -> cstr m0 fmt (format_text ps) ->
  fmt + Z.of_nat (length (format_text ps)) < buf \/ buf + maxlen <= fmt ->
  args_ok m0 buf maxlen texts inner ps args -> flows (Z.to_nat (maxlen - 1)) texts (length l) ps args ->
  emitted buf maxlen m0 l o -> (length ps < fuel)%nat -> (64 < inner)%nat ->
  exists o', format_loop buf maxlen fuel inner fmt args o = Some o' /\ emitted buf maxlen m0 (l ++ render texts ps args) o'.
Proof.
  intros Hps Hs Hd Ha Hfl Ho Hf Hin. assert (exists k, fuel = (length ps + S k)%nat) as [k ->] by (exists (fuel - length ps - 1)%nat; lia).
  destruct (format_loop_prefix ps [] (S k) fmt args l o) as (o' & -> & Ho'); rewrite ?app_nil_r; [done..|].
  exists o'. split; [|done]. cbn [format_loop].
  by rewrite (cstr_last _ _ _ (emitted_cstr _ _ _ _ _ _ _ Ho' Hs Hd)).
Qed.

End Format.

Lemma snprintf_text fuel m buf maxlen fmt ps args texts :
  0 <= maxlen <= u64_max -> Forall piece_ok ps -> cstr m fmt (format_text ps) ->
  fmt + Z.of_nat (length (format_text ps)) < buf \/ buf + maxlen <= fmt ->
  args_ok m buf maxlen texts fuel ps args -> flows (Z.to_nat (maxlen - 1)) texts 0 ps args ->
  (length ps < fuel)%nat -> (64 < fuel)%nat ->
  let shown := take (Z.to_nat (maxlen - 1)) (render texts ps args) in
  exists m', snprintf fuel m buf maxlen fmt args = Some (to_int (Z.of_nat (length shown)), m') /\
    (0 < maxlen -> bytes_at m' buf (shown ++ [0])) /\
    (forall x, x < buf \/ buf + maxlen <= x -> m' x = m x).
Proof.
  intros Hmax Hps Hs Hd Ha Hfl Hf Hf64 shown. unfold snprintf, fmt_vsnprintf.
  destruct (format_loop_spec buf maxlen m texts fuel Hmax ps fuel fmt args [] (m, 0)) as ([m1 pos] & -> & Hpos & Hb & Hx); try done.
  { split; [done|]. split; [by rewrite take_nil|done]. }
  cbn [mbind option_bind fst snd app] in *. fold shown in Hb. rewrite Nat.min_comm, <- length_take in Hpos. fold shown in Hpos.
  assert (Hlen : (length shown <= Z.to_nat (maxlen - 1))%nat) by (unfold shown; rewrite length_take; lia).
  subst pos. eexists. split; [reflexivity|]. split.
  - intros H0. rewrite (proj2 (Z.ltb_lt _ maxlen)) by lia. apply bytes_at_app. split.
    + eapply bytes_at_ext; [|exact Hb]. intros x Hr. apply store8_other. lia.
    + split; [|done]. by apply store8_same.
  - intros x Hr. case_match eqn:E; [rewrite store8_other by (apply Z.ltb_lt in E; lia); by apply Hx|].
    case_match; [rewrite store8_other by lia; by apply Hx|by apply Hx].
Qed.

(** C24. Formatted output: for every format made of literals, percent signs and directives
    with flags, width, precision and length modifier, and arguments to match, as long as the
    literals, characters and strings fit (numbers may be cut), [snprintf] terminates, leaves
    the first [maxlen - 1] bytes of the text the directives describe in the buffer,
    NUL-terminated, answers how many these are, and writes nothing outside of the buffer. *)
Theorem snprintf_renders fuel m buf maxlen fmt ps args texts :
  0 <= maxlen <= u64_max -> Forall piece_ok ps -> cstr m fmt (format_text ps) ->
  fmt + Z.of_nat (length (format_text ps)) < buf \/ buf + maxlen <= fmt ->
  args_ok m buf maxlen texts fuel ps args -> flows (Z.to_nat (maxlen - 1)) texts 0 ps args ->
  (length ps < fuel)%nat -> (64 < fuel)%nat ->
  let shown := take (Z.to_nat (maxlen - 1)) (render texts ps args) in
  exists m', snprintf fuel m buf maxlen fmt args = Some (to_int (Z.of_nat (length shown)), m') /\
    (0 < maxlen -> bytes_at m' buf (shown ++ [0])) /\
    (forall x, x < buf \/ buf + maxlen <= x -> m' x = m x).
Proof. apply snprintf_text. Qed.

(** ** When the text does not fit *)

(** More fuel for the inner loops changes nothing once they have ended. *)
Lemma read_num_mono f f' m p acc r : read_num f m p acc = Some r -> (f <= f')%nat -> read_num f' m p acc = Some r.
Proof.
  revert f' p acc. induction f as [|f IH]; intros f' p acc H Hle; [done|]. destruct f' as [|f']; [lia|].
  cbn [read_num] in *. destruct (isdigit (m p)); [|done]. destruct (as_int _); [|done]. apply IH; [done|lia].
Qed.

Lemma out_string_mono buf maxlen f f' p o r : out_string buf maxlen f p o = Some r -> (f <= f')%nat ->
  out_string buf maxlen f' p o = Some r.
Proof.
  revert f' p o. induction f as [|f IH]; intros f' p o H Hle; [done|]. destruct f' as [|f']; [lia|].
  cbn [out_string] in *. destruct (fst o p =? 0); [done|]. apply IH; [done|lia].
Qed.

Lemma parse_directive_mono f f' m p r : parse_directive f m p = Some r -> (f <= f')%nat -> parse_directive f' m p = Some r.
Proof.
  unfold parse_directive, parse_field. intros H Hle. destruct (skip_char m p 45) as [b0 p0], (skip_char m p0 48) as [b1 p1].
  destruct (read_num f m p1 0) as [[n q]|] eqn:E; [|done]. rewrite (read_num_mono _ _ _ _ _ _ E Hle). cbn [mbind option_bind] in *.
  destruct (skip_char m q 46) as [[] q1]; [|done].
  destruct (read_num f m q1 0) as [[n' q']|] eqn:E'; [|done]. by rewrite (read_num_mono _ _ _ _ _ _ E' Hle).
Qed.

Lemma out_directive_mono buf maxlen f f' d args o r : out_directive buf maxlen f d args o = Some r -> (f <= f')%nat ->
  out_directive buf maxlen f' d args o = Some r.
Proof.
  intros H Hle. unfold out_directive in *. destruct (spec d =? 99); [done|]. destruct (spec d =? 115); [|done].
  destruct args as [|w args]; [done|]. destruct (w =? 0); [done|].
  destruct (out_string buf maxlen f w o) as [o'|] eqn:E; [|done]. by rewrite (out_string_mono _ _ _ _ _ _ _ E Hle).
Qed.

Lemma format_loop_mono buf maxlen fuel fuel' f f' fmt args o r : format_loop buf maxlen fuel f fmt args o = Some r ->
  (fuel <= fuel')%nat -> (f <= f')%nat -> format_loop buf maxlen fuel' f' fmt args o = Some r.
Proof.
  intros H Hfuel Hle. revert fuel' fmt args o H Hfuel. induction fuel as [|fuel IH]; intros fuel' fmt args o H Hfuel; [done|].
  destruct fuel' as [|fuel']; [lia|]. assert (Hf : (fuel <= fuel')%nat) by lia. cbn [format_loop] in *.
  destruct (fst o fmt =? 0); [done|]. destruct (negb _); [by apply IH|]. destruct (fst o (fmt + 1) =? 0); [done|].
  destruct (fst o (fmt + 1) =? 37); [by apply IH|].
  destruct (parse_directive f (fst o) (fmt + 1)) as [[d q]|] eqn:E; [|done]. rewrite (parse_directive_mono _ _ _ _ _ E Hle).
  cbn [mbind option_bind] in *. destruct (out_directive buf maxlen f d args o) as [[o' args']|] eqn:E'; [|done].
  rewrite (out_directive_mono _ _ _ _ _ _ _ _ E' Hle). cbn [mbind option_bind] in *. by apply IH.
Qed.

Lemma args_ok_mono m buf maxlen texts f f' ps args : (f <= f')%nat -> args_ok m buf maxlen texts f ps args ->
  args_ok m buf maxlen texts f' ps args.
Proof.
  intros Hle. revert args. induction ps as [|[c| |d] ps IH]; intros args H; cbn [args_ok] in *; [done|by apply IH..|].
  destruct args as [|w args]; [done|]. destruct H as [Ha H]. split; [|by apply IH].
  unfold arg_ok in *. destruct (ds_conv d); try done. intros Hw. destruct (Ha Hw) as (? & ? & ?). split_and!; [done|lia|done].
Qed.

(** A literal or a string that does not fit behind the [n] bytes before it. *)
Definition stuck (room : nat) (texts : Z -> list Z) (n : nat) (p : piece) (args : list Z) : Prop :=
  match p, args with
  | Lit _, _ => (room <= n)%nat
  | Dir d, w :: _ => ds_conv d = Cs /\ w <> 0 /\ texts w <> [] /\ (room < n + length (texts w))%nat
  | _, _ => False
  end.

Lemma args_ok_app m buf maxlen texts inner ps p args : args_ok m buf maxlen texts inner (ps ++ [p]) args ->
  args_ok m buf maxlen texts inner ps args /\
  match p, drop (arity ps) args with Dir d, w :: _ => arg_ok m buf maxlen texts inner d w | _, _ => True end.
Proof.
  revert args. induction ps as [|q ps IH]; intros args H; cbn [app args_ok arity] in *.
  - split; [done|]. destruct p, args as [|w args]; try done. by destruct H.
  - destruct q; [by apply IH..|]. destruct args as [|w args]; [done|]. destruct H as [H1 H2].
    destruct (IH args H2). split; [by split|]. done.
Qed.

Section Hang.
Variables (buf maxlen : Z) (m0 : memory) (texts : Z -> list Z) (inner : nat).
Hypothesis maxlen_u64 : 0 <= maxlen <= u64_max.
Hypothesis inner_large : (64 < inner)%nat.

Lemma full_literal_hangs fuel fmt c s args l o : cstr m0 fmt (c :: s) -> c <> 37 ->
  fmt + Z.of_nat (length (c :: s)) < buf \/ buf + maxlen <= fmt -> emitted buf maxlen m0 l o ->
  (Z.to_nat (maxlen - 1) <= length l)%nat -> format_loop buf maxlen fuel inner fmt args o = None.
Proof.
  intros Hs Hc Hd Ho Hl. destruct (emitted_cstr _ _ _ _ _ _ _ Ho Hs Hd) as (E & Hc0 & _).
  assert (Hfull : has_room maxlen o = false)
    by (rewrite (emitted_room buf maxlen m0 maxlen_u64 l o Ho); by apply Nat.ltb_ge).
  induction fuel as [|fuel IH]; [done|]. cbn [format_loop]. unfold OUT.
  rewrite E, (proj2 (Z.eqb_neq c 0)), (proj2 (Z.eqb_neq c 37)), Hfull by lia. exact IH.
Qed.

Lemma string_directive_hangs fuel fmt d s w args l o : piece_ok (Dir d) -> cstr m0 fmt (37 :: dir_text d ++ s) ->
  fmt + Z.of_nat (length (37 :: dir_text d ++ s)) < buf \/ buf + maxlen <= fmt ->
  arg_ok m0 buf maxlen texts inner d w -> emitted buf maxlen m0 l o ->
  stuck (Z.to_nat (maxlen - 1)) texts (length l) (Dir d) (w :: args) ->
  format_loop buf maxlen fuel inner fmt (w :: args) o = None.
Proof.
  intros Hp Hs Hd Ha Ho (Hconv & Hw & Hne & Hlen). destruct fuel as [|fuel]; [done|]. cbn [format_loop].
  pose proof (emitted_cstr _ _ _ _ _ _ _ Ho Hs Hd) as (-> & _ & Hs'). cbn [Z.eqb Pos.eqb negb].
  destruct (dir_text_head d s Hp) as (c & t & E & Hc37). pose proof Hs' as Hhead. rewrite E in Hhead. destruct Hhead as (-> & Hc & _).
  rewrite (proj2 (Z.eqb_neq c 0)), (proj2 (Z.eqb_neq c 37)) by lia.
  rewrite (parse_directive_spec inner _ _ d s Hp Hs' inner_large). cbn [mbind option_bind].
  unfold out_directive, arg_ok, eff in *. cbn [spec]. rewrite Hconv in *. cbn [conv_char Z.eqb Pos.eqb].
  rewrite (proj2 (Z.eqb_neq w 0)) by done. destruct (Ha Hw) as (Hst & _ & Hsd).
  by rewrite (string_hangs buf maxlen m0 maxlen_u64 inner l o w (texts w)).
Qed.

Lemma format_loop_hangs ps p rest fuel fmt args l o : Forall piece_ok (ps ++ p :: rest) ->
  cstr m0 fmt (format_text (ps ++ p :: rest)) ->
  fmt + Z.of_nat (length (format_text (ps ++ p :: rest))) < buf \/ buf + maxlen <= fmt ->
  args_ok m0 buf maxlen texts inner (ps ++ [p]) args -> flows (Z.to_nat (maxlen - 1)) texts (length l) ps args ->
  emitted buf maxlen m0 l o ->
  stuck (Z.to_nat (maxlen - 1)) texts (length l + length (render texts ps args)) p (drop (arity ps) args) ->
  format_loop buf maxlen (length ps + fuel) inner fmt args o = None.
Proof.
  intros Hps Hs Hd Ha Hfl Ho Hst. unfold format_text in Hs, Hd. rewrite flat_map_app in Hs, Hd. fold (format_text ps) in Hs, Hd.
  cbn [flat_map] in Hs, Hd. fold (format_text rest) in Hs, Hd. apply Forall_app in Hps as [Hps Hpr]. apply Forall_cons_1 in Hpr as [Hp _].
  destruct (args_ok_app m0 buf maxlen texts inner ps p args Ha) as [Ha1 Ha2].
  destruct (format_loop_prefix buf maxlen m0 texts inner maxlen_u64 ps _ fuel fmt args l o Hps Hs Hd Ha1 Hfl Ho inner_large) as (o' & -> & Ho').
  pose proof (cstr_drop _ _ _ (length (format_text ps)) Hs ltac:(rewrite length_app; lia)) as Hs2. rewrite drop_app_length in Hs2.
  rewrite length_app in Hd. rewrite <- length_app in Hst.
  destruct p as [c| |d]; [| |].
  - apply (full_literal_hangs fuel _ c (format_text rest) _ (l ++ render texts ps args)); [done|apply Hp|cbn [app piece_text] in *; lia|done|exact Hst].
  - done.
  - cbn [stuck] in Hst. destruct (drop (arity ps) args) as [|w args']; [done|].
    by apply (string_directive_hangs fuel _ d (format_text rest) w args' (l ++ render texts ps args)); [| |cbn [app piece_text length] in *; lia| | |].
Qed.

End Hang.
(** C25. Output that does not fit: when a literal of the format, or a character of a string
    argument, comes up while the buffer is full, [snprintf] never returns, whatever the
    fuel: the advance to the next character is part of the store that no longer happens. *)
Theorem snprintf_hangs fuel m buf maxlen fmt ps p rest args texts bound :
  0 <= maxlen <= u64_max -> Forall piece_ok (ps ++ p :: rest) -> cstr m fmt (format_text (ps ++ p :: rest)) ->
  fmt + Z.of_nat (length (format_text (ps ++ p :: rest))) < buf \/ buf + maxlen <= fmt ->
  args_ok m buf maxlen texts bound (ps ++ [p]) args -> flows (Z.to_nat (maxlen - 1)) texts 0 ps args ->
  stuck (Z.to_nat (maxlen - 1)) texts (length (render texts ps args)) p (drop (arity ps) args) ->
  snprintf fuel m buf maxlen fmt args = None.
Proof.
  intros Hmax Hps Hs Hd Ha Hfl Hst. unfold snprintf, fmt_vsnprintf.
  destruct (format_loop buf maxlen fuel fuel fmt args (m, 0)) as [r|] eqn:E; [|done]. exfalso.
  set (inner := (fuel + bound + 65)%nat).
  apply (format_loop_mono _ _ _ (length ps + fuel) _ inner) in E; [|lia|unfold inner; lia].
  rewrite (format_loop_hangs buf maxlen m texts inner Hmax ltac:(unfold inner; lia) ps p rest fuel fmt args []) in E; try done.
  - eapply args_ok_mono; [|exact Ha]. unfold inner. lia.
  - split; [done|]. split; [by rewrite take_nil|done].
Qed.

(** Whatever the output loops preserve, the whole preserves. *)
Section Preserved.
Variables (buf maxlen : Z) (P : memory * Z -> Prop).
Hypothesis P_OUT : forall o c, P o -> P (OUT buf maxlen o c).

Lemma out_times_keeps n c o : P o -> P (out_times buf maxlen n c o).
Proof. revert o. induction n as [|n IH]; intros o Ho; [done|]. cbn. by apply IH, P_OUT. Qed.

Lemma out_list_keeps l o : P o -> P (foldl (OUT buf maxlen) o l).
Proof. revert o. induction l as [|c l IH]; intros o Ho; [done|]. cbn. by apply IH, P_OUT. Qed.

Lemma out_string_keeps fuel s o o' : out_string buf maxlen fuel s o = Some o' -> P o -> P o'.
Proof.
  revert s o. induction fuel as [|fuel IH]; intros s o H Ho; [done|]. cbn [out_string] in H.
  destruct (fst o s =? 0); [by injection H as <-|]. eapply IH; [exact H|]. by apply P_OUT.
Qed.

Lemma out_null_keeps s o o' : out_null buf maxlen s o = Some o' -> P o -> P o'.
Proof.
  revert o. induction s as [|c s IH]; intros o H Ho; cbn [out_null] in H; [by injection H as <-|].
  destruct (has_room maxlen o); [|done]. eapply IH; [exact H|]. by apply P_OUT.
Qed.

Lemma out_number_keeps z w neg upper base val o o' : out_number buf maxlen z w neg upper base val o = Some o' -> P o -> P o'.
Proof.
  unfold out_number. intros H Ho. destruct (if val =? 0 then _ else _) as [tmp|]; [|done]. cbn [mbind option_bind] in H.
  injection H as <-. apply out_list_keeps. destruct z, neg; repeat first [apply out_times_keeps | apply P_OUT | done].
Qed.

Lemma out_directive_keeps fuel d args o o' args' : out_directive buf maxlen fuel d args o = Some (o', args') -> P o -> P o'.
Proof.
  unfold out_directive. intros H Ho.
  repeat match type of H with
         | (if ?b then _ else _) = _ => destruct b
         | match ?l with [] => _ | _ :: _ => _ end = _ => destruct l as [|w l]; [done|]
         end; try (injection H as <- _; auto).
  - destruct (if w =? 0 then _ else _) as [o1|] eqn:E; [|done]. injection H as <- _.
    destruct (w =? 0); [by eapply out_null_keeps|by eapply out_string_keeps].
  - destruct (if _ <? 0 then _ else _) as [val|]; [|done]. cbn [mbind option_bind] in H.
    destruct (out_number _ _ _ _ _ _ _ _ _) as [o1|] eqn:E; [|done]. injection H as <- _. by eapply out_number_keeps.
  - destruct (out_number _ _ _ _ _ _ _ _ _) as [o1|] eqn:E; [|done]. injection H as <- _. by eapply out_number_keeps.
Qed.

Lemma format_loop_keeps fuel inner fmt args o o' : format_loop buf maxlen fuel inner fmt args o = Some o' -> P o -> P o'.
Proof.
  revert fmt args o. induction fuel as [|fuel IH]; intros fmt args o H Ho; [done|]. cbn [format_loop] in H.
  destruct (fst o fmt =? 0); [by injection H as <-|]. destruct (negb _); [by eapply IH; [exact H|]; apply P_OUT|].
  destruct (fst o (fmt + 1) =? 0); [by injection H as <-|].
  destruct (fst o (fmt + 1) =? 37); [by eapply IH; [exact H|]; apply P_OUT|].
  destruct (parse_directive _ _ _) as [[d q]|]; [|done]. cbn [mbind option_bind] in H.
  destruct (out_directive _ _ _ _ _ _) as [[o1 args']|] eqn:E; [|done]. cbn [mbind option_bind] in H.
  eapply IH; [exact H|]. by eapply out_directive_keeps.
Qed.

End Preserved.

(** Whatever the format and the arguments, if [snprintf] returns it has written inside of the
    buffer only, and left a terminated string there. *)
Theorem snprintf_bounded fuel m buf maxlen fmt args r m' : 0 <= maxlen <= u64_max ->
  snprintf fuel m buf maxlen fmt args = Some (r, m') ->
  (forall x, x < buf \/ buf + maxlen <= x -> m' x = m x) /\
  (0 < maxlen -> exists k, 0 <= k < maxlen /\ m' (buf + k) = 0).
Proof.
  intros Hmax H. unfold snprintf, fmt_vsnprintf in H. destruct (format_loop _ _ _ _ _ _ _) as [[m1 pos]|] eqn:E; [|done].
  set (P := fun o : memory * Z => 0 <= snd o <= Z.max 0 (maxlen - 1) /\ forall x, x < buf \/ buf + maxlen <= x -> fst o x = m x).
  assert (HP : P (m1, pos)).
  { refine (format_loop_keeps buf maxlen P _ _ _ _ _ _ _ E _); [|split; cbn; [lia|done]]. intros [m2 q] c [Hq Hx].
    unfold OUT, has_room. cbn [fst snd] in *. rewrite wrap64_small by (unfold is_u64, u64_max in *; lia).
    destruct (Z.ltb_spec (q + 1) maxlen); [|done]. split; cbn [fst snd]; [lia|].
    intros x Hr. rewrite store8_other by lia. by apply Hx. }
  destruct HP as [Hpos Hx]. cbn [fst snd mbind option_bind] in *. injection H as <- <-. split.
  - intros x Hr. destruct (Z.ltb_spec pos maxlen); [rewrite store8_other by lia; by apply Hx|].
    destruct (Z.ltb_spec 0 maxlen); [rewrite store8_other by lia|]; by apply Hx.
  - intros H0. exists pos. rewrite (proj2 (Z.ltb_lt pos maxlen)) by lia. split; [lia|]. by apply store8_same.
Qed.

(** ** Reading back *)

Definition percent_d : list piece := [Dir (mk_dspec false false 0 None 0 Cd)].
Definition decimal_text (n : Z) : list Z := signed (n <? 0) (fmt_dec (Z.abs n)).

Lemma render_d texts w : render texts percent_d [w] = decimal_text (va_int w).
Proof.
  cbn [render percent_d dir_render ds_conv ds_long]. rewrite app_nil_r. unfold number_text, eff_zero, eff_width.
  cbn [ds_width ds_prec ds_zero default from_option]. by replace (Z.to_nat _) with O by lia.
Qed.

Lemma decimal_text_spec n : is_int n ->
  let ds := fmt_dec (Z.abs n) in
  digits_ok 10 ds /\ ds <> [] /\ value_of 10 ds = Z.abs n /\ (length ds <= 10)%nat /\ (head ds = Some 48 -> ds = [48]) /\
  Forall (fun c => 0 < c < 256) (decimal_text n).
Proof.
  intros Hn ds. unfold is_int in Hn.
  destruct (digits_spec 10 (Z.abs n) ltac:(lia)) as (Hv & Hl & Hd & H0 & Hh); [unfold u64_max; lia|].
  assert (Hpos : Forall (fun c => 0 < c < 256) ds).
  { eapply Forall_impl; [exact Hd|]. intros c (d & Hdd & ->). cbn. unfold digit. case_match; lia. }
  split_and!; [exact Hd| |exact Hv| | |].
  - intros E. unfold ds, fmt_dec in E. rewrite E in Hl. cbn in Hl. lia.
  - apply (digits_from_length 64 10 (Z.abs n) [] 10); [lia| |lia]. change (10 ^ Z.of_nat 10) with 10000000000. lia.
  - intros E. destruct (Z.eq_dec (Z.abs n) 0) as [Ez|Ez]; [by apply H0|by destruct (Hh Ez)].
  - unfold decimal_text. destruct (n <? 0); cbn [signed]; [constructor; [lia|done]|done].
Qed.

Lemma strtol_decimal fuel m p n base : is_int n -> base = 10 \/ base = 0 -> cstr m p (decimal_text n) -> (11 < fuel)%nat ->
  strtol fuel m p base = Some (n, p + Z.of_nat (length (decimal_text n))).
Proof.
  intros Hn Hbase Hs Hf. destruct (decimal_text_spec n Hn) as (Hd & Hne & Hv & Hl & Hz & _).
  assert (Hsv : signed_value (n <? 0) (Z.abs n) = n) by (destruct (Z.ltb_spec n 0); cbn; lia).
  assert (Hbase10 : strtol fuel m p 10 = Some (n, p + Z.of_nat (length (decimal_text n)))).
  { unfold decimal_text in *. set (ds := fmt_dec (Z.abs n)) in *.
    rewrite (strtol_spec fuel m p 10 0 (n <? 0) ds []); [by rewrite Hv, Hsv|lia|done..| |by rewrite app_nil_r|lia].
    rewrite Hv. unfold is_int, LONG_MAX in *. lia. }
  destruct Hbase as [->| ->]; [done|]. unfold decimal_text in *. set (ds := fmt_dec (Z.abs n)) in *.
  destruct ds as [|c ds]; [done|]. pose proof (Forall_cons_1 _ _ _ Hd) as [Hc _].
  rewrite (strtol_base0 fuel m p 0 (n <? 0) c ds); [|done|lia|done|by intros ->; specialize (Hz eq_refl) as [= ->]].
  destruct (Z.eqb_spec c 48) as [->|]; [|done]. specialize (Hz eq_refl) as [= ->]. cbn in Hv.
  assert (n = 0) as -> by lia. rewrite (strtol_spec fuel m p 8 0 (0 <? 0) [48] []).
  - done.
  - lia.
  - constructor; [exists 0; split; [lia|done]|constructor].
  - done.
  - done.
  - done.
  - by rewrite app_nil_r.
  - cbn. lia.
Qed.

Lemma to_int_wrap64 n : is_int n -> to_int (wrap64 n) = n.
Proof. unfold is_int, to_int, wrap64, u64_mod. intros. Z.div_mod_to_equations. lia. Qed.

Lemma to_int_as_u32 n : is_int n -> to_int (as_u32 n) = n.
Proof. unfold is_int, to_int, as_u32. intros. Z.div_mod_to_equations. lia. Qed.

(** [sscanf] with the format %d, on the text of a number. *)
Lemma sscanf_d fuel m p fmt dst n : is_int n -> cstr m p (decimal_text n) -> cstr m fmt (str "%d") ->
  dst + 4 <= fmt \/ fmt + 2 < dst -> (64 < fuel)%nat ->
  exists m', sscanf fuel m p fmt [dst] = Some (1, m') /\ to_int (load32 m' dst) = n.
Proof.
  intros Hn Hs (E0 & _ & E1 & _ & E2) Hd Hf. exists (store32 m dst n).
  split; [|by rewrite load32_store32, to_int_as_u32].
  assert (Hskip : skip_blanks_scan fuel m p = Some p).
  { destruct (decimal_text_spec n Hn) as (Hdig & Hne & _). destruct fuel as [|f]; [lia|]. unfold skip_blanks_scan. cbn [while].
    assert (is_scan_blank (m p) = false) as ->; [|done]. unfold decimal_text in Hs.
    destruct (fmt_dec (Z.abs n)) as [|c ds]; [done|]. apply Forall_cons_1 in Hdig as [(d & Hdd & ->) _].
    destruct (n <? 0); destruct Hs as (-> & _); [done|]. unfold is_scan_blank, digit. rewrite !orb_false_iff, !Z.eqb_neq. case_match; lia. }
  unfold sscanf. assert (exists f, fuel = S (S f)) as [f Ef] by (exists (fuel - 2)%nat; lia). rewrite Ef at 1. cbn [scan_loop].
  change (m fmt = 37) in E0. change (m (fmt + 1) = 100) in E1.
  rewrite E0, E1. cbn [Z.eqb Pos.eqb is_scan_blank orb negb]. unfold skip_char. rewrite !E1. cbn [Z.eqb Pos.eqb]. rewrite E1.
  unfold scan_directive. cbn [Z.eqb Pos.eqb]. rewrite !E1, Hskip. change (scan_base 100) with (Some 0). cbn [Z.eqb Pos.eqb mbind option_bind].
  rewrite (strtol_decimal fuel m p n 0 Hn ltac:(by right) Hs ltac:(lia)). cbn [mbind option_bind].
  rewrite (proj2 (Z.eqb_neq _ p)); [|].
  - cbn [mbind option_bind]. rewrite store32_other by lia. by rewrite E2.
  - destruct (decimal_text_spec n Hn) as (_ & Hne & _). unfold decimal_text.
    destruct (fmt_dec (Z.abs n)), (n <? 0); cbn [signed length]; (done || lia).
Qed.

(** C26. Numbers survive printing and reading: any [int] printed with %d into a buffer of
    at least twelve bytes is read back by [atoi], and by [sscanf] with %d, as itself; [strtod]
    reads the double that is that integer, to the end of the text, and [fabs] its absolute
    value. *)
Theorem decimal_round_trip fuel m buf maxlen fmt dst n :
  is_int n -> 12 <= maxlen <= u64_max -> cstr m fmt (str "%d") ->
  fmt + 2 < buf \/ buf + maxlen <= fmt -> dst + 4 <= fmt \/ fmt + 2 < dst -> (64 < fuel)%nat ->
  exists m', snprintf fuel m buf maxlen fmt [wrap64 n] = Some (Z.of_nat (length (decimal_text n)), m') /\
    atoi fuel m' buf = Some n /\
    (exists x, strtod fuel m' buf = Some (x, buf + Z.of_nat (length (decimal_text n))) /\
      is_integer x n /\ is_integer (fabs x) (Z.abs n)) /\
    exists m'', sscanf fuel m' buf fmt [dst] = Some (1, m'') /\ to_int (load32 m'' dst) = n.
Proof.
  intros Hn Hmax Hs Hd Hdst Hf. destruct (decimal_text_spec n Hn) as (_ & _ & _ & Hl & _ & Hpos).
  assert (Hlen : (length (decimal_text n) <= 11)%nat) by (unfold decimal_text; destruct (n <? 0); cbn [signed length]; lia).
  destruct (snprintf_text fuel m buf maxlen fmt percent_d [wrap64 n] (fun _ => [])) as (m' & E & Hb & Hx).
  - lia.
  - constructor; [|constructor]. split; [split; cbn; lia|]. split; [split; cbn; lia|]. cbn. lia.
  - exact Hs.
  - exact Hd.
  - cbn. split; [lia|done].
  - done.
  - cbn. lia.
  - lia.
  - assert (Hr : render (fun _ => []) percent_d [wrap64 n] = decimal_text n) by (rewrite render_d; unfold va_int; by rewrite to_int_wrap64).
    rewrite Hr, take_ge in * by lia. exists m'.
    assert (Hs' : cstr m' buf (decimal_text n)) by (apply cstr_bytes; split; [apply Hb; lia|done]).
    split; [rewrite E; do 2 f_equal; unfold to_int; rewrite Z.mod_small; lia|]. split; [|split].
    + unfold atoi. rewrite (strtol_decimal fuel m' buf n 10) by (try left; (done || lia)). cbn [mbind option_bind]. f_equal.
      unfold to_int. unfold is_int in Hn. rewrite Z.mod_small by lia. lia.
    + exists (double_of_long n). unfold strtod.
      rewrite (strtol_decimal fuel m' buf n 10) by (try left; (done || lia)).
      assert (is_integer (double_of_long n) n) by (apply double_of_long_exact; unfold is_int in Hn; lia).
      eauto using fabs_integer.
    + apply (sscanf_d fuel m' buf fmt dst n); [done..| |lia|lia]. eapply cstr_ext; [|exact Hs].
      intros x Hr'. apply Hx. cbn in Hr'. lia.
Qed.

(** ** On the serial line *)

(** [printf] sends the first 511 bytes of the text to the serial line, if they are text
    without NULs, and answers their number. *)
Lemma printf_shows fuel o m buf fmt ps args texts :
  Forall piece_ok ps -> cstr m fmt (format_text ps) ->
  fmt + Z.of_nat (length (format_text ps)) < buf \/ buf + 512 <= fmt ->
  args_ok m buf 512 texts fuel ps args -> flows 511 texts 0 ps args -> (length ps < fuel)%nat -> (512 <= fuel)%nat ->
  let shown := take 511 (render texts ps args) in
  Forall (fun c => 0 < c < 256) shown -> utf8_valid shown = true ->
  exists m', printf fuel o m buf fmt args = Some (Z.of_nat (length shown), m', serial_print o shown).
Proof.
  intros Hps Hs Hd Ha Hfl Hf Hf' shown Hc Hu. unfold printf, vprintf_impl.
  destruct (snprintf_text fuel m buf 512 fmt ps args texts) as (m' & E & Hb & _); [unfold u64_max; lia|done..|lia|].
  unfold snprintf in E. rewrite E. cbn [mbind option_bind]. fold shown in Hb. specialize (Hb eq_refl). exists m'.
  assert (Hlen : (length shown <= 511)%nat) by (unfold shown; rewrite length_take; lia).
  unfold serial_puts. rewrite (strlen_spec fuel m' buf shown) by (rewrite ?cstr_bytes; (done || lia)). cbn [mbind option_bind].
  unfold rust_serial_write. rewrite Nat2Z.id, bytes_read, Hu by by apply bytes_at_app in Hb as [Hb _].
  fold shown. do 3 f_equal. unfold to_int. change (take (Z.to_nat (512 - 1)) (render texts ps args)) with shown.
  rewrite Z.mod_small; lia.
Qed.

(** All four ways to print show the same bytes on the serial line, whatever the stream; the
    fortified two do not answer how many. *)
Theorem streams_agree fuel o m buf stream flag fmt args r m' o' :
  printf fuel o m buf fmt args = Some (r, m', o') ->
  fprintf fuel o m buf stream fmt args = Some (r, m', o') /\
  __printf_chk fuel o m buf flag fmt args = Some (0, m', o') /\
  __fprintf_chk fuel o m buf stream flag fmt args = Some (0, m', o').
Proof.
  unfold fprintf, printf, __printf_chk, __fprintf_chk, vprintf_impl.
  destruct (fmt_vsnprintf _ _ _ _ _ _) as [[r1 m1]|]; [|done]. cbn [mbind option_bind].
  destruct (serial_puts _ _ _ _) as [o1|]; [|done]. cbn [mbind option_bind]. by intros [= <- <- <-].
Qed.

(** ** Examples *)

Module FormatDemo.

(** A format, a string argument, and room for the buffer. *)
Definition pieces : list piece :=
  [Lit 69; Dir (mk_dspec false false 0 None 0 Ci); Percent; Dir (mk_dspec false false 0 (Some 3) 0 Cd); Lit 32;
   Dir (mk_dspec true false 6 None 0 Cs); Dir (mk_dspec false true 4 None 1 CX)].
Definition mem0 : memory := fun x => nth (Z.to_nat x) (str "E%i%%%.3d %-6s%04lX" ++ [0] ++ str "DOOM" ++ [0] ++ str "%d" ++ [0]) 0.
Definition texts (_ : Z) : list Z := str "DOOM".

Lemma pieces_ok : Forall piece_ok pieces.
Proof. repeat apply List.Forall_cons; try apply List.Forall_nil; cbn; unfold small_int; lia. Qed.

End FormatDemo.

Lemma snprintf_renders_witness : exists m',
  snprintf 100 FormatDemo.mem0 64 16 0 [1; 7; 20; 0xbeef] = Some (15, m') /\ bytes_at m' 64 (str "E1%007 DOOMBEEF" ++ [0]).
Proof.
  destruct (snprintf_renders 100 FormatDemo.mem0 64 16 0 FormatDemo.pieces [1; 7; 20; 0xbeef] FormatDemo.texts)
    as (m' & E & Hb & _).
  - unfold u64_max. lia.
  - exact FormatDemo.pieces_ok.
  - vm_compute. done.
  - left. vm_compute. done.
  - cbn. split_and!; try done; try lia. intros _. split; [by vm_compute|]. split; [cbn; lia|]. left. cbn. lia.
  - vm_compute. split_and!; (done || lia).
  - cbn. lia.
  - lia.
  - exists m'. split; [exact E|]. exact (Hb eq_refl).
Defined.

Lemma decimal_round_trip_witness : exists m',
  snprintf 65 FormatDemo.mem0 64 12 25 [wrap64 (-2147483648)] = Some (11, m') /\ atoi 65 m' 64 = Some (-2147483648) /\
  exists x, strtod 65 m' 64 = Some (x, 75) /\ is_integer (fabs x) 2147483648.
Proof.
  destruct (decimal_round_trip 65 FormatDemo.mem0 64 12 25 0 (-2147483648)) as (m' & E & Ha & (x & Hx & _ & Hf) & _).
  - unfold is_int. lia.
  - unfold u64_max. lia.
  - by vm_compute.
  - lia.
  - lia.
  - lia.
  - exists m'. split; [exact E|]. split; [exact Ha|]. exists x. split; [exact Hx|exact Hf].
Defined.

Lemma snprintf_bounded_witness : exists r m', snprintf 70 FormatDemo.mem0 64 4 25 [12345] = Some (r, m') /\
  (forall x, x < 64 \/ 68 <= x -> m' x = FormatDemo.mem0 x).
Proof.
  eexists _, _. split; [vm_compute; reflexivity|].
  eapply (snprintf_bounded 70 FormatDemo.mem0 64 4 25 [12345]); [unfold u64_max; lia|vm_compute; reflexivity].
Defined.

(** A number printed with leading zeros is not: %d reads it in octal. *)
Lemma padded_read_as_octal :
  let m := fun x => nth (Z.to_nat x) (str "%.3d" ++ [0] ++ str "%d" ++ [0]) 0 in
  ('(_, m) ← snprintf 70 m 16 16 0 [10]; '(r, m) ← sscanf 70 m 16 5 [64]; Some (r, load32 m 64)) = Some (1, 8).
Proof. vm_compute. reflexivity. Qed.

(** A negative number has a digit less than its precision asks for. *)
Lemma negative_precision :
  let m := fun x => nth (Z.to_nat x) (str "%.3d" ++ [0]) 0 in
  ('(_, m) ← snprintf 70 m 16 16 0 [wrap64 (-5)]; Some ((fun i => m (16 + Z.of_nat i)) <$> seq 0 4)) = Some (str "-05" ++ [0]).
Proof. vm_compute. reflexivity. Qed.

Lemma snprintf_hangs_witness : snprintf 1000 FormatDemo.mem0 64 4 0 [1; 7; 20; 0xbeef] = None.
Proof.
  apply (snprintf_hangs 1000 FormatDemo.mem0 64 4 0 (take 4 FormatDemo.pieces) (Lit 32) (drop 5 FormatDemo.pieces)
           [1; 7; 20; 0xbeef] FormatDemo.texts 100).
  - unfold u64_max. lia.
  - exact FormatDemo.pieces_ok.
  - by vm_compute.
  - left. by vm_compute.
  - cbn. split_and!; (done || lia).
  - vm_compute. split_and!; (done || lia).
  - vm_compute. lia.
Defined.
