(* ===== verification/DoomThread.v ===== *)
(** * The Doom thread and its ends (src/ffi/mod.rs [doom_thread_entry], [rust_realloc];
    src/ffi/stubs.c [I_Error], [I_Quit], [exit], [I_ZoneBase])

    The engine itself is third-party C code: [doomgeneric_Create] and [doomgeneric_Tick]
    are arbitrary transformers of the machine the thread sees. *)

From stdpp Require Import gmap.
From S2P Require Import Prelude Machine Fmt Alloc LinkedList FixedBlock HeapMem Fs MkCxfs Ata Disk Doom CLib Cpu CString CPrintf.

(** [rust_realloc] goes to the global allocator, which moves and copies. *)
Definition rust_realloc {S} `{!HeapAllocator S} (a : FixedSizeBlockAllocator (S := S)) (m : memory) (ptr old_size align new_size : Z)
    : outcome (Z * FixedSizeBlockAllocator (S := S) * memory) :=
  layout ← expect (from_size_align old_size align);
  fixed_realloc a m ptr layout new_size.

(** A thread that has halted for good, or one that is in the loop of the engine. *)
Inductive thread_end := Halted | Ticking.

(** [hlt_loop] never returns: it halts until an interrupt, again and again. *)
Definition hlt_loop : thread_end := Halted.
Definition rust_hlt : thread_end := hlt_loop.

Section Thread.
Context {D : Type} `{!Ports D}.

(** What the thread acts on: the devices, memory and the serial line. *)
Record dworld := mk_dworld { dev : D; dmem : memory; dout : output }.

Variable doomgeneric_Create : list bytes -> dworld -> dworld.
Variable doomgeneric_Tick : dworld -> dworld.

Definition NO_WAD : list Z := str "doom: doom1.wad not found in CXFS archive, thread idle".

(** [n] rounds of the endless loop. *)
Definition doom_thread_entry (archive : option bytes) (n : nat) (w : dworld) : outcome (thread_end * dworld) :=
  wad ← cxfs_open archive DOOM1_WAD;
  match wad with
  | None => Ok (hlt_loop, mk_dworld (dev w) (dmem w) (serial_println (dout w) NO_WAD))
  | Some _ =>
      let '(d, m) := enter_mode13 (dev w) (dmem w) in
      let w := doomgeneric_Create [str "moltos"] (mk_dworld d m (dout w)) in
      Ok (Ticking, Nat.iter n doomgeneric_Tick w)
  end.

(** On an archive of [mkcxfs], the thread starts the engine exactly when there is a file
    doom1.wad, in graphics mode with a black screen; otherwise it reports on the serial
    line and leaves the screen and its registers alone. *)
Theorem doom_needs_wad files data n w :
  Forall (fun f => 0 ∉ fst f) files -> build files = Some data ->
  doom_thread_entry (Some data) n w = Ok
    match find_file files DOOM1_WAD with
    | None => (Halted, mk_dworld (dev w) (dmem w) (serial_println (dout w) NO_WAD))
    | Some _ => (Ticking, Nat.iter n doomgeneric_Tick
                  (doomgeneric_Create [str "moltos"] (mk_dworld (set_mode (dev w)) (fill_framebuffer 0 (dmem w)) (dout w))))
    end.
Proof.
  intros Hf Hb. unfold doom_thread_entry. rewrite (open_built _ _ _ Hf Hb). cbn [mbind outcome_bind].
  by destruct (find_file files DOOM1_WAD).
Qed.

(** From the host's files to the engine: on a disk with the output of mkcxfs, mounting and
    then the thread start the engine exactly if one of the files packed was a doom1.wad. *)
Theorem doom_starts_from_disk {A} `{!Ports A} (disks : Drive -> option bytes) `{!AtaDisk A disks} h paths output rep h' img (a : A) n w :
  (forall drive img, disks drive = Some img -> image_ok img) -> disk_ready disks a ->
  build_file h paths output = (MkCxfs.Finished rep, h') -> Forall (fun p => 0 ∉ p) paths ->
  disks Slave = Some img -> h_files h' !! output = Some img -> 64 * 1024 <= Z.of_nat (length img) <= 6 * 1024 * 1024 ->
  exists count archive a', fs_init a None = Ok (inl count, archive, a') /\
    fst <$> doom_thread_entry archive n w = Ok (if find_input h paths DOOM1_WAD is Some _ then Ticking else Halted).
Proof.
  intros Hdisks Ha Hb Hp Hd Hh Hl. destruct (build_file_finished _ _ _ _ _ Hb) as (files & img' & Hin & Hbuild & Hh').
  rewrite Hh', lookup_insert_eq in Hh. injection Hh as ->.
  destruct (fs_init_disk disks Hdisks a None Ha) as (a' & _ & E). rewrite Hd in E.
  destruct (Z.ltb_spec (Z.of_nat (length img)) (128 * 512)); [lia|]. cbv zeta in E. rewrite (take_ge img) in E by lia.
  destruct (build_header _ _ Hbuild) as [Hm _]. rewrite (bool_decide_eq_true_2 _ Hm) in E.
  eexists _, (Some img), a'. split; [exact E|].
  rewrite (doom_needs_wad files img n w (read_inputs_no_nul _ _ _ Hin Hp) Hbuild), (find_input_file _ _ _ _ Hin).
  by destruct (find_input h paths DOOM1_WAD).
Qed.

End Thread.

(** ** How Doom ends *)

(** [exit] and [I_Quit] halt.  [I_Error] reports first; [buf] is its array of 512 bytes. *)
Definition exit (code : Z) : thread_end := rust_hlt.
Definition I_Quit : thread_end := rust_hlt.

Definition I_Error (fuel : nat) (o : output) (m : memory) (buf error : Z) (args : list Z) : option (thread_end * output) :=
  '(_, m) ← fmt_vsnprintf buf 512 fuel m error args;
  let o := serial_print o (str "DOOM ERROR: ") in
  o ← serial_puts fuel o m buf;
  Some (rust_hlt, serial_print o [10]).

(** An error message of the engine reaches the serial line, if its literals and strings fit
    into 511 bytes. *)
Lemma I_Error_reports fuel o m buf error ps args texts :
  Forall piece_ok ps -> cstr m error (format_text ps) ->
  error + Z.of_nat (length (format_text ps)) < buf \/ buf + 512 <= error ->
  args_ok m buf 512 texts fuel ps args -> flows 511 texts 0 ps args -> (length ps < fuel)%nat -> (512 <= fuel)%nat ->
  let shown := take 511 (render texts ps args) in
  Forall (fun c => 0 < c < 256) shown -> utf8_valid shown = true ->
  I_Error fuel o m buf error args =
    Some (Halted, serial_println (serial_print o (str "DOOM ERROR: ")) shown).
Proof.
  intros Hps Hs Hd Ha Hfl Hf Hf' shown Hc Hu.
  destruct (printf_shows fuel (serial_print o (str "DOOM ERROR: ")) m buf error ps args texts) as [m' H]; [done..|].
  unfold printf, vprintf_impl in H. unfold I_Error.
  destruct (fmt_vsnprintf buf 512 fuel m error args) as [[r m1]|]; [|done]. cbn [mbind option_bind] in *.
  destruct (serial_puts fuel _ m1 buf) as [o1|]; [|done]. cbn [mbind option_bind] in *. injection H as _ _ ->.
  unfold serial_println, serial_print. cbn. by rewrite <- !app_assoc.
Qed.

(** The zone heap of the engine. *)
Definition I_ZoneBase {S} `{!HeapAllocator S, !HeapMemory S} (st : c_state (S := S))
    : outcome (Z * Z * c_state (S := S)) :=
  let size := 4 * 1024 * 1024 in
  '(p, st) ← malloc st size;
  Ok (p, size, st).

(** ** Hooks of the engine *)

Definition I_ConsoleStdout : Z := 1.
Definition I_PrintBanner (fuel : nat) (o : output) (m : memory) (msg : Z) : option output := serial_puts fuel o m msg.
Definition I_PrintDivider (o : output) : output := serial_print o (str "---" ++ [10]).
Definition I_PrintStartupBanner (fuel : nat) (o : output) (m : memory) (msg : Z) : option output := serial_puts fuel o m msg.

(** There is no sound: lumps are not found, nothing starts and nothing plays.  The hooks
    without a result do nothing. *)
Definition snd_musicdevice : Z := 0.
Definition I_GetSfxLumpNum (sfxinfo : Z) : Z := -1.
Definition I_StartSound (sfxinfo channel vol sep : Z) : Z := -1.
Definition I_SoundIsPlaying (handle : Z) : Z := 0.
Definition I_RegisterSong (data len : Z) : Z := 0.
Definition I_MusicIsPlaying : Z := 0.
