(* ===== verification/DoomUnused.v ===== *)
(** * The first Doom module (src/doom/mod.rs)

    An earlier version of src/ffi/mod.rs that no module of the crate declares.  The
    definitions are those of the file; the lemmas compare them with the callbacks that took
    their place.  Its [rust_alloc] has no meaning to translate: the body ends without the
    pointer it should return, which the compiler refuses. *)

From S2P Require Import Prelude Machine Fmt Alloc LinkedList FixedBlock HeapMem Fs Ata KeyRing Memory Doom CLib Cpu CString CPrintf DoomThread.

Module Unused.

Section Thread.
Context {D : Type} `{!Ports D}.
Variable doomgeneric_Create : list bytes -> dworld (D := D) -> dworld (D := D).

(** The thread starts the engine and halts if it returns. *)
Definition doom_thread_entry (w : dworld (D := D)) : thread_end * dworld (D := D) :=
  (hlt_loop, doomgeneric_Create [str "moltos"] w).

(** The palette stays as it is. *)
Definition DG_Init (d : D) : D := d.

End Thread.

(** [copy_from_slice] of the 64000 pixels, unless the engine has no buffer yet. *)
Definition DG_DrawFrame (DG_ScreenBuffer : Z) (m : memory) : memory :=
  if DG_ScreenBuffer =? 0 then m else
  let src := m in
  fun a => if (FB_ADDR <=? a) && (a <? FB_ADDR + WIDTH * HEIGHT) then src (DG_ScreenBuffer + (a - FB_ADDR)) else m a.

(** [uptime n] is what the [n]-th call of [uptime_ticks] reads. *)
Definition DG_SleepMs (fuel : nat) (uptime : nat -> Z) (_ms : Z) : outcome (option nat) :=
  target ← uptime 0%nat +! Z.max (_ms / 10) 1;
  Ok (sleep_until fuel uptime target 1).

Definition DG_GetTicksMs (uptime : Z) : outcome Z :=
  ms ← uptime *! 10; Ok (as_u32 ms).

(** No key, ever: neither variable is written. *)
Definition DG_GetKey (m : memory) (pressed key : Z) : Z * memory := (0, m).

Section Heap.
Context {S : Type} `{!HeapAllocator S, !HeapMemory S}.

Definition rust_free (st : c_state (S := S)) (ptr sz al : Z) : outcome (c_state (S := S)) :=
  layout ← expect (from_size_align sz al);
  h ← ha_dealloc (c_heap st) ptr layout;
  Ok (mk_c h (hm_dealloc (c_heap st) ptr layout (c_mem st))).

End Heap.
End Unused.

(** Frames, time and freed memory are as in src/ffi/mod.rs. *)
Lemma unused_agrees {S} `{!HeapAllocator S, !HeapMemory S} :
  Unused.DG_DrawFrame = DG_DrawFrame /\ Unused.DG_SleepMs = DG_SleepMs /\ Unused.DG_GetTicksMs = DG_GetTicksMs /\
  Unused.rust_free (S := S) = rust_free.
Proof. split_and!; reflexivity. Qed.

(** The keyboard is not: where the ring has an event, the callback of src/ffi/mod.rs hands it
    over and this one answers that there is none. *)
Lemma unused_get_key k m pp kp r k' m' : DG_GetKey k m pp kp = Ok (r, k', m') ->
  r = 0 /\ Unused.DG_GetKey m pp kp = (r, m') \/ r = 1 /\ Unused.DG_GetKey m pp kp = (0, m).
Proof.
  unfold DG_GetKey. destruct (ring_pop (KEY_RING k)) as [[ev q]|]; [|done]. cbn [mbind outcome_bind].
  destruct ev; intros [= <- <- <-]; [by right|by left].
Qed.

(** It starts the engine whether or not there is a WAD, and in the video mode it finds. *)
Lemma unused_thread {D} `{!Ports D} Create (w : dworld (D := D)) Tick files data :
  Forall (fun f => 0 ∉ fst f) files -> build files = Some data -> find_file files DOOM1_WAD = None ->
  doom_thread_entry Create Tick (Some data) 0 w = Ok (Halted, mk_dworld (dev w) (dmem w) (serial_println (dout w) NO_WAD)) /\
  Unused.doom_thread_entry Create w = (Halted, Create [str "moltos"] w).
Proof. intros Hf Hb Hn. by rewrite (doom_needs_wad _ _ _ _ _ _ Hf Hb), Hn. Qed.
