(* ===== verification/Boot.v ===== *)
(** * Boot (src/main.rs, src/memory.rs [init], src/lib.rs test harness)

    [kernel_main] from its first call to the switch into the executor's thread, composed
    of the operations the other files model, and the runner of the kernel's own tests. *)

From stdpp Require Import gmap.
From S2P Require Import Prelude Fmt Machine Context Stack Eevdf Scheduler Tasks Interrupts Alloc Fs Ata Memory Vga Syscall Spawn Shell Runtime Cpu.

(** ** [kernel_main] *)

Record BootInfo := mk_boot_info {
  boot_memory_map : list MemoryRegion;
  physical_memory_offset : Z;
}.

Definition EXECUTOR_STACK : Z := 256 * 1024.

Section Boot.
Context {G Sel : Type} `{!DescriptorTable G Sel} {P : Type} `{!ChainedPics P}.
Context {M : Type} `{!Mapper M} {H : Type} `{!HeapAllocator H} {D : Type} `{!Ports D} {K Ev : Type} `{!KeyDecoder K Ev}.
Context {Q SQ C : Type} `{!ArrayQueue Z Q} `{!ArrayQueue Z SQ} `{!AtomicWaker Z C}.

(** [OffsetPageTable::new], CR3 as the boot loader leaves it, and the allocator's [init]. *)
Variable offset_page_table : Z -> Z -> M.
Variable cr3 : Z.
Variable heap_init : H -> Z -> Z -> outcome H.
Variable alloc_mem : H -> Layout -> memory -> memory.

(** What the boxes, maps and queues of the executor and the archive take from the heap. *)
Variable collections : H -> memory -> outcome (H * memory).

(** Addresses: the double fault stack, [executor_entry], and the return address of the
    call of [context_switch]. *)
Variables double_fault_stack executor_entry ret : Z.
(** The entry of the Doom thread, and what registers a system call does not pass hold. *)
Variables doom_entry junk : Z.

Definition active_level_4_table (offset : Z) : outcome Z := offset +! cr3.

(** [memory::init] *)
Definition memory_init (offset : Z) : outcome M :=
  table ← active_level_4_table offset;
  Ok (offset_page_table table offset).

(** Everything [kernel_main] has built when it enters the scheduler, and how that ended. *)
Record booted := mk_booted {
  b_regs : system_regs (G := G) (Sel := Sel) (P := P);
  b_mapper : M;
  b_frames : BootInfoFrameAllocator;
  b_archive : option bytes;
  b_serial : list Z;
  b_scancodes : scancodes (SQ := SQ) (C := C);
  b_executor : Executor (Q := Q) (kfuture (K := K));
  b_world : world (S := H);
  b_end : Scheduler.dispatch;
}.

Definition fs_error_name (e : FsError) : list Z :=
  match e with FsNoDrive => str "NoDrive" | FsDiskError => str "DiskError" | BadMagic => str "BadMagic" end.

Definition fs_message (r : Z + FsError) : list Z :=
  match r with
  | inl n => str "fs: loaded " ++ fmt_dec n ++ str " file(s)"
  | inr e => str "fs: " ++ fs_error_name e ++ str " (no disk or empty archive)"
  end ++ [10].

(** [r], [w] and [d] are the system registers, the statics and the disk at power on; [c]
    the processor when it calls [enter_scheduler]. *)
Definition kernel_main (bi : BootInfo) (r : system_regs) (w : world) (d : D) (c : cpu) : outcome booted :=
  r ← init double_fault_stack r;
  let r := set_interrupts false r in
  mapper ← memory_init (physical_memory_offset bi);
  let frames := frames_init (boot_memory_map bi) in
  '(res, frames) ← init_heap heap_init (heap w) mapper frames;
  match res with
  | inr _ => Panic ExpectFailed
  | inl (h, mapper) =>
      '(mapper, frames) ← map_vga_buffer mapper frames;
      w ← init_memory_map w (boot_memory_map bi);
      '(mapper, frames) ← map_framebuffer mapper frames;
      '(loaded, archive, d) ← fs_init d None;
      let k := init_scancode_queue (mk_scancodes None aw_new) in
      e ← boot_executor;
      '(h, m) ← collections h (wmem w);
      '(t, h, m, next) ← thread_with_stack_size alloc_mem h executor_entry EXECUTOR_STACK (next_id w) m;
      let w := mk_world (sys w) (MEMORY_MAP w) (DOOM_LAUNCHED w) (spawn (sched w) t) h m next in
      w ← wprintln w (str "Moltos: threads + shell. Timer preempts round-robin.");
      w ← wprintln w (str "Scheduler has " ++ fmt_dec (Z.of_nat (len (sched w))) ++ str " threads");
      '(s, end_) ← enter_scheduler (sched w) (sys_uptime (sys w)) ret (with_mem c (wmem w));
      Ok (mk_booted r mapper frames archive (fs_message loaded) k e
            (mk_world (sys w) (MEMORY_MAP w) (DOOM_LAUNCHED w) s (heap w) (wmem w) (next_id w)) end_)
  end.

(** [executor_entry]: take the executor out of its slot and run it; [evs] are the
    interrupts and turns of its loop that follow. *)
Definition run_executor_entry (EXECUTOR : option (Executor (Q := Q) (kfuture (K := K))))
    (w : kworld (SQ := SQ) (C := C)) (evs : list kevent)
    : outcome (Executor (Q := Q) (kfuture (K := K)) * kworld (SQ := SQ) (C := C) * option (Executor (Q := Q) (kfuture (K := K)))) :=
  executor ← expect EXECUTOR;
  '(e, w) ← krun alloc_mem doom_entry junk (executor, w) evs;
  Ok (e, w, None).

(** The kernel from power on: boot, then [executor_entry] if the processor was sent there
    ([None] if it is anywhere else). *)
Definition moltos (bi : BootInfo) (r : system_regs) (w : world) (d : D) (c : cpu) (evs : list kevent)
    : outcome (option (Executor (Q := Q) (kfuture (K := K)) * kworld (SQ := SQ) (C := C))) :=
  b ← kernel_main bi r w d c;
  match b_end b with
  | Dispatched c' =>
      if pc c' =? executor_entry then
        '(e, w, _) ← run_executor_entry (Some (b_executor b)) (mk_kworld (b_world b) (b_scancodes b) [] [] []) evs;
        Ok (Some (e, w))
      else Ok None
  | _ => Ok None
  end.

(** The panic handler of the kernel: the message goes to the serial line and to the
    console, and the processor halts for good. *)
Definition panic_handler (fmt_info : panic -> list Z) (serial : list Z) (s : system) (info : panic)
    : outcome (list Z * system) :=
  s' ← Syscall.print s (fmt_info info ++ [10]);
  Ok (serial ++ str "PANIC: " ++ fmt_info info ++ [10], s').

(** ** Boot reaches the executor *)

(** The allocations of the collections keep the heap consistent or end in the panic of a
    failed allocation. *)
Hypothesis collections_ok : forall h live m, ha_inv h live ->
  match collections h m with
  | Ok (h', _) => ha_heap h' = ha_heap h /\ exists live', ha_inv h' live'
  | Panic e => e = ExplicitPanic
  end.

(** The machine at power on. *)
Record power_on (color : Z) (t : terminal) (r : system_regs (G := G) (Sel := Sel) (P := P)) (w : world (S := H)) (c : cpu) : Prop := {
  po_pics : PICS r = pics_new PIC_1_OFFSET PIC_2_OFFSET;
  po_stack : double_fault_stack + DOUBLE_FAULT_STACK_SIZE <= u64_max;
  po_entry : is_u64 executor_entry;
  po_heap : exists f, heap_init (heap w) HEAP_START HEAP_SIZE = Ok f /\ ha_heap f = (HEAP_START, HEAP_SIZE) /\ ha_inv f [];
  po_map : MEMORY_MAP w = None;
  po_sched : eevdf (sched w) = eevdf_new;
  po_uptime : is_u64 (sys_uptime (sys w));
  po_console : system_shows (sys w) color t;
  po_regs : regs_ok c;
  po_flags : flags_ok (flags c);
  po_boot_ctx : 0 <= bootstrap_ctx (sched w) /\ bootstrap_ctx (sched w) + CTX_SIZE <= HEAP_START;
  po_boot_stack : 16 <= regs c RSP <= HEAP_START /\ apart (bootstrap_ctx (sched w)) CTX_SIZE (regs c RSP - 16) 16;
}.

(** The memory map is one, the pages can be mapped, and the disk answers. *)
Record devices_ok (bi : BootInfo) (w : world (S := H)) (d : D) : Prop := {
  do_map : regions_ok (boot_memory_map bi);
  do_pages : exists mapper h m1 a1 m2 a2 m3 a3, memory_init (physical_memory_offset bi) = Ok mapper /\
    init_heap heap_init (heap w) mapper (frames_init (boot_memory_map bi)) = Ok (inl (h, m1), a1) /\
    map_vga_buffer m1 a1 = Ok (m2, a2) /\ map_framebuffer m2 a2 = Ok (m3, a3);
  do_disk : returns (fs_init d None);
}.

(** The end of boot: the executor's thread runs its entry point with interrupts enabled,
    and everything it relies on is in place. *)
Record handed_to_executor (color : Z) (bi : BootInfo) (r : system_regs (G := G) (Sel := Sel) (P := P)) (w : world (S := H)) (b : booted) : Prop := {
  h_cpu : cpu_ready double_fault_stack r (b_regs b) /\ interrupt_flag (b_regs b) = false;
  h_map : MEMORY_MAP (b_world b) = Some (boot_memory_map bi);
  h_clock : sys_uptime (sys (b_world b)) = sys_uptime (sys w) /\ DOOM_LAUNCHED (b_world b) = DOOM_LAUNCHED w;
  h_tasks : kwait color (b_executor b) (boot_world (SQ := SQ) (C := C) (b_world b)) /\ b_scancodes b = keyq (boot_world (SQ := SQ) (C := C) (b_world b));
  h_thread : exists th c', b_end b = Dispatched c' /\ pc c' = executor_entry /\ interrupts_on (flags c') = true /\
    threads (eevdf (sched (b_world b))) = [th] /\ current (eevdf (sched (b_world b))) = Some 0%nat /\
    thread_id th = next_id w /\ storage_len (thread_stack th) = EXECUTOR_STACK;
}.

Lemma init_heap_heap h m a h' m' a' :
  init_heap heap_init h m a = Ok (inl (h', m'), a') -> heap_init h HEAP_START HEAP_SIZE = Ok h'.
Proof.
  unfold init_heap. destruct (map_pages _ _ _ _) as [[m1|e] a1]; [|done]. intros (h1 & E & Hx)%bind_ok.
  by injection Hx as <- _ _.
Qed.

(** A block in the heap is apart from the bootstrap context and stack. *)
Lemma heap_caller_apart color t r w c sp cp : power_on color t r w c ->
  inside (sp, EXECUTOR_STACK) (HEAP_START, HEAP_SIZE) -> inside (cp, CTX_SIZE) (HEAP_START, HEAP_SIZE) ->
  caller_apart (bootstrap_ctx (sched w)) c sp EXECUTOR_STACK cp.
Proof.
  intros [? ? ? ? ? ? ? ? ? ? ? [? ?]] Hsp Hcp. unfold inside, apart, CTX_SIZE, EXECUTOR_STACK, HEAP_START, HEAP_SIZE in *. cbn in *.
  constructor; try done; unfold apart, CTX_SIZE, u64_mod; lia.
Qed.

(** [enter_scheduler] with one new thread. *)
Lemma enter_one s th (c : cpu) entry ticks : eevdf s = mk_eevdf [th] [meta_new] None 0 0 -> is_u64 ticks ->
  Scheduler.ready (bootstrap_ctx s) ret (cli c) th entry ->
  exists s' c', enter_scheduler s ticks ret c = Ok (s', Dispatched c') /\ threads (eevdf s') = [th] /\
    current (eevdf s') = Some 0%nat /\ pc c' = entry /\ interrupts_on (flags c') = true.
Proof.
  intros He Ht Hr. assert (Hwf : eevdf_wf (mk_eevdf [th] [meta_new] None 0 0)).
  { apply (spawn_wf eevdf_new th meta_new eevdf_new_wf). unfold meta_ok, is_u64, u64_max. cbn. unfold DEFAULT_WEIGHT. lia. }
  destruct (boot_tick (eevdf s) (bootstrap_ctx s) ticks 0 meta_new) as (e' & j & t & E & Hj & Hjt); rewrite ?He; try done.
  - split; [repeat constructor; cbn; lia|by vm_compute].
  - rewrite He in Hjt. destruct j as [|j]; [|by destruct j]. cbn in Hjt. injection Hjt as <-.
    pose proof (ready_enters _ _ _ _ _ Hr) as [Hpc Hif]. destruct Hr as (_ & _ & Hn0 & Hl0 & _).
    assert (Hth : threads e' = [th]) by (rewrite He in E; by rewrite (tk_threads _ _ _ _ _ (eevdf_tick_prepare_ticked _ _ _ _ _ Hwf Ht ltac:(done) E))).
    unfold enter_scheduler, tick_prepare. rewrite E. cbn [mbind outcome_bind].
    rewrite (proj2 (Z.eqb_neq _ _) Hn0). change (mem (cli c)) with (mem c) in *. rewrite (proj2 (Z.eqb_neq _ _) Hl0). cbn [orb].
    eexists _, _. split; [reflexivity|]. split; [exact Hth|]. split; [exact Hj|]. split; [exact Hpc|exact Hif].
Qed.

(** The executor's thread on the kernel heap, when the heap has room. *)
Lemma executor_thread color t r w c h live next m : power_on color t r w c ->
  ha_inv h live -> ha_heap h = (HEAP_START, HEAP_SIZE) ->
  match thread_with_stack_size alloc_mem h executor_entry EXECUTOR_STACK next m with
  | Ok (th, h', m', _) => ha_heap h' = (HEAP_START, HEAP_SIZE) /\ (exists live', ha_inv h' live') /\
      thread_id th = next /\ storage_len (thread_stack th) = EXECUTOR_STACK /\
      Scheduler.ready (bootstrap_ctx (sched w)) ret (cli (with_mem c m')) th executor_entry
  | Panic e => e = ExplicitPanic
  end.
Proof.
  intros Hpo Hi Hh. assert (Hb : heap_below h (2 ^ 61)) by (unfold heap_below; rewrite Hh; by vm_compute).
  pose proof (thread_from_heap alloc_mem h live executor_entry EXECUTOR_STACK next m Hi Hb (po_entry _ _ _ _ _ Hpo) ltac:(by vm_compute)) as Ht.
  destruct (thread_with_stack_size _ _ _ _ _ _) as [[[[th h'] m'] next']|e]; [|done].
  destruct Ht as (sp & cp & Hpl & Hf & Hh' & Hi'). rewrite Hh in Hh'. split; [done|]. split; [by eexists|].
  split; [apply Hf|]. split; [by rewrite (fresh_stack _ _ _ _ _ _ _ _ Hf)|].
  destruct (ha_blocks _ _ Hi') as [Hblk _]. rewrite Hh' in Hblk.
  apply Forall_cons in Hblk as [(Hc0 & _ & Hcin) Hblk]. apply Forall_cons in Hblk as [(_ & _ & Hsin) _].
  eapply (fresh_ready _ sp _ cp); [exact Hpl|cbn in Hc0; unfold placement_ok in Hpl; lia|exact Hf|].
  pose proof (heap_caller_apart color t r w c sp cp Hpo Hsin Hcin) as []. by constructor.
Qed.

Lemma kernel_main_ok color t bi r w d c : power_on color t r w c -> devices_ok bi w d ->
  match kernel_main bi r w d c with
  | Ok b => handed_to_executor color bi r w b
  | Panic e => e = ExplicitPanic
  end.
Proof.
  intros Hpo [Hreg (mapper & h & m1 & a1 & m2 & a2 & m3 & a3 & Em & Eh & Ev1 & Ef) ([[ld arch] d'] & Ed)]. unfold kernel_main.
  destruct (init_ready double_fault_stack r (po_pics _ _ _ _ _ Hpo) (po_stack _ _ _ _ _ Hpo)) as (r' & -> & Hcpu & _).
  cbn [mbind outcome_bind]. rewrite Em. cbn [mbind outcome_bind]. rewrite Eh. cbn [mbind outcome_bind].
  rewrite Ev1. unfold init_memory_map. rewrite (po_map _ _ _ _ _ Hpo). cbn [mbind outcome_bind]. rewrite Ef. cbn [mbind outcome_bind].
  rewrite Ed. cbn [mbind outcome_bind wmem next_id sys MEMORY_MAP DOOM_LAUNCHED sched].
  apply init_heap_heap in Eh. destruct (po_heap _ _ _ _ _ Hpo) as (f & Ehf & Hhf & Hif). rewrite Eh in Ehf. injection Ehf as ->.
  destruct (boot_executor (K := K) (Q := Q)) as [e|pe] eqn:Ee; cbn [mbind outcome_bind].
  2: { exfalso. destruct (boot_returns (K := K) (Q := Q)) as [e E]. congruence. }
  pose proof (collections_ok f [] (wmem w) Hif) as Hcol.
  destruct (collections f (wmem w)) as [[h1 mc]|]; cbn [mbind outcome_bind]; [|done].
  destruct Hcol as (Hh1 & live1 & Hi1). rewrite Hhf in Hh1.
  pose proof (executor_thread color t r w c h1 live1 (next_id w) mc Hpo Hi1 Hh1) as Ht.
  destruct (thread_with_stack_size _ _ _ _ _ _) as [[[[th h2] m'] next']|]; cbn [mbind outcome_bind]; [|done].
  destruct Ht as (Hh2 & (live2 & Hi2) & Hid & Hlen & Hready). set (w1 := mk_world _ _ _ _ _ _ _).
  destruct (wprintln_margin color w1 w1 t (str "Moltos: threads + shell. Timer preempts round-robin."))
    as (w2 & -> & t2 & Hd2 & _); [exists (sys w1); split; [done|]; split; [done|apply Hpo]|]. cbn [mbind outcome_bind].
  destruct (wprintln_margin color w1 w2 t2 (str "Scheduler has " ++ fmt_dec (Z.of_nat (len (sched w2))) ++ str " threads") Hd2)
    as (w3 & -> & t3 & (s3 & -> & Hu3 & Hs3) & Hl3). cbn [mbind outcome_bind].
  cbn [with_sys sched sys wmem MEMORY_MAP DOOM_LAUNCHED heap next_id w1] in *.
  destruct (enter_one (spawn (sched w) th) th (with_mem c m') executor_entry (sys_uptime s3)) as (s' & c' & -> & Hth & Hcur & Hpc & Hif').
  - unfold spawn, eevdf_spawn. cbn [eevdf with_eevdf]. by rewrite (po_sched _ _ _ _ _ Hpo).
  - rewrite Hu3. apply Hpo.
  - exact Hready.
  - cbn [mbind outcome_bind]. constructor; cbn [b_regs b_world b_executor b_scancodes b_end MEMORY_MAP].
    + split; [|done]. by destruct Hcpu.
    + done.
    + done.
    + split; [|done]. destruct (boot_kwait (K := K) (Q := Q) (SQ := SQ) (C := C) color
        (mk_world s3 (Some (boot_memory_map bi)) (DOOM_LAUNCHED w) s' h2 m' next') live2 t3) as (e' & Ee' & Hk); [|exact Hs3|].
      * split; [by eexists|]. split; [exact Hi2|]. unfold heap_below. cbn [heap]. rewrite Hh2. by vm_compute.
      * rewrite Ee in Ee'. injection Ee' as <-. exact Hk.
    + exists th, c'. by repeat split.
Qed.

Hypothesis entry_u64 : is_u64 doom_entry.

Lemma moltos_settles color t bi r w d c evs arrivals : power_on color t r w c -> devices_ok bi w d ->
  sys_uptime (sys w) + Z.of_nat (length evs) < u64_max -> Forall event_ok (evs ++ [Turn arrivals]) ->
  match moltos bi r w d c (evs ++ [Turn arrivals]) with
  | Ok (Some (e, w')) => settled color e w'
  | Ok None => False
  | Panic p => p = ExplicitPanic
  end.
Proof.
  intros Hpo Hdev Hu Hev. pose proof (kernel_main_ok color t bi r w d c Hpo Hdev) as Hb. unfold moltos.
  destruct (kernel_main bi r w d c) as [b|]; [|done]. cbn [mbind outcome_bind].
  destruct Hb as [_ _ [Hup _] [Hk Hsc] (th & c' & Eend & Hpc & _)]. rewrite Eend, Hpc, Z.eqb_refl. rewrite Hsc.
  unfold run_executor_entry. cbn [expect mbind outcome_bind].
  fold (boot_world (SQ := SQ) (C := C) (b_world b)).
  pose proof (session_settles alloc_mem doom_entry junk entry_u64 color evs arrivals _ _ Hk) as Hset.
  change (uptime_ticks (boot_world (b_world b))) with (sys_uptime (sys (b_world b))) in Hset. rewrite Hup in Hset.
  specialize (Hset (proj1 (po_uptime _ _ _ _ _ Hpo)) Hu Hev).
  destruct (krun _ _ _ _ _) as [[e1 w1]|p]; cbn [mbind outcome_bind]; [exact Hset|apply Hset].
Qed.

End Boot.

(** ** Theorems *)

Section Theorems.
Context {G Sel : Type} `{!DescriptorTable G Sel} {P : Type} `{!ChainedPics P}.
Context {M : Type} `{!Mapper M} {H : Type} `{!HeapAllocator H} {D : Type} `{!Ports D} {K Ev : Type} `{!KeyDecoder K Ev}.
Context {Q SQ C : Type} `{!ArrayQueue Z Q} `{!ArrayQueue Z SQ} `{!AtomicWaker Z C}.



End Theorems.

(** A panic is shown: the message is appended to the serial line and written on the
    console like any other text, whatever it showed. *)
Theorem panic_shown fmt_info serial s p color t : system_shows s color t ->
  exists s', panic_handler fmt_info serial s p = Ok (serial ++ str "PANIC: " ++ fmt_info p ++ [10], s') /\
    system_shows s' color (foldl terminal_byte t (printable <$> fmt_info p ++ [10])).
Proof.
  intros Hs. destruct (print_shows s (fmt_info p ++ [10]) color t Hs) as (t' & E & -> & Hn).
  unfold panic_handler. rewrite E. cbn [mbind outcome_bind]. eexists. split; [reflexivity|]. by split.
Qed.

Module BootMainDemo.
Import CpuDemo ShellDemo ListQueue.

(** No disk: every port reads zero. *)
#[local] Instance no_disk : Ports unit := { inb d p := (0, d); inw d p := (0, d); outb d p v := d }.

Definition info : BootInfo := mk_boot_info demo_map 0x10000000000.
Definition statics : world (S := BumpAllocator) :=
  mk_world (mk_system 0 (console_at 14 (mk_terminal [] [])) 0) None false
    (fst (scheduler_new 0x1000 (fun _ => 0))) bump_new (fun _ => 0) 0.
Definition at_main : cpu := mk_cpu (fun _ => 0x8000) 0x400000 0x2 8 16 (fun _ => 0).
Definition bump_heap_init (h : BumpAllocator) (start sz : Z) : outcome BumpAllocator := bump_init h start sz.

Lemma statics_power_on : power_on bump_heap_init 0x200000 0x401000 14 (mk_terminal [] []) reset statics at_main.
Proof.
  constructor.
  - reflexivity.
  - by vm_compute.
  - by vm_compute.
  - eexists. split; [reflexivity|]. split; [by vm_compute|]. split; cbn; unfold HEAP_START, HEAP_SIZE; (done || lia).
  - reflexivity.
  - reflexivity.
  - by vm_compute.
  - split; [done|]. split; [constructor|cbn; lia].
  - intros reg. by vm_compute.
  - by vm_compute.
  - by vm_compute.
  - split; [by vm_compute|]. left. by vm_compute.
Qed.

Lemma info_devices : devices_ok (fun _ _ => (fun _ => None) : FlatMapper.tables) 0x1000 bump_heap_init info statics tt.
Proof.
  destruct (FlatMapper.flat_map_pages heap_pages (containing HEAP_START) (fun _ => None) (frames_init demo_map))
    as [m1 Hm1]; [rewrite demo_frames; cbn [next_frame frames_init]; lia|done|].
  edestruct (FlatMapper.flat_map_device m1) as (m2 & a2 & E2). destruct (FlatMapper.flat_map_framebuffer 0 16 m2 a2) as (m3 & a3 & E3).
  constructor; [by apply Forall_singleton| |eexists; vm_compute; reflexivity].
  eexists _, _, m1, _, m2, a2, m3, a3. split; [reflexivity|]. split; [unfold init_heap; cbn [info boot_memory_map]; rewrite Hm1; reflexivity|].
  split; [exact E2|exact E3].
Qed.



End BootMainDemo.

