(* ===== verification/SelfTests.v ===== *)
(** * The kernel's own tests (src/lib.rs test framework, the [#[test_case]] functions of
    src/thread/context.rs, stack.rs, thread.rs, src/interrupts.rs, src/syscall.rs,
    src/vga_buffer.rs, src/sync.rs)

    The test runner, and the unit tests as programs over the models of what they test, so
    that running them checks the models against what the authors of the kernel expect. *)

From stdpp Require Import gmap.
From S2P Require Import Prelude Fmt Machine Context Preempt Stack Eevdf Scheduler Sync Interrupts Alloc LinkedList FixedBlock Memory Vga Syscall Spawn Cpu Boot.

(** ** The test framework (src/lib.rs) *)

Inductive QemuExitCode := QemuSuccess | QemuFailed.
Definition exit_code_as_u32 (c : QemuExitCode) : Z := match c with QemuSuccess => 0x10 | QemuFailed => 0x11 end.

(** The port writes of [exit_qemu]. *)
Definition exit_qemu (ports : list (Z * Z)) (c : QemuExitCode) : list (Z * Z) := ports ++ [(0xf4, exit_code_as_u32 c)].

Section Framework.
Context {A : Type}.
(** The text of a panic. *)
Variable fmt_info : panic -> list Z.

(** A test has a name and a body, which may panic. *)
Definition test : Type := list Z * (A -> outcome A).

(** The serial output, the port writes, and the state the tests share. *)
Record run_state := mk_run { r_serial : list Z; r_ports : list (Z * Z); r_state : A }.

Definition say (r : run_state) (s : list Z) : run_state := mk_run (r_serial r ++ s) (r_ports r) (r_state r).

Definition test_panic_handler (r : run_state) (p : panic) : run_state :=
  let r := say r (str "[failed]" ++ [10; 10]) in
  let r := say r (str "Error: " ++ fmt_info p ++ [10; 10]) in
  mk_run (r_serial r) (exit_qemu (r_ports r) QemuFailed) (r_state r).

(** [Testable::run]; a panic ends in the handler, which never returns. *)
Definition testable_run (t : test) (r : run_state) : run_state + run_state :=
  let r := say r (fst t ++ str "..." ++ [9]) in
  match snd t (r_state r) with
  | Ok a => inl (say (mk_run (r_serial r) (r_ports r) a) (str "[ok]" ++ [10]))
  | Panic p => inr (test_panic_handler r p)
  end.

Fixpoint run_tests (ts : list test) (r : run_state) : run_state + run_state :=
  match ts with
  | [] => inl r
  | t :: ts => match testable_run t r with inl r => run_tests ts r | inr r => inr r end
  end.

(** [test_runner]: the machine halts afterwards in either case. *)
Definition test_runner (ts : list test) (a : A) : run_state :=
  let r := say (mk_run [] [] a) (str "Running " ++ fmt_dec (Z.of_nat (length ts)) ++ str " tests" ++ [10]) in
  match run_tests ts r with
  | inl r => mk_run (r_serial r) (exit_qemu (r_ports r) QemuSuccess) (r_state r)
  | inr r => r
  end.

(** The bodies one after the other. *)
Fixpoint run_bodies (ts : list test) (a : A) : outcome A :=
  match ts with [] => Ok a | t :: ts => a ← snd t a; run_bodies ts a end.

Lemma run_tests_ports ts r :
  match run_tests ts r with
  | inl r' => run_bodies ts (r_state r) = Ok (r_state r') /\ r_ports r' = r_ports r
  | inr r' => (exists p, run_bodies ts (r_state r) = Panic p) /\ r_ports r' = r_ports r ++ [(0xf4, 0x11)]
  end.
Proof.
  revert r. induction ts as [|t ts IH]; intros r; [done|]. cbn [run_tests run_bodies]. unfold testable_run. cbn [r_state say].
  destruct (snd t (r_state r)) as [a|p]; cbn [mbind outcome_bind].
  - set (r1 := say _ (str "[ok]" ++ [10])). exact (IH r1).
  - split; [by exists p|done].
Qed.

Lemma run_bodies_app ts ts' a : run_bodies (ts ++ ts') a = (a ← run_bodies ts a; run_bodies ts' a).
Proof.
  revert a. induction ts as [|t ts IH]; intros a; [done|]. cbn [run_bodies app].
  destruct (snd t a); cbn [mbind outcome_bind]; [apply IH|done].
Qed.

(** The verdict: QEMU is told success exactly when every test's body returns, and failure
    otherwise; exactly one verdict is written. *)
Lemma runner_verdict ts a :
  r_ports (test_runner ts a) =
    [(0xf4, exit_code_as_u32 (if is_ok (run_bodies ts a) then QemuSuccess else QemuFailed))].
Proof.
  unfold test_runner. set (r := say _ _). pose proof (run_tests_ports ts r) as H.
  destruct (run_tests ts r) as [r'|r']; cbn [r_ports].
  - destruct H as [E Hp]. change (r_state r) with a in E. by rewrite E, Hp.
  - destruct H as [[p E] Hp]. change (r_state r) with a in E. by rewrite E, Hp.
Qed.

(** Two continuations of the same run. *)
Definition continued (r : outcome A) (ts ts' : list test) : bool * bool :=
  match r with
  | Ok a => (is_ok (run_bodies ts a), is_ok (run_bodies ts' a))
  | Panic _ => (false, false)
  end.

Lemma continued_verdicts ts0 ts ts' a b b' : continued (run_bodies ts0 a) ts ts' = (b, b') ->
  r_ports (test_runner (ts0 ++ ts) a) = [(0xf4, exit_code_as_u32 (if b then QemuSuccess else QemuFailed))] /\
  r_ports (test_runner (ts0 ++ ts') a) = [(0xf4, exit_code_as_u32 (if b' then QemuSuccess else QemuFailed))].
Proof.
  rewrite !runner_verdict, !run_bodies_app.
  destruct (run_bodies ts0 a) as [a'|]; cbn [continued mbind outcome_bind]; intros [= <- <-]; done.
Qed.

End Framework.

(** ** The tests *)

(** [offset_of!] and [size_of] read off the memory layout: a field's place among the
    words of the structure. *)
Definition words (n : nat) : memory := store_words (fun _ => 0) 0 (Z.of_nat <$> seq 0 n).
Definition offset_of_context (field : ThreadContext -> Z) : Z := 8 * field (ctx_read (words 18) 0).
Definition offset_of_frame (field : IrqFrame -> Z) : Z := 8 * field (frame_read (words 20) 0).

Definition assert_eq (a b : Z) : outcome unit := assert_ (a =? b).
Definition assert_ne (a b : Z) : outcome unit := assert_ (negb (a =? b)).

Fixpoint assert_all (l : list (Z * Z)) : outcome unit :=
  match l with [] => Ok tt | (a, b) :: l => _ ← assert_eq a b; assert_all l end.

Section Tests.
Context {S : Type} `{!HeapAllocator S}.
Variable alloc_mem : S -> Layout -> memory -> memory.

(** What the tests share: the heap, the processor with the memory, the counter of thread
    ids, the console, clock and system call cell; and what they say on the serial line
    themselves. *)
Record tstate := mk_tstate { t_heap : S; t_cpu : cpu; t_next : Z; t_sys : system; t_log : list Z }.

Definition with_heap (s : tstate) (h : S) (m : memory) : tstate :=
  mk_tstate h (with_mem (t_cpu s) m) (t_next s) (t_sys s) (t_log s).

(** [KernelStack::new()], and the end of its scope. *)
Definition new_stack (s : tstate) : outcome (KernelStack * tstate) :=
  '(p, h, m) ← alloc_or_die alloc_mem (t_heap s) (stack_layout STACK_SIZE) (mem (t_cpu s));
  let '(st, m) := stack_new p m in
  Ok (st, with_heap s h m).

Definition free_stack (st : KernelStack) (s : tstate) : outcome tstate :=
  h ← ha_dealloc (t_heap s) (storage_ptr st) (stack_layout (storage_len st));
  Ok (with_heap s h (mem (t_cpu s))).

(** *** src/thread/context.rs *)

Definition test_context_default (s : tstate) : outcome tstate :=
  let ctx := TC.default in
  _ ← assert_eq (TC.rsp ctx) 0;
  _ ← assert_eq (TC.rip ctx) 0;
  Ok s.

Definition test_context_clone (s : tstate) : outcome tstate :=
  let d := TC.default in
  let ctx1 := TC.mk 0x1000 0x2000 0x3000 0x4000 0x5000 0x6000 0x7000 0x8000 (TC.rax d) (TC.rcx d) (TC.rdx d)
                (TC.rsi d) (TC.rdi d) (TC.r8 d) (TC.r9 d) (TC.r10 d) (TC.r11 d) (TC.rflags d) in
  let ctx2 := ctx1 in
  _ ← assert_eq (TC.rsp ctx2) 0x1000;
  _ ← assert_eq (TC.rip ctx2) 0x2000;
  Ok s.

Definition test_context_field_offsets (s : tstate) : outcome tstate :=
  _ ← assert_all [
    (offset_of_context TC.rsp, 0); (offset_of_context TC.rip, 8); (offset_of_context TC.rbx, 16);
    (offset_of_context TC.rbp, 24); (offset_of_context TC.r12, 32); (offset_of_context TC.r13, 40);
    (offset_of_context TC.r14, 48); (offset_of_context TC.r15, 56); (offset_of_context TC.rax, 64);
    (offset_of_context TC.rcx, 72); (offset_of_context TC.rdx, 80); (offset_of_context TC.rsi, 88);
    (offset_of_context TC.rdi, 96); (offset_of_context TC.r8, 104); (offset_of_context TC.r9, 112);
    (offset_of_context TC.r10, 120); (offset_of_context TC.r11, 128); (offset_of_context TC.rflags, 136)];
  Ok s.

Definition test_context_default_rflags_if_set (s : tstate) : outcome tstate :=
  _ ← assert_ne (Z.land (TC.rflags TC.default) 0x200) 0;
  Ok s.

Definition test_context_default_caller_saved_zero (s : tstate) : outcome tstate :=
  let ctx := TC.default in
  _ ← assert_all [(TC.rax ctx, 0); (TC.rcx ctx, 0); (TC.rdx ctx, 0); (TC.rsi ctx, 0); (TC.rdi ctx, 0);
                  (TC.r8 ctx, 0); (TC.r9 ctx, 0); (TC.r10 ctx, 0); (TC.r11 ctx, 0)];
  Ok s.

(** The statics of the test bodies.  Each is used by one test only. *)
Record body_statics := mk_statics {
  IF_BACK : bool; RT_COUNTER : Z;
  MULTI_COUNTER : Z; MULTI_OLD_PTR : Z; MULTI_NEW_PTR : Z;
  CALLEE_DONE : bool; REGS_RBX : Z; REGS_R12 : Z; REGS_R13 : Z;
}.
Definition statics0 : body_statics := mk_statics false 0 0 0 0 false 0 0 0.

(** Where the locals [old_ctx] and [new_ctx] of a test are, the return addresses of its
    call of [context_switch] and of the calls in the bodies. *)
Variables old_at new_at ret_at body_ret : Z.

Definition with_rdi (v : Z) (c : ThreadContext) : ThreadContext :=
  TC.mk (TC.rsp c) (TC.rip c) (TC.rbx c) (TC.rbp c) (TC.r12 c) (TC.r13 c) (TC.r14 c) (TC.r15 c) (TC.rax c) (TC.rcx c)
    (TC.rdx c) (TC.rsi c) v (TC.r8 c) (TC.r9 c) (TC.r10 c) (TC.r11 c) (TC.rflags c).

(** A call of [context_switch_to(old)]. *)
Definition call_switch_to (c : cpu) (to : Z) : cpu :=
  exec_block context_switch_to (push body_ret (with_regs c (set_reg RDI to (regs c)))).

(** The bodies: they are entered with [old] in [rdi] and leave by a switch. *)
Definition body : Type := body_statics -> cpu -> body_statics * cpu.

Definition body_if_test : body := fun st c =>
  let st := mk_statics true (RT_COUNTER st) (MULTI_COUNTER st) (MULTI_OLD_PTR st) (MULTI_NEW_PTR st)
              (CALLEE_DONE st) (REGS_RBX st) (REGS_R12 st) (REGS_R13 st) in
  (st, call_switch_to c (regs c RDI)).

Definition body_round_trip : body := fun st c =>
  let st := mk_statics (IF_BACK st) (wrap64 (RT_COUNTER st + 1)) (MULTI_COUNTER st) (MULTI_OLD_PTR st) (MULTI_NEW_PTR st)
              (CALLEE_DONE st) (REGS_RBX st) (REGS_R12 st) (REGS_R13 st) in
  (st, call_switch_to c (regs c RDI)).

(** One round of the loop; [multi_ret] is where its call of [context_switch] returns to,
    the begin of the next round. *)
Definition multi_ret : Z := 0x500240.
Definition body_multi : body := fun st c =>
  let st := mk_statics (IF_BACK st) (RT_COUNTER st) (wrap64 (MULTI_COUNTER st + 1)) (MULTI_OLD_PTR st) (MULTI_NEW_PTR st)
              (CALLEE_DONE st) (REGS_RBX st) (REGS_R12 st) (REGS_R13 st) in
  let old := MULTI_OLD_PTR st in
  let new_self := MULTI_NEW_PTR st in
  (st, exec_block context_switch (at_switch new_self old multi_ret c)).

Definition body_canary : body := fun st c => (st, call_switch_to c (regs c RDI)).
Definition body_rsp_check : body := fun st c => (st, call_switch_to c (regs c RDI)).

Definition body_callee_saved : body := fun st c =>
  let st := mk_statics (IF_BACK st) (RT_COUNTER st) (MULTI_COUNTER st) (MULTI_OLD_PTR st) (MULTI_NEW_PTR st)
              true (REGS_RBX st) (REGS_R12 st) (REGS_R13 st) in
  (st, call_switch_to c (regs c RDI)).

Definition body_saves_state : body := fun st c => (st, call_switch_to c (regs c RDI)).

Definition body_regs_inner : body := fun st c => (st, call_switch_to c (regs c RDI)).
(** The trampoline stores the registers as the switch left them and jumps on. *)
Definition body_regs_trampoline : body := fun st c =>
  let st := mk_statics (IF_BACK st) (RT_COUNTER st) (MULTI_COUNTER st) (MULTI_OLD_PTR st) (MULTI_NEW_PTR st)
              (CALLEE_DONE st) (regs c RBX) (regs c R12) (regs c R13) in
  body_regs_inner st c.

(** Where the bodies are in memory. *)
Definition body_addresses : list (Z * body) :=
  [(0x500000, body_if_test); (0x500100, body_round_trip); (0x500200, body_multi); (multi_ret, body_multi);
   (0x500300, body_canary); (0x500400, body_rsp_check); (0x500500, body_callee_saved); (0x500600, body_saves_state);
   (0x500700, body_regs_trampoline)].

(** The processor continues at its program counter: the body that is there runs. *)
Definition run_body (st : body_statics) (c : cpu) : outcome (body_statics * cpu) :=
  match find (fun b => fst b =? pc c) body_addresses with
  | Some (_, b) => Ok (b st c)
  | None => Panic ExplicitPanic
  end.

(** The common part of the round trips: contexts, stack, [init_context] with the body at
    [entry], [edit] of the new context, the switch, the body, and the return behind it. *)
Definition switch_and_back (entry : Z) (edit : ThreadContext -> ThreadContext) (s : tstate)
    : outcome (KernelStack * body_statics * cpu * tstate) :=
  let m := ctx_write (mem (t_cpu s)) old_at TC.default in
  '(st, s) ← new_stack (mk_tstate (t_heap s) (with_mem (t_cpu s) m) (t_next s) (t_sys s) (t_log s));
  '(ctx, m) ← init_context st TC.default entry (mem (t_cpu s));
  let m := ctx_write m new_at (edit (with_rdi old_at ctx)) in
  let c := exec_block context_switch (at_switch old_at new_at ret_at (with_mem (t_cpu s) m)) in
  '(statics, c) ← run_body statics0 c;
  _ ← assert_eq (pc c) ret_at;
  Ok (st, statics, c, mk_tstate (t_heap s) (with_mem (t_cpu s) (mem c)) (t_next s) (t_sys s) (t_log s)).

Definition test_interrupts_enabled_after_cooperative_switch (s : tstate) : outcome tstate :=
  '(st, statics, c, s) ← switch_and_back 0x500000 id s;
  _ ← assert_ (IF_BACK statics);
  _ ← assert_ (interrupts_on (flags c));
  free_stack st s.

Definition test_cooperative_round_trip (s : tstate) : outcome tstate :=
  _ ← assert_eq (RT_COUNTER statics0) 0;
  '(st, statics, _, s) ← switch_and_back 0x500100 id s;
  _ ← assert_eq (RT_COUNTER statics) 1;
  free_stack st s.

Fixpoint multi_trips (trips : list Z) (st : body_statics) (c : cpu) : outcome cpu :=
  match trips with
  | [] => Ok c
  | i :: trips =>
      '(st, c) ← run_body st (exec_block context_switch (at_switch old_at new_at ret_at c));
      _ ← assert_eq (pc c) ret_at;
      _ ← assert_eq (MULTI_COUNTER st) i;
      multi_trips trips st c
  end.

Definition test_multiple_cooperative_switches (s : tstate) : outcome tstate :=
  let m := ctx_write (mem (t_cpu s)) old_at TC.default in
  '(st, s) ← new_stack (mk_tstate (t_heap s) (with_mem (t_cpu s) m) (t_next s) (t_sys s) (t_log s));
  '(ctx, m) ← init_context st TC.default 0x500200 (mem (t_cpu s));
  let m := ctx_write m new_at ctx in
  let statics := mk_statics false 0 0 old_at new_at false 0 0 0 in
  c ← multi_trips [1; 2; 3; 4; 5] statics (with_mem (t_cpu s) m);
  free_stack st (mk_tstate (t_heap s) (with_mem (t_cpu s) (mem c)) (t_next s) (t_sys s) (t_log s)).

Definition test_stack_canary_survives_switch (s : tstate) : outcome tstate :=
  '(st, _, c, s) ← switch_and_back 0x500300 id s;
  _ ← assert_ (check_canary st (mem c));
  free_stack st s.

Definition test_saved_rsp_is_within_caller_stack (s : tstate) : outcome tstate :=
  let local_addr := old_at in
  '(st, _, c, s) ← switch_and_back 0x500400 id s;
  let rsp := TC.rsp (ctx_read (mem c) old_at) in
  let diff := if local_addr <? rsp then rsp - local_addr else local_addr - rsp in
  _ ← assert_ (diff <? 0x10000);
  free_stack st s.

(** The compiler keeps [a], [b] and [c] in callee-saved registers. *)
Definition test_callee_saved_survive_round_trip (s : tstate) : outcome tstate :=
  let f := set_reg RBX 0xAAAA1111BBBB2222 (set_reg R12 0xCCCC3333DDDD4444 (set_reg R13 0xEEEE5555FFFF6666 (regs (t_cpu s)))) in
  '(st, statics, c, s) ← switch_and_back 0x500500 id (mk_tstate (t_heap s) (with_regs (t_cpu s) f) (t_next s) (t_sys s) (t_log s));
  _ ← assert_all [(regs c RBX, 0xAAAA1111BBBB2222); (regs c R12, 0xCCCC3333DDDD4444); (regs c R13, 0xEEEE5555FFFF6666)];
  _ ← assert_ (CALLEE_DONE statics);
  free_stack st s.

Definition test_context_switch_saves_caller_state (s : tstate) : outcome tstate :=
  '(st, _, c, s) ← switch_and_back 0x500600 id s;
  let old := ctx_read (mem c) old_at in
  _ ← assert_ne (TC.rsp old) 0;
  _ ← assert_ne (TC.rip old) 0;
  _ ← assert_ne (Z.land (TC.rflags old) 0x200) 0;
  free_stack st s.

Definition test_new_ctx_callee_regs_restored (s : tstate) : outcome tstate :=
  let edit c := TC.mk (TC.rsp c) (TC.rip c) 0xCAFEBABE0001 (TC.rbp c) 0xCAFEBABE0002 0xCAFEBABE0003 (TC.r14 c) (TC.r15 c)
    (TC.rax c) (TC.rcx c) (TC.rdx c) (TC.rsi c) (TC.rdi c) (TC.r8 c) (TC.r9 c) (TC.r10 c) (TC.r11 c) (TC.rflags c) in
  '(st, statics, _, s) ← switch_and_back 0x500700 edit s;
  _ ← assert_all [(REGS_RBX statics, 0xCAFEBABE0001); (REGS_R12 statics, 0xCAFEBABE0002); (REGS_R13 statics, 0xCAFEBABE0003)];
  free_stack st s.

(** *** src/thread/stack.rs *)

Definition test_stack_allocation (s : tstate) : outcome tstate :=
  '(st, s) ← new_stack s;
  t ← top st;
  _ ← assert_ (0 <? t);
  _ ← assert_eq (t mod STACK_ALIGN) 0;
  free_stack st s.

Definition test_stack_init_context (s : tstate) : outcome tstate :=
  '(st, s) ← new_stack s;
  '(ctx, m) ← init_context st TC.default 0x12345678 (mem (t_cpu s));
  t ← top st;
  _ ← assert_eq (TC.rsp ctx) t;
  _ ← assert_eq (TC.rip ctx) 0x12345678;
  _ ← assert_eq (load64 m (TC.rsp ctx)) 0x12345678;
  free_stack st (with_heap s (t_heap s) m).

Definition test_stack_alignment (s : tstate) : outcome tstate :=
  '(st, s) ← new_stack s;
  t ← top st;
  _ ← assert_eq ((t + 16) mod STACK_ALIGN) 0;
  free_stack st s.

(** *** src/thread/thread.rs *)

Definition dummy_entry : Z := 0x500800.

(** [Thread::new(dummy_entry)], and the end of its scope. *)
Definition new_thread (s : tstate) : outcome (Thread * tstate) :=
  '(t, h, m, next) ← thread_with_stack_size alloc_mem (t_heap s) dummy_entry STACK_SIZE (t_next s) (mem (t_cpu s));
  Ok (t, mk_tstate h (with_mem (t_cpu s) m) next (t_sys s) (t_log s)).

Definition drop_thread (t : Thread) (s : tstate) : outcome tstate :=
  s ← free_stack (thread_stack t) s;
  h ← ha_dealloc (t_heap s) (thread_context t) context_layout;
  Ok (with_heap s h (mem (t_cpu s))).

Definition test_thread_creation (s : tstate) : outcome tstate :=
  '(t, s) ← new_thread s;
  _ ← assert_ (0 <? thread_id t);
  drop_thread t s.

Definition test_thread_ids_unique (s : tstate) : outcome tstate :=
  '(t1, s) ← new_thread s;
  '(t2, s) ← new_thread s;
  _ ← assert_ne (thread_id t1) (thread_id t2);
  s ← drop_thread t2 s;
  drop_thread t1 s.

Definition test_thread_context_ptr (s : tstate) : outcome tstate :=
  '(t, s) ← new_thread s;
  _ ← assert_ne (context_ptr t) 0;
  drop_thread t s.

(** *** src/interrupts.rs *)

(** [int3] through the table; the handler prints and returns. *)
Definition test_breakpoint_exception (fmt_frame : unit -> list Z) (s : tstate) : outcome tstate :=
  t ← IDT;
  match deliver t 3 with
  | Handled _ g =>
      match handle_exception unit fmt_frame (fun _ => []) (fun _ => []) (gate_handler g) tt 0 0 (mk_output [] []) with
      | Some (o, Resumes) => sys ← print (t_sys s) (console o); Ok (mk_tstate (t_heap s) (t_cpu s) (t_next s) sys (t_log s))
      | _ => Panic ExplicitPanic
      end
  | TripleFault => Panic ExplicitPanic
  end.

Definition test_irq_frame_gpr_offsets (s : tstate) : outcome tstate :=
  _ ← assert_all [
    (offset_of_frame Irq.rax, 0); (offset_of_frame Irq.rcx, 8); (offset_of_frame Irq.rdx, 16); (offset_of_frame Irq.rbx, 24);
    (offset_of_frame Irq.rbp, 32); (offset_of_frame Irq.rsi, 40); (offset_of_frame Irq.rdi, 48); (offset_of_frame Irq.r8, 56);
    (offset_of_frame Irq.r9, 64); (offset_of_frame Irq.r10, 72); (offset_of_frame Irq.r11, 80); (offset_of_frame Irq.r12, 88);
    (offset_of_frame Irq.r13, 96); (offset_of_frame Irq.r14, 104); (offset_of_frame Irq.r15, 112)];
  Ok s.

Definition test_irq_frame_cpu_frame_offsets (s : tstate) : outcome tstate :=
  _ ← assert_all [(offset_of_frame Irq.rip, 120); (offset_of_frame Irq.cs, 128); (offset_of_frame Irq.rflags, 136);
                  (offset_of_frame Irq.rsp, 144); (offset_of_frame Irq.ss, 152)];
  Ok s.

Definition test_irq_frame_size (s : tstate) : outcome tstate :=
  _ ← assert_eq FRAME_SIZE 160;
  Ok s.

Definition test_irq_frame_rflags_if_bit_position (s : tstate) : outcome tstate :=
  let frame := Irq.mk 0 0 0 0 0 0 0 0 0 0 0 0 0 0 0 0x1234 8 0x246 0xffff800000000000 0 in
  _ ← assert_ne (Z.land (Irq.rflags frame) 0x200) 0;
  let rflags := Z.land (Irq.rflags frame) (not64 0x200) in
  _ ← assert_eq (Z.land rflags 0x200) 0;
  Ok s.

(** Each halt ends with an interrupt; [wakes] says for each whether it is the timer's.
    The loop of [test_uptime_increments]; the test never ends when no interrupt comes. *)
Fixpoint wait_for_tick (wakes : list bool) (t0 ticks iterations : Z) : option (Z * Z) :=
  if (ticks =? t0) && (iterations <? 10000000) then
    match wakes with
    | [] => None
    | timer :: wakes => wait_for_tick wakes t0 (if timer then wrap64 (ticks + 1) else ticks) (iterations + 1)
    end
  else Some (ticks, iterations).

Definition test_uptime_increments (wakes : list bool) (s : tstate) : option (outcome tstate) :=
  let c := if interrupts_on (flags (t_cpu s)) then t_cpu s else with_flags (t_cpu s) (Z.setbit (flags (t_cpu s)) IF_BIT) in
  let t0 := sys_uptime (t_sys s) in
  match wait_for_tick wakes t0 t0 0 with
  | None => None
  | Some (t1, iterations) => Some (
      _ ← assert_ (t0 <? t1);
      _ ← assert_ (iterations <? 10000000);
      Ok (mk_tstate (t_heap s) c (t_next s) (mk_system t1 (writer (t_sys s)) (SYSCALL_RETURN (t_sys s))) (t_log s)))
  end.

Definition test_uptime_monotonic (s : tstate) : outcome tstate :=
  let t0 := sys_uptime (t_sys s) in
  let t1 := sys_uptime (t_sys s) in
  _ ← assert_ (t0 <=? t1);
  Ok s.

Definition test_pic_offsets_clear_of_exceptions (s : tstate) : outcome tstate :=
  _ ← assert_ (32 <=? PIC_1_OFFSET);
  _ ← assert_ (40 <=? PIC_2_OFFSET);
  _ ← assert_eq PIC_2_OFFSET (PIC_1_OFFSET + 8);
  Ok s.

Definition test_irq_vectors_in_pic_range (s : tstate) : outcome tstate :=
  let timer := index_as_u8 TimerIndex in
  let kb := index_as_u8 KeyboardIndex in
  _ ← assert_eq timer PIC_1_OFFSET;
  _ ← assert_eq kb (PIC_1_OFFSET + 1);
  _ ← assert_ne timer kb;
  Ok s.

(** *** src/syscall.rs *)

Definition tlog (s : tstate) (text : list Z) : tstate :=
  mk_tstate (t_heap s) (t_cpu s) (t_next s) (t_sys s) (t_log s ++ text).
Definition with_tsys (s : tstate) (sys : system) : tstate := mk_tstate (t_heap s) (t_cpu s) (t_next s) sys (t_log s).
Definition announced (name : list Z) (s : tstate) : tstate := tlog s (str "syscall::tests::" ++ name ++ str "..." ++ [9]).
Definition said_ok (s : tstate) : tstate := tlog s (str "[ok]" ++ [10]).

(** What registers a call does not pass hold. *)
Variable junk : Z.

Definition test_syscall_numbers (s : tstate) : outcome tstate :=
  let s := announced (str "test_syscall_numbers") s in
  _ ← assert_all [(syscall_as_u64 Uptime, 0); (syscall_as_u64 PutChar, 1); (syscall_as_u64 Exit, 2)];
  Ok (said_ok s).

(** No timer interrupt comes between the two readings. *)
Definition test_syscall_uptime (s : tstate) : outcome tstate :=
  let s := announced (str "test_syscall_uptime") s in
  let direct := sys_uptime (t_sys s) in
  '(via_syscall, sys) ← syscall0 (syscall_as_u64 Uptime) junk junk junk (t_sys s);
  _ ← assert_eq via_syscall direct;
  Ok (said_ok (with_tsys s sys)).

Definition test_syscall_unknown (s : tstate) : outcome tstate :=
  let s := announced (str "test_syscall_unknown") s in
  '(ret, sys) ← syscall0 999 junk junk junk (t_sys s);
  _ ← assert_eq ret u64_max;
  Ok (said_ok (with_tsys s sys)).

Definition test_syscall_putchar (s : tstate) : outcome tstate :=
  let s := announced (str "test_syscall_putchar") s in
  '(ret, sys) ← syscall1 (syscall_as_u64 PutChar) 88 junk junk (t_sys s);
  _ ← assert_eq ret 0;
  Ok (said_ok (with_tsys s sys)).

Definition test_syscall_exit_noop (s : tstate) : outcome tstate :=
  let s := announced (str "test_syscall_exit_noop") s in
  '(ret, sys) ← syscall2 (syscall_as_u64 Exit) 0 0 junk (t_sys s);
  _ ← assert_eq ret 0;
  Ok (said_ok (with_tsys s sys)).

(** *** src/vga_buffer.rs *)

Definition test_println_simple (s : tstate) : outcome tstate :=
  sys ← print (t_sys s) (str "test_println_simple output" ++ [10]);
  Ok (with_tsys s sys).

Fixpoint println_times (n : nat) (sys : system) : outcome system :=
  match n with
  | O => Ok sys
  | Datatypes.S n => sys ← print sys (str "test_println_many output" ++ [10]); println_times n sys
  end.

Definition test_println_many (s : tstate) : outcome tstate :=
  sys ← println_times 200 (t_sys s);
  Ok (with_tsys s sys).

(** The characters of the row above the bottom one, from column [i] on. *)
Fixpoint check_row (w : Writer) (i : nat) (text : list Z) : outcome unit :=
  match text with
  | [] => Ok tt
  | c :: text =>
      screen_char ← cell_read (chars w) (BUFFER_HEIGHT - 2) i;
      _ ← assert_eq (ascii_character screen_char) c;
      check_row w (Datatypes.S i) text
  end.

Definition test_println_output (s : tstate) : outcome tstate :=
  let text := str "Some test string that fits on a single line" in
  w ← write_string (writer (t_sys s)) ([10] ++ text ++ [10]);
  _ ← check_row w 0 text;
  Ok (with_tsys s (mk_system (sys_uptime (t_sys s)) w (SYSCALL_RETURN (t_sys s)))).

(** *** src/sync.rs: one thread takes and releases a mutex *)

Definition as_outcome {A} (o : option A) : outcome A := match o with Some a => Ok a | None => Panic ExplicitPanic end.

(** [lock()] without contention, and the guard's drop. *)
Definition km_lock (m : KMutex.kstate) : outcome KMutex.kstate :=
  m ← as_outcome (KMutex.krun 1 m [KMutex.Enter; KMutex.Lock None]);
  _ ← assert_ (bool_decide (KMutex.pcs m 0 = KMutex.Critical));
  Ok m.
Definition km_drop (m : KMutex.kstate) : outcome KMutex.kstate :=
  m ← as_outcome (KMutex.krun 1 m [KMutex.Drop; KMutex.Drop; KMutex.Drop]);
  _ ← assert_ (bool_decide (KMutex.pcs m 0 = KMutex.Outside));
  Ok m.

(** [f] under the lock on the data. *)
Definition locked {A} (f : A -> A) (md : KMutex.kstate * A) : outcome (KMutex.kstate * A) :=
  m ← km_lock (fst md); m ← km_drop m; Ok (m, f (snd md)).

Definition test_kmutex_lock_unlock (s : tstate) : outcome tstate :=
  md ← locked (fun _ => 42) (KMutex.init, 0);
  '(_, v) ← locked id md;
  _ ← assert_eq v 42;
  Ok s.

Fixpoint store_each (vs : list Z) (md : KMutex.kstate * Z) : outcome (KMutex.kstate * Z) :=
  match vs with [] => Ok md | v :: vs => md ← locked (fun _ => v) md; store_each vs md end.

Definition test_kmutex_multiple_cycles (s : tstate) : outcome tstate :=
  md ← store_each [0; 1; 2; 3; 4; 5; 6; 7; 8; 9] (KMutex.init, 0);
  '(_, v) ← locked id md;
  _ ← assert_eq v 9;
  Ok s.

Definition test_kmutex_nested_data (s : tstate) : outcome tstate :=
  md ← locked (fun l => <[3%nat := 0xff]> l) (KMutex.init, replicate 8 0);
  '(_, l) ← locked id md;
  x ← index l 3;
  _ ← assert_eq x 0xff;
  Ok s.

End Tests.

(** ** Running them *)

(** Two hundred lines scroll by without a panic, whatever the console shows. *)
Lemma println_times_ok n sys color t : system_shows sys color t -> returns (println_times n sys).
Proof.
  revert sys t. induction n as [|n IH]; intros sys t Hs; [by eexists|]. cbn [println_times].
  destruct (print_shows sys (str "test_println_many output" ++ [10]) color t Hs) as (t' & -> & _ & Hn).
  cbn [mbind outcome_bind]. by apply (IH _ t').
Qed.

(** [test_uptime_increments] passes as soon as one timer interrupt is among the first ten
    million less one. *)
Lemma wait_for_tick_ok n rest t0 i : is_u64 t0 -> t0 < u64_max -> 0 <= i -> i + Z.of_nat n < 10000000 ->
  wait_for_tick (replicate n false ++ true :: rest) t0 t0 i = Some (t0 + 1, i + Z.of_nat n + 1).
Proof.
  intros Hu Hm. revert i. induction n as [|n IH]; intros i Hi Hn; cbn [replicate app wait_for_tick];
    rewrite Z.eqb_refl, (proj2 (Z.ltb_lt _ _)) by lia; cbn [andb].
  - rewrite (wrap64_small (t0 + 1)) by (unfold is_u64 in *; lia).
    assert (E : (t0 + 1 =? t0) = false) by lia.
    destruct rest; cbn [wait_for_tick]; rewrite E; cbn [andb]; do 2 f_equal; lia.
  - rewrite IH by lia. do 2 f_equal. lia.
Qed.

Theorem uptime_test_passes {S} (s : tstate (S := S)) n rest : is_u64 (sys_uptime (t_sys s)) -> sys_uptime (t_sys s) < u64_max ->
  Z.of_nat n + 1 < 10000000 ->
  exists s', test_uptime_increments (replicate n false ++ true :: rest) s = Some (Ok s') /\
    sys_uptime (t_sys s') = sys_uptime (t_sys s) + 1.
Proof.
  intros Hu Hm Hn. unfold test_uptime_increments. rewrite wait_for_tick_ok by lia || done.
  rewrite (proj2 (Z.ltb_lt _ _)) by lia. cbn [assert_ mbind outcome_bind].
  rewrite (proj2 (Z.ltb_lt _ _)) by lia. cbn [assert_ mbind outcome_bind]. eexists. by split.
Qed.

Section Suite.
Context {S : Type} `{!HeapAllocator S}.
Variable alloc_mem : S -> Layout -> memory -> memory.
Variables old_at new_at ret_at body_ret junk : Z.
Variable fmt_frame : unit -> list Z.

Definition tests_context : list (test (A := tstate (S := S))) := [
  (str "test_context_default", test_context_default);
  (str "test_context_clone", test_context_clone);
  (str "test_context_field_offsets", test_context_field_offsets);
  (str "test_context_default_rflags_if_set", test_context_default_rflags_if_set);
  (str "test_context_default_caller_saved_zero", test_context_default_caller_saved_zero);
  (str "test_interrupts_enabled_after_cooperative_switch",
     test_interrupts_enabled_after_cooperative_switch alloc_mem old_at new_at ret_at body_ret);
  (str "test_cooperative_round_trip", test_cooperative_round_trip alloc_mem old_at new_at ret_at body_ret);
  (str "test_multiple_cooperative_switches", test_multiple_cooperative_switches alloc_mem old_at new_at ret_at body_ret);
  (str "test_stack_canary_survives_switch", test_stack_canary_survives_switch alloc_mem old_at new_at ret_at body_ret);
  (str "test_saved_rsp_is_within_caller_stack", test_saved_rsp_is_within_caller_stack alloc_mem old_at new_at ret_at body_ret);
  (str "test_callee_saved_survive_round_trip", test_callee_saved_survive_round_trip alloc_mem old_at new_at ret_at body_ret);
  (str "test_context_switch_saves_caller_state", test_context_switch_saves_caller_state alloc_mem old_at new_at ret_at body_ret);
  (str "test_new_ctx_callee_regs_restored", test_new_ctx_callee_regs_restored alloc_mem old_at new_at ret_at body_ret)].

Definition tests_stack : list (test (A := tstate (S := S))) := [
  (str "test_stack_allocation", test_stack_allocation alloc_mem);
  (str "test_stack_init_context", test_stack_init_context alloc_mem);
  (str "test_stack_alignment", test_stack_alignment alloc_mem)].

Definition tests_thread : list (test (A := tstate (S := S))) := [
  (str "test_thread_creation", test_thread_creation alloc_mem);
  (str "test_thread_ids_unique", test_thread_ids_unique alloc_mem);
  (str "test_thread_context_ptr", test_thread_context_ptr alloc_mem)].

Definition tests_interrupts : list (test (A := tstate (S := S))) := [
  (str "test_breakpoint_exception", test_breakpoint_exception fmt_frame);
  (str "test_irq_frame_gpr_offsets", test_irq_frame_gpr_offsets);
  (str "test_irq_frame_cpu_frame_offsets", test_irq_frame_cpu_frame_offsets);
  (str "test_irq_frame_size", test_irq_frame_size);
  (str "test_irq_frame_rflags_if_bit_position", test_irq_frame_rflags_if_bit_position);
  (str "test_uptime_monotonic", test_uptime_monotonic);
  (str "test_pic_offsets_clear_of_exceptions", test_pic_offsets_clear_of_exceptions);
  (str "test_irq_vectors_in_pic_range", test_irq_vectors_in_pic_range)].

Definition tests_rest : list (test (A := tstate (S := S))) := [
  (str "test_syscall_numbers", test_syscall_numbers);
  (str "test_syscall_uptime", test_syscall_uptime junk);
  (str "test_syscall_unknown", test_syscall_unknown junk);
  (str "test_syscall_putchar", test_syscall_putchar junk);
  (str "test_syscall_exit_noop", test_syscall_exit_noop junk);
  (str "test_println_simple", test_println_simple);
  (str "test_println_output", test_println_output);
  (str "test_kmutex_lock_unlock", test_kmutex_lock_unlock);
  (str "test_kmutex_multiple_cycles", test_kmutex_multiple_cycles);
  (str "test_kmutex_nested_data", test_kmutex_nested_data)].

(** All but the tests of threads and [test_println_many]. *)
Definition tests_others : list (test (A := tstate (S := S))) :=
  tests_interrupts ++ tests_rest ++ tests_context ++ tests_stack.

End Suite.

(** ** The test kernel (src/lib.rs [test_kernel_main]) *)

Section TestKernel.
Context {G Sel : Type} `{!DescriptorTable G Sel} {P : Type} `{!ChainedPics P}.
Context {M : Type} `{!Mapper M} {H : Type} `{!HeapAllocator H}.
Variable offset_page_table : Z -> Z -> M.
Variable cr3 : Z.
Variable heap_init : H -> Z -> Z -> outcome H.
Variable double_fault_stack : Z.
Variable fmt_info : panic -> list Z.

(** Up to [test_main]: the processor, the page tables and the heap. *)
Definition test_kernel_init (bi : BootInfo) (r : system_regs (G := G) (Sel := Sel) (P := P)) (h : H) : outcome H :=
  _ ← init double_fault_stack r;
  mapper ← memory_init offset_page_table cr3 (physical_memory_offset bi);
  let frame_allocator := frames_init (boot_memory_map bi) in
  '(res, _) ← init_heap heap_init h mapper frame_allocator;
  match res with
  | inl (h, _) => Ok h
  | inr _ => Panic ExpectFailed
  end.

(** [s] is the state the tests find, but for the heap; the kernel halts afterwards. *)
Definition test_kernel_main (bi : BootInfo) (r : system_regs (G := G) (Sel := Sel) (P := P)) (tests : list test)
    (s : tstate (S := H)) : run_state (A := tstate (S := H)) :=
  match test_kernel_init bi r (t_heap s) with
  | Ok h => test_runner fmt_info tests (mk_tstate h (t_cpu s) (t_next s) (t_sys s) (t_log s))
  | Panic p => test_panic_handler fmt_info (mk_run [] [] s) p
  end.

(** The test kernel always reports to QEMU, once, and reports success only if it booted
    and every test passed. *)
Theorem test_kernel_reports bi r tests s :
  let verdict := match test_kernel_init bi r (t_heap s) with
    | Ok h => is_ok (run_bodies tests (mk_tstate h (t_cpu s) (t_next s) (t_sys s) (t_log s)))
    | Panic _ => false
    end in
  r_ports (test_kernel_main bi r tests s) = [(0xf4, exit_code_as_u32 (if verdict then QemuSuccess else QemuFailed))].
Proof.
  unfold test_kernel_main. destruct (test_kernel_init bi r (t_heap s)) as [h|p]; [|done].
  by rewrite runner_verdict.
Qed.

End TestKernel.

Module SuiteDemo.

(** The kernel heap as [init_heap] leaves it, the boot processor, and the empty screen. *)
Definition heap0 : FixedSizeBlockAllocator (S := list_heap) :=
  mk_fixed (replicate (length BLOCK_SIZES) []) (mk_list_heap [mk_node HEAP_START HEAP_SIZE] (HEAP_START, HEAP_SIZE)).
Definition state0 : tstate (S := FixedSizeBlockAllocator (S := list_heap)) :=
  mk_tstate heap0 (mk_cpu (fun _ => 0x8000) 0x400000 0x202 8 16 (fun _ => 0)) 0
    (mk_system 42 (console_at 14 (mk_terminal [] [])) 0) [].

Definition heap_mem (h : FixedSizeBlockAllocator (S := list_heap)) (l : Layout) (m : memory) : memory := m.

Definition others : list (test (A := tstate (S := FixedSizeBlockAllocator (S := list_heap)))) :=
  tests_others heap_mem 0x9000 0x9100 0x400005 0x500010 0 (fun _ => str "InterruptStackFrame").

Definition creation : test := (str "test_thread_creation", test_thread_creation heap_mem).
Definition ids_unique : test := (str "test_thread_ids_unique", test_thread_ids_unique heap_mem).
Definition ptr : test := (str "test_thread_context_ptr", test_thread_context_ptr heap_mem).

Lemma both_runs : continued (run_bodies others state0) [creation; ids_unique; ptr] [ptr; creation; ids_unique] = (false, true).
Proof. vm_compute. reflexivity. Qed.

End SuiteDemo.

(** The kernel's unit tests, run by its test runner on the models: all pass, on the
    context switch, the stacks, the interrupt frame, the system calls, the console and the
    mutex, except that [test_thread_creation] expects a positive thread id although ids
    start at 0.  The verdict is failure when it is the first test to create a thread, and
    success when another one comes before it.  [test_println_many] passes from any state of
    the console. *)
Lemma unit_tests_verdict (fmt_info : panic -> list Z) :
  let verdict ts := r_ports (test_runner fmt_info (SuiteDemo.others ++ ts) SuiteDemo.state0) in
  verdict [SuiteDemo.creation; SuiteDemo.ids_unique; SuiteDemo.ptr] = [(0xf4, exit_code_as_u32 QemuFailed)] /\
  verdict [SuiteDemo.ptr; SuiteDemo.creation; SuiteDemo.ids_unique] = [(0xf4, exit_code_as_u32 QemuSuccess)] /\
  forall (S : Type) (s : tstate (S := S)) color t, system_shows (t_sys s) color t -> is_ok (test_println_many s) = true.
Proof.
  cbv zeta. destruct (continued_verdicts fmt_info _ _ _ _ false true SuiteDemo.both_runs) as [H1 H2].
  split; [exact H1|]. split; [exact H2|]. intros S s color t Hs. unfold test_println_many.
  by destruct (println_times_ok 200 _ color t Hs) as [sys ->].
Qed.
