(* ===== verification/StackFault.v ===== *)
(** * Running out of stack (tests/stack_overflow.rs, src/gdt.rs, src/interrupts.rs)

    [Cpu.deliver] says which gate a vector takes.  Here the processor also pushes its frame,
    on the current stack or on one of the TSS, and may fault again doing so.  This decides
    what becomes of a stack overflow: the page below a stack is not mapped, so the push of
    the frame of the page fault itself faults, and only a gate with a stack of its own can
    still be entered. *)

From stdpp Require Import gmap.
From S2P Require Import Prelude Fmt Interrupts Cpu SelfTests.

(** ** The processor with its stack *)

(** Gates by vector: the handler, and the stack of the TSS it runs on if it has one. *)
Abbreviation gates H := (gmap Z (H * option Z)).

Definition gates_of (t : idt) : gates handler := (fun g => (gate_handler g, stack_index g)) <$> t.

(** Vectors whose frame has an error code. *)
Definition has_error_code (v : Z) : bool := bool_decide (v ∈ [8; 10; 11; 12; 13; 14; 17]).
Definition frame_words (v : Z) : nat := if has_error_code v then 6 else 5.

(** A fault while a fault is delivered: two contributory ones make a double fault, and so
    does anything of the kind after a page fault; others are delivered in turn. *)
Definition makes_double (first second : Z) : bool :=
  if first =? 14 then contributory second else contributory first && contributory second && negb (second =? 14).

Inductive delivered (H : Type) := Entered (v : Z) (h : H) (rsp : Z) | Reset.
Arguments Entered {H} v h rsp.
Arguments Reset {H}.

Section Processor.
(** Which pages can be written. *)
Variable mapped : Z -> bool.
Context {H : Type}.

Definition word_mapped (a : Z) : bool := mapped (a / 4096) && mapped ((a + 7) / 4096).
Definition push_ok (sp : Z) (n : nat) : bool := forallb (fun i => word_mapped (sp - 8 * (Z.of_nat i + 1))) (seq 0 n).

(** One attempt to enter the gate of [v]: the frame goes below the aligned stack pointer;
    otherwise the fault that this raises. *)
Definition attempt (t : gates H) (tss : list Z) (rsp v : Z) : (H * Z) + Z :=
  match t !! v with
  | None => inr 11
  | Some (h, ist) =>
      let sp := match ist with Some i => default 0 (tss !! Z.to_nat i) | None => rsp end in
      let sp := sp / 16 * 16 in
      if push_ok sp (frame_words v) then inl (h, sp - 8 * Z.of_nat (frame_words v)) else inr 14
  end.

Fixpoint raise_from (fuel : nat) (t : gates H) (tss : list Z) (rsp v : Z) : option (delivered H) :=
  match fuel with
  | O => None
  | S fuel =>
      match attempt t tss rsp v with
      | inl (h, sp) => Some (Entered v h sp)
      | inr e =>
          if v =? 8 then Some Reset
          else raise_from fuel t tss rsp (if makes_double v e then 8 else e)
      end
  end.

(** Four attempts: the vector, #NP or a page fault, a page fault after that, the double fault. *)
Definition raise := raise_from 4.

Lemma attempt_fault t tss rsp v e : attempt t tss rsp v = inr e -> e = 11 \/ e = 14.
Proof. unfold attempt. destruct (t !! v) as [[h ist]|]; [destruct (push_ok _ _)|]; intros [= <-]; auto. Qed.

Lemma raise_step fuel t tss rsp v : raise_from (S fuel) t tss rsp v =
  match attempt t tss rsp v with
  | inl (h, sp) => Some (Entered v h sp)
  | inr e => if v =? 8 then Some Reset else raise_from fuel t tss rsp (if makes_double v e then 8 else e)
  end.
Proof. done. Qed.

(** Four attempts are enough. *)
Lemma raise_total t tss rsp v : is_Some (raise t tss rsp v).
Proof.
  assert (H8 : forall f, is_Some (raise_from (S f) t tss rsp 8)).
  { intros f. rewrite raise_step. destruct (attempt t tss rsp 8) as [[h sp]|e]; by eexists. }
  assert (H14 : forall f, is_Some (raise_from (S (S f)) t tss rsp 14)).
  { intros f. rewrite raise_step. destruct (attempt t tss rsp 14) as [[h sp]|e] eqn:E; [by eexists|].
    apply attempt_fault in E as [->| ->]; exact (H8 f). }
  assert (H11 : is_Some (raise_from 3 t tss rsp 11)).
  { rewrite raise_step. destruct (attempt t tss rsp 11) as [[h sp]|e] eqn:E; [by eexists|].
    apply attempt_fault in E as [->| ->]; [exact (H8 1%nat)|exact (H14 O)]. }
  unfold raise. rewrite raise_step. destruct (attempt t tss rsp v) as [[h sp]|e] eqn:E; [by eexists|].
  destruct (v =? 8); [by eexists|]. apply attempt_fault in E as He. destruct (makes_double v e); [exact (H8 2%nat)|].
  destruct He as [->| ->]; [exact H11|exact (H14 1%nat)].
Qed.

End Processor.

(** Where every frame can be pushed, the gate is that of [deliver]. *)
Lemma raise_deliver t tss rsp v : raise (fun _ => true) (gates_of t) tss rsp v = Some
  match deliver t v with
  | TripleFault => Reset
  | Handled v' g =>
      let sp := match stack_index g with Some i => default 0 (tss !! Z.to_nat i) | None => rsp end in
      Entered v' (gate_handler g) (sp / 16 * 16 - 8 * Z.of_nat (frame_words v'))
  end.
Proof.
  assert (Ha : forall v, attempt (fun _ => true) (gates_of t) tss rsp v =
    match t !! v with
    | None => inr 11
    | Some g => inl (gate_handler g, match stack_index g with Some i => default 0 (tss !! Z.to_nat i) | None => rsp end / 16 * 16 -
                       8 * Z.of_nat (frame_words v))
    end).
  { intros w. unfold attempt, gates_of, idt in *. rewrite lookup_fmap. destruct (t !! w) as [g|]; [|done]. cbn [fmap option_fmap option_map].
    assert (Hp : forall sp, push_ok (fun _ => true) sp (frame_words w) = true); [|by rewrite Hp].
    intros sp. unfold push_ok. apply forallb_forall. done. }
  unfold raise, deliver, idt in *. rewrite raise_step, Ha. destruct (t !! v) as [g|]; [done|].
  destruct (v =? 8); [done|]. assert (makes_double v 11 = contributory v) as ->.
  { unfold makes_double. destruct (Z.eqb_spec v 14) as [->|]; [done|]. by destruct (contributory v). }
  destruct (contributory v); rewrite raise_step, Ha; [by destruct (t !! 8)|]. destruct (t !! 11); [done|].
  change (makes_double 11 11) with true. cbn [Z.eqb Pos.eqb]. rewrite raise_step, Ha. by destruct (t !! 8).
Qed.

(** ** tests/stack_overflow.rs *)

(** The only handler of the test's table: it reports and loops for ever. *)
Definition test_double_fault_handler {A} (r : run_state (A := A)) : run_state (A := A) :=
  let r := say r (str "[ok]" ++ [10]) in
  mk_run (r_serial r) (exit_qemu (r_ports r) QemuSuccess) (r_state r).

(** [TEST_IDT]; a gate leads to what its handler does to the run. *)
Definition TEST_IDT {A} : gates (run_state (A := A) -> run_state (A := A)) :=
  {[ 8 := (test_double_fault_handler, Some DOUBLE_FAULT_IST_INDEX) ]}.

Section Test.
Variable mapped : Z -> bool.
Context {G Sel : Type} `{!DescriptorTable G Sel} {P : Type} `{!ChainedPics P}.
Variable fmt_info : panic -> list Z.

(** The endless recursion: each call pushes its return address and takes [frame] bytes of
    stack in all, which is the compiler's choice.  The answer is the stack pointer at the
    call whose push faults. *)
Fixpoint stack_overflow (fuel : nat) (frame rsp : Z) : option Z :=
  match fuel with
  | O => None
  | S fuel => if word_mapped mapped (rsp - 8) then stack_overflow fuel frame (rsp - frame) else Some rsp
  end.

(** The TSS that the task register selects. *)
Definition loaded_tss (r : system_regs (G := G) (Sel := Sel) (P := P)) : list Z :=
  match gdtr r, reg_tr r with
  | Some g, Some s => match gdt_entry g s with Some (TssSegment tss) => tss | _ => [] end
  | _, _ => []
  end.

(** [_start]: there is no verdict while the recursion goes on, nor from a machine that
    resets. *)
Definition stack_overflow_main (fuel : nat) (frame stack rsp : Z) (r : run_state (A := system_regs (G := G) (Sel := Sel) (P := P)))
    : option (run_state (A := system_regs (G := G) (Sel := Sel) (P := P))) :=
  let r := say r (str "stack_overflow::stack_overflow..." ++ [9]) in
  match gdt_init stack (r_state r) with
  | Panic p => Some (test_panic_handler fmt_info r p)
  | Ok regs =>
      rsp ← stack_overflow fuel frame rsp;
      d ← raise mapped TEST_IDT (loaded_tss regs) rsp 14;
      match d with
      | Entered _ handler _ => Some (handler (mk_run (r_serial r) (r_ports r) regs))
      | Reset => None
      end
  end.

End Test.

(** ** A stack with a guard page *)

Section Overflow.
Variable mapped : Z -> bool.

(** The pages above [g] up to [top] are the stack, and [g] is not mapped; calls take less
    than a page by some words; the double fault stack at [stack] is mapped. *)
Record guarded (g top stack frame rsp : Z) : Prop := {
  gd_guard : mapped g = false;
  gd_pages p : g < p <= top -> mapped p = true;
  gd_rsp : 4096 * (g + 1) + 8 <= rsp <= 4096 * (top + 1);
  gd_frame : 8 <= frame <= 4032;
  gd_stack a : stack <= a < stack + DOUBLE_FAULT_STACK_SIZE -> mapped (a / 4096) = true;
  gd_range : 0 <= stack /\ stack + DOUBLE_FAULT_STACK_SIZE <= u64_max;
}.

Lemma page_of a g : 4096 * g <= a < 4096 * (g + 1) -> a / 4096 = g.
Proof. intros. Z.div_mod_to_equations. lia. Qed.

Lemma guard_word g a : mapped g = false -> 4096 * g <= a < 4096 * (g + 1) -> word_mapped mapped a = false.
Proof. intros Hg Ha. unfold word_mapped. by rewrite (page_of a g Ha), Hg. Qed.

Lemma stack_word g top a : (forall p, g < p <= top -> mapped p = true) -> 4096 * (g + 1) <= a -> a + 8 <= 4096 * (top + 1) ->
  word_mapped mapped a = true.
Proof. intros Hp Ha Ht. unfold word_mapped. rewrite !Hp; [done|split; Z.div_mod_to_equations; lia..]. Qed.

(** The recursion ends at the guard page. *)
Lemma overflow_at_guard g top frame fuel rsp : mapped g = false -> (forall p, g < p <= top -> mapped p = true) ->
  8 <= frame <= 4032 -> 4096 * g + 72 <= rsp <= 4096 * (top + 1) -> rsp - (4096 * g + 72) < 8 * Z.of_nat fuel ->
  exists rsp', stack_overflow mapped fuel frame rsp = Some rsp' /\ 4096 * g + 72 <= rsp' < 4096 * (g + 1) + 8.
Proof.
  intros Hg Hp Hf. revert rsp. induction fuel as [|fuel IH]; intros rsp Hr Hfuel; [lia|]. cbn [stack_overflow].
  destruct (decide (4096 * (g + 1) + 8 <= rsp)).
  - rewrite (stack_word g top) by (done || lia). apply IH; lia.
  - rewrite (guard_word g) by (done || lia). exists rsp. split; [done|lia].
Qed.

(** No frame can be pushed there. *)
Lemma push_at_guard g rsp n : mapped g = false -> 4096 * g + 72 <= rsp < 4096 * (g + 1) + 8 ->
  push_ok mapped (rsp / 16 * 16) (S n) = false.
Proof.
  intros Hg Hr. unfold push_ok. cbn [seq forallb]. rewrite (guard_word g); [done|done|]. Z.div_mod_to_equations. lia.
Qed.

(** One can on the double fault stack. *)
Lemma push_at_ist stack sp n : (forall a, stack <= a < stack + DOUBLE_FAULT_STACK_SIZE -> mapped (a / 4096) = true) ->
  sp = (stack + DOUBLE_FAULT_STACK_SIZE) / 16 * 16 -> (n <= 6)%nat -> push_ok mapped sp n = true.
Proof.
  intros Hs -> Hn. unfold push_ok. apply forallb_forall. intros i Hi%in_seq. unfold word_mapped, DOUBLE_FAULT_STACK_SIZE in *.
  rewrite !Hs; [done|Z.div_mod_to_equations; lia..].
Qed.

(** With any table that has the double fault on its own stack, and no gate or one on the
    current stack for page faults, the overflow ends in the double fault handler. *)
Lemma overflow_double_fault {H} (t : gates H) tss g top stack frame rsp rsp' (h : H) : guarded g top stack frame rsp ->
  4096 * g + 72 <= rsp' < 4096 * (g + 1) + 8 -> tss !! Z.to_nat DOUBLE_FAULT_IST_INDEX = Some (stack + DOUBLE_FAULT_STACK_SIZE) ->
  t !! 8 = Some (h, Some DOUBLE_FAULT_IST_INDEX) -> (t !! 14 = None \/ exists h', t !! 14 = Some (h', None)) ->
  raise mapped t tss rsp' 14 = Some (Entered 8 h ((stack + DOUBLE_FAULT_STACK_SIZE) / 16 * 16 - 48)).
Proof.
  intros Hgd Hr Ht H8 H14. unfold raise. rewrite raise_step.
  assert (exists e, attempt mapped t tss rsp' 14 = inr e /\ makes_double 14 e = true) as (e & -> & He).
  { unfold attempt. destruct H14 as [->|[h' ->]]; [by exists 11|]. change (frame_words 14) with 6%nat.
    rewrite (push_at_guard g) by (apply Hgd || done). by exists 14. }
  rewrite He. change (14 =? 8) with false. cbn [negb]. rewrite raise_step. unfold attempt. rewrite H8, Ht. cbn [default from_option id].
  by rewrite (push_at_ist stack) by (apply Hgd || done || (cbn; lia)).
Qed.

(** Without that stack the machine resets. *)
Lemma overflow_reset {H} (t : gates H) tss g top stack frame rsp rsp' : guarded g top stack frame rsp ->
  4096 * g + 72 <= rsp' < 4096 * (g + 1) + 8 -> (forall v h ist, t !! v = Some (h, ist) -> ist = None) ->
  raise mapped t tss rsp' 14 = Some Reset.
Proof.
  intros Hgd Hr Hist. unfold raise. rewrite raise_step.
  assert (Ha : forall v, exists e, attempt mapped t tss rsp' v = inr e /\ makes_double 14 e = true).
  { intros v. unfold attempt. destruct (t !! v) as [[h ist]|] eqn:E; [|by exists 11]. apply Hist in E as ->.
    exists 14. split; [|done]. assert (exists n, frame_words v = S n) as [n ->] by (unfold frame_words; destruct (has_error_code v); by eexists).
    by rewrite (push_at_guard g) by (apply Hgd || done). }
  destruct (Ha 14) as (e & -> & He). rewrite He. change (14 =? 8) with false. cbn [negb]. rewrite raise_step.
  by destruct (Ha 8) as (e' & -> & _).
Qed.

End Overflow.

(** ** The two kernels *)

Section Kernels.
Context {G Sel : Type} `{!DescriptorTable G Sel} {P : Type} `{!ChainedPics P}.

Lemma gdt_init_tss stack (r : system_regs (G := G) (Sel := Sel) (P := P)) : stack + DOUBLE_FAULT_STACK_SIZE <= u64_max ->
  exists r', gdt_init stack r = Ok r' /\
    loaded_tss r' !! Z.to_nat DOUBLE_FAULT_IST_INDEX = Some (stack + DOUBLE_FAULT_STACK_SIZE).
Proof.
  intros Hs. unfold gdt_init. destruct (TSS_ok stack Hs) as (tss & -> & Htss). cbn [mbind outcome_bind].
  pose proof (GDT_entries (G := G) (Sel := Sel) tss) as Hg. destruct (GDT tss) as [g sel]. destruct Hg as [_ Hg].
  eexists. split; [reflexivity|]. unfold loaded_tss. cbn [gdtr reg_tr]. by rewrite Hg.
Qed.

Lemma kernel_gates t : IDT = Ok t -> gates_of t !! 8 = Some (double_fault_handler, Some DOUBLE_FAULT_IST_INDEX) /\
  gates_of t !! 14 = Some (page_fault_handler, None).
Proof. intros [= <-]. by vm_compute. Qed.

(** C35. A stack overflow is caught.  On a stack above a page that is not mapped, endless
    recursion faults, and no further frame fits there.  In tests/stack_overflow.rs the fault
    ends in the test's double fault handler, and the test succeeds.  In the kernel that
    [moltos::init] set up, the page fault cannot be delivered, and the double fault is,
    within the stack reserved for it; if no gate had a stack of its own, the machine would
    reset. *)
Theorem stack_overflow_caught mapped fmt_info g top stack frame rsp fuel (r0 : system_regs (G := G) (Sel := Sel) (P := P)) :
  guarded mapped g top stack frame rsp -> rsp - 4096 * g < 8 * Z.of_nat fuel ->
  PICS r0 = pics_new PIC_1_OFFSET PIC_2_OFFSET ->
  r_ports <$> stack_overflow_main mapped fmt_info fuel frame stack rsp (mk_run [] [] r0) =
    Some [(0xf4, exit_code_as_u32 QemuSuccess)] /\
  exists r t rsp' sp, init stack r0 = Ok r /\ idtr r = Some t /\ stack_overflow mapped fuel frame rsp = Some rsp' /\
    raise mapped (gates_of t) (loaded_tss r) rsp' 14 = Some (Entered 8 double_fault_handler sp) /\
    stack <= sp < stack + DOUBLE_FAULT_STACK_SIZE /\
    raise mapped ((fun e => (fst e, None)) <$> gates_of t) (loaded_tss r) rsp' 14 = Some Reset.
Proof.
  intros Hgd Hfuel Hp. pose proof (gd_rsp _ _ _ _ _ _ Hgd) as Hrsp. pose proof (gd_range _ _ _ _ _ _ Hgd) as [Hs0 Hs].
  destruct (overflow_at_guard mapped g top frame fuel rsp) as (rsp' & E & Hr'); [apply Hgd..|lia|lia|]. split.
  - unfold stack_overflow_main. cbn [r_state say]. destruct (gdt_init_tss stack r0 Hs) as (r & -> & Htss). rewrite E. cbn [mbind option_bind].
    rewrite (overflow_double_fault mapped TEST_IDT _ g top stack frame rsp rsp' test_double_fault_handler); [done|done|done|done|done|by left].
  - destruct (init_ready stack r0 Hp Hs) as (r & Hi & Hready & _). destruct (c_segments _ _ _ Hready) as (gt & cs & tr & tss & Hg & _ & Htr & _ & He & Htss).
    destruct (init_idt_loaded stack r0 r Hi) as (t & Ht & Hidt). destruct (kernel_gates t Hidt) as [H8 H14].
    assert (Hl : loaded_tss r = tss) by (unfold loaded_tss; by rewrite Hg, Htr, He).
    exists r, t, rsp'. eexists. split; [done|]. split; [done|]. split; [done|].
    split; [|split]; [eapply (overflow_double_fault mapped); eauto; by rewrite Hl| |].
    + unfold DOUBLE_FAULT_STACK_SIZE in *. Z.div_mod_to_equations. lia.
    + eapply (overflow_reset mapped); eauto. intros v h ist. rewrite lookup_fmap. by destruct (gates_of t !! v); [intros [= _ <-]|].
Qed.

End Kernels.

(** A machine with two pages of stack at 1 MiB and the double fault stack at 2 MiB. *)
Lemma stack_overflow_caught_witness :
  let mapped p := ((256 <? p) && (p <=? 258)) || ((512 <=? p) && (p <? 517)) in
  r_ports <$> stack_overflow_main mapped (fun _ => []) 1537 16 0x200000 0x103000 (mk_run [] [] CpuDemo.reset) = Some [(0xf4, 0x10)].
Proof.
  intros mapped. apply (stack_overflow_caught mapped (fun _ => []) 256 258 0x200000 16 0x103000 1537 CpuDemo.reset).
  - split; [done|unfold mapped; intros; lia|lia|lia| |unfold DOUBLE_FAULT_STACK_SIZE, u64_max; lia].
    unfold mapped, DOUBLE_FAULT_STACK_SIZE. intros a Ha. assert (512 <= a / 4096 < 517) by (Z.div_mod_to_equations; lia). lia.
  - lia.
  - reflexivity.
Defined.
