(* ===== verification/Integration.v ===== *)
(** * The integration tests (tests/scheduler_eevdf.rs, scheduler_round_robin.rs, sync.rs,
    threading.rs, heap_allocation.rs, basic_boot.rs, should_panic.rs, uptime.rs)

    Each file is a kernel of its own, which boots as [test_kernel_init] does and runs its
    tests.  They are programs over the models of the schedulers, the mutex, the threads
    and the heap, as the unit tests of SelfTests are.  tests/kmutex_concurrent.rs is in
    Guarded. *)

From S2P Require Import Prelude Fmt Machine Context Stack Eevdf RoundRobin Scheduler Sync Interrupts Alloc LinkedList FixedBlock HeapMem ListMem BlockMem Memory Vga Syscall Spawn SelfTests.

(** ** Tests of the schedulers *)

Section SchedulerTests.
Context {S : Type} `{!HeapAllocator S}.
Variable alloc_mem : S -> Layout -> memory -> memory.

(** Where the local [bootstrap_ctx] of a test is. *)
Variable bootstrap_ptr : Z.

(** A test says its name and, at its end, that it passed. *)
Definition announce (file name : list Z) (body : tstate (S := S) -> outcome (tstate (S := S))) (s : tstate (S := S))
    : outcome (tstate (S := S)) :=
  s ← body (tlog s (file ++ str "::" ++ name ++ str "..." ++ [9]));
  Ok (said_ok s).

(** [let mut bootstrap_ctx = ThreadContext::default()] *)
Definition bootstrap_default (s : tstate (S := S)) : tstate (S := S) :=
  with_heap s (t_heap s) (ctx_write (mem (t_cpu s)) bootstrap_ptr TC.default).

Definition is_some {A} (o : option A) : bool := match o with Some _ => true | None => false end.
Definition is_none {A} (o : option A) : bool := negb (is_some o).

(** The end of a scheduler's scope: its threads are dropped in order. *)
Fixpoint drop_threads (ts : list Thread) (s : tstate (S := S)) : outcome (tstate (S := S)) :=
  match ts with [] => Ok s | t :: ts => s ← drop_thread t s; drop_threads ts s end.

Definition assert_len (n expected : nat) : outcome unit := assert_ (bool_decide (n = expected)).

(** *** tests/scheduler_eevdf.rs *)

Definition test_eevdf_empty (s : tstate (S := S)) : outcome (tstate (S := S)) :=
  let s := bootstrap_default s in
  '(_, result) ← eevdf_tick_prepare eevdf_new bootstrap_ptr 0;
  _ ← assert_ (is_none result);
  Ok s.

Definition test_eevdf_spawn_default_weight (s : tstate (S := S)) : outcome (tstate (S := S)) :=
  '(t, s) ← new_thread alloc_mem s;
  let sched := eevdf_spawn eevdf_new t in
  _ ← assert_len (eevdf_len sched) 1;
  drop_threads (threads sched) s.

Definition test_eevdf_spawn_with_weight (s : tstate (S := S)) : outcome (tstate (S := S)) :=
  '(t1, s) ← new_thread alloc_mem s;
  let sched := eevdf_spawn_with_weight eevdf_new t1 2048 in
  '(t2, s) ← new_thread alloc_mem s;
  let sched := eevdf_spawn_with_weight sched t2 512 in
  _ ← assert_len (eevdf_len sched) 2;
  drop_threads (threads sched) s.

Definition test_eevdf_min_weight (s : tstate (S := S)) : outcome (tstate (S := S)) :=
  '(t1, s) ← new_thread alloc_mem s;
  let sched := eevdf_spawn_with_weight eevdf_new t1 0 in
  '(t2, s) ← new_thread alloc_mem s;
  let sched := eevdf_spawn_with_weight sched t2 1 in
  _ ← assert_len (eevdf_len sched) 2;
  drop_threads (threads sched) s.

Definition test_eevdf_tick_prepare_with_threads (s : tstate (S := S)) : outcome (tstate (S := S)) :=
  '(t, s) ← new_thread alloc_mem s;
  let sched := eevdf_spawn eevdf_new t in
  let s := bootstrap_default s in
  '(sched, result) ← eevdf_tick_prepare sched bootstrap_ptr 0;
  _ ← assert_ (is_some result);
  '(from, to) ← expect result;
  _ ← assert_ne from 0;
  _ ← assert_ne to 0;
  drop_threads (threads sched) s.

(** [let _ = sched.tick_prepare(bootstrap_ptr, tick)] for each of the ticks. *)
Fixpoint ticks (ts : list Z) (sched : EevdfScheduler) : outcome EevdfScheduler :=
  match ts with
  | [] => Ok sched
  | tick :: ts => '(sched, _) ← eevdf_tick_prepare sched bootstrap_ptr tick; ticks ts sched
  end.

Definition test_eevdf_time_slice_computation (s : tstate (S := S)) : outcome (tstate (S := S)) :=
  '(t, s) ← new_thread alloc_mem s;
  let sched := eevdf_spawn eevdf_new t in
  let s := bootstrap_default s in
  sched ← ticks [0; 10; 25] sched;
  drop_threads (threads sched) s.

Definition test_eevdf_vruntime_updates (s : tstate (S := S)) : outcome (tstate (S := S)) :=
  '(t, s) ← new_thread alloc_mem s;
  let sched := eevdf_spawn eevdf_new t in
  let s := bootstrap_default s in
  sched ← ticks [0; 10; 20] sched;
  drop_threads (threads sched) s.

Definition test_eevdf_min_vruntime_tracking (s : tstate (S := S)) : outcome (tstate (S := S)) :=
  '(t1, s) ← new_thread alloc_mem s;
  let sched := eevdf_spawn eevdf_new t1 in
  '(t2, s) ← new_thread alloc_mem s;
  let sched := eevdf_spawn sched t2 in
  let s := bootstrap_default s in
  sched ← ticks [0; 5; 10; 15] sched;
  drop_threads (threads sched) s.

Definition test_eevdf_weight_affects_scheduling (s : tstate (S := S)) : outcome (tstate (S := S)) :=
  '(t1, s) ← new_thread alloc_mem s;
  let sched := eevdf_spawn_with_weight eevdf_new t1 2048 in
  '(t2, s) ← new_thread alloc_mem s;
  let sched := eevdf_spawn_with_weight sched t2 512 in
  let s := bootstrap_default s in
  sched ← ticks [0; 5; 10] sched;
  drop_threads (threads sched) s.

(** *** tests/scheduler_round_robin.rs *)

Definition test_round_robin_sequential (s : tstate (S := S)) : outcome (tstate (S := S)) :=
  '(t1, s) ← new_thread alloc_mem s;
  let sched := rr_spawn rr_new t1 in
  '(t2, s) ← new_thread alloc_mem s;
  let sched := rr_spawn sched t2 in
  '(t3, s) ← new_thread alloc_mem s;
  let sched := rr_spawn sched t3 in
  let s := bootstrap_default s in
  '(sched, result1) ← rr_tick_prepare sched bootstrap_ptr 0;
  _ ← assert_ (is_some result1);
  '(_, to1) ← expect result1;
  _ ← assert_ (negb (to1 =? 0));
  '(sched, result2) ← rr_tick_prepare sched bootstrap_ptr 1;
  _ ← assert_ (is_some result2);
  '(sched, result3) ← rr_tick_prepare sched bootstrap_ptr 2;
  _ ← assert_ (is_some result3);
  '(sched, result4) ← rr_tick_prepare sched bootstrap_ptr 3;
  _ ← assert_ (is_some result4);
  drop_threads (rr_threads sched) s.

Definition test_round_robin_empty (s : tstate (S := S)) : outcome (tstate (S := S)) :=
  let s := bootstrap_default s in
  '(_, result) ← rr_tick_prepare rr_new bootstrap_ptr 0;
  _ ← assert_ (is_none result);
  Ok s.

Definition test_round_robin_single_thread (s : tstate (S := S)) : outcome (tstate (S := S)) :=
  '(t, s) ← new_thread alloc_mem s;
  let sched := rr_spawn rr_new t in
  let s := bootstrap_default s in
  '(sched, result1) ← rr_tick_prepare sched bootstrap_ptr 0;
  _ ← assert_ (is_some result1);
  '(sched, result2) ← rr_tick_prepare sched bootstrap_ptr 1;
  _ ← assert_ (is_some result2);
  drop_threads (rr_threads sched) s.

(** *** tests/sync.rs *)

Definition test_block_removes_from_scheduling (s : tstate (S := S)) : outcome (tstate (S := S)) :=
  '(t, s) ← new_thread alloc_mem s;
  let sched := eevdf_spawn eevdf_new t in
  let s := bootstrap_default s in
  '(sched, r) ← eevdf_tick_prepare sched bootstrap_ptr 0;
  _ ← assert_ (is_some r);
  '(sched, r) ← eevdf_block_current_and_prepare_switch sched bootstrap_ptr 1;
  _ ← assert_ (is_none r);
  '(sched, r) ← eevdf_tick_prepare sched bootstrap_ptr 2;
  _ ← assert_ (is_none r);
  drop_threads (threads sched) s.

Definition test_unblock_restores_runnability (s : tstate (S := S)) : outcome (tstate (S := S)) :=
  '(t, s) ← new_thread alloc_mem s;
  let sched := eevdf_spawn eevdf_new t in
  let s := bootstrap_default s in
  '(sched, _) ← eevdf_tick_prepare sched bootstrap_ptr 0;
  current ← eevdf_current_thread_id sched;
  id ← expect current;
  '(sched, _) ← eevdf_block_current_and_prepare_switch sched bootstrap_ptr 1;
  '(sched, r) ← eevdf_tick_prepare sched bootstrap_ptr 2;
  _ ← assert_ (is_none r);
  sched ← eevdf_unblock_thread sched id;
  '(sched, r) ← eevdf_tick_prepare sched bootstrap_ptr 3;
  _ ← assert_ (is_some r);
  drop_threads (threads sched) s.

Definition test_blocked_thread_is_skipped (s : tstate (S := S)) : outcome (tstate (S := S)) :=
  '(t1, s) ← new_thread alloc_mem s;
  let sched := eevdf_spawn eevdf_new t1 in
  '(t2, s) ← new_thread alloc_mem s;
  let sched := eevdf_spawn sched t2 in
  let s := bootstrap_default s in
  '(sched, _) ← eevdf_tick_prepare sched bootstrap_ptr 0;
  current ← eevdf_current_thread_id sched;
  first_id ← expect current;
  '(sched, r) ← eevdf_block_current_and_prepare_switch sched bootstrap_ptr 1;
  _ ← assert_ (is_some r);
  current ← eevdf_current_thread_id sched;
  second_id ← expect current;
  _ ← assert_ne first_id second_id;
  '(sched, r) ← eevdf_tick_prepare sched bootstrap_ptr 10;
  _ ← assert_ (is_some r);
  drop_threads (threads sched) s.

Definition test_unblock_unknown_id_is_noop (s : tstate (S := S)) : outcome (tstate (S := S)) :=
  '(t, s) ← new_thread alloc_mem s;
  let sched := eevdf_spawn eevdf_new t in
  let s := bootstrap_default s in
  '(sched, _) ← eevdf_tick_prepare sched bootstrap_ptr 0;
  sched ← eevdf_unblock_thread sched 999999;
  '(sched, r) ← eevdf_tick_prepare sched bootstrap_ptr 1;
  _ ← assert_ (is_some r);
  drop_threads (threads sched) s.

Definition test_all_threads_blocked (s : tstate (S := S)) : outcome (tstate (S := S)) :=
  '(t1, s) ← new_thread alloc_mem s;
  let sched := eevdf_spawn eevdf_new t1 in
  '(t2, s) ← new_thread alloc_mem s;
  let sched := eevdf_spawn sched t2 in
  let s := bootstrap_default s in
  '(sched, _) ← eevdf_tick_prepare sched bootstrap_ptr 0;
  '(sched, r) ← eevdf_block_current_and_prepare_switch sched bootstrap_ptr 1;
  _ ← assert_ (is_some r);
  '(sched, r) ← eevdf_block_current_and_prepare_switch sched bootstrap_ptr 2;
  _ ← assert_ (is_none r);
  drop_threads (threads sched) s.

Definition test_kmutex_basic_lock_unlock (s : tstate (S := S)) : outcome (tstate (S := S)) :=
  md ← locked (fun _ => 42) (KMutex.init, 0);
  '(_, v) ← locked id md;
  _ ← assert_eq v 42;
  Ok s.

(** The vector as the list of its elements. *)
Definition test_kmutex_guard_deref_mut (s : tstate (S := S)) : outcome (tstate (S := S)) :=
  md ← locked (fun l => l ++ [4]) (KMutex.init, [1; 2; 3]);
  '(_, l) ← locked id md;
  _ ← assert_len (length l) 4;
  Ok s.

Definition test_kmutex_sequential_locks (s : tstate (S := S)) : outcome (tstate (S := S)) :=
  md ← store_each (Z.of_nat <$> seq 0 20) (KMutex.init, 0);
  '(_, v) ← locked id md;
  _ ← assert_eq v 19;
  Ok s.

(** *** tests/threading.rs *)

(** On the static [SCHEDULER], to which this kernel never adds a thread. *)
Definition test_scheduler_empty (s : tstate (S := S)) : outcome (tstate (S := S)) :=
  let '(sched, m) := scheduler_new bootstrap_ptr (mem (t_cpu s)) in
  let s := with_heap s (t_heap s) m in
  _ ← assert_len (len sched) 0;
  '(_, result) ← tick_prepare sched 0;
  _ ← assert_ (is_none result);
  Ok s.

Definition test_scheduler_spawn (s : tstate (S := S)) : outcome (tstate (S := S)) :=
  let sched := eevdf_new in
  _ ← assert_len (eevdf_len sched) 0;
  '(t, s) ← new_thread alloc_mem s;
  let sched := eevdf_spawn sched t in
  _ ← assert_len (eevdf_len sched) 1;
  drop_threads (threads sched) s.

Definition test_scheduler_spawn_multiple (s : tstate (S := S)) : outcome (tstate (S := S)) :=
  '(t1, s) ← new_thread alloc_mem s;
  let sched := eevdf_spawn eevdf_new t1 in
  '(t2, s) ← new_thread alloc_mem s;
  let sched := eevdf_spawn sched t2 in
  '(t3, s) ← new_thread alloc_mem s;
  let sched := eevdf_spawn sched t3 in
  _ ← assert_len (eevdf_len sched) 3;
  drop_threads (threads sched) s.

Definition test_scheduler_spawn_with_weight (s : tstate (S := S)) : outcome (tstate (S := S)) :=
  '(t, s) ← new_thread alloc_mem s;
  let sched := eevdf_spawn_with_weight eevdf_new t 2048 in
  _ ← assert_len (eevdf_len sched) 1;
  drop_threads (threads sched) s.

Definition test_three_ids_unique (s : tstate (S := S)) : outcome (tstate (S := S)) :=
  '(thread1, s) ← new_thread alloc_mem s;
  '(thread2, s) ← new_thread alloc_mem s;
  '(thread3, s) ← new_thread alloc_mem s;
  _ ← assert_ne (thread_id thread1) (thread_id thread2);
  _ ← assert_ne (thread_id thread2) (thread_id thread3);
  _ ← assert_ne (thread_id thread1) (thread_id thread3);
  drop_threads [thread3; thread2; thread1] s.

Definition test_scheduler_tick_prepare_returns_some_with_threads (s : tstate (S := S)) : outcome (tstate (S := S)) :=
  '(t, s) ← new_thread alloc_mem s;
  let sched := eevdf_spawn eevdf_new t in
  let s := bootstrap_default s in
  '(sched, result) ← eevdf_tick_prepare sched bootstrap_ptr 0;
  _ ← assert_ (is_some result);
  '(from, to) ← expect result;
  _ ← assert_ne from 0;
  _ ← assert_ne to 0;
  drop_threads (threads sched) s.

Definition test_scheduler_multiple_ticks (s : tstate (S := S)) : outcome (tstate (S := S)) :=
  '(t1, s) ← new_thread alloc_mem s;
  let sched := eevdf_spawn eevdf_new t1 in
  '(t2, s) ← new_thread alloc_mem s;
  let sched := eevdf_spawn sched t2 in
  let s := bootstrap_default s in
  '(sched, result1) ← eevdf_tick_prepare sched bootstrap_ptr 0;
  _ ← assert_ (is_some result1);
  '(sched, result2) ← eevdf_tick_prepare sched bootstrap_ptr 1;
  _ ← assert_ (is_some result2);
  '(sched, result3) ← eevdf_tick_prepare sched bootstrap_ptr 2;
  _ ← assert_ (is_some result3);
  drop_threads (threads sched) s.

Definition test_scheduler_time_slice_tracking (s : tstate (S := S)) : outcome (tstate (S := S)) :=
  '(t, s) ← new_thread alloc_mem s;
  let sched := eevdf_spawn eevdf_new t in
  let s := bootstrap_default s in
  sched ← ticks [0; 10; 25] sched;
  drop_threads (threads sched) s.

(** *** The suites *)

Definition test_named (file name : list Z) (body : tstate (S := S) -> outcome (tstate (S := S))) : test (A := tstate (S := S)) :=
  (file ++ str "::" ++ name, announce file name body).

Definition scheduler_eevdf : list (test (A := tstate (S := S))) := [
  test_named (str "scheduler_eevdf") (str "test_eevdf_empty") test_eevdf_empty;
  test_named (str "scheduler_eevdf") (str "test_eevdf_spawn_default_weight") test_eevdf_spawn_default_weight;
  test_named (str "scheduler_eevdf") (str "test_eevdf_spawn_with_weight") test_eevdf_spawn_with_weight;
  test_named (str "scheduler_eevdf") (str "test_eevdf_min_weight") test_eevdf_min_weight;
  test_named (str "scheduler_eevdf") (str "test_eevdf_tick_prepare_with_threads") test_eevdf_tick_prepare_with_threads;
  test_named (str "scheduler_eevdf") (str "test_eevdf_time_slice_computation") test_eevdf_time_slice_computation;
  test_named (str "scheduler_eevdf") (str "test_eevdf_vruntime_updates") test_eevdf_vruntime_updates;
  test_named (str "scheduler_eevdf") (str "test_eevdf_min_vruntime_tracking") test_eevdf_min_vruntime_tracking;
  test_named (str "scheduler_eevdf") (str "test_eevdf_weight_affects_scheduling") test_eevdf_weight_affects_scheduling].

Definition scheduler_round_robin : list (test (A := tstate (S := S))) := [
  test_named (str "scheduler_round_robin") (str "test_round_robin_sequential") test_round_robin_sequential;
  test_named (str "scheduler_round_robin") (str "test_round_robin_empty") test_round_robin_empty;
  test_named (str "scheduler_round_robin") (str "test_round_robin_single_thread") test_round_robin_single_thread].

Definition sync : list (test (A := tstate (S := S))) := [
  test_named (str "sync") (str "test_block_removes_from_scheduling") test_block_removes_from_scheduling;
  test_named (str "sync") (str "test_unblock_restores_runnability") test_unblock_restores_runnability;
  test_named (str "sync") (str "test_blocked_thread_is_skipped") test_blocked_thread_is_skipped;
  test_named (str "sync") (str "test_unblock_unknown_id_is_noop") test_unblock_unknown_id_is_noop;
  test_named (str "sync") (str "test_all_threads_blocked") test_all_threads_blocked;
  test_named (str "sync") (str "test_kmutex_basic_lock_unlock") test_kmutex_basic_lock_unlock;
  test_named (str "sync") (str "test_kmutex_guard_deref_mut") test_kmutex_guard_deref_mut;
  test_named (str "sync") (str "test_kmutex_sequential_locks") test_kmutex_sequential_locks].

Definition threading : list (test (A := tstate (S := S))) := [
  test_named (str "threading") (str "test_scheduler_empty") test_scheduler_empty;
  test_named (str "threading") (str "test_scheduler_spawn") test_scheduler_spawn;
  test_named (str "threading") (str "test_scheduler_spawn_multiple") test_scheduler_spawn_multiple;
  test_named (str "threading") (str "test_scheduler_spawn_with_weight") test_scheduler_spawn_with_weight;
  test_named (str "threading") (str "test_thread_ids_unique") test_three_ids_unique;
  test_named (str "threading") (str "test_scheduler_tick_prepare_returns_some_with_threads")
    test_scheduler_tick_prepare_returns_some_with_threads;
  test_named (str "threading") (str "test_scheduler_multiple_ticks") test_scheduler_multiple_ticks;
  test_named (str "threading") (str "test_scheduler_time_slice_tracking") test_scheduler_time_slice_tracking].

End SchedulerTests.

(** ** Tests of the heap (tests/heap_allocation.rs) *)

Section HeapTests.
Context {S : Type} `{!HeapAllocator S, !HeapMemory S}.

Abbreviation heap := (FixedSizeBlockAllocator (S := S)).
Abbreviation state := (tstate (S := heap)).

Definition t_mem (s : state) : memory := mem (t_cpu s).
Definition write (s : state) (m : memory) : state := with_heap s (t_heap s) m.

(** Null is [handle_alloc_error]. *)
Definition alloc_block (l : Layout) (s : state) : outcome (Z * state) :=
  '(p, h) ← fixed_alloc (t_heap s) l;
  if p =? 0 then Panic ExplicitPanic else Ok (p, with_heap s h (hm_alloc (t_heap s) l (t_mem s))).

Definition free_block (p : Z) (l : Layout) (s : state) : outcome state :=
  h ← fixed_dealloc (t_heap s) p l; Ok (with_heap s h (hm_dealloc (t_heap s) p l (t_mem s))).

Definition realloc_block (p : Z) (l : Layout) (new_size : Z) (s : state) : outcome (Z * state) :=
  match from_size_align new_size (align l) with
  | None => Ok (0, s)
  | Some new_layout =>
      '(q, h) ← fixed_alloc (t_heap s) new_layout;
      let s := with_heap s h (hm_alloc (t_heap s) new_layout (t_mem s)) in
      if q =? 0 then Ok (0, s) else
      s ← free_block p l (write s (copy (t_mem s) p q (Z.min (size l) new_size)));
      Ok (q, s)
  end.

Definition I32 : Layout := mk_layout 4 4.
Definition USIZE : Layout := mk_layout 8 8.

Definition box_i32 (v : Z) (s : state) : outcome (Z * state) :=
  '(p, s) ← alloc_block I32 s; Ok (p, write s (store32 (t_mem s) p v)).
Definition box_usize (v : Z) (s : state) : outcome (Z * state) :=
  '(p, s) ← alloc_block USIZE s; Ok (p, write s (store64 (t_mem s) p v)).

Definition simple_allocation (s : state) : outcome state :=
  '(heap_value_1, s) ← box_i32 41 s;
  '(heap_value_2, s) ← box_i32 13 s;
  _ ← assert_eq (load32 (t_mem s) heap_value_1) 41;
  _ ← assert_eq (load32 (t_mem s) heap_value_2) 13;
  s ← free_block heap_value_2 I32 s;
  free_block heap_value_1 I32 s.

(** The body of the loops over boxes, and [n] turns of it from [i] on. *)
Definition box_turn (i : Z) (s : state) : outcome state :=
  '(x, s) ← box_usize i s;
  _ ← assert_eq (load64 (t_mem s) x) i;
  free_block x USIZE s.

Fixpoint box_turns (n : nat) (i : Z) (s : state) : outcome state :=
  match n with O => Ok s | Datatypes.S n => s ← box_turn i s; box_turns n (i + 1) s end.

(** [n] turns while another box is held. *)
Definition turns_long_lived (n : nat) (s : state) : outcome state :=
  '(long_lived, s) ← box_i32 1 s;
  s ← box_turns n 0 s;
  _ ← assert_eq (load32 (t_mem s) long_lived) 1;
  free_block long_lived I32 s.

(** [HEAP_SIZE / size_of::<usize>()] *)
Definition BOXES : nat := Z.to_nat (HEAP_SIZE / 8).

Definition many_boxes (s : state) : outcome state := box_turns BOXES 0 s.
Definition many_boxes_long_lived (s : state) : outcome state := turns_long_lived BOXES s.

(** A [Vec<u64>]: it grows to twice its capacity, and to four elements at first. *)
Record vec := mk_vec { v_ptr : Z; v_cap : Z; v_len : Z }.
Definition vec_new : vec := mk_vec 8 0 0.
Definition vec_layout (cap : Z) : Layout := mk_layout (8 * cap) 8.

Definition grow_one (v : vec) (s : state) : outcome (vec * state) :=
  let cap := Z.max (Z.max (2 * v_cap v) (v_cap v + 1)) 4 in
  l ← expect (from_size_align (8 * cap) 8);
  if v_cap v =? 0 then
    '(p, s) ← alloc_block l s; Ok (mk_vec p cap (v_len v), s)
  else
    '(p, s) ← realloc_block (v_ptr v) (vec_layout (v_cap v)) (8 * cap) s;
    if p =? 0 then Panic ExplicitPanic else Ok (mk_vec p cap (v_len v), s).

Definition push (v : vec) (x : Z) (s : state) : outcome (vec * state) :=
  '(v, s) ← if v_len v =? v_cap v then grow_one v s else Ok (v, s);
  Ok (mk_vec (v_ptr v) (v_cap v) (v_len v + 1), write s (store64 (t_mem s) (v_ptr v + 8 * v_len v) x)).

Fixpoint push_all (xs : list Z) (v : vec) (s : state) : outcome (vec * state) :=
  match xs with [] => Ok (v, s) | x :: xs => '(v, s) ← push v x s; push_all xs v s end.

Definition vec_values (v : vec) (s : state) : list Z :=
  (fun i => load64 (t_mem s) (v_ptr v + 8 * Z.of_nat i)) <$> seq 0 (Z.to_nat (v_len v)).

Definition vec_drop (v : vec) (s : state) : outcome state :=
  if v_cap v =? 0 then Ok s else free_block (v_ptr v) (vec_layout (v_cap v)) s.

Definition large_vec (s : state) : outcome state :=
  let n := 1000 in
  '(vec, s) ← push_all (Z.of_nat <$> seq 0 (Z.to_nat n)) vec_new s;
  sum ← sum_u64 (vec_values vec s);
  a ← n -! 1;
  b ← a *! n;
  expected ← b /! 2;
  _ ← assert_eq sum expected;
  vec_drop vec s.

(** *** Any heap *)

(** A test from [s] ends with the blocks that were in use before, and their contents, or
    dies because the heap is exhausted. *)
Definition settled (live : list (Z * Layout)) (m : memory) (r : outcome state) : Prop :=
  match r with
  | Ok s' => fixed_inv (t_heap s') live /\ keeps live m (t_mem s')
  | Panic p => p = ExplicitPanic
  end.

Lemma I32_ok : layout_ok I32.
Proof. split; [cbn; lia|]. exists 2. split; [lia|reflexivity]. Qed.
Lemma USIZE_ok : layout_ok USIZE.
Proof. split; [cbn; lia|]. exists 3. split; [lia|reflexivity]. Qed.

Lemma alloc_block_ok l s live : fixed_inv (t_heap s) live -> layout_ok l ->
  match alloc_block l s with
  | Ok (p, s') => p <> 0 /\ fixed_alloc (t_heap s) l = Ok (p, t_heap s') /\ fixed_inv (t_heap s') ((p, l) :: live) /\
      keeps live (t_mem s) (t_mem s')
  | Panic e => e = ExplicitPanic
  end.
Proof.
  intros Hi Hl. unfold alloc_block. destruct (fixed_alloc_inv _ _ _ Hi Hl) as (p & h & -> & _ & Hi'). cbn [mbind outcome_bind].
  destruct (Z.eqb_spec p 0) as [|Hp]; [done|]. split_and!; try done. by apply (hm_alloc_keeps (S := heap)).
Qed.

Lemma free_block_ok p l s live : fixed_inv (t_heap s) ((p, l) :: live) -> layout_ok l ->
  exists s', free_block p l s = Ok s' /\ fixed_dealloc (t_heap s) p l = Ok (t_heap s') /\ fixed_inv (t_heap s') live /\
    keeps live (t_mem s) (t_mem s').
Proof.
  intros Hi Hl. unfold free_block. destruct (fixed_dealloc_inv _ _ _ _ Hi Hl) as (h & E & _ & Hi'). rewrite E. cbn [mbind outcome_bind].
  eexists. split; [done|]. split_and!; try done. by apply (hm_dealloc_keeps (S := heap)).
Qed.

Lemma load32_keeps p live m m' : keeps ((p, I32) :: live) m m' -> load32 m' p = load32 m p.
Proof.
  intros H. unfold load32. apply load_le_ext. intros i Hi. apply (H (p, I32)); [left|cbn in *; lia].
Qed.

Lemma box_i32_ok v s live : fixed_inv (t_heap s) live -> 0 <= v < 2 ^ 32 ->
  match box_i32 v s with
  | Ok (p, s') => fixed_inv (t_heap s') ((p, I32) :: live) /\ keeps live (t_mem s) (t_mem s') /\ load32 (t_mem s') p = v
  | Panic e => e = ExplicitPanic
  end.
Proof.
  intros Hi Hv. unfold box_i32. pose proof (alloc_block_ok I32 s live Hi I32_ok) as H.
  destruct (alloc_block I32 s) as [[p s']|]; [|done]. cbn [mbind outcome_bind]. destruct H as (Hp & _ & Hi' & Hk).
  split; [done|]. split.
  - eapply keeps_trans; [exact Hk|]. eapply (block_write_keeps (S := heap)); [exact Hi'|]. intros x Hx. by apply store32_other.
  - change (t_mem (write s' ?m)) with m. rewrite load32_store32. unfold as_u32. by apply Z.mod_small.
Qed.

Lemma simple_allocation_settled s live : fixed_inv (t_heap s) live -> settled live (t_mem s) (simple_allocation s).
Proof.
  intros Hi. unfold simple_allocation. pose proof (box_i32_ok 41 s live Hi ltac:(lia)) as H1.
  destruct (box_i32 41 s) as [[p1 s1]|]; [|done]. cbn [mbind outcome_bind]. destruct H1 as (Hi1 & Hk1 & Hv1).
  pose proof (box_i32_ok 13 s1 _ Hi1 ltac:(lia)) as H2.
  destruct (box_i32 13 s1) as [[p2 s2]|]; [|done]. cbn [mbind outcome_bind]. destruct H2 as (Hi2 & Hk2 & Hv2).
  rewrite (load32_keeps _ _ _ _ Hk2), Hv1, Hv2. cbn [assert_eq assert_ Z.eqb Pos.eqb mbind outcome_bind].
  destruct (free_block_ok _ _ _ _ Hi2 I32_ok) as (s3 & -> & _ & Hi3 & Hk3). cbn [mbind outcome_bind].
  destruct (free_block_ok _ _ _ _ Hi3 I32_ok) as (s4 & -> & _ & Hi4 & Hk4). split; [done|].
  apply keeps_tail in Hk2, Hk3. eauto using keeps_trans.
Qed.

(** One turn of the loops; the next turn will get the same block. *)
Lemma box_turn_ok i s live p h : fixed_inv (t_heap s) live -> is_u64 i ->
  fixed_alloc (t_heap s) USIZE = Ok (p, h) -> p <> 0 ->
  exists s', box_turn i s = Ok s' /\ fixed_inv (t_heap s') live /\ keeps live (t_mem s) (t_mem s') /\
    fixed_alloc (t_heap s') USIZE = Ok (p, h) /\ fixed_dealloc h p USIZE = Ok (t_heap s').
Proof.
  intros Hi Hu Ha Hp. unfold box_turn, box_usize. pose proof (alloc_block_ok USIZE s live Hi USIZE_ok) as H.
  destruct (alloc_block USIZE s) as [[q s1]|e] eqn:E; cbn [mbind outcome_bind].
  - destruct H as (_ & Ha' & Hi1 & Hk1). rewrite Ha in Ha'. injection Ha' as <- Eh. subst h.
    change (t_mem (write s1 ?m)) with m. rewrite load64_store64_eq, wrap64_small by done.
    unfold assert_eq. rewrite Z.eqb_refl. cbn [assert_ mbind outcome_bind]. set (s2 := write s1 _).
    destruct (free_block_ok p USIZE s2 live Hi1 USIZE_ok) as (s3 & -> & Hd & Hi3 & Hk3). exists s3. split; [done|].
    split; [done|]. split; [|split; [by eapply alloc_after_dealloc; [vm_compute; eauto|exact Hd]|done]].
    eapply keeps_trans; [exact Hk1|]. eapply keeps_trans; [|exact Hk3]. eapply (block_write_keeps (S := heap)); [exact Hi1|].
    intros x Hx. by apply store64_outside.
  - exfalso. unfold alloc_block in E. rewrite Ha in E. cbn [mbind outcome_bind] in E. by destruct (Z.eqb_spec p 0).
Qed.

(** Once one box has been had there is no limit to the number of turns; and a heap that
    is as the end of a turn leaves it stays so. *)
Lemma box_turns_ok n i s live p h : fixed_inv (t_heap s) live -> 0 <= i -> i + Z.of_nat n <= u64_max ->
  fixed_alloc (t_heap s) USIZE = Ok (p, h) -> p <> 0 ->
  exists s', box_turns n i s = Ok s' /\ fixed_inv (t_heap s') live /\ keeps live (t_mem s) (t_mem s') /\
    (fixed_dealloc h p USIZE = Ok (t_heap s) -> t_heap s' = t_heap s).
Proof.
  revert i s. induction n as [|n IH]; intros i s Hi H0 Hn Ha Hp; cbn [box_turns]; [by exists s|].
  destruct (box_turn_ok i s live p h Hi ltac:(unfold is_u64; lia) Ha Hp) as (s1 & -> & Hi1 & Hk1 & Ha1 & Hd1). cbn [mbind outcome_bind].
  destruct (IH (i + 1) s1 Hi1 ltac:(lia) ltac:(lia) Ha1 Hp) as (s2 & -> & Hi2 & Hk2 & Hd2). exists s2.
  split_and!; [done|done|by eapply keeps_trans|]. rewrite Hd1 in *. intros [= <-]. by apply Hd2.
Qed.

Lemma box_turns_settled n s live : fixed_inv (t_heap s) live -> Z.of_nat n <= u64_max ->
  settled live (t_mem s) (box_turns n 0 s).
Proof.
  intros Hi Hn. destruct (fixed_alloc_inv _ _ _ Hi USIZE_ok) as (p & h & E & _ & _). destruct (decide (p = 0)) as [->|Hp].
  - destruct n as [|n]; [by split|]. cbn [box_turns]. unfold box_turn, box_usize, alloc_block. by rewrite E.
  - by destruct (box_turns_ok n 0 s live p h Hi ltac:(lia) ltac:(lia) E Hp) as (s' & -> & ? & ? & _).
Qed.

Lemma turns_long_lived_settled n s live : fixed_inv (t_heap s) live -> Z.of_nat n <= u64_max ->
  settled live (t_mem s) (turns_long_lived n s).
Proof.
  intros Hi Hn. unfold turns_long_lived. pose proof (box_i32_ok 1 s live Hi ltac:(lia)) as H1.
  destruct (box_i32 1 s) as [[p s1]|]; [|done]. cbn [mbind outcome_bind]. destruct H1 as (Hi1 & Hk1 & Hv).
  pose proof (box_turns_settled n s1 _ Hi1 Hn) as H2.
  destruct (box_turns n 0 s1) as [s2|]; [|done]. cbn [mbind outcome_bind]. destruct H2 as (Hi2 & Hk2).
  rewrite (load32_keeps _ _ _ _ Hk2), Hv. cbn [assert_eq assert_ Z.eqb Pos.eqb mbind outcome_bind].
  destruct (free_block_ok _ _ _ _ Hi2 I32_ok) as (s3 & -> & _ & Hi3 & Hk3). split; [done|].
  apply keeps_tail in Hk2. eauto using keeps_trans.
Qed.

Lemma BOXES_small : Z.of_nat BOXES <= u64_max.
Proof. unfold BOXES. rewrite Z2Nat.id; vm_compute; congruence. Qed.

Definition vec_blocks (v : vec) : list (Z * Layout) := if v_cap v =? 0 then [] else [(v_ptr v, vec_layout (v_cap v))].

(** [v] holds [xs]. *)
Record vec_ok (live : list (Z * Layout)) (v : vec) (s : state) (xs : list Z) : Prop := {
  vo_inv : fixed_inv (t_heap s) (vec_blocks v ++ live);
  vo_len : v_len v = Z.of_nat (length xs);
  vo_cap : v_len v <= v_cap v <= 2 * Z.max (v_len v) 2;
  vo_at : forall i x, xs !! i = Some x -> load64 (t_mem s) (v_ptr v + 8 * Z.of_nat i) = x;
}.

Lemma vec_layout_ok cap : 1 <= cap <= 2 ^ 57 -> layout_ok (vec_layout cap).
Proof. intros H. split; [cbn; lia|]. exists 3. split; [lia|reflexivity]. Qed.

Lemma load64_agree_at m m' a a' : (forall i, 0 <= i < 8 -> m' (a' + i) = m (a + i)) -> load64 m' a' = load64 m a.
Proof.
  intros H. unfold load64. cbn [load_le]. pose proof (H 0 ltac:(lia)) as H0. rewrite !Z.add_0_r in H0. rewrite H0.
  rewrite <- !Z.add_assoc. cbn. by rewrite !H by lia.
Qed.

Lemma realloc_block_ok p l k s live : fixed_inv (t_heap s) ((p, l) :: live) -> layout_ok l -> 1 <= k <= 2 ^ 61 ->
  match realloc_block p l k s with
  | Ok (q, s') => q <> 0 -> fixed_inv (t_heap s') ((q, mk_layout k (align l)) :: live) /\
      (forall i, 0 <= i < Z.min (size l) k -> t_mem s' (q + i) = t_mem s (p + i)) /\ keeps live (t_mem s) (t_mem s')
  | Panic _ => False
  end.
Proof.
  intros Hi Hl Hk. destruct (realloc_layout_ok l k Hl Hk) as [Hl' Ef]. unfold realloc_block. rewrite Ef. set (l' := mk_layout k (align l)) in *.
  destruct (fixed_alloc_inv _ _ _ Hi Hl') as (q & h & -> & _ & Hi1). cbn [mbind outcome_bind].
  pose proof (hm_alloc_keeps (S := heap) (t_heap s) _ l' (t_mem s) Hi Hl') as Hk1. set (m1 := hm_alloc _ _ _) in *.
  destruct (Z.eqb_spec q 0) as [|Hq]; [done|]. change (t_mem (with_heap s h m1)) with m1.
  destruct (realloc_moves (HS := fixed_allocator) h live p l q l' m1 Hi1) as (Hk2 & _ & Hc2). cbn [size l'] in Hk2, Hc2.
  set (m2 := copy m1 p q _) in *. set (s2 := write (with_heap s h m1) m2).
  rewrite Permutation_swap in Hi1. destruct (free_block_ok p l s2 ((q, l') :: live) Hi1 Hl) as (s3 & -> & _ & Hi3 & Hk3).
  cbn [mbind outcome_bind]. intros _. change (t_mem s2) with m2 in Hk3. split; [exact Hi3|]. split.
  - intros i Hii. rewrite (Hk3 (q, l')); [|left|cbn; lia]. rewrite Hc2 by done. apply (Hk1 (p, l)); [left|cbn; lia].
  - apply keeps_tail in Hk1, Hk2, Hk3. eauto using keeps_trans.
Qed.

Lemma grow_one_ok live v s xs : vec_ok live v s xs -> v_len v = v_cap v -> v_len v < 2 ^ 55 ->
  match grow_one v s with
  | Ok (v', s') => vec_ok live v' s' xs /\ v_len v' < v_cap v' /\ keeps live (t_mem s) (t_mem s')
  | Panic e => e = ExplicitPanic
  end.
Proof.
  intros [Hi Hl Hc Hat] E Hs. unfold grow_one. set (cap := Z.max _ 4).
  assert (Hcap : v_len v < cap <= 2 * Z.max (v_len v) 2 /\ 4 <= cap <= 2 ^ 57) by lia.
  assert (from_size_align (8 * cap) 8 = Some (vec_layout cap)) as ->.
  { unfold from_size_align. cbn [is_pow2]. rewrite (proj2 (Z.leb_le _ _)); [done|]. unfold ISIZE_MAX. lia. }
  cbn [expect mbind outcome_bind]. unfold vec_blocks in Hi. destruct (Z.eqb_spec (v_cap v) 0) as [Ez|Ez].
  - pose proof (alloc_block_ok (vec_layout cap) s live Hi (vec_layout_ok cap ltac:(lia))) as H.
    destruct (alloc_block _ s) as [[p s']|]; [|done]. cbn [mbind outcome_bind]. destruct H as (_ & _ & Hi' & Hk).
    split; [|split; [cbn; lia|done]]. split; cbn [v_ptr v_cap v_len]; try lia.
    + unfold vec_blocks. cbn [v_ptr v_cap]. rewrite (proj2 (Z.eqb_neq _ _)) by lia. done.
    + intros i x Hx. apply lookup_lt_Some in Hx. lia.
  - pose proof (realloc_block_ok (v_ptr v) (vec_layout (v_cap v)) (8 * cap) s live Hi (vec_layout_ok (v_cap v) ltac:(lia)) ltac:(lia)) as H.
    destruct (realloc_block _ _ _ s) as [[p s']|]; [|done]. cbn [mbind outcome_bind].
    destruct (Z.eqb_spec p 0) as [|Hp]; [done|]. destruct (H Hp) as (Hi' & Hcopy & Hk). cbn [size vec_layout align] in Hi', Hcopy.
    split; [|split; [cbn; lia|done]]. split; cbn [v_ptr v_cap v_len]; try lia.
    + unfold vec_blocks. cbn [v_ptr v_cap]. rewrite (proj2 (Z.eqb_neq _ _)) by lia. done.
    + intros i x Hx. rewrite <- (Hat i x Hx). apply lookup_lt_Some in Hx. apply load64_agree_at. intros k Hk8.
      rewrite <- !Z.add_assoc. apply Hcopy. lia.
Qed.

Lemma store_in_vec live v s xs x : vec_ok live v s xs -> v_len v < v_cap v -> is_u64 x ->
  let m := store64 (t_mem s) (v_ptr v + 8 * v_len v) x in
  vec_ok live (mk_vec (v_ptr v) (v_cap v) (v_len v + 1)) (write s m) (xs ++ [x]) /\ keeps live (t_mem s) m.
Proof.
  intros [Hi Hl Hc Hat] Hlt Hx m. assert (Ez : (v_cap v =? 0) = false) by lia. split.
  - split; cbn [v_ptr v_cap v_len]; try lia.
    + unfold vec_blocks in *. by cbn [v_ptr v_cap].
    + rewrite length_app. cbn. lia.
    + change (t_mem (write s ?m)) with m. intros i y Hy. unfold m. apply lookup_app_Some in Hy as [Hy|[Hge Hy]].
      * rewrite load64_store64_ne; [by apply Hat|]. apply lookup_lt_Some in Hy. lia.
      * apply list_lookup_singleton_Some in Hy as [Hz <-]. rewrite load64_store64_at by lia. by apply wrap64_small.
  - unfold vec_blocks in Hi. rewrite Ez in Hi. eapply (block_write_keeps (S := heap)); [exact Hi|]. cbn [size vec_layout]. intros y Hy.
    apply store64_outside. lia.
Qed.

Lemma push_all_ok ys live v s xs : vec_ok live v s xs -> Forall is_u64 ys -> v_len v + Z.of_nat (length ys) < 2 ^ 55 ->
  match push_all ys v s with
  | Ok (v', s') => vec_ok live v' s' (xs ++ ys) /\ keeps live (t_mem s) (t_mem s')
  | Panic e => e = ExplicitPanic
  end.
Proof.
  revert v s xs. induction ys as [|y ys IH]; intros v s xs Hv Hu Hb; cbn [push_all]; [by rewrite app_nil_r|].
  apply Forall_cons in Hu as [Hy Hu]. cbn [length] in Hb. unfold push.
  assert (Hg : match (if v_len v =? v_cap v then grow_one v s else Ok (v, s)) with
    | Ok (v', s') => vec_ok live v' s' xs /\ v_len v' < v_cap v' /\ keeps live (t_mem s) (t_mem s')
    | Panic e => e = ExplicitPanic end).
  { destruct (Z.eqb_spec (v_len v) (v_cap v)) as [E|E]; [by apply grow_one_ok; [..|lia]|].
    split; [done|]. split; [destruct Hv; lia|apply keeps_refl]. }
  destruct (if v_len v =? v_cap v then _ else _) as [[v1 s1]|]; [|done]. cbn [mbind outcome_bind].
  destruct Hg as (Hv1 & Hlt & Hk1). destruct (store_in_vec live v1 s1 xs y Hv1 Hlt Hy) as [Hv2 Hk2].
  assert (Hlen : v_len v1 = v_len v) by (destruct Hv, Hv1; congruence).
  specialize (IH _ _ _ Hv2 Hu ltac:(cbn [v_len]; lia)). rewrite <- app_assoc in IH. cbn [app] in IH.
  destruct (push_all ys _ _) as [[v3 s3]|]; [|done]. destruct IH as [Hv3 Hk3]. split; [done|]. eauto using keeps_trans.
Qed.

Lemma vec_values_ok live v s xs : vec_ok live v s xs -> vec_values v s = xs.
Proof.
  intros [_ Hl _ Hat]. apply list_eq. intros i. unfold vec_values. rewrite list_lookup_fmap, Hl, Nat2Z.id.
  destruct (xs !! i) as [x|] eqn:E.
  - pose proof (lookup_lt_Some _ _ _ E). rewrite lookup_seq_lt by done. cbn. f_equal. by apply Hat.
  - apply lookup_ge_None in E. by rewrite lookup_seq_ge.
Qed.

Lemma vec_drop_ok live v s xs : vec_ok live v s xs -> v_len v < 2 ^ 55 ->
  exists s', vec_drop v s = Ok s' /\ fixed_inv (t_heap s') live /\ keeps live (t_mem s) (t_mem s').
Proof.
  intros [Hi Hl Hc _] Hb. unfold vec_drop, vec_blocks in *. destruct (Z.eqb_spec (v_cap v) 0); [by exists s|].
  destruct (free_block_ok _ _ _ _ Hi (vec_layout_ok (v_cap v) ltac:(lia))) as (s' & -> & _ & Hi' & Hk). by exists s'.
Qed.

(** The first thousand numbers. *)
Definition thousand : list Z := Z.of_nat <$> seq 0 1000.

Lemma thousand_sum : sum_u64 thousand = Ok 499500.
Proof. vm_compute. reflexivity. Qed.

Lemma large_vec_cases s live : fixed_inv (t_heap s) live ->
  large_vec s = ('(v, s) ← push_all thousand vec_new s; vec_drop v s) /\ settled live (t_mem s) (large_vec s).
Proof.
  intros Hi. unfold large_vec. change (Z.of_nat <$> seq 0 (Z.to_nat 1000)) with thousand.
  assert (Hnew : vec_ok live vec_new s []) by (by split).
  assert (Hu : Forall is_u64 thousand).
  { unfold thousand. apply Forall_fmap, Forall_forall. intros x Hx%elem_of_seq. unfold is_u64, u64_max, u64_mod. cbn. lia. }
  assert (Hlen : v_len vec_new + Z.of_nat (length thousand) < 2 ^ 55) by (unfold thousand; rewrite length_fmap, length_seq; cbn; lia).
  pose proof (push_all_ok thousand live vec_new s [] Hnew Hu Hlen) as H. cbn [app] in H.
  destruct (push_all thousand vec_new s) as [[v s1]|]; [|done]. cbn [mbind outcome_bind]. destruct H as [Hv Hk].
  rewrite (vec_values_ok _ _ _ _ Hv), thousand_sum.
  assert (Hb : v_len v < 2 ^ 55) by (rewrite (vo_len _ _ _ _ Hv); unfold thousand; rewrite length_fmap, length_seq; lia).
  destruct (vec_drop_ok _ _ _ _ Hv Hb) as (s2 & -> & Hi2 & Hk2).
  split; [reflexivity|]. split; [done|]. by eapply keeps_trans.
Qed.

Lemma turns_long_lived_ok n s live q h1 p h : fixed_inv (t_heap s) live -> Z.of_nat n <= u64_max ->
  fixed_alloc (t_heap s) I32 = Ok (q, h1) -> q <> 0 -> fixed_alloc h1 USIZE = Ok (p, h) -> p <> 0 ->
  is_ok (turns_long_lived n s) = true.
Proof.
  intros Hi Hn E1 Hq E2 Hp. pose proof (turns_long_lived_settled n s live Hi Hn) as Hs. revert Hs.
  unfold turns_long_lived. pose proof (box_i32_ok 1 s live Hi ltac:(lia)) as H1.
  assert (exists s1, box_i32 1 s = Ok (q, s1) /\ t_heap s1 = h1) as (s1 & E & Eh).
  { unfold box_i32, alloc_block. rewrite E1. cbn [mbind outcome_bind]. destruct (Z.eqb_spec q 0); [done|]. by eexists. }
  rewrite E in H1 |- *. cbn [mbind outcome_bind]. destruct H1 as (Hi1 & Hk1 & Hv). subst h1.
  destruct (box_turns_ok n 0 s1 _ p h Hi1 ltac:(lia) ltac:(lia) E2 Hp) as (s2 & -> & Hi2 & Hk2 & _). cbn [mbind outcome_bind].
  rewrite (load32_keeps _ _ _ _ Hk2), Hv. cbn [assert_eq assert_ Z.eqb Pos.eqb mbind outcome_bind].
  by destruct (free_block_ok _ _ _ _ Hi2 I32_ok) as (s3 & -> & _).
Qed.

(** The four tests of tests/heap_allocation.rs on any heap: none of their assertions
    fails; they give back all they took, and leave the blocks of others alone; they can
    only die because the heap is exhausted. *)
Theorem heap_tests_settle s live : fixed_inv (t_heap s) live ->
  settled live (t_mem s) (simple_allocation s) /\ settled live (t_mem s) (large_vec s) /\
  settled live (t_mem s) (many_boxes s) /\ settled live (t_mem s) (many_boxes_long_lived s).
Proof.
  intros Hi. split; [by apply simple_allocation_settled|]. split; [by apply large_vec_cases|].
  split; [exact (box_turns_settled BOXES s live Hi BOXES_small)|exact (turns_long_lived_settled BOXES s live Hi BOXES_small)].
Qed.

Definition heap_allocation : list (test (A := state)) := [
  (str "heap_allocation::simple_allocation", simple_allocation);
  (str "heap_allocation::large_vec", large_vec);
  (str "heap_allocation::many_boxes", many_boxes);
  (str "heap_allocation::many_boxes_long_lived", many_boxes_long_lived)].

Lemma heap_suite_settles s live : fixed_inv (t_heap s) live ->
  Forall (fun t => settled live (t_mem s) (snd t s)) heap_allocation.
Proof.
  intros Hi. destruct (heap_tests_settle s live Hi) as (H1 & H2 & H3 & H4). unfold heap_allocation.
  rewrite !Forall_cons. cbn [snd]. split; [exact H1|]. split; [exact H2|]. split; [exact H3|]. split; [exact H4|]. apply Forall_nil_2.
Qed.

End HeapTests.

(** ** The small kernels *)

(** *** tests/basic_boot.rs: its tests run before anything is set up. *)

Definition test_println {S} (s : tstate (S := S)) : outcome (tstate (S := S)) :=
  sys ← print (t_sys s) (str "test_println output" ++ [10]); Ok (with_tsys s sys).

Definition basic_boot {S} : list (test (A := tstate (S := S))) := [(str "basic_boot::test_println", test_println)].

(** *** tests/should_panic.rs: its panic handler reports success. *)

Definition should_fail : outcome unit := assert_eq 0 1.

Definition should_panic (r : run_state (A := unit)) : run_state (A := unit) :=
  let exit r c := mk_run (r_serial r) (exit_qemu (r_ports r) c) (r_state r) in
  let r := say r (str "should_panic::should_fail..." ++ [9]) in
  match should_fail with
  | Panic _ => exit (say r (str "[ok]" ++ [10])) QemuSuccess
  | Ok _ => exit (say r (str "[test did not panic]" ++ [10])) QemuFailed
  end.

(** *** tests/uptime.rs *)

Definition MAX_ITERATIONS : Z := 10000000.

(** The loop; [wakes] says for each interrupt that ends a halt whether it is the timer's.
    The answer is whether the clock moved; there is none while the processor halts. *)
Fixpoint uptime_loop (wakes : list bool) (t0 ticks iterations : Z) : option bool :=
  if iterations <? MAX_ITERATIONS then
    match wakes with
    | [] => None
    | timer :: wakes =>
        let t1 := if timer : bool then wrap64 (ticks + 1) else ticks in
        if t0 <? t1 then Some true else uptime_loop wakes t0 t1 (iterations + 1)
    end
  else Some false.

(** From the enabling of interrupts on; [t0] is what the clock shows then. *)
Definition uptime_main (fmt_info : panic -> list Z) (wakes : list bool) (t0 : Z) (r : run_state (A := unit))
    : option (run_state (A := unit)) :=
  let r := say r (str "uptime::test_uptime_increments..." ++ [9]) in
  let r := say r (str "Initial uptime: " ++ fmt_dec t0 ++ [10]) in
  match uptime_loop wakes t0 t0 0 with
  | None => None
  | Some true => let r := say r (str "[ok]" ++ [10]) in Some (mk_run (r_serial r) (exit_qemu (r_ports r) QemuSuccess) (r_state r))
  | Some false => Some (test_panic_handler fmt_info r ExplicitPanic)
  end.

Lemma uptime_loop_skips n wakes t0 i : 0 <= i -> i + Z.of_nat n <= MAX_ITERATIONS ->
  uptime_loop (replicate n false ++ wakes) t0 t0 i = uptime_loop wakes t0 t0 (i + Z.of_nat n).
Proof.
  revert i. induction n as [|n IH]; intros i Hi Hn; [cbn; f_equal; lia|]. cbn [replicate app uptime_loop].
  rewrite (proj2 (Z.ltb_lt _ _)) by lia. rewrite Z.ltb_irrefl, IH by lia. f_equal. lia.
Qed.

(** The first timer interrupt is the end of the test, if it is among the first ten
    million interrupts. *)
Lemma uptime_passes n wakes t0 : 0 <= t0 < u64_max -> Z.of_nat n < MAX_ITERATIONS ->
  uptime_loop (replicate n false ++ true :: wakes) t0 t0 0 = Some true.
Proof.
  intros Ht Hn. rewrite uptime_loop_skips by lia. cbn [uptime_loop]. rewrite (proj2 (Z.ltb_lt _ _)) by lia.
  rewrite wrap64_small by (unfold is_u64; lia). by rewrite (proj2 (Z.ltb_lt _ _)) by lia.
Qed.

Lemma uptime_fails n t0 : MAX_ITERATIONS <= Z.of_nat n -> uptime_loop (replicate n false) t0 t0 0 = Some false.
Proof.
  intros Hn. assert (Hm : 0 <= MAX_ITERATIONS) by (unfold MAX_ITERATIONS; lia).
  replace n with (Z.to_nat MAX_ITERATIONS + (n - Z.to_nat MAX_ITERATIONS))%nat by lia.
  rewrite replicate_add, uptime_loop_skips by lia. rewrite Z2Nat.id, Z.add_0_l by done.
  destruct (replicate _ _); cbn [uptime_loop]; by rewrite Z.ltb_irrefl.
Qed.

(** ** The verdicts *)

#[local] Existing Instance BlockMemDemo.size_first.

Module IntegrationDemo.

Abbreviation kernel_heap := (FixedSizeBlockAllocator (S := list_heap)).

Definition pass (ts : list (test (A := tstate (S := kernel_heap)))) : bool := is_ok (run_bodies ts SuiteDemo.state0).

Lemma pass_verdict fmt_info ts : pass ts = true ->
  r_ports (test_runner fmt_info ts SuiteDemo.state0) = [(0xf4, exit_code_as_u32 QemuSuccess)].
Proof. unfold pass. intros H. by rewrite runner_verdict, H. Qed.

Lemma scheduler_tests_pass :
  pass (scheduler_eevdf SuiteDemo.heap_mem 0x9000) && pass (scheduler_round_robin SuiteDemo.heap_mem 0x9000) &&
  pass (sync SuiteDemo.heap_mem 0x9000) && pass (threading SuiteDemo.heap_mem 0x9000) = true.
Proof. vm_compute. reflexivity. Qed.

Lemma heap0_inv : fixed_inv SuiteDemo.heap0 [].
Proof.
  destruct (list_init_inv HEAP_START HEAP_SIZE) as (a & E & Hi); [done|done|vm_compute; congruence..|].
  injection E as <-. split; [done|done|exact Hi].
Qed.

Definition heap_after (r : outcome (tstate (S := kernel_heap))) : option kernel_heap :=
  match r with Ok s => Some (t_heap s) | Panic _ => None end.

(** The heap after the first two tests. *)
Lemma two_tests : exists h,
  heap_after (s ← simple_allocation SuiteDemo.state0; '(v, s) ← push_all thousand vec_new s; vec_drop v s) = Some h /\
  exists p h1 p' h2, fixed_alloc h USIZE = Ok (p, h1) /\ p <> 0 /\ fixed_dealloc h1 p USIZE = Ok h /\
    fixed_alloc h I32 = Ok (p, h1) /\ fixed_alloc h1 USIZE = Ok (p', h2) /\ p' <> 0.
Proof. eexists. split; [vm_compute; reflexivity|]. do 4 eexists. split_and!; (reflexivity || discriminate). Qed.

(** The suite, with [n] turns in its loops. *)
Lemma heap_bodies_ok n : Z.of_nat n <= u64_max ->
  is_ok (s ← simple_allocation SuiteDemo.state0; s ← large_vec s; s ← box_turns n 0 s;
         s ← turns_long_lived n s; Ok s) = true.
Proof.
  intros Hn. destruct two_tests as (h & E & p & h1 & p' & h2 & Ha & Hp & Hd & Hl & Ha' & Hp').
  pose proof (simple_allocation_settled  SuiteDemo.state0 [] heap0_inv) as H1.
  destruct (simple_allocation SuiteDemo.state0) as [s1|]; [|done]. cbn [mbind outcome_bind] in E |- *. destruct H1 as [Hi1 _].
  destruct (large_vec_cases  s1 [] Hi1) as [EL H2]. rewrite <- EL in E.
  destruct (large_vec s1) as [s2|]; [|done]. cbn [mbind outcome_bind]. destruct H2 as [Hi2 _]. injection E as E. subst h.
  destruct (box_turns_ok  n 0 s2 [] p h1 Hi2 ltac:(lia) ltac:(lia) Ha Hp) as (s3 & -> & Hi3 & _ & Hsame).
  cbn [mbind outcome_bind]. specialize (Hsame Hd). rewrite <- Hsame in Hl.
  pose proof (turns_long_lived_ok  n s3 [] p h1 p' h2 Hi3 Hn Hl Hp Ha' Hp') as Hok.
  by destruct (turns_long_lived n s3).
Qed.

Lemma heap_tests_pass : pass heap_allocation = true.
Proof. exact (heap_bodies_ok BOXES BOXES_small). Qed.

End IntegrationDemo.


