(* ===== verification/Build.v ===== *)
(** * The build script (build.rs)

    Which C files of the Doom sources are compiled into the kernel, and with which
    options.  The directory listing and the environment are arguments; running the
    compiler is the cc crate's part, so the script ends in the job it is given. *)

From S2P Require Import Prelude Fmt Fs.

Definition EXCLUDE : list bytes := [
  str "doomgeneric_allegro.c"; str "doomgeneric_emscripten.c"; str "doomgeneric_linuxvt.c"; str "doomgeneric_sdl.c";
  str "doomgeneric_soso.c"; str "doomgeneric_sosox.c"; str "doomgeneric_win.c"; str "doomgeneric_xlib.c";
  str "i_sound.c"; str "i_system.c"; str "i_sdlsound.c"; str "i_sdlmusic.c"; str "i_allegromusic.c"; str "i_allegrosound.c"].

(** ** Paths *)

(** The bytes before and after the last dot. *)
Fixpoint rsplit_dot (name : bytes) : option (bytes * bytes) :=
  match name with
  | [] => None
  | b :: rest =>
      match rsplit_dot rest with
      | Some (before, after) => Some (b :: before, after)
      | None => if b =? 46 then Some ([], rest) else None
      end
  end.

(** [Path::extension] of a file name: none for [..] and for a name whose only dot is the
    first byte. *)
Definition extension (name : bytes) : option bytes :=
  if bool_decide (name = str "..") then None else
  match rsplit_dot name with
  | Some ([], _) | None => None
  | Some (_, after) => Some after
  end.

Definition join_path (dir name : bytes) : bytes := dir ++ [47] ++ name.

(** ** The job for the C compiler *)

Record cc_build := mk_cc {
  cc_files : list bytes;
  cc_include : bytes;
  cc_flags : list bytes;
  cc_defines : list (bytes * option bytes);
  cc_opt_level : Z;
  cc_warnings : bool;
  cc_output : bytes;
}.

Definition doom_src : bytes := str "vendor/doomgeneric/doomgeneric".

(** The closure of [filter]; [to_str().unwrap()] panics on a name that is not UTF-8. *)
Definition wanted (name : bytes) : outcome bool :=
  if bool_decide (extension name = Some (str "c")) then
    if utf8_valid name then Ok (bool_decide (name ∉ EXCLUDE)) else Panic ExpectFailed
  else Ok false.

Fixpoint select (names : list bytes) : outcome (list bytes) :=
  match names with
  | [] => Ok []
  | name :: names =>
      keep ← wanted name;
      rest ← select names;
      Ok (match keep with true => join_path doom_src name :: rest | false => rest end)
  end.

(** [entries] is what [read_dir] yields: no directory, or its entries, of which some may
    be errors; [CARGO_FEATURE_DOOM] whether that variable is set.  The second component
    are the lines printed for cargo. *)
Definition main (CARGO_FEATURE_DOOM : bool) (entries : option (list (option bytes)))
    : outcome (option cc_build * list bytes) :=
  if negb CARGO_FEATURE_DOOM then Ok (None, []) else
  dir ← expect entries;
  sources ← select (omap id dir);
  let job := mk_cc (str "src/ffi/stubs.c" :: sources) doom_src
    [str "-ffreestanding"; str "-fno-stack-protector"; str "-mno-red-zone"; str "-fno-pic"; str "-fno-builtin";
     str "-nostdlib"; str "-m64"]
    [(str "_FORTIFY_SOURCE", Some (str "0")); (str "DOOMGENERIC_RESX", Some (str "320"));
     (str "DOOMGENERIC_RESY", Some (str "200")); (str "CMAP256", None)]
    1 false (str "doom") in
  Ok (Some job, [str "cargo:rerun-if-changed=vendor/doomgeneric/doomgeneric"; str "cargo:rerun-if-changed=build.rs";
                 str "cargo:rerun-if-changed=src/ffi/stubs.c"]).

(** ** What is compiled *)

Lemma rsplit_dot_spec name before after : rsplit_dot name = Some (before, after) <->
  name = before ++ [46] ++ after /\ 46 ∉ after.
Proof.
  revert before. assert (Hno : forall l, rsplit_dot l = None <-> 46 ∉ l).
  { induction l as [|b l IH]; cbn; [split; [intros _ H; by apply elem_of_nil in H|done]|].
    rewrite not_elem_of_cons, <- IH. destruct (rsplit_dot l) as [[x y]|]; [split; [done|by intros [_ ?]]|].
    destruct (Z.eqb_spec b 46); split; try done; by intros [? _]. }
  induction name as [|b name IH]; intros before; cbn.
  { split; [done|]. intros [H _]. by destruct before. }
  destruct (rsplit_dot name) as [[x y]|] eqn:E.
  - split.
    + intros [= <- <-]. destruct (proj1 (IH x) eq_refl) as [-> Hy]. done.
    + intros [Heq Hna]. destruct before as [|b' before]; cbn in Heq; injection Heq as -> ->.
      * apply Hno in Hna. congruence.
      * pose proof (proj2 (IH before) (conj eq_refl Hna)) as H. by injection H as -> ->.
  - split.
    + destruct (Z.eqb_spec b 46) as [->|]; intros [= <- <-]. split; [done|]. by apply Hno.
    + intros [Heq Hna]. destruct before as [|b' before]; cbn in Heq; injection Heq as -> ->; [done|].
      exfalso. apply Hno in E. apply E. rewrite !elem_of_app, elem_of_cons. tauto.
Qed.

(** The names with the extension [c] are a nonempty stem followed by [.c]. *)
Lemma extension_c name : extension name = Some (str "c") <-> exists stem, stem <> [] /\ name = stem ++ str ".c".
Proof.
  change (str ".c") with ([46] ++ str "c"). unfold extension. split.
  - case_bool_decide; [done|]. destruct (rsplit_dot name) as [[before after]|] eqn:E; [|done].
    destruct before as [|b before]; [done|]. intros [= ->]. apply rsplit_dot_spec in E as [-> _]. by exists (b :: before).
  - intros (stem & Hne & ->). rewrite bool_decide_eq_false_2.
    + rewrite (proj2 (rsplit_dot_spec _ stem (str "c"))); [by destruct stem|]. split; [done|].
      cbn. rewrite list_elem_of_singleton. done.
    + intros H. apply (f_equal (fun l => last l)) in H. rewrite app_assoc, last_app in H. done.
Qed.

Definition is_c_file (name : bytes) : Prop := exists stem, stem <> [] /\ name = stem ++ str ".c".

Lemma wanted_spec name : wanted name =
  if decide (extension name = Some (str "c"))
  then if utf8_valid name then Ok (bool_decide (name ∉ EXCLUDE)) else Panic ExpectFailed
  else Ok false.
Proof. unfold wanted. case_decide; [by rewrite bool_decide_eq_true_2|by rewrite bool_decide_eq_false_2]. Qed.

Lemma select_spec names :
  match select names with
  | Ok sources => (forall name, name ∈ names -> is_c_file name -> utf8_valid name = true) /\
      forall p, p ∈ sources <-> exists name, p = join_path doom_src name /\ name ∈ names /\ is_c_file name /\ name ∉ EXCLUDE
  | Panic e => e = ExpectFailed /\ exists name, name ∈ names /\ is_c_file name /\ utf8_valid name = false
  end.
Proof.
  induction names as [|name names IH]; cbn [select].
  { split; [intros name H; by apply elem_of_nil in H|]. intros p. split; [intros H; by apply elem_of_nil in H|].
    intros (name & _ & H & _). by apply elem_of_nil in H. }
  rewrite wanted_spec. pose proof (extension_c name) as Hx. fold (is_c_file name) in Hx.
  destruct (decide (extension name = Some (str "c"))) as [Hc|Hc]; [destruct (utf8_valid name) eqn:Hu|].
  2: { cbn [mbind outcome_bind]. split; [done|]. exists name. rewrite elem_of_cons. tauto. }
  all: cbn [mbind outcome_bind]; destruct (select names) as [rest|e]; cbn [mbind outcome_bind];
    [|destruct IH as (-> & n & Hn & ?); split; [done|]; exists n; rewrite elem_of_cons; tauto].
  all: destruct IH as [Hv Hin]; split; [intros n; rewrite elem_of_cons; intros [->|Hn] Hcn; [tauto|auto]|]; intros p.
  - destruct (bool_decide_reflect (name ∉ EXCLUDE)) as [He|He].
    + rewrite elem_of_cons, Hin. split.
      * intros [->|(n & -> & Hn & Hr)]; [exists name|exists n]; (split; [done|]); (split; [apply elem_of_cons; auto|]); tauto.
      * intros (n & -> & [->|Hn]%elem_of_cons & Hr); [by left|right; by exists n].
    + rewrite Hin. split.
      * intros (n & -> & Hn & Hr). exists n. split; [done|]. split; [apply elem_of_cons; auto|done].
      * intros (n & -> & [->|Hn]%elem_of_cons & Hr); [tauto|by exists n].
  - rewrite Hin. split.
    + intros (n & -> & Hn & Hr). exists n. split; [done|]. split; [apply elem_of_cons; auto|done].
    + intros (n & -> & [->|Hn]%elem_of_cons & Hr); [tauto|by exists n].
Qed.


Lemma build_demo : main true (Some [Some (str "i_sound.c"); None; Some (str "d_main.c"); Some (str "README.md"); Some (str ".c")]) =
  Ok (Some (mk_cc [str "src/ffi/stubs.c"; str "vendor/doomgeneric/doomgeneric/d_main.c"] doom_src
    [str "-ffreestanding"; str "-fno-stack-protector"; str "-mno-red-zone"; str "-fno-pic"; str "-fno-builtin"; str "-nostdlib"; str "-m64"]
    [(str "_FORTIFY_SOURCE", Some (str "0")); (str "DOOMGENERIC_RESX", Some (str "320")); (str "DOOMGENERIC_RESY", Some (str "200"));
     (str "CMAP256", None)] 1 false (str "doom")),
    [str "cargo:rerun-if-changed=vendor/doomgeneric/doomgeneric"; str "cargo:rerun-if-changed=build.rs"; str "cargo:rerun-if-changed=src/ffi/stubs.c"]).
Proof. vm_compute. reflexivity. Qed.
